(* ===== verification/_CoqProject ===== *)
-Q . S2P
Prelude.v
GoLib.v
Sha256.v
Threads.v
Ws_Ticket.v
Ratelimit.v
Groups_Invite.v
Catalog.v
Chat_Emoji.v
Versioned.v
Revoke.v
Db.v
Types.v
Queue.v
Ws_Hub.v
Users_Model.v
Groups_Model.v
Sql_Groups.v
Friends_Model.v
Sql_Friends.v
Chat_Dedupe.v
World.v
Moves.v
Secure.v
Groups_Repo.v
Groups_Refine.v
Demo.v
Groups_Props.v
Groups_Service.v
Groups_Service_Props.v
Friends_Service.v
Friends_Props.v
Sql_Chat.v
Sql_Users.v
Sql_Accounts.v
Sql_Media.v
Sql_Push.v
Sql_Admin.v
Sql_Search.v
Users_Repo.v
Users_Service.v
Users_Props.v
Push.v
Presence.v
Sessions.v
Auth_Session.v
Auth_Accounts.v
Auth_Rules.v
Auth_Deletion.v
Demo_Auth.v
Sql_Calls.v
Calls.v
Calls_Props.v
Calls_Theorems.v
Demo_Calls.v
Chat_Model.v
Media.v
Media_Rules.v
Chat_Repo.v
Chat_Service.v
Remote.v
Reports.v
Admin.v
Http.v
Chat_Access.v
Admin_Props.v
Chat_Invariant.v
Chat_Pages.v
Search.v
Wiring.v
Handlers.v
App.v
Push_Props.v
Ws_Client.v
Presence_Props.v
Chat_Reactions.v
Chat_Markers.v
Chat_History.v
Demo_Chat.v
Demo_Live.v
