(* ===== verification/Prelude.v ===== *)
(** * Chirpy: a verification development of the chat backend

    The program (Go, under src/) is the backend of a terminal chat: accounts and
    sessions, friends, private and group chats with media, calls, presence, push
    notifications, reports and bans, over REST and WebSocket, with PostgreSQL for the
    data, Redis for caches and queues, and a bucket for files.  A request reaches a
    handler, which calls a service (internal/users, auth, groups, friends, chat, media,
    calls, ...); the service calls its repository, which runs SQL statements
    (internal/database, generated from src/sql), reads through caches
    (internal/platform/redisx), and tells others through the websocket hub, the
    notifier and the queue.  Before the handler stand the checks of who is asking and the
    limits (internal/platform/httpx, ratelimit, app/routes.go).

    ** How the code is modelled

    A service operation is a function of the same name in the state and error
    monad [M World] (this file and World): the state holds the tables ([DB]), the
    caches, the table of recent sends, the revocations, the bucket, the clock, the
    fresh ids and random bytes to come, the log of what was pushed, notified, mailed
    and queued, and the failures to come.  Errors are Go's sentinel errors and
    PostgreSQL's codes.  Every call to PostgreSQL, Redis, the bucket, the hub or the
    queue goes through [io] and may fail ([w_faults]); a theorem that does not speak of
    [w_faults] holds whatever fails.  A transaction ([BeginFunc]) is rolled back when it
    fails.  A statement is a function on [DB], with the constraint it would break as its
    error.

    A handler is a program that may answer early ([Handling], in Http) around the services; a
    server is the world with its limiters and socket tickets, and serving a request to a
    route ([serve], in App) runs the middleware and the handler as chi composes them.

    Requests run one at a time except where interleaving is the point.  There the code is
    cut at its locks and calls into atomic pieces (Threads: [prog], [atomically]) or into
    a step relation, and a theorem holds of every interleaving: the readers and writers
    of a cached value (Versioned), the sends with one client id (Chat_Dedupe), lookups
    and revocations on several servers (Revoke), call handlers and timers (Calls), the
    goroutines of the hub (Ws_Hub), presence notices and graces (Presence), the workers
    of the queues (Queue).  Several lemmas show races between two requests as they are.

    What the code imports from elsewhere is a parameter, a class with the laws relied on:
    uuids ([UuidLib], [UuidLaws]), the database's collation, ILIKE and lower
    ([Collation], [LowerCollation], [PgText]), time.Parse and Format ([TimeParse],
    [TimeFormat]), strings.ToLower ([GoLower]), net/mail ([MailParse]), Argon2 and JWT
    ([Argon], [JwtLib]), Google's tokens ([IdToken]), image codecs ([ImageLib]),
    encoding/json ([EventJson], [ClientJson], [CallJson]), the signing of links
    ([MediaConfig]), FCM ([PushSender]), LIKE and trigrams ([PgSearch]), package net
    ([NetLib]), the decoding of bodies ([Decoders]), Cloudflare's answer ([TurnClient]).  Interfaces
    between components are classes too, with the laws a client needs, and Wiring,
    Sessions and Push give the instances app/app.go wires:
    GroupMembership, FriendChecker, MediaStore, CallFriends, HubOnline, PushNames,
    EventPolicy.  HMAC-SHA256, base64 and UTF-8 are written out (Sha256, Ws_Ticket, GoLib).

    ** The files

    - Prelude, GoLib, Sha256, Threads, Db, Types, World, Moves: the monad, strings and
      UTF-8 as Go has them, threads, the tables (database/models.go), what components
      exchange (ws/events.go, push/push.go, media/media.go), the state with its logic,
      and what parts of it an operation leaves alone.
    - Groups_Invite (groups/invite.go), Catalog (catalog/catalog.go), Chat_Emoji
      (chat/emoji.go), Versioned (platform/redisx/versioned.go), Revoke
      (platform/revoke), Secure (platform/secure), Chat_Dedupe (chat/dedupe.go),
      Ws_Ticket (ws/ticket.go), Ratelimit (platform/ratelimit/memory.go), Queue
      (platform/queue): parts that stand alone, each with its theorems.
    - Sql_Groups, Sql_Friends, Sql_Chat, Sql_Users, Sql_Accounts, Sql_Calls, Sql_Media,
      Sql_Push, Sql_Admin, Sql_Search: the statements of internal/database, with the constraints of
      src/sql/schema.
    - Groups_Model, Groups_Repo, Groups_Service: groups/model.go, repo.go, service.go.
      Groups_Refine has the contract of the membership transactions on an abstract group
      and proves the transactions refine it, Groups_Props and Groups_Service_Props hold
      the theorems.
    - Friends_Model, Friends_Service, Friends_Props: internal/friends.
    - Users_Model, Users_Repo, Users_Service, Users_Props: internal/users.
    - Sessions (app/cleanup.go, the authentication of requests), Auth_Session
      (auth_service.go), Auth_Accounts (accounts.go, google.go); Auth_Rules and
      Auth_Deletion hold the theorems.
    - Chat_Model, Chat_Repo, Chat_Service: chat/model.go, repo.go and cache.go,
      service.go.  Chat_Access, Chat_Invariant, Chat_Pages, Chat_Reactions, Chat_Markers
      and Chat_History hold the theorems.
    - Calls (calls/calls.go), with Calls_Props and Calls_Theorems.
    - Ws_Hub (ws/hub.go, serve.go), Ws_Client (ws/client.go), Presence
      (presence/presence.go) with Presence_Props.
    - Media (internal/media) with Media_Rules.
    - Remote: the services called over HTTP, the bucket and its signed links (media/r2.go),
      Firebase (push/fcm.go) and the mail provider (platform/mail).
    - Push (internal/push) with Push_Props; Reports (internal/reports); Admin
      (internal/admin) with Admin_Props.
    - Search (internal/search, internal/discover, and the searches of groups and people).
    - Wiring: the chat on the real groups, friends and media.
    - Http (platform/httpx, reqctx, ratelimit/middleware.go, app/wsauth.go and the admins'
      Authenticate): requests, answers, middleware.  Handlers: every handler of every
      handler.go, of search, discover, presence and reports, and of the app itself.  App:
      the configuration (config/config.go), who is given to whom (app/app.go), the routes
      (app/routes.go), the janitor (app/janitor.go), with the theorems on whole requests.
    - Demo and the other Demo files: a small database and the theorems at concrete
      requests, and the races found.

    A definition has the name it has in the code; where a service and its repository
    or a statement have the same name, the outer one ends in an underscore.

    ** What is proved

    - Groups: every membership transaction refines its contract on every branch; in
      every reachable database each group has one admin, a right count and at most its
      capacity; the cached view never goes stale (when no call fails), so that a
      removed member is refused at once; who may do and see what; who inherits a
      group.
    - Friends: one row per pair and none across a block, whatever requests are served;
      friendship needs both; blocks cut both ways; the cached lists agree with the
      tables.
    - Accounts: every session was earned by a password, a code, a refresh token or
      Google; a code is guessed at most five times; a refresh token works once; what
      signs out everywhere (a change of password or address, a reset, the request itself)
      ends every session, and no access token made before is accepted by a lookup that
      begins once RevokeAll has returned, on other servers after five seconds, except in
      the races [revocation_is_final] names; a change of profile keeps the constraints;
      deleting an account is the departure of its member from every group, and leaves no
      row that refers to it.
    - Chat: a message is stored only from someone who may write there, and, through
      the caches, only between friends or from a member; texts, replies and reactions
      stay well formed; who is not to read a message learns nothing of it; who edits
      and deletes what; what pages show and hide, and that scrolling back shows
      everything once; repeated and concurrent sends of one client id send once;
      reactions and their counts; read markers only move forward, in whatever order
      receipts arrive.
    - Calls: one call per user, every call ends, signals go between the two devices only,
      within the daily limit.
    - Sockets: a ticket works once; the hub never panics and keeps its tables well
      formed; an event reaches every device of its targets; what clients send is policed
      and throttled; presence is mutual and settles.
    - Search: a page of results is the newest of what matches and the reader may read, and
      passes something over only when more than five newer matches are hidden; suggestions
      are wanted on both sides.
    - Requests: no route but the public ones runs its handler for anyone but a user whose
      session, ticket or admin token was checked; GET requests change nothing, but on three
      kinds of route that are named; no answer tells anything internal; the address limits
      go by cannot be forged.
    - Media: who may upload how much, attach and download; what the janitor removes, when it
      is due and when room is short; a
      signed link is good for one object, type, size and time only.
    - Notifications reach exactly those they are for; a ban takes effect everywhere; a
      report says what the reporter saw; no job is lost, unless another one with its topic
      and payload takes its place among the retries, and none is tried for ever; the rate
      limit holds.
    - Caches: the versioned cache never serves a replaced value while its counter
      lives, and can once the counter is lost.
    - Texts: invite codes round-trip; the emoji check accepts its documented grammar, and
      exactly a wider one.

    ** Bounds

    smallint counters wrap at 16 bits ([wrap16]), int32 conversions at 32; counts of rows
    and Go's 64-bit ints are not narrowed, being bounded by the number of rows.  Times are
    nanoseconds, cut to microseconds where they are stored ([pgTime]) and to milliseconds
    in tokens and tickets.  Fuel: decoding UTF-8 has one step per byte and uses at least
    one byte per step; [scroll] has one step per page, and [pages_tile_history] says how
    many suffice.  ORDER BY leaves rows with equal keys in the order of the map; no theorem
    depends on it.

    ** Not modelled

    How chi matches a path to a route, the pages under /admin, encoding/json, the handshake
    and the network ends of the websocket connections, expiry of cached keys, the Redis rate limiter (a Lua
    script on floating point numbers), the HTTP client under the requests to other services
    and all of the request to the TURN service, log lines, metrics and migrations, and the
    start-up of the process, its .env files and its command-line tools: they are input
    and output, or languages and libraries the program only calls. *)

From stdpp Require Export base gmap strings list sorting fin_maps.
From Stdlib Require Export ZArith Lia.


(** ** Go values *)

(** A [uuid.UUID] is a 128-bit array; the code compares it, copies it and tests
    it against [uuid.Nil].  It is the number its bytes spell (big-endian), so
    the zero array is 0 and PostgreSQL's byte order on uuid is the order of N. *)
Abbreviation uuid := N (only parsing).
Definition uuid_nil : uuid := 0%N.

(** Instants ([time.Time], [pgtype.Timestamp]) and [time.Duration] are counts
    of nanoseconds. *)
Abbreviation time := Z (only parsing).
Abbreviation duration := Z (only parsing).

Definition millisecond : duration := 1000000%Z.
Definition second : duration := 1000000000%Z.
Definition minute : duration := (60 * second)%Z.
Definition hour : duration := (60 * minute)%Z.

(** The zero [time.Time]: the first of January of year 1. *)
Definition zero_time : time := (- 62135596800 * second)%Z.

(** The wrap-around of a w-bit two's complement integer. *)
Definition wrap (w : Z) (z : Z) : Z :=
  ((z + 2 ^ (w - 1)) mod 2 ^ w - 2 ^ (w - 1))%Z.
Abbreviation wrap16 := (wrap 16) (only parsing).

Lemma wrap16_small z : (-32768 <= z < 32768)%Z → wrap16 z = z.
Proof.
  intros H. unfold wrap. change (2 ^ (16 - 1))%Z with 32768%Z.
  change (2 ^ 16)%Z with 65536%Z. rewrite Z.mod_small; lia.
Qed.

(** ** Errors and results *)

(** Go's [error] values.  [ErrNew pkg msg] is a sentinel made by [errors.New]
    in package [pkg] (messages are distinct within a package, so equality of
    the pair is the identity [errors.Is] compares); [ErrPg code constr] is a
    [*pgconn.PgError]; [ErrNoRows] is [pgx.ErrNoRows]; [ErrUntil pkg typ until] is
    an error type of package [pkg] that says until when
    ([*users.RenameTooSoonError]); [ErrInfra] is any failure of PostgreSQL or Redis
    itself (connection, timeout, ...). *)
Inductive error : Type :=
  | ErrNew (pkg msg : string)
  | ErrPg (code constr : string)
  | ErrNoRows
  | ErrUntil (pkg typ : string) (until : time)
  | ErrInfra.

(** A text in double quotes, as messages of the code have them. *)
Definition quoted (s : string) : string :=
  let dq := Ascii.ascii_of_nat 34 in String dq (s +:+ String dq EmptyString)%string.

#[export] Instance error_eq_dec : EqDecision error.
Proof. solve_decision. Defined.

(** [err.Error()]; that of a *pgconn.PgError names the constraint. *)
Definition error_text (e : error) : string :=
  match e with
  | ErrNew _ msg => msg
  | ErrPg code constr => ("violates " +:+ quoted constr +:+ " (SQLSTATE " +:+ code +:+ ")")%string
  | ErrNoRows => "no rows in result set"
  | ErrUntil _ typ _ => typ
  | ErrInfra => "connection failed"
  end.

Inductive result (A : Type) : Type :=
  | Ok (a : A)
  | Err (e : error).
Arguments Ok {A} a.
Arguments Err {A} e.

#[export] Instance result_eq_dec {A} `{EqDecision A} : EqDecision (result A).
Proof. solve_decision. Defined.

Definition is_ok {A} (r : result A) : bool :=
  match r with Ok _ => true | Err _ => false end.

(** ** The state and error monad of the handlers *)

Definition M (S A : Type) : Type := S → result A * S.

#[export] Instance M_ret {S} : MRet (M S) := λ A a s, (Ok a, s).
#[export] Instance M_bind {S} : MBind (M S) := λ A B k m s,
  match m s with
  | (Ok a, s') => k a s'
  | (Err e, s') => (Err e, s')
  end.

Definition throw {S A} (e : error) : M S A := λ s, (Err e, s).
Definition get {S A} (f : S → A) : M S A := λ s, (Ok (f s), s).
Definition modify {S} (f : S → S) : M S unit := λ s, (Ok tt, f s).
Definition lift_result {S A} (r : result A) : M S A := λ s, (r, s).

(** [v, err := f()] with the error inspected by the caller. *)
Definition try {S A} (m : M S A) : M S (result A) :=
  λ s, let '(r, s') := m s in (Ok r, s').

(** [if !b { return err }] *)
Definition guard_err {S} (b : bool) (e : error) : M S unit :=
  if b then mret tt else throw e.

Fixpoint for_each {S A} (l : list A) (f : A → M S unit) : M S unit :=
  match l with
  | [] => mret tt
  | x :: l' => f x ;; for_each l' f
  end.

Section monad.
Context {S : Type}.

Lemma bind_run {A B} (m : M S A) (k : A → M S B) s :
  (m ≫= k) s = match m s with
               | (Ok a, s') => k a s'
               | (Err e, s') => (Err e, s')
               end.
Proof. reflexivity. Qed.

Lemma bind_ok_inv {A B} (m : M S A) (k : A → M S B) s b s' :
  (m ≫= k) s = (Ok b, s') →
  ∃ a s1, m s = (Ok a, s1) ∧ k a s1 = (Ok b, s').
Proof. rewrite bind_run. destruct (m s) as [[a|e] s1]; naive_solver. Qed.

Lemma bind_err_inv {A B} (m : M S A) (k : A → M S B) s e s' :
  (m ≫= k) s = (Err e, s') →
  m s = (Err e, s') ∨ ∃ a s1, m s = (Ok a, s1) ∧ k a s1 = (Err e, s').
Proof. rewrite bind_run. destruct (m s) as [[a|e1] s1]; naive_solver. Qed.

(** A Hoare triple with a postcondition for values and one for errors. *)
Definition hoare {A} (P : S → Prop) (m : M S A)
    (Q : A → S → Prop) (E : error → S → Prop) : Prop :=
  ∀ s, P s → match m s with
             | (Ok a, s') => Q a s'
             | (Err e, s') => E e s'
             end.

Lemma hoare_ret {A} (a : A) (P : S → Prop) Q E :
  (∀ s, P s → Q a s) → hoare P (mret a) Q E.
Proof. intros H s HP. by apply H. Qed.

Lemma hoare_throw {A} e (P : S → Prop) (Q : A → S → Prop) E :
  (∀ s, P s → E e s) → hoare P (throw e) Q E.
Proof. intros H s HP. by apply H. Qed.

Lemma hoare_bind {A B} (m : M S A) (k : A → M S B) P R Q E :
  hoare P m R E → (∀ a, hoare (R a) (k a) Q E) → hoare P (m ≫= k) Q E.
Proof.
  intros Hm Hk s HP. rewrite bind_run. specialize (Hm s HP).
  destruct (m s) as [[a|e] s1]; [by apply Hk | done].
Qed.

Lemma hoare_conseq {A} (m : M S A) (P P' : S → Prop) (Q Q' : A → S → Prop) (E E' : error → S → Prop) :
  hoare P m Q E → (∀ s, P' s → P s) → (∀ a s, Q a s → Q' a s) →
  (∀ e s, E e s → E' e s) → hoare P' m Q' E'.
Proof.
  intros Hm HP HQ HE s Hs. specialize (Hm s (HP s Hs)).
  destruct (m s) as [[a|e] s1]; auto.
Qed.

Lemma hoare_try {A} (m : M S A) P Q E :
  hoare P m (λ a s, Q (Ok a) s) (λ e s, Q (Err e) s) → hoare P (try m) Q E.
Proof. intros Hm s HP. specialize (Hm s HP). unfold try. by destruct (m s) as [[a|e] s1]. Qed.
End monad.

(** Splits a run of a monadic program into the runs of its parts. *)
Ltac run_inv :=
  repeat match goal with
  | H : mbind _ _ _ = (Ok _, _) |- _ =>
      let a := fresh "a" in let s := fresh "s" in let H1 := fresh "Hrun" in
      apply bind_ok_inv in H; destruct H as (a & s & H1 & H); cbv beta in H
  | H : mret _ _ = _ |- _ => unfold mret, M_ret in H; simplify_eq/=
  | H : throw _ _ = _ |- _ => unfold throw in H; simplify_eq/=
  | H : get _ _ = _ |- _ => unfold get in H; simplify_eq/=
  | H : modify _ _ = _ |- _ => unfold modify in H; simplify_eq/=
  | H : lift_result _ _ = _ |- _ => unfold lift_result in H; simplify_eq/=
  end.

(** ** Calls that can fail

    PostgreSQL and Redis calls can fail for reasons of their own.  A state that
    is [Faulty] carries an oracle: each call consumes one flag, and a call
    whose flag is set returns [ErrInfra] and has no effect.  An exhausted
    oracle means that nothing fails any more, so a theorem about every oracle
    covers every pattern of failures. *)
Class Faulty (S : Type) := {
  faults : S → list bool;
  set_faults : list bool → S → S;
}.

Definition io {S A} `{Faulty S} (m : M S A) : M S A := λ s,
  match faults s with
  | [] => m s
  | true :: fs => (Err ErrInfra, set_faults fs s)
  | false :: fs => m (set_faults fs s)
  end.

(** ** Step relations *)

Section reachability.
Context {S : Type} (step : S → S → Prop).

(** Zero or more steps, the last one at the end. *)
Inductive reachable (s0 : S) : S → Prop :=
  | reach_refl : reachable s0 s0
  | reach_step s s' : reachable s0 s → step s s' → reachable s0 s'.

Lemma reachable_invariant (I : S → Prop) s0 :
  I s0 → (∀ s s', I s → step s s' → I s') → ∀ s, reachable s0 s → I s.
Proof. intros H0 Hstep s Hr. induction Hr; eauto. Qed.

Lemma reachable_trans s0 s1 s2 :
  reachable s0 s1 → reachable s1 s2 → reachable s0 s2.
Proof. intros H1 H2. induction H2; eauto using reachable. Qed.
End reachability.

(** ** Go's [slices] *)

Definition slices_contains {A} `{EqDecision A} (l : list A) (x : A) : bool :=
  bool_decide (x ∈ l).

(** [slices.DeleteFunc] *)
Definition slices_delete {A} (p : A → bool) (l : list A) : list A :=
  List.filter (λ x, negb (p x)) l.

Lemma slices_contains_true {A} `{EqDecision A} (l : list A) x :
  slices_contains l x = true ↔ x ∈ l.
Proof. apply bool_decide_eq_true. Qed.

Lemma elem_of_slices_delete {A} (p : A → bool) (l : list A) x :
  x ∈ slices_delete p l ↔ p x = false ∧ x ∈ l.
Proof.
  unfold slices_delete. rewrite !list_elem_of_In, List.filter_In.
  rewrite negb_true_iff. tauto.
Qed.

Lemma NoDup_list_filter {A} (p : A → bool) (l : list A) : NoDup l → NoDup (List.filter p l).
Proof.
  induction 1 as [|x l Hx Hl IH]; simpl; [constructor|].
  destruct (p x); [|done]. constructor; [|done].
  intros Hin. apply Hx. apply list_elem_of_In in Hin. apply List.filter_In in Hin as [Hin _].
  by apply list_elem_of_In.
Qed.

Lemma size_alter {K A} `{Countable K} (f : A → A) (k : K) (m : gmap K A) : size (alter f k m) = size m.
Proof. by rewrite <- !(size_dom (D := gset K)), dom_alter_L. Qed.

Lemma size_delete_le {K A} `{Countable K} (k : K) (m : gmap K A) : (size (delete k m) ≤ size m)%nat.
Proof. apply map_subseteq_size, delete_subseteq. Qed.

Lemma size_delete_some {K A} `{Countable K} (k : K) (m : gmap K A) x :
  m !! k = Some x → S (size (delete k m)) = size m.
Proof.
  intros Hx. rewrite <- (insert_delete_id m k x Hx) at 2.
  by rewrite map_size_insert_None by apply lookup_delete_eq.
Qed.

(** ** Counting the entries of a finite map *)

Section count.
Context {K A : Type} `{Countable K}.

Definition count_if (P : K * A → Prop) `{∀ x, Decision (P x)} (m : gmap K A) : nat :=
  size (filter P m).

Context (P : K * A → Prop) `{HP : ∀ x, Decision (P x)}.

Lemma count_if_insert_true m k x :
  m !! k = None → P (k, x) → count_if P (<[k:=x]> m) = S (count_if P m).
Proof.
  intros Hk Hx. unfold count_if. rewrite map_filter_insert_True by done.
  rewrite map_size_insert_None; [done|].
  apply map_lookup_filter_None. by left.
Qed.

Lemma count_if_insert_false m k x :
  m !! k = None → ¬ P (k, x) → count_if P (<[k:=x]> m) = count_if P m.
Proof.
  intros Hk Hx. unfold count_if. rewrite map_filter_insert_False by done.
  by rewrite delete_id.
Qed.

Lemma count_if_delete m k x :
  m !! k = Some x → P (k, x) → S (count_if P (delete k m)) = count_if P m.
Proof.
  intros Hk Hx. rewrite <- (insert_delete_id m k x) at 2 by done.
  rewrite count_if_insert_true; [done | apply lookup_delete_eq | done].
Qed.

Lemma count_if_update m k x y :
  m !! k = Some x → (P (k, x) ↔ P (k, y)) →
  count_if P (<[k:=y]> m) = count_if P m.
Proof.
  intros Hk Hxy. rewrite <- (insert_delete_id m k x Hk) at 2.
  rewrite <- insert_delete_eq.
  destruct (decide (P (k, y))) as [Hy|Hy].
  - rewrite !count_if_insert_true; rewrite ?lookup_delete_eq; tauto.
  - rewrite !count_if_insert_false; rewrite ?lookup_delete_eq; tauto.
Qed.
End count.
