(* ===== verification/GoLib.v ===== *)
(** * GoLib: the parts of Go's standard library the handlers use

    Strings are byte sequences; [runes] decodes them exactly as a [range] loop
    over a Go string does (an invalid byte is one U+FFFD rune of width 1).
    [RuneCountInString], [ValidString], [TrimSpace], [ToUpper] and [ToLower]
    (the last two for the ASCII range plus the two runes whose case mapping
    leaves or enters ASCII) are defined from it. *)

From S2P Require Import Prelude.
From Stdlib Require Import Strings.Ascii.

#[local] Open Scope Z_scope.

(** ** Bytes *)

Definition Z_of_ascii (a : ascii) : Z := Z.of_N (N_of_ascii a).
Definition ascii_of_Z (z : Z) : ascii := ascii_of_N (Z.to_N z).

Definition bytes_of (s : string) : list Z := Z_of_ascii <$> String.list_ascii_of_string s.
Definition string_of (bs : list Z) : string := String.string_of_list_ascii (ascii_of_Z <$> bs).

Lemma ascii_Z_ascii a : ascii_of_Z (Z_of_ascii a) = a.
Proof. unfold ascii_of_Z, Z_of_ascii. rewrite N2Z.id. apply ascii_N_embedding. Qed.

Lemma string_bytes_string s : string_of (bytes_of s) = s.
Proof.
  unfold string_of, bytes_of. rewrite <- list_fmap_compose.
  rewrite <- (String.string_of_list_ascii_of_string s) at 2. f_equal.
  rewrite <- (list_fmap_id (String.list_ascii_of_string s)) at 2.
  apply list_fmap_ext. intros i a _. apply ascii_Z_ascii.
Qed.

Lemma bytes_of_inj s t : bytes_of s = bytes_of t → s = t.
Proof. intros H. by rewrite <- (string_bytes_string s), H, string_bytes_string. Qed.

Lemma bytes_of_app s t : bytes_of (s +:+ t)%string = bytes_of s ++ bytes_of t.
Proof. unfold bytes_of. induction s as [|a s IH]; [done|]. simpl. by f_equal. Qed.

Lemma bytes_of_byte s : Forall (λ b, 0 <= b < 256) (bytes_of s).
Proof. unfold bytes_of. apply Forall_fmap, Forall_true. intros a. unfold Z_of_ascii. pose proof (Ascii.N_ascii_bounded a). simpl. lia. Qed.

Lemma byte_string_byte bs :
  Forall (λ b, 0 <= b < 256) bs → bytes_of (string_of bs) = bs.
Proof.
  intros H. unfold bytes_of, string_of. rewrite String.list_ascii_of_string_of_list_ascii.
  rewrite <- list_fmap_compose. induction H as [|b bs Hb _ IH]; [done|].
  rewrite fmap_cons, IH. f_equal. unfold compose, Z_of_ascii, ascii_of_Z.
  rewrite N_ascii_embedding; lia.
Qed.

(** ** UTF-8 ([unicode/utf8]) *)

Definition rune_error : Z := 0xFFFD.

Definition in_range (lo hi b : Z) : bool := (lo <=? b) && (b <=? hi).
Definition is_cont (b : Z) : bool := in_range 0x80 0xBF b.
Definition cont_bits (b : Z) : Z := Z.land b 0x3F.

(** [utf8.DecodeRune]: the rune and how many bytes it takes.  The bounds on
    the second byte are those of the [acceptRanges] table. *)
Definition decode_rune (bs : list Z) : Z * nat :=
  match bs with
  | [] => (rune_error, 0%nat)
  | b0 :: rest =>
    if b0 <? 0x80 then (b0, 1%nat)
    else if in_range 0xC2 0xDF b0 then
      match rest with
      | b1 :: _ =>
        if is_cont b1 then (Z.lor (Z.shiftl (Z.land b0 0x1F) 6) (cont_bits b1), 2%nat)
        else (rune_error, 1%nat)
      | _ => (rune_error, 1%nat)
      end
    else if in_range 0xE0 0xEF b0 then
      let lo := if b0 =? 0xE0 then 0xA0 else 0x80 in
      let hi := if b0 =? 0xED then 0x9F else 0xBF in
      match rest with
      | b1 :: b2 :: _ =>
        if in_range lo hi b1 && is_cont b2 then
          (Z.lor (Z.shiftl (Z.land b0 0x0F) 12) (Z.lor (Z.shiftl (cont_bits b1) 6) (cont_bits b2)), 3%nat)
        else (rune_error, 1%nat)
      | _ => (rune_error, 1%nat)
      end
    else if in_range 0xF0 0xF4 b0 then
      let lo := if b0 =? 0xF0 then 0x90 else 0x80 in
      let hi := if b0 =? 0xF4 then 0x8F else 0xBF in
      match rest with
      | b1 :: b2 :: b3 :: _ =>
        if in_range lo hi b1 && is_cont b2 && is_cont b3 then
          (Z.lor (Z.shiftl (Z.land b0 0x07) 18)
             (Z.lor (Z.shiftl (cont_bits b1) 12) (Z.lor (Z.shiftl (cont_bits b2) 6) (cont_bits b3))), 4%nat)
        else (rune_error, 1%nat)
      | _ => (rune_error, 1%nat)
      end
    else (rune_error, 1%nat)
  end.

#[global] Arguments decode_rune : simpl never.

(** The runes of a string, each with the bytes it was decoded from.  A rune
    takes at least one byte, so [length bs] steps decode everything. *)
Fixpoint runes_fuel (fuel : nat) (bs : list Z) : list (Z * list Z) :=
  match fuel, bs with
  | S fuel', _ :: _ =>
    let '(r, n) := decode_rune bs in
    (r, take n bs) :: runes_fuel fuel' (drop n bs)
  | _, _ => []
  end.

Definition runes_raw (s : string) : list (Z * list Z) :=
  let bs := bytes_of s in runes_fuel (length bs) bs.

(** [[]rune(s)], and the runes a [range] loop sees. *)
Definition runes (s : string) : list Z := fst <$> runes_raw s.

Definition RuneCountInString (s : string) : Z := Z.of_nat (length (runes s)).

Definition ValidString (s : string) : bool :=
  forallb (λ p : Z * list Z, negb ((p.1 =? rune_error) && (length p.2 =? 1)%nat)) (runes_raw s).

Lemma decode_rune_width b bs :
  (1 ≤ (decode_rune (b :: bs)).2 ≤ length (b :: bs))%nat.
Proof. unfold decode_rune; cbv zeta. repeat case_match; simpl; lia. Qed.

Lemma runes_fuel_concat fuel bs :
  (length bs ≤ fuel)%nat → concat (snd <$> runes_fuel fuel bs) = bs.
Proof.
  revert bs. induction fuel as [|fuel IH]; intros [|b bs] Hlen; simpl in *; [done|lia|done|].
  pose proof (decode_rune_width b bs) as Hw.
  destruct (decode_rune (b :: bs)) as [r n]. cbn -[take drop] in *.
  rewrite IH by (rewrite length_drop; simpl; lia).
  apply take_drop.
Qed.

(** Decoding loses no byte. *)
Lemma runes_raw_concat s : concat (snd <$> runes_raw s) = bytes_of s.
Proof. by apply runes_fuel_concat. Qed.

Lemma runes_fuel_length fuel bs : (length (runes_fuel fuel bs) ≤ length bs)%nat.
Proof.
  revert bs. induction fuel as [|fuel IH]; intros [|b bs]; simpl; [lia..|].
  pose proof (decode_rune_width b bs) as Hw.
  destruct (decode_rune (b :: bs)) as [r n]. cbn -[take drop] in *.
  specialize (IH (drop n (b :: bs))). rewrite length_drop in IH. simpl in IH. lia.
Qed.

(** A string whose bytes are all ASCII decodes to its bytes. *)
Lemma runes_fuel_ascii fuel bs :
  (length bs ≤ fuel)%nat → Forall (λ b, 0 <= b < 0x80) bs →
  runes_fuel fuel bs = (λ b, (b, [b])) <$> bs.
Proof.
  revert bs. induction fuel as [|fuel IH]; intros [|b bs] Hlen Hall; simpl in *; [done|lia|done|].
  apply Forall_cons in Hall as [Hb Hall].
  assert (decode_rune (b :: bs) = (b, 1%nat)) as ->.
  { unfold decode_rune. by assert ((b <? 128) = true) as -> by lia. }
  simpl. rewrite drop_0, IH by (done || lia). done.
Qed.

(** ** Package [strings] *)

(** [unicode.IsSpace] *)
Definition is_space (r : Z) : bool :=
  in_range 9 13 r || (r =? 32) || (r =? 0x85) || (r =? 0xA0) || (r =? 0x1680)
  || in_range 0x2000 0x200A r || (r =? 0x2028) || (r =? 0x2029) || (r =? 0x202F)
  || (r =? 0x205F) || (r =? 0x3000).

Fixpoint drop_while {A} (p : A → bool) (l : list A) : list A :=
  match l with
  | [] => []
  | x :: l' => if p x then drop_while p l' else l
  end.

Definition trim_both {A} (p : A → bool) (l : list A) : list A :=
  reverse (drop_while p (reverse (drop_while p l))).

Definition TrimSpace (s : string) : string :=
  string_of (concat (snd <$> trim_both (λ c, is_space c.1) (runes_raw s))).

(** [unicode.ToUpper] on ASCII letters and on the two other runes that map
    into ASCII (dotless i, long s); every other rune maps outside ASCII and is
    left in place, which is all a test against an ASCII alphabet can see. *)
Definition to_upper_rune (r : Z) : Z :=
  if in_range 97 122 r then r - 32
  else if r =? 0x131 then 73
  else if r =? 0x17F then 83
  else r.

Lemma drop_while_head {A} (p : A → bool) (l : list A) x l' :
  drop_while p l = x :: l' → p x = false.
Proof. induction l as [|y l IH]; simpl; [done|]. destruct (p y) eqn:E; [done|]. congruence. Qed.

Lemma drop_while_all_false {A} (p : A → bool) (l : list A) :
  Forall (λ x, p x = false) l → drop_while p l = l.
Proof. by intros [|x l' Hx _]; simpl; [|rewrite Hx]. Qed.

(** Go's string order: byte by byte. *)
Definition string_gt (a b : string) : bool :=
  match String.compare a b with Gt => true | _ => false end.

(** [strings.ToLower] of the standard library: its Unicode tables are left out. *)
Class GoLower := { ToLower : string → string }.

(** ** Classes of runes (package [unicode]) *)

(** [unicode.IsControl] *)
Definition is_control (r : Z) : bool := in_range 0 0x1F r || in_range 0x7F 0x9F r.

(** The table [unicode.Cf]: ranges with a stride. *)
Definition in_table (t : list (Z * Z * Z)) (r : Z) : bool :=
  existsb (λ e : Z * Z * Z, let '(lo, hi, stride) := e in in_range lo hi r && ((r - lo) mod stride =? 0)) t.

Definition table_Cf : list (Z * Z * Z) := [
  (0xAD, 0x600, 1363); (0x601, 0x605, 1); (0x61C, 0x6DD, 193); (0x70F, 0x890, 385); (0x891, 0x8E2, 81);
  (0x180E, 0x200B, 2045); (0x200C, 0x200F, 1); (0x202A, 0x202E, 1); (0x2060, 0x2064, 1); (0x2066, 0x206F, 1);
  (0xFEFF, 0xFFF9, 250); (0xFFFA, 0xFFFB, 1); (0x110BD, 0x110CD, 16); (0x13430, 0x1343F, 1);
  (0x1BCA0, 0x1BCA3, 1); (0x1D173, 0x1D17A, 1); (0xE0001, 0xE0020, 31); (0xE0021, 0xE007F, 1)].

Definition is_Cf (r : Z) : bool := in_table table_Cf r.

(** ** Texts from bytes and numbers *)

Definition hex_digit (n : Z) : Z := if n <? 10 then 48 + n else 87 + n.

(** [hex.EncodeToString] *)
Definition hex_of (bs : list Z) : string := string_of (mjoin ((λ b, [hex_digit (b / 16); hex_digit (b mod 16)]) <$> bs)).

(** The last [n] decimal digits of a number, as bytes. *)
Fixpoint digits (n : nat) (z : Z) : list Z :=
  match n with O => [] | S n => digits n (z / 10) ++ [48 + z mod 10] end.

(** [strings.NewReplacer] with single-byte old strings, and [strings.ReplaceAll] of
    one byte. *)
Definition replace_bytes (table : list (Z * string)) (s : string) : string :=
  string_of (mjoin ((λ b, match List.find (λ e : Z * string, e.1 =? b) table with
                          | Some e => bytes_of e.2
                          | None => [b]
                          end) <$> bytes_of s)).

(** [strings.ContainsAny] with ASCII characters. *)
Definition ContainsAny (s chars : string) : bool := existsb (λ b, existsb (Z.eqb b) (bytes_of chars)) (bytes_of s).

(** [len(s)] *)
Definition byte_length (s : string) : Z := Z.of_nat (length (bytes_of s)).

(** [strings.LastIndexByte] *)
Definition LastIndexByte (s : string) (c : Z) : option nat :=
  foldl (λ acc ib, if ib.2 =? c then Some ib.1 else acc) None (imap pair (bytes_of s)).

(** A line break. *)
Definition nl : string := String (Ascii.ascii_of_nat 10) EmptyString.

(** The bytes before the first [c]. *)
Fixpoint take_while_not (c : Z) (l : list Z) : list Z :=
  match l with [] => [] | x :: l => if x =? c then [] else x :: take_while_not c l end.

(** [path.Base] *)
Definition path_Base (s : string) : string :=
  let bs := bytes_of s in
  if decide (bs = []) then "."
  else
    let bs := reverse (drop_while (Z.eqb 47) (reverse bs)) in
    let last := reverse (take_while_not 47 (reverse bs)) in
    if decide (last = []) then "/" else string_of last.

(** [strings.Map] with a mapping that drops the runes [p] and keeps the others: an
    invalid byte that is kept becomes U+FFFD. *)
Definition drop_runes (p : Z → bool) (s : string) : string :=
  string_of (runes_raw s ≫= λ c : Z * list Z,
    if p c.1 then [] else if (c.1 =? rune_error) && (length c.2 =? 1)%nat then [0xEF; 0xBF; 0xBD] else c.2).

(** Go's image codecs and golang.org/x/image/draw. *)
Class ImageLib := {
  Img : Type;
  DecodeConfig : list Z → option (string * Z * Z);     (* the format, the width, the height *)
  DecodeImage : list Z → option Img;
  Bounds : Img → Z * Z * Z * Z;                         (* Min.X, Min.Y, Max.X, Max.Y *)
  (* a white rectangle, so wide and so high, with that part of the picture scaled onto it *)
  ScaleOnWhite : Z → Z → Img → Z * Z * Z * Z → Img;
  JpegEncode : Img → Z → result (list Z);
}.

(** ** Bytes within bytes: [strings.HasPrefix], [bytes.Contains] *)

Fixpoint has_prefix (p bs : list Z) : bool :=
  match p, bs with
  | [], _ => true
  | x :: p, b :: bs => (x =? b) && has_prefix p bs
  | _, [] => false
  end.
(** [strings.Contains], [strings.HasSuffix] *)
Fixpoint contains_bytes (p bs : list Z) : bool :=
  has_prefix p bs || match bs with [] => false | _ :: bs => contains_bytes p bs end.
