(* ===== verification/Sha256.v ===== *)
(** * Sha256: crypto/sha256 and crypto/hmac on lists of bytes

    What the code uses of the two packages: [sha256.Sum256] and [hmac.New(sha256.New,
    key)].  Words are 32-bit, kept in Z. *)

From S2P Require Import Prelude GoLib.

#[local] Open Scope Z_scope.

Definition word (x : Z) : Z := Z.land x 0xFFFFFFFF.
Definition rotr (n x : Z) : Z := Z.lor (Z.shiftr x n) (word (Z.shiftl x (32 - n))).

(** The round constants and the first state, in decimal. *)
Definition K : list Z := [
  1116352408; 1899447441; 3049323471; 3921009573; 961987163; 1508970993; 2453635748; 2870763221;
  3624381080; 310598401; 607225278; 1426881987; 1925078388; 2162078206; 2614888103; 3248222580;
  3835390401; 4022224774; 264347078; 604807628; 770255983; 1249150122; 1555081692; 1996064986;
  2554220882; 2821834349; 2952996808; 3210313671; 3336571891; 3584528711; 113926993; 338241895;
  666307205; 773529912; 1294757372; 1396182291; 1695183700; 1986661051; 2177026350; 2456956037;
  2730485921; 2820302411; 3259730800; 3345764771; 3516065817; 3600352804; 4094571909; 275423344;
  430227734; 506948616; 659060556; 883997877; 958139571; 1322822218; 1537002063; 1747873779;
  1955562222; 2024104815; 2227730452; 2361852424; 2428436474; 2756734187; 3204031479; 3329325298].

Definition H0 : list Z := [
  1779033703; 3144134277; 1013904242; 2773480762; 1359893119; 2600822924; 528734635; 1541459225].

(** [n] bytes of a number, most significant first, and back. *)
Fixpoint be_bytes (n : nat) (x : Z) : list Z :=
  match n with O => [] | S n => be_bytes n (Z.shiftr x 8) ++ [Z.land x 0xFF] end.
Definition be_value (bs : list Z) : Z := foldl (λ acc b, acc * 256 + b) 0 bs.

Fixpoint chunks (fuel n : nat) (bs : list Z) : list (list Z) :=
  match fuel, bs with
  | S fuel, _ :: _ => take n bs :: chunks fuel n (drop n bs)
  | _, _ => []
  end.

(** One more word of the message schedule; [w] holds the words so far, last first. *)
Definition schedule_step (w : list Z) : list Z :=
  let at_ (i : nat) := nth i w 0 in
  let s0 := Z.lxor (Z.lxor (rotr 7 (at_ 14%nat)) (rotr 18 (at_ 14%nat))) (Z.shiftr (at_ 14%nat) 3) in
  let s1 := Z.lxor (Z.lxor (rotr 17 (at_ 1%nat)) (rotr 19 (at_ 1%nat))) (Z.shiftr (at_ 1%nat) 10) in
  word (at_ 15%nat + s0 + at_ 6%nat + s1) :: w.

Definition schedule (block : list Z) : list Z :=
  reverse (Nat.iter 48 schedule_step (reverse (be_value <$> chunks 16 4 block))).

Definition round (st : list Z) (kw : Z * Z) : list Z :=
  match st with
  | [a; b; c; d; e; f; g; h] =>
    let S1 := Z.lxor (Z.lxor (rotr 6 e) (rotr 11 e)) (rotr 25 e) in
    let ch := Z.lxor (Z.land e f) (Z.land (Z.lxor e 0xFFFFFFFF) g) in
    let t1 := h + S1 + ch + kw.1 + kw.2 in
    let S0 := Z.lxor (Z.lxor (rotr 2 a) (rotr 13 a)) (rotr 22 a) in
    let maj := Z.lxor (Z.lxor (Z.land a b) (Z.land a c)) (Z.land b c) in
    [word (t1 + S0 + maj); a; b; c; word (d + t1); e; f; g]
  | _ => st
  end.

Definition compress (st : list Z) (block : list Z) : list Z :=
  zip_with (λ x y, word (x + y)) st (foldl round st (zip K (schedule block))).

(** The message, one bit, zeros up to 8 bytes before a multiple of 64, the length in
    bits. *)
Definition padded (msg : list Z) : list Z :=
  let n := Z.of_nat (length msg) in
  msg ++ [0x80] ++ replicate (Z.to_nat ((55 - n) mod 64)) 0 ++ be_bytes 8 (8 * n).

(** [sha256.Sum256] *)
Definition Sum256 (msg : list Z) : list Z :=
  let p := padded msg in
  mjoin (be_bytes 4 <$> foldl compress H0 (chunks (length p) 64 p)).

(** [hmac.New(sha256.New, key)], written to, then [Sum]. *)
Definition hmac_sha256 (key msg : list Z) : list Z :=
  let key := if Z.of_nat (length key) >? 64 then Sum256 key else key in
  let key := key ++ replicate (64 - length key) 0 in
  Sum256 ((Z.lxor 0x5c <$> key) ++ Sum256 ((Z.lxor 0x36 <$> key) ++ msg)).

#[global] Arguments Sum256 : simpl never.
#[global] Arguments hmac_sha256 : simpl never.

(** The published test vectors (FIPS 180-4 and RFC 4231). *)
Example sha256_empty : hex_of (Sum256 []) = "e3b0c44298fc1c149afbf4c8996fb92427ae41e4649b934ca495991b7852b855"%string.
Proof. vm_compute. reflexivity. Qed.

Example sha256_abc : hex_of (Sum256 (bytes_of "abc")) = "ba7816bf8f01cfea414140de5dae2223b00361a396177a9cb410ff61f20015ad"%string.
Proof. vm_compute. reflexivity. Qed.

Example sha256_two_blocks : hex_of (Sum256 (bytes_of "abcdbcdecdefdefgefghfghighijhijkijkljklmklmnlmnomnopnopq")) =
  "248d6a61d20638b8e5c026930c3e6039a33ce45964ff2167f6ecedd419db06c1"%string.
Proof. vm_compute. reflexivity. Qed.

Example hmac_rfc4231_2 : hex_of (hmac_sha256 (bytes_of "Jefe") (bytes_of "what do ya want for nothing?")) =
  "5bdcc146bf60754e6a042426089575c75a003f089d2739839dec58b964ec3843"%string.
Proof. vm_compute. reflexivity. Qed.

(** A digest is 32 bytes. *)
Lemma be_bytes_length n x : length (be_bytes n x) = n.
Proof. revert x. induction n as [|n IH]; intros x; simpl; [done|]. rewrite length_app, IH. simpl. lia. Qed.

Lemma be_bytes_byte n x : Forall (λ b, 0 <= b < 256) (be_bytes n x).
Proof.
  revert x. induction n as [|n IH]; intros x; simpl; [constructor|]. apply Forall_app. split; [apply IH|].
  constructor; [|constructor]. change 255 with (Z.ones 8). rewrite Z.land_ones by lia. apply Z.mod_pos_bound. lia.
Qed.

Lemma round_length st kw : length (round st kw) = length st.
Proof. unfold round. repeat case_match; reflexivity. Qed.

Lemma Sum256_length msg : length (Sum256 msg) = 32%nat.
Proof.
  assert (∀ l st, length st = 8%nat → length (foldl round st l) = 8%nat) as Hr
    by (induction l as [|x l IH]; intros st Hst; simpl; [done|]; apply IH; by rewrite round_length).
  assert (∀ blocks st, length st = 8%nat → length (foldl compress st blocks) = 8%nat) as Hc.
  { induction blocks as [|b blocks IH]; intros st Hst; simpl; [done|]. apply IH. unfold compress.
    rewrite length_zip_with, Hr by done. lia. }
  unfold Sum256. cbv zeta. generalize (Hc (chunks (length (padded msg)) 64 (padded msg)) H0 eq_refl).
  generalize (foldl compress H0 (chunks (length (padded msg)) 64 (padded msg))). intros l Hl.
  do 9 (destruct l as [|? l]; try discriminate Hl). cbn [fmap list_fmap mjoin list_join].
  rewrite !length_app, !be_bytes_length. reflexivity.
Qed.

Lemma Sum256_byte msg : Forall (λ b, 0 <= b < 256) (Sum256 msg).
Proof.
  unfold Sum256. cbv zeta. generalize (foldl compress H0 (chunks (length (padded msg)) 64 (padded msg))).
  induction l as [|x l IH]; cbn [fmap list_fmap mjoin list_join]; [constructor|].
  apply Forall_app. split; [apply be_bytes_byte|exact IH].
Qed.
