(* ===== verification/Threads.v ===== *)
(** * Threads: goroutines that share state

    A goroutine is a program of atomic actions on the shared state: a critical
    section of a mutex is one action, a call to another service is one.  [run]
    runs it alone; [sstep] interleaves any number of them, with goroutines a timer
    starts and with changes from outside.  [pool_invariant] is the way to prove
    what holds however they interleave: an invariant kept by every action of every
    program, each program owning some tokens no other has. *)

From S2P Require Import Prelude.
From stdpp Require Import gmap.

Inductive prog (S A : Type) : Type :=
  | Ret (a : A)
  | Act (B : Type) (m : S → B * S) (k : B → prog S A).
Arguments Ret {S A} a.
Arguments Act {S A B} m k.

#[export] Instance prog_ret {S} : MRet (prog S) := @Ret S.

#[export] Instance prog_bind {S} : MBind (prog S) := λ A B f,
  fix go (p : prog S A) : prog S B :=
    match p with
    | Ret a => f a
    | Act m k => Act m (λ b, go (k b))
    end.

(** One action; its result is a value, or a value or an error. *)
Definition atomically {S B} (m : S → B * S) : prog S B := Act m Ret.

Fixpoint run {S A} (p : prog S A) (s : S) : A * S :=
  match p with
  | Ret a => (a, s)
  | Act m k => run (k (m s).1) (m s).2
  end.

(** The first action, done. *)
Definition next {S A} (p : prog S A) (s : S) : option (prog S A * S) :=
  match p with
  | Ret _ => None
  | Act m k => Some (k (m s).1, (m s).2)
  end.

Lemma run_bind {S A B} (p : prog S A) (f : A → prog S B) s :
  run (p ≫= f) s = run (f (run p s).1) (run p s).2.
Proof. revert s. induction p as [a|C m k IH]; intros s; [done|]. exact (IH _ _). Qed.

(** ** The pool *)

Section pool.
Context {S : Type}.

(** ** Invariants of the pool *)

Context {T : Type} `{Countable T} (I : gset T → S → Prop) (G : S → S → Prop).

(** [owns o p]: run by a goroutine that holds the tokens [o], every action of [p]
    keeps the invariant, whatever the others hold, and does no more than [G]
    allows. *)
Inductive owns : gset T → prog S unit → Prop :=
  | owns_ret o a : owns o (Ret a)
  | owns_act o B (m : S → B * S) k :
      (∀ R s, o ## R → I (o ∪ R) s →
        G s (m s).2 ∧ ∃ o', o' ## R ∧ I (o' ∪ R) (m s).2 ∧ owns o' (k (m s).1)) →
      owns o (Act m k).

(** The tokens of each goroutine, disjoint from those of the later ones. *)
Inductive holds : list (prog S unit) → gset T → Prop :=
  | holds_nil : holds [] ∅
  | holds_cons p o ts F : owns o p → o ## F → holds ts F → holds (p :: ts) (o ∪ F).

Definition pool_ok (c : S * list (prog S unit)) : Prop := ∃ F, holds c.2 F ∧ I F c.1.

(** One goroutine of the pool, and the tokens of the others. *)
Lemma holds_split ts1 p ts2 F :
  holds (ts1 ++ p :: ts2) F →
  ∃ o R, F = o ∪ R ∧ o ## R ∧ owns o p ∧ ∀ o' p', o' ## R → owns o' p' → holds (ts1 ++ p' :: ts2) (o' ∪ R).
Proof.
  revert F. induction ts1 as [|q ts1 IH]; intros F Hh; simpl in *; inversion Hh as [|q' o ts F' Ho Hd Hts]; subst.
  - exists o, F'. split_and!; [done..|]. intros. by constructor.
  - apply IH in Hts as (o1 & R & -> & Hd1 & Ht & Hput).
    exists o1, (o ∪ R). split; [set_solver|]. split; [set_solver|]. split; [done|]. intros o' p' Hd' Hp'.
    replace (o' ∪ (o ∪ R)) with (o ∪ (o' ∪ R)) by set_solver. constructor; [done|set_solver|].
    apply Hput; [set_solver|done].
Qed.

Lemma holds_snoc ts F p : holds ts F → owns ∅ p → holds (ts ++ [p]) F.
Proof.
  induction 1 as [|q o ts F Ho Hd Hts IH]; intros Hp; simpl.
  - replace (∅ : gset T) with (∅ ∪ ∅ : gset T) by set_solver. by repeat constructor.
  - constructor; [done..|]. by apply IH.
Qed.

(** An action of one of the goroutines. *)
Lemma pool_run s ts1 p ts2 p' s' :
  pool_ok (s, ts1 ++ p :: ts2) → next p s = Some (p', s') → pool_ok (s', ts1 ++ p' :: ts2) ∧ G s s'.
Proof.
  intros (F & Hh & HI) Hn. apply holds_split in Hh as (o & R & -> & Hd & Hp & Hput).
  destruct Hp as [|o B m k Hact]; [done|]. injection Hn as <- <-.
  destruct (Hact _ _ Hd HI) as (HG & o' & Hd' & HI2 & Ho'). split; [|done].
  exists (o' ∪ R). split; [by apply Hput|done].
Qed.

(** Actions that keep the invariant whatever the tokens. *)
Definition keeps {B} (m : S → B * S) : Prop := ∀ F s, I F s → I F (m s).2 ∧ G s (m s).2.

(** A program of such actions, whose result satisfies [Q]. *)
Fixpoint quiet {A} (Q : A → Prop) (p : prog S A) : Prop :=
  match p with
  | Ret a => Q a
  | Act m k => keeps m ∧ ∀ b, quiet Q (k b)
  end.

Lemma quiet_bind {A B} P Q (p : prog S A) (f : A → prog S B) :
  quiet P p → (∀ a, P a → quiet Q (f a)) → quiet Q (p ≫= f).
Proof.
  intros Hp Hf. induction p as [a|C m k IH]; [by apply Hf|]. destruct Hp as [Hm Hk]. split; [done|].
  intros b. by apply IH.
Qed.

Lemma quiet_atomically {B} (m : S → B * S) : keeps m → quiet (λ _, True) (atomically m).
Proof. by split. Qed.

Lemma owns_bind {A} P o (p : prog S A) f : quiet P p → (∀ a, P a → owns o (f a)) → owns o (p ≫= f).
Proof.
  intros Hp Hf. induction p as [a|C m k IH]; [by apply Hf|]. destruct Hp as [Hm Hk].
  constructor. intros R s Hd HI. destruct (Hm _ _ HI). split; [done|]. exists o. split; [done|]. split; [done|].
  by apply IH.
Qed.

Lemma owns_quiet Q o (p : prog S unit) : quiet Q p → owns o p.
Proof.
  revert o. induction p as [a|C m k IH]; intros o Hp; [constructor|]. destruct Hp as [Hm Hk].
  constructor. intros R s Hd HI. destruct (Hm _ _ HI). split; [done|]. exists o. split; [done|]. split; [done|].
  by apply IH.
Qed.
(** ** Steps *)

(** A goroutine of a handler, a goroutine a timer starts, a change from outside. *)
Context (arrives : prog S unit → Prop) (fires : S → prog S unit → S → Prop) (outside : S → S → Prop).

Inductive sstep : S * list (prog S unit) → S * list (prog S unit) → Prop :=
  | s_arrive s ts p : arrives p → sstep (s, ts) (s, ts ++ [p])
  | s_run s s' p p' ts1 ts2 :
      next p s = Some (p', s') →
      sstep (s, ts1 ++ p :: ts2) (s', ts1 ++ p' :: ts2)
  | s_fire s s' p ts : fires s p s' → sstep (s, ts) (s', ts ++ [p])
  | s_outside s s' ts : outside s s' → sstep (s, ts) (s', ts).

Hypothesis arrives_owns : ∀ p, arrives p → owns ∅ p.
Hypothesis fires_keeps : ∀ s p s' F, fires s p s' → I F s → I F s' ∧ owns ∅ p.
Hypothesis outside_keeps : ∀ s s' F, outside s s' → I F s → I F s'.

(** What holds of the pool at the start holds however it runs. *)
Theorem pool_invariant c c' : pool_ok c → sstep c c' → pool_ok c'.
Proof.
  intros Hok Hstep. destruct Hstep as [s ts p Hp|s s' p p' ts1 ts2 Hn|s s' p ts Hw|s s' ts Ho].
  - destruct Hok as (F & Hh & HI). exists F. split; [apply holds_snoc; auto|done].
  - by eapply pool_run.
  - destruct Hok as (F & Hh & HI). destruct (fires_keeps _ _ _ _ Hw HI) as [HI' Hp].
    exists F. split; [by apply holds_snoc|done].
  - destruct Hok as (F & Hh & HI). exists F. split; [done|]. by eapply outside_keeps.
Qed.

(** ** Schedules *)

(** The first [n] actions of a goroutine. *)
Fixpoint advance (n : nat) (p : prog S unit) (s : S) : prog S unit * S :=
  match n, p with
  | Datatypes.S n, Act m k => advance n (k (m s).1) (m s).2
  | _, _ => (p, s)
  end.

Lemma rtc_advance n p s ts1 ts2 :
  rtc sstep (s, ts1 ++ p :: ts2) ((advance n p s).2, ts1 ++ (advance n p s).1 :: ts2).
Proof.
  revert p s. induction n as [|n IH]; intros p s; [done|]. destruct p as [a|B m k]; [done|]. simpl.
  eapply rtc_l; [|apply IH]. by apply s_run.
Qed.

(** The rest of a goroutine, with nobody in between. *)
Lemma rtc_run p s ts1 ts2 : rtc sstep (s, ts1 ++ p :: ts2) ((run p s).2, ts1 ++ Ret tt :: ts2).
Proof.
  revert s. induction p as [[]|B m k IH]; intros s; [done|]. eapply rtc_l; [by apply s_run|]. apply IH.
Qed.

(** A goroutine that arrives and runs alone. *)
Lemma rtc_serve p s ts : arrives p → rtc sstep (s, ts) ((run p s).2, ts ++ [Ret tt]).
Proof. intros Hp. eapply rtc_l; [by apply s_arrive|]. apply rtc_run. Qed.
End pool.
