(* ===== verification/Ws_Ticket.v ===== *)
(** * Ws_Ticket: one-time tickets for opening the websocket (src/internal/ws/ticket.go)

    [Redeem] takes the clock before it takes the lock: [check_ticket] is what it does before,
    with the clock it read, and [spend] is the critical section.  base64 and
    encoding/binary are written out as far as the code uses them. *)

From S2P Require Import Prelude GoLib Sha256.

#[local] Open Scope Z_scope.

(** ** encoding/base64, RawURLEncoding *)

Definition b64_char (v : Z) : Z :=
  if v <? 26 then 65 + v else if v <? 52 then 71 + v else if v <? 62 then v - 4 else if v =? 62 then 45 else 95.

Definition b64_value (c : Z) : option Z :=
  if in_range 65 90 c then Some (c - 65)
  else if in_range 97 122 c then Some (c - 71)
  else if in_range 48 57 c then Some (c + 4)
  else if c =? 45 then Some 62 else if c =? 95 then Some 63 else None.

Fixpoint b64_encode (bs : list Z) : list Z :=
  match bs with
  | [] => []
  | [a] => [b64_char (a / 4); b64_char (a mod 4 * 16)]
  | [a; b] => [b64_char (a / 4); b64_char (a mod 4 * 16 + b / 16); b64_char (b mod 16 * 4)]
  | a :: b :: c :: bs =>
    b64_char (a / 4) :: b64_char (a mod 4 * 16 + b / 16) :: b64_char (b mod 16 * 4 + c / 64) :: b64_char (c mod 64) ::
    b64_encode bs
  end.

(** Bits left over at the end are ignored (the encoding is not strict). *)
Fixpoint b64_join (vs : list Z) : option (list Z) :=
  match vs with
  | [] => Some []
  | [_] => None
  | [p; q] => Some [p * 4 + q / 16]
  | [p; q; r] => Some [p * 4 + q / 16; q mod 16 * 16 + r / 4]
  | p :: q :: r :: s :: vs => app [p * 4 + q / 16; q mod 16 * 16 + r / 4; r mod 4 * 64 + s] <$> b64_join vs
  end.

Definition EncodeToString (bs : list Z) : string := string_of (b64_encode bs).

(** Line ends are skipped. *)
Definition no_line_end (c : Z) : bool := negb ((c =? 10) || (c =? 13)).
Definition DecodeString (s : string) : option (list Z) :=
  vs ← mapM b64_value (List.filter no_line_end (bytes_of s));
  b64_join vs.

(** ** ws/ticket.go *)

Definition TicketTTL : duration := 30 * second.
Definition ticketPayload : nat := 40.   (* user, expiry (ms), nonce: 16 + 8 + 16 *)
Definition digest_size : nat := 32.     (* sha256.Size *)

Record Tickets := mk_Tickets { tk_key : list Z; tk_used : gmap (list Z) time }.

Definition NewTickets (secret : string) : Tickets :=
  mk_Tickets (hmac_sha256 (bytes_of secret) (bytes_of "chirpy websocket ticket")) ∅.

Definition sign (t : Tickets) (p : list Z) : list Z := hmac_sha256 (tk_key t) p.

(** [uint64(t.UnixMilli())], and back. *)
Definition put_milli (t : time) : list Z := be_bytes 8 (t / millisecond).
Definition get_milli (bs : list Z) : time := wrap 64 (be_value bs) * millisecond.

Definition payload (user : uuid) (exp : time) (nonce : list Z) : list Z :=
  be_bytes 16 (Z.of_N user) ++ put_milli exp ++ nonce.

(** At [now], with what rand.Read put into the nonce. *)
Definition Issue (user : uuid) (now : time) (nonce : list Z) (t : Tickets) : string :=
  let p := payload user (now + TicketTTL) nonce in EncodeToString (p ++ sign t p).

(** What a ticket says, if it is one of ours and has not expired. *)
Definition check_ticket (ticket : string) (now : time) (t : Tickets) : option (list Z * time) :=
  match DecodeString ticket with
  | None => None
  | Some raw =>
    if negb (bool_decide (length raw = (ticketPayload + digest_size)%nat)) then None
    else
      let p := take ticketPayload raw in
      if negb (bool_decide (drop ticketPayload raw = sign t p)) then None
      else
        let exp := get_milli (take 8 (drop 16 p)) in
        if exp <=? now then None else Some (p, exp)
  end.

(** Under the lock; [now] was read before it. *)
Definition spend (p : list Z) (exp now : time) (t : Tickets) : option (uuid * time) * Tickets :=
  let nonce := drop 24 p in
  match tk_used t !! nonce with
  | Some _ => (None, t)
  | None =>
    let used := filter (λ e : list Z * time, now < e.2) (tk_used t) in
    (Some (Z.to_N (be_value (take 16 p)), exp - TicketTTL), mk_Tickets (tk_key t) (<[nonce := exp]> used))
  end.

Definition Redeem (ticket : string) (now : time) (t : Tickets) : option (uuid * time) * Tickets :=
  match check_ticket ticket now t with
  | Some (p, exp) => spend p exp now t
  | None => (None, t)
  end.

(** ** Round trips *)

Definition is_byte (b : Z) : Prop := 0 <= b < 256.

Lemma be_value_snoc bs b : be_value (bs ++ [b]) = be_value bs * 256 + b.
Proof. unfold be_value. by rewrite foldl_app. Qed.

Lemma be_value_bytes n x : be_value (be_bytes n x) = x mod 256 ^ Z.of_nat n.
Proof.
  revert x. induction n as [|n IH]; intros x; simpl be_bytes; [by rewrite Z.mod_1_r|].
  rewrite be_value_snoc, IH. change 255 with (Z.ones 8). rewrite Z.land_ones, Z.shiftr_div_pow2 by lia.
  change (2 ^ 8) with 256. rewrite Nat2Z.inj_succ, Z.pow_succ_r by lia. pose proof (Z.pow_pos_nonneg 256 (Z.of_nat n)).
  rewrite Z.rem_mul_r by lia. lia.
Qed.

Lemma get_put_milli t : - 2 ^ 63 <= t / millisecond < 2 ^ 63 → get_milli (put_milli t) = t / millisecond * millisecond.
Proof.
  intros Ht. unfold get_milli, put_milli. rewrite be_value_bytes. f_equal. unfold wrap.
  change (256 ^ Z.of_nat 8) with (2 ^ 64). change (64 - 1) with 63. rewrite Zplus_mod_idemp_l. rewrite Z.mod_small; lia.
Qed.

(** The 64 digits, and back. *)
Lemma b64_value_char v : 0 <= v < 64 → b64_value (b64_char v) = Some v ∧ is_byte (b64_char v) ∧ b64_char v ≠ 10 ∧ b64_char v ≠ 13.
Proof.
  intros Hv. assert (∀ v, v ∈ seqZ 0 64 → b64_value (b64_char v) = Some v ∧ (0 <= b64_char v < 256) ∧ b64_char v ≠ 10 ∧ b64_char v ≠ 13) as H.
  { apply Forall_forall. vm_compute. repeat constructor; done. }
  apply H, elem_of_seqZ. lia.
Qed.

(** The digits of three bytes, two, one. *)
Lemma b64_cases (P : list Z → Prop) :
  P [] → (∀ a, is_byte a → P [a]) → (∀ a b, is_byte a → is_byte b → P [a; b]) →
  (∀ a b c bs, is_byte a → is_byte b → is_byte c → P bs → P (a :: b :: c :: bs)) → ∀ bs, Forall is_byte bs → P bs.
Proof.
  intros H0 H1 H2 H3. fix IH 1. intros [|a [|b [|c bs]]]; rewrite ?Forall_cons.
  - intros _. exact H0.
  - intros [Ha _]. by apply H1.
  - intros (Ha & Hb & _). by apply H2.
  - intros (Ha & Hb & Hc & Hbs). by apply H3, IH.
Qed.

Lemma b64_digits bs : Forall is_byte bs → ∃ vs, b64_encode bs = b64_char <$> vs ∧ Forall (λ v, 0 <= v < 64) vs ∧ b64_join vs = Some bs.
Proof.
  unfold is_byte. revert bs. apply b64_cases.
  - by exists [].
  - intros a Ha. exists [a / 4; a mod 4 * 16]. unfold is_byte in *. split_and!; [done| |simpl; do 2 f_equal].
    + repeat constructor; Z.to_euclidean_division_equations; lia.
    + Z.to_euclidean_division_equations; lia.
  - intros a b Ha Hb. unfold is_byte in *. exists [a / 4; a mod 4 * 16 + b / 16; b mod 16 * 4]. split_and!; [done| |simpl; do 3 f_equal].
    + repeat constructor; Z.to_euclidean_division_equations; lia.
    + Z.to_euclidean_division_equations; lia.
    + Z.to_euclidean_division_equations; lia.
  - intros a b c bs Ha Hb Hc (vs & He & Hvs & Hj). unfold is_byte in *.
    exists (a / 4 :: a mod 4 * 16 + b / 16 :: b mod 16 * 4 + c / 64 :: c mod 64 :: vs). split_and!.
    + simpl. by rewrite He.
    + repeat constructor; [Z.to_euclidean_division_equations; lia..|done].
    + simpl. rewrite Hj. simpl. repeat f_equal; Z.to_euclidean_division_equations; lia.
Qed.

Lemma base64_roundtrip bs : Forall is_byte bs → DecodeString (EncodeToString bs) = Some bs.
Proof.
  intros Hbs. destruct (b64_digits bs Hbs) as (vs & He & Hvs & Hj). unfold DecodeString, EncodeToString. rewrite He.
  rewrite byte_string_byte by (apply Forall_fmap; eapply Forall_impl; [exact Hvs|]; intros v Hv; by apply b64_value_char).
  assert (List.filter no_line_end (b64_char <$> vs) = b64_char <$> vs ∧ mapM b64_value (b64_char <$> vs) = Some vs) as [Hf Hm].
  { clear He Hj. induction Hvs as [|v vs Hv _ [IH1 IH2]]; [done|].
    destruct (b64_value_char v Hv) as (H1 & _ & H2 & H3). rewrite fmap_cons.
    assert (no_line_end (b64_char v) = true) as Hk by (unfold no_line_end; lia).
    cbn [List.filter mapM]. rewrite Hk, IH1, H1. simpl. by rewrite IH2. }
  rewrite Hf, Hm. exact Hj.
Qed.

(** ** Tickets *)

Lemma sign_byte t p : Forall is_byte (sign t p).
Proof. apply Sum256_byte. Qed.
Lemma sign_length t p : length (sign t p) = digest_size.
Proof. apply Sum256_length. Qed.

Lemma payload_length user exp nonce : length nonce = 16%nat → length (payload user exp nonce) = ticketPayload.
Proof. intros Hn. unfold payload, put_milli. rewrite !length_app, !be_bytes_length, Hn. done. Qed.

(** The parts of a payload. *)
Lemma payload_parts user exp nonce :
  take 16 (payload user exp nonce) = be_bytes 16 (Z.of_N user) ∧
  take 8 (drop 16 (payload user exp nonce)) = put_milli exp ∧ drop 24 (payload user exp nonce) = nonce.
Proof.
  unfold payload. assert (length (put_milli exp) = 8%nat) as Hm by apply be_bytes_length.
  pose proof (be_bytes_length 16 (Z.of_N user)) as Hu. split_and!.
  - by rewrite take_app_length'.
  - rewrite drop_app_length' by done. by rewrite take_app_length'.
  - rewrite app_assoc. rewrite drop_app_length'; [done|]. rewrite length_app. lia.
Qed.

(** A ticket is admitted until it expires. *)
Lemma admit_issued user t0 nonce now t :
  length nonce = 16%nat → Forall is_byte nonce → - 2 ^ 63 <= (t0 + TicketTTL) / millisecond < 2 ^ 63 →
  check_ticket (Issue user t0 nonce t) now t =
    let exp := (t0 + TicketTTL) / millisecond * millisecond in
    if exp <=? now then None else Some (payload user (t0 + TicketTTL) nonce, exp).
Proof.
  intros Hn Hb Ht. unfold Issue, check_ticket. cbv zeta. set (p := payload user (t0 + TicketTTL) nonce).
  assert (length p = ticketPayload) as Hp by by apply payload_length.
  rewrite base64_roundtrip.
  2: { apply Forall_app. split; [|apply sign_byte]. unfold p, payload, put_milli. apply Forall_app_2; [apply be_bytes_byte|]. apply Forall_app_2; [apply be_bytes_byte|done]. }
  rewrite bool_decide_true by (rewrite length_app, sign_length, Hp; done). cbn [negb]. cbv iota.
  assert (take ticketPayload (p ++ sign t p) = p) as Htake by by apply take_app_length'.
  assert (drop ticketPayload (p ++ sign t p) = sign t p) as Hdrop by by apply drop_app_length'.
  rewrite !Htake, Hdrop. rewrite bool_decide_true by done. cbn [negb]. cbv iota.
  unfold p. rewrite (proj1 (proj2 (payload_parts _ _ _))), get_put_milli by done. done.
Qed.

(** What is admitted was signed with the key, and has not expired. *)
Lemma admit_signed tk now t p exp :
  check_ticket tk now t = Some (p, exp) →
  length p = ticketPayload ∧ DecodeString tk = Some (p ++ sign t p) ∧ exp = get_milli (take 8 (drop 16 p)) ∧ now < exp.
Proof.
  unfold check_ticket. destruct (DecodeString tk) as [raw|]; [|done]. case_bool_decide as Hl; [|done]. cbn [negb]. cbv iota zeta.
  case_bool_decide as Hs; [|done]. cbn [negb]. cbv iota. destruct (_ <=? now) eqn:He; [done|]. intros [= <- <-].
  split_and!; [rewrite length_take, Hl; unfold ticketPayload, digest_size; lia| |done|lia]. by rewrite <- Hs, take_drop.
Qed.

(** Requests in the order their clocks were read. *)
Fixpoint redeems (calls : list (string * time)) (t : Tickets) : Tickets :=
  match calls with [] => t | (tk, now) :: calls => redeems calls (Redeem tk now t).2 end.

(** A nonce that cannot be spent any more at [now]: it was, or it has expired. *)
Definition spent (nonce : list Z) (exp now : time) (t : Tickets) : Prop := tk_used t !! nonce = Some exp ∨ exp <= now.

Lemma spent_redeem nonce exp now t tk now' :
  spent nonce exp now t → now <= now' → spent nonce exp now' (Redeem tk now' t).2.
Proof.
  intros Hs Hle. destruct (decide (exp <= now')) as [|Hlt]; [by right|]. destruct Hs as [Hs|]; [left|lia].
  unfold Redeem. destruct (check_ticket tk now' t) as [[p e]|]; [|done]. unfold spend.
  destruct (tk_used t !! drop 24 p) eqn:Hp; [done|]. simpl. rewrite lookup_insert_ne by congruence.
  apply map_lookup_filter_Some. split; [done|]. simpl. lia.
Qed.

Lemma redeem_key tk now t : tk_key (Redeem tk now t).2 = tk_key t.
Proof. unfold Redeem, spend. repeat case_match; done. Qed.

(** The clocks of the calls do not go back, from one time to another. *)
Fixpoint in_order (from : time) (calls : list (string * time)) (to : time) : Prop :=
  match calls with [] => from <= to | (_, now) :: calls => from <= now ∧ in_order now calls to end.

Lemma spent_redeems nonce exp calls from to t :
  spent nonce exp from t → in_order from calls to → spent nonce exp to (redeems calls t) ∧ tk_key (redeems calls t) = tk_key t.
Proof.
  revert from t. induction calls as [|[tk now] calls IH]; intros from t Hs Ho; simpl in *.
  - split; [|done]. destruct Hs as [Hs|]; [by left|right; lia].
  - destruct Ho as [Hle Ho]. rewrite <- (redeem_key tk now t). eapply IH; [|done]. by eapply spent_redeem.
Qed.

(** A spent nonce opens nothing. *)
Lemma spent_refused tk now t p :
  DecodeString tk = Some (p ++ sign t p) → length p = ticketPayload →
  spent (drop 24 p) (get_milli (take 8 (drop 16 p))) now t → (Redeem tk now t).1 = None.
Proof.
  intros Hd Hl Hs. unfold Redeem. destruct (check_ticket tk now t) as [[p' exp]|] eqn:Ha; [|done].
  apply admit_signed in Ha as (Hl' & Hd' & -> & Hexp). rewrite Hd in Hd'. injection Hd' as Hp.
  apply app_inj_1 in Hp as [<- _]; [|congruence].
  destruct Hs as [Hs|]; [|lia]. unfold spend. by rewrite Hs.
Qed.

(** C30. A ticket opens the websocket once, for the user it was issued to.  Issued at
    [t0] and redeemed before it expires, it names the user and when it was issued, to
    the millisecond; from then on it is refused, whatever else is redeemed, as long as
    the clocks do not go back.  And nothing is accepted that the server did not
    sign. *)
Theorem ticket_works_once user t0 nonce t now :
  Z.of_N user < 2 ^ 128 → length nonce = 16%nat → Forall is_byte nonce →
  - 2 ^ 63 <= (t0 + TicketTTL) / millisecond < 2 ^ 63 → tk_used t !! nonce = None →
  now < t0 + TicketTTL - millisecond →
  let tk := Issue user t0 nonce t in
  let t' := (Redeem tk now t).2 in
  (∃ issued, (Redeem tk now t).1 = Some (user, issued) ∧ t0 - millisecond < issued <= t0) ∧
  (∀ calls now', in_order now calls now' → (Redeem tk now' (redeems calls t')).1 = None) ∧
  (∀ other r, (Redeem other now t).1 = Some r → ∃ p, DecodeString other = Some (p ++ sign t p) ∧ r.1 = Z.to_N (be_value (take 16 p))).
Proof.
  intros Hu Hn Hb Ht0 Hnew Hnow. cbv zeta. pose proof (Z.mul_div_le (t0 + TicketTTL) millisecond) as Hle.
  pose proof (Z.mul_succ_div_gt (t0 + TicketTTL) millisecond) as Hgt.
  assert (0 < millisecond) as Hms by done.
  assert (check_ticket (Issue user t0 nonce t) now t = Some (payload user (t0 + TicketTTL) nonce, (t0 + TicketTTL) / millisecond * millisecond)) as Ha.
  { rewrite admit_issued by done. cbv zeta. destruct (_ <=? now) eqn:He; [lia|done]. }
  destruct (payload_parts user (t0 + TicketTTL) nonce) as (Hp1 & Hp2 & Hp3).
  assert (spend (payload user (t0 + TicketTTL) nonce) ((t0 + TicketTTL) / millisecond * millisecond) now t =
    (Some (user, (t0 + TicketTTL) / millisecond * millisecond - TicketTTL),
     mk_Tickets (tk_key t) (<[nonce := (t0 + TicketTTL) / millisecond * millisecond]>
       (filter (λ e : list Z * time, now < e.2) (tk_used t))))) as Hs.
  { unfold spend. rewrite Hp3, Hnew. cbv zeta. rewrite Hp1, be_value_bytes, Z.mod_small, N2Z.id; [done|]. split; [lia|].
    exact Hu. }
  split_and!.
  - unfold Redeem. rewrite Ha, Hs. eexists. split; [done|]. lia.
  - intros calls now' Ho. pose proof (admit_signed _ _ _ _ _ Ha) as (Hl & Hd & He & _).
    unfold Redeem at 2. rewrite Ha, Hs. cbn [fst snd].
    set (t' := mk_Tickets _ _). assert (spent nonce ((t0 + TicketTTL) / millisecond * millisecond) now t') as Hsp
      by (left; apply lookup_insert_eq).
    destruct (spent_redeems _ _ _ _ _ _ Hsp Ho) as [Hsp' Hk]. apply (spent_refused _ _ _ (payload user (t0 + TicketTTL) nonce)).
    + unfold sign in *. by rewrite Hk.
    + done.
    + by rewrite Hp3, <- He.
  - intros other r. unfold Redeem. destruct (check_ticket other now t) as [[p exp]|] eqn:Ho; [|done].
    apply admit_signed in Ho as (_ & Hd & _). unfold spend. intros Hr.
    destruct (tk_used t !! drop 24 p); [done|]. exists p. by injection Hr as <-.
Qed.

(** ** A ticket at work *)

Definition demo_tickets : Tickets := NewTickets "secret".
Definition demo_nonce : list Z := seqZ 0 16.

Lemma ticket_works_once_witness :
  let tk := Issue 7%N (5 * second) demo_nonce demo_tickets in
  (∃ issued, (Redeem tk (6 * second) demo_tickets).1 = Some (7%N, issued) ∧ 5 * second - millisecond < issued <= 5 * second) ∧
  (∀ calls now', in_order (6 * second) calls now' → (Redeem tk now' (redeems calls (Redeem tk (6 * second) demo_tickets).2)).1 = None) ∧
  (∀ other r, (Redeem other (6 * second) demo_tickets).1 = Some r →
     ∃ p, DecodeString other = Some (p ++ sign demo_tickets p) ∧ r.1 = Z.to_N (be_value (take 16 p))).
Proof.
  apply (ticket_works_once 7%N (5 * second) demo_nonce demo_tickets (6 * second)).
  - reflexivity.
  - reflexivity.
  - repeat (constructor; [split; [discriminate|reflexivity]|]). constructor.
  - split; [discriminate|reflexivity].
  - reflexivity.
  - reflexivity.
Defined.

(** The clock is read before the lock is taken.  A request that is held up in between
    until the ticket it carries has expired, been spent and been forgotten, is
    accepted as well: here the second of three calls, the third being the one that
    forgets. *)
Theorem stalled_ticket_works_twice :
  let tk := Issue 7%N 0 demo_nonce demo_tickets in
  let late := Issue 8%N (20 * second) (seqZ 100 16) demo_tickets in
  let stalled := check_ticket tk (29 * second) demo_tickets in
  let (first, t1) := Redeem tk (28 * second) demo_tickets in
  let (_, t2) := Redeem late (31 * second) t1 in
  match stalled with
  | Some (p, exp) => (fst <$> first, fst <$> (spend p exp (29 * second) t2).1) = (Some 7%N, Some 7%N)
  | None => False
  end.
Proof. vm_compute. reflexivity. Qed.
