(* ===== verification/Ratelimit.v ===== *)
(** * Ratelimit: the fixed-window limiter (src/internal/platform/ratelimit/memory.go,
    middleware.go)

    One call of [Allow] is one critical section, so a schedule is a list of calls with
    the clock each read under the lock; the clocks do not go back (time.Now is
    monotonic).  The sliding window of redis.go is a Lua script on floating-point
    counters and is left out. *)

From S2P Require Import Prelude GoLib.

#[local] Open Scope Z_scope.

(** middleware.go *)
Record Result := mk_Result { rl_Allowed : bool; rl_Remaining : Z; rl_Limit : Z; rl_RetryAfter : duration }.

(** memory.go *)
Record window := mk_window { wd_count : Z; wd_start : time }.

Record Memory := mk_Memory {
  ml_windows : gmap string window;
  ml_limit : Z;
  ml_period : duration;
  ml_lastScan : time;
}.

Definition NewMemory (limit : Z) (period : duration) : Memory := mk_Memory ∅ limit period zero_time.

(** [for k, w := range m.windows { if now.Sub(w.start) > m.period { delete(m.windows, k) } }] *)
Definition scan (now : time) (m : Memory) : Memory :=
  if now - ml_lastScan m >? ml_period m
  then mk_Memory (filter (λ e : string * window, now - wd_start e.2 <= ml_period m) (ml_windows m)) (ml_limit m) (ml_period m) now
  else m.

(** The window a call falls into. *)
Definition window_of (now : time) (key : string) (m : Memory) : window :=
  match ml_windows m !! key with
  | Some w => if now - wd_start w >? ml_period m then mk_window 0 now else w
  | None => mk_window 0 now
  end.

Definition put_window (key : string) (w : window) (m : Memory) : Memory :=
  mk_Memory (<[key := w]> (ml_windows m)) (ml_limit m) (ml_period m) (ml_lastScan m).

Definition Allow (now : time) (key : string) (m : Memory) : Result * Memory :=
  let m := scan now m in
  let w := window_of now key m in
  if wd_count w >=? ml_limit m
  then (mk_Result false 0 (ml_limit m) (ml_period m - (now - wd_start w)), put_window key w m)
  else let w := mk_window (wd_count w + 1) (wd_start w) in
       (mk_Result true (ml_limit m - wd_count w) (ml_limit m) 0, put_window key w m).

(** [Middleware]: a limiter that fails lets the request through. *)
Definition admits (r : result Result) : bool := match r with Ok res => rl_Allowed res | Err _ => true end.

(** ** Schedules *)

Definition request : Type := string * time.

(** The calls in turn, with what each was told. *)
Fixpoint serve (calls : list request) (m : Memory) : list (request * Result) * Memory :=
  match calls with
  | [] => ([], m)
  | (key, now) :: calls =>
    let r := Allow now key m in
    let rest := serve calls r.2 in
    (((key, now), r.1) :: rest.1, rest.2)
  end.

Fixpoint ordered (from : time) (calls : list request) : Prop :=
  match calls with [] => True | (_, now) :: calls => from <= now ∧ ordered now calls end.

(** How many calls of [key] between two times were allowed. *)
Definition counts (key : string) (a b : time) (e : request * Result) : bool :=
  rl_Allowed e.2 && bool_decide (e.1.1 = key) && (a <=? e.1.2) && (e.1.2 <=? b).
Definition allowed_in (key : string) (a b : time) (log : list (request * Result)) : Z :=
  Z.of_nat (length (List.filter (counts key a b) log)).

Section counting.
Context (key : string).

Lemma allowed_snoc a b log e :
  allowed_in key a b (log ++ [e]) = allowed_in key a b log + (if counts key a b e then 1 else 0).
Proof. unfold allowed_in. rewrite List.filter_app, length_app. simpl. destruct (counts key a b e); simpl; lia. Qed.

Lemma allowed_mono a b a' b' log : a' <= a → b <= b' → allowed_in key a b log <= allowed_in key a' b' log.
Proof.
  intros Ha Hb. unfold allowed_in. induction log as [|e log IH]; simpl; [done|].
  destruct (counts key a b e) eqn:H1; destruct (counts key a' b' e) eqn:H2; simpl; try lia.
  exfalso. unfold counts in *. destruct (rl_Allowed e.2), (bool_decide _); simpl in *; try done. lia.
Qed.

Lemma allowed_split a b c log : allowed_in key a b log <= allowed_in key a c log + allowed_in key (c + 1) b log.
Proof.
  unfold allowed_in. induction log as [|e log IH]; simpl; [done|].
  destruct (counts key a b e) eqn:H1; destruct (counts key a c e) eqn:H2; destruct (counts key (c + 1) b e) eqn:H3; simpl; try lia.
  exfalso. unfold counts in *. destruct (rl_Allowed e.2), (bool_decide _); simpl in *; try done. lia.
Qed.

Lemma allowed_nonneg a b log : 0 <= allowed_in key a b log.
Proof. unfold allowed_in. lia. Qed.
End counting.

Section limiter.
Context (limit : Z) (period : duration) (key : string).
Hypothesis limit_pos : 0 <= limit.
Hypothesis period_pos : 0 <= period.

(** ** What the state knows of the log *)

(** A window that counts: every allowed call since it began is in it, and of the period
    before it there are at most [limit]. *)
Record counted (log : list (request * Result)) (w : window) : Prop := {
  co_count : allowed_in key (wd_start w) (wd_start w + period) log = wd_count w;
  co_after b : allowed_in key (wd_start w + period + 1) b log = 0;
  co_before : allowed_in key (wd_start w - period) (wd_start w - 1) log <= limit;
  co_limit : 0 <= wd_count w <= limit;
}.

Record tracks (log : list (request * Result)) (now : time) (m : Memory) : Prop := {
  tr_limit : ml_limit m = limit;
  tr_period : ml_period m = period;
  tr_twice a : allowed_in key a (a + period) log <= 2 * limit;
  tr_window : match ml_windows m !! key with
              | Some w => counted log w ∧ wd_start w <= now
              | None => (∀ b, allowed_in key now b log = 0) ∧ allowed_in key (now - period) (now - 1) log <= limit
              end;
}.

(** A window whose time is over leaves the state of a caller without a window. *)
Lemma counted_over log w now : counted log w → wd_start w + period < now →
  (∀ b, allowed_in key now b log = 0) ∧ allowed_in key (now - period) (now - 1) log <= limit.
Proof.
  intros [H1 H2 H3 H4] Hnow. split.
  - intros b. pose proof (allowed_mono key now b (wd_start w + period + 1) b log). pose proof (allowed_nonneg key now b log).
    rewrite H2 in *. lia.
  - pose proof (allowed_mono key (now - period) (now - 1) (wd_start w) (now - 1) log).
    pose proof (allowed_split key (wd_start w) (now - 1) (wd_start w + period) log). rewrite H1, H2 in *. lia.
Qed.

Lemma tracks_later log now now' m : now <= now' → tracks log now m → tracks log now' m.
Proof.
  intros Hle [H1 H2 H3 H4]. split; [done..|]. destruct (ml_windows m !! key) as [w|]; [destruct H4; split; [done|lia]|].
  destruct H4 as [H4 H5]. split.
  - intros b. pose proof (allowed_mono key now' b now b log). pose proof (allowed_nonneg key now' b log). rewrite H4 in *. lia.
  - pose proof (allowed_split key (now' - period) (now' - 1) (now - 1) log).
    pose proof (allowed_mono key (now' - period) (now - 1) (now - period) (now - 1) log).
    replace (now - 1 + 1) with now in * by lia. rewrite H4 in *. lia.
Qed.

Lemma tracks_scan log now m : tracks log now m → tracks log now (scan now m).
Proof.
  intros [H1 H2 H3 H4]. unfold scan. destruct (_ >? _); [|by split]. split; [done..|]. simpl.
  destruct (ml_windows m !! key) as [w|] eqn:Hw.
  - destruct (decide (now - wd_start w <= ml_period m)) as [Hin|Hout].
    + rewrite (proj2 (map_lookup_filter_Some _ (ml_windows m) key w)); [done|by split].
    + rewrite (proj2 (map_lookup_filter_None _ (ml_windows m) key)) by (right; intros w' Hw'; simplify_eq; simpl; lia).
      apply (counted_over _ w); [apply H4|lia].
  - by rewrite (proj2 (map_lookup_filter_None _ (ml_windows m) key)) by by left.
Qed.

(** The window a call falls into is the current one. *)
Lemma tracks_window log now m : tracks log now m →
  let w := window_of now key m in counted log w ∧ wd_start w <= now <= wd_start w + period.
Proof.
  intros [H1 H2 H3 H4]. unfold window_of. cbv zeta.
  assert ((∀ b, allowed_in key now b log = 0) → allowed_in key (now - period) (now - 1) log <= limit →
          counted log (mk_window 0 now) ∧ now <= now <= now + period) as Hnew.
  { intros Ha Hb. split; [|lia]. split; simpl; [apply Ha| |done|lia]. intros b.
    pose proof (allowed_mono key (now + period + 1) b now b log). pose proof (allowed_nonneg key (now + period + 1) b log).
    rewrite Ha in *. lia. }
  destruct (ml_windows m !! key) as [w|] eqn:Hw; [|apply Hnew; apply H4].
  destruct (now - wd_start w >? ml_period m) eqn:Ho.
  - apply Hnew; apply (counted_over _ w); try apply H4; lia.
  - split; [apply H4|]. destruct H4. lia.
Qed.

(** One more call in the current window. *)
Lemma counted_more log w now r :
  counted log w → wd_start w <= now <= wd_start w + period → wd_count w < limit → rl_Allowed r = true →
  counted (log ++ [((key, now), r)]) (mk_window (wd_count w + 1) (wd_start w)) ∧
  ((∀ a, allowed_in key a (a + period) log <= 2 * limit) →
   ∀ a, allowed_in key a (a + period) (log ++ [((key, now), r)]) <= 2 * limit).
Proof.
  intros [H1 H2 H3 H4] Hnow Hc Hr.
  assert (∀ a b, counts key a b ((key, now), r) = (a <=? now) && (now <=? b)) as Hcounts
    by (intros; unfold counts; simpl; by rewrite Hr, bool_decide_true).
  assert (counted (log ++ [((key, now), r)]) (mk_window (wd_count w + 1) (wd_start w))) as Hok.
  { split; simpl; [| | |lia]; intros; rewrite allowed_snoc, Hcounts.
    - rewrite H1. destruct (_ && _) eqn:E; lia.
    - rewrite H2. destruct (_ && _) eqn:E; lia.
    - destruct (_ && _) eqn:E; lia. }
  split; [done|]. intros Htwice a. rewrite allowed_snoc, Hcounts. destruct ((a <=? now) && (now <=? a + period)) eqn:E.
  2: { specialize (Htwice a). lia. }
  destruct (decide (wd_start w <= a)) as [Ha|Ha].
  - pose proof (allowed_mono key a (a + period) (wd_start w) (a + period) log).
    pose proof (allowed_split key (wd_start w) (a + period) (wd_start w + period) log). rewrite H1, H2 in *. lia.
  - pose proof (allowed_split key a (a + period) (wd_start w - 1) log). replace (wd_start w - 1 + 1) with (wd_start w) in * by lia.
    pose proof (allowed_mono key a (wd_start w - 1) (wd_start w - period) (wd_start w - 1) log).
    pose proof (allowed_mono key (wd_start w) (a + period) (wd_start w) (wd_start w + period) log). lia.
Qed.

Lemma allowed_denied log a b e : rl_Allowed e.2 = false → allowed_in key a b (log ++ [e]) = allowed_in key a b log.
Proof. intros He. rewrite allowed_snoc. unfold counts. rewrite He. simpl. lia. Qed.

Lemma allowed_other log a b e : e.1.1 ≠ key → allowed_in key a b (log ++ [e]) = allowed_in key a b log.
Proof. intros He. rewrite allowed_snoc. unfold counts. rewrite (bool_decide_false (e.1.1 = key)) by done. rewrite andb_false_r. simpl. lia. Qed.

(** A log that counts the same for [key]. *)
Lemma counted_same log log' w : (∀ a b, allowed_in key a b log' = allowed_in key a b log) → counted log w → counted log' w.
Proof. intros He [H1 H2 H3 H4]. by split; intros; rewrite ?He. Qed.

(** A call of the limiter, and its place in the log. *)
Lemma tracks_allow log now k m : tracks log now m →
  let r := Allow now k m in
  tracks (log ++ [((k, now), r.1)]) now r.2 ∧
  (k = key → ∃ start, now - period <= start <= now ∧
     rl_Remaining r.1 = limit - allowed_in key start (start + period) (log ++ [((k, now), r.1)]) ∧
     (rl_Allowed r.1 = false → allowed_in key start (start + period) log = limit ∧ rl_RetryAfter r.1 = start + period - now)).
Proof.
  intros Ht%tracks_scan. unfold Allow. cbv zeta. revert Ht. generalize (scan now m). intros m1 Ht.
  destruct (decide (k = key)) as [->|Hk].
  - pose proof (tracks_window _ _ _ Ht) as [Hc Hin]. destruct Ht as [H1 H2 H3 H4]. cbv zeta in Hc, Hin.
    revert Hc Hin. generalize (window_of now key m1). intros w Hc Hin. rewrite H1.
    destruct (wd_count w >=? limit) eqn:Hfull; cbn [fst snd].
    + set (r := mk_Result false _ _ _). assert (∀ a b, allowed_in key a b (log ++ [((key, now), r)]) = allowed_in key a b log) as Hd
        by (intros; by apply allowed_denied).
      split.
      * split; [done..|intros; by rewrite Hd|]. simpl. rewrite lookup_insert_eq. split; [by eapply counted_same|lia].
      * intros _. exists (wd_start w). destruct Hc as [Hc1 _ _ Hc4]. rewrite Hd, Hc1. unfold r. cbn [rl_Remaining rl_Allowed rl_RetryAfter].
        split; [lia|]. split; [lia|].
        intros _. split; lia.
    + set (r := mk_Result true _ _ _). destruct (counted_more log w now r Hc) as [Hc' Htw]; [done|lia|done|].
      split.
      * split; [done..|by apply Htw|]. simpl. rewrite lookup_insert_eq. split; [done|simpl; lia].
      * intros _. exists (wd_start w). pose proof (co_count _ _ Hc') as Hn. simpl in Hn. rewrite Hn. unfold r. simpl. split_and!; [lia..|done].
  - split; [|done]. destruct Ht as [H1 H2 H3 H4].
    assert (∀ r a b, allowed_in key a b (log ++ [((k, now), r)]) = allowed_in key a b log) as Hd by (intros; by apply allowed_other).
    destruct (wd_count (window_of now k m1) >=? ml_limit m1); cbn [fst snd];
      (split; [done..|intros; by rewrite Hd|]; simpl; rewrite lookup_insert_ne by done;
       destruct (ml_windows m1 !! key) as [w|]; [|split; intros; rewrite Hd; apply H4]; split; [eapply counted_same; [intros; apply Hd|apply H4]|apply H4]).
Qed.

Lemma tracks_until calls log from m now : tracks log from m → ordered from calls → from <= now → (∀ e, e ∈ calls → e.2 <= now) →
  tracks (log ++ (serve calls m).1) now (serve calls m).2.
Proof.
  revert log from m. induction calls as [|[k t] calls IH]; intros log from m Ht Ho Hn Hall; simpl in *.
  - rewrite app_nil_r. by eapply tracks_later.
  - destruct Ho as [Hle Ho]. apply (tracks_later _ _ t) in Ht; [|done]. apply (tracks_allow _ _ k) in Ht as [Ht _].
    assert (t <= now) by (apply (Hall (k, t)); by left).
    specialize (IH _ _ _ Ht Ho ltac:(done)). rewrite <- app_assoc in IH. apply IH. intros e He. apply Hall. by right.
Qed.
End limiter.

Lemma tracks_new limit period key from : 0 <= limit → tracks limit period key [] from (NewMemory limit period).
Proof. intros Hl. split; [done..|unfold allowed_in; simpl; lia|]. simpl. rewrite lookup_empty. unfold allowed_in. simpl. split; [done|lia]. Qed.

(** The limiter limits, and only limits.  Whatever calls are made, by whom and
    when, no stretch of one period has more than twice the limit of one caller's calls
    allowed; a call is denied only if the whole limit was used up in a period that the
    call falls into, and then RetryAfter is what is left of it. *)
Theorem rate_limited limit period calls key now from :
  0 <= limit → 0 <= period → ordered from (calls ++ [(key, now)]) →
  let log := (serve calls (NewMemory limit period)).1 in
  let r := (Allow now key (serve calls (NewMemory limit period)).2).1 in
  (∀ a, allowed_in key a (a + period) (log ++ [((key, now), r)]) <= 2 * limit) ∧
  ∃ start, now - period <= start <= now ∧
    rl_Remaining r = limit - allowed_in key start (start + period) (log ++ [((key, now), r)]) ∧
    (rl_Allowed r = false → allowed_in key start (start + period) log = limit ∧ rl_RetryAfter r = start + period - now).
Proof.
  intros Hl Hp Ho. cbv zeta.
  assert (∀ from, ordered from (calls ++ [(key, now)]) → ordered from calls ∧ from <= now ∧ ∀ e, e ∈ calls → e.2 <= now) as Hsplit.
  { clear. induction calls as [|[k t] calls IH]; intros from Ho; simpl in *.
    - split_and!; [done|tauto|]. intros e He. by apply elem_of_nil in He.
    - destruct Ho as [H1 (H2 & H3 & H4)%IH]. split_and!; [done..|lia|]. intros e [->|He]%elem_of_cons; [done|by apply H4]. }
  destruct (Hsplit from Ho) as (Ho1 & Hfn & Hpast).
  pose proof (tracks_new limit period key from Hl) as Hnew.
  apply (tracks_until limit period key Hl Hp calls _ _ _ now Hnew Ho1 Hfn) in Hpast as Ht.
  apply (tracks_allow limit period key Hl Hp _ _ key) in Ht as [Ht Hr]. split; [apply Ht|by apply Hr].
Qed.

(** Two calls a minute: the third of a minute is denied, with ten seconds to wait. *)
Lemma rate_limited_witness :
  ordered 1 ([("a", 1000); ("b", 1001); ("a", 1050)] ++ [("a", 1055)]) ∧
  ∃ start, 1055 - 60 <= start <= 1055 ∧ allowed_in "a" start (start + 60) (serve [("a", 1000); ("b", 1001); ("a", 1050)] (NewMemory 2 60)).1 = 2.
Proof.
  assert (ordered 1 ([("a", 1000); ("b", 1001); ("a", 1050)] ++ [("a", 1055)])) as Ho by (simpl; lia).
  split; [done|].
  destruct (rate_limited 2 60 [("a", 1000); ("b", 1001); ("a", 1050)] "a" 1055 1 ltac:(lia) ltac:(lia) Ho)
    as [_ (start & Hs & _ & Hd)].
  exists start. split; [done|]. by destruct Hd as [Hd _]; [vm_compute|].
Defined.
