(* ===== verification/Groups_Invite.v ===== *)
(** * Groups_Invite: invite codes (src/internal/groups/invite.go)

    Codes are eight letters of a 32-letter alphabet.  [NewInviteCode] draws
    them, [FormatInviteCode] shows them as XXXX-XXXX and [NormalizeInviteCode]
    reads back what a user types. *)

From S2P Require Import Prelude GoLib.
From Stdlib Require Import Strings.Ascii.

#[local] Open Scope Z_scope.

Definition inviteAlphabet : string := "ABCDEFGHJKLMNPQRSTUVWXYZ23456789".
Definition inviteLen : nat := 8.

Definition ErrInvalidInviteCode : error := ErrNew "groups" "invalid invite code".

(** [inviteAlphabet[int(b)%len(inviteAlphabet)]] *)
Definition alphabet_letter (b : Z) : Z :=
  nth (Z.to_nat (b mod Z.of_nat (String.length inviteAlphabet))) (bytes_of inviteAlphabet) 0.

(** [buf] is what [rand.Read] filled in, or its error. *)
Definition NewInviteCode (rand : result (list Z)) : result string :=
  match rand with
  | Err e => Err e
  | Ok buf => Ok (string_of (alphabet_letter <$> buf))
  end.

(** [strings.ContainsRune(inviteAlphabet, r)]: the alphabet is ASCII. *)
Definition in_alphabet (r : Z) : bool := bool_decide (r ∈ bytes_of inviteAlphabet).

(** The loop over the runes of [strings.ToUpper(in)]: the bytes written to
    the builder, or the error of the first rune refused. *)
Fixpoint normalize_loop (rs : list Z) (b : list Z) : result (list Z) :=
  match rs with
  | [] => Ok b
  | r :: rs' =>
    if (r =? 45) || (r =? 32) then normalize_loop rs' b
    else if in_alphabet r then normalize_loop rs' (b ++ [r])
    else Err ErrInvalidInviteCode
  end.

Definition NormalizeInviteCode (inp : string) : result string :=
  match normalize_loop (to_upper_rune <$> runes inp) [] with
  | Err e => Err e
  | Ok b => if (length b =? inviteLen)%nat then Ok (string_of b) else Err ErrInvalidInviteCode
  end.

Definition FormatInviteCode (code : string) : string :=
  if (String.length code =? inviteLen)%nat
  then (String.substring 0 4 code +:+ "-" +:+ String.substring 4 4 code)%string
  else code.

(** ** What storage codes look like *)

Definition code_bytes_ok (bs : list Z) : Prop :=
  length bs = inviteLen ∧ Forall (λ b, b ∈ bytes_of inviteAlphabet) bs.

Definition storage_code (c : string) : Prop := code_bytes_ok (bytes_of c).

Lemma alphabet_small b :
  b ∈ bytes_of inviteAlphabet → (50 <= b <= 57 ∨ 65 <= b <= 90).
Proof.
  intros Hb%list_elem_of_In.
  assert (forallb (λ b, in_range 50 57 b || in_range 65 90 b) (bytes_of inviteAlphabet) = true) as H
    by reflexivity.
  rewrite forallb_forall in H. specialize (H b Hb). unfold in_range in H. lia.
Qed.

Lemma alphabet_letter_in b : alphabet_letter b ∈ bytes_of inviteAlphabet.
Proof.
  unfold alphabet_letter. rewrite list_elem_of_In. apply nth_In.
  change (length (bytes_of inviteAlphabet)) with 32%nat.
  change (Z.of_nat (String.length inviteAlphabet)) with 32.
  pose proof (Z.mod_pos_bound b 32). lia.
Qed.

Lemma code_bytes_range bs :
  Forall (λ b, b ∈ bytes_of inviteAlphabet) bs → Forall (λ b, 0 <= b < 128) bs.
Proof. intros H. eapply Forall_impl; [done|]. intros b Hb. apply alphabet_small in Hb. lia. Qed.

Lemma runes_ascii s :
  Forall (λ b, 0 <= b < 128) (bytes_of s) → runes s = bytes_of s.
Proof.
  intros H. unfold runes, runes_raw. rewrite runes_fuel_ascii by done.
  rewrite <- list_fmap_compose. apply list_fmap_id.
Qed.

Lemma to_upper_alphabet b : b ∈ bytes_of inviteAlphabet → to_upper_rune b = b.
Proof.
  intros Hb%alphabet_small. unfold to_upper_rune, in_range.
  repeat case_match; lia.
Qed.

Lemma normalize_loop_app rs1 rs2 b :
  normalize_loop (rs1 ++ rs2) b =
  match normalize_loop rs1 b with Ok b' => normalize_loop rs2 b' | Err e => Err e end.
Proof.
  revert b. induction rs1 as [|r rs1 IH]; intros b; simpl; [done|].
  destruct ((r =? 45) || (r =? 32)); [apply IH|].
  destruct (in_alphabet r); [apply IH|done].
Qed.

Lemma normalize_loop_alphabet bs b :
  Forall (λ x, x ∈ bytes_of inviteAlphabet) bs →
  normalize_loop (to_upper_rune <$> bs) b = Ok (b ++ bs).
Proof.
  intros H. revert b. induction H as [|x bs Hx H IH]; intros b; simpl.
  { by rewrite app_nil_r. }
  rewrite to_upper_alphabet by done.
  pose proof (alphabet_small x Hx) as Hr.
  assert (((x =? 45) || (x =? 32)) = false) as -> by lia.
  unfold in_alphabet. rewrite bool_decide_true by done.
  rewrite IH, <- app_assoc. done.
Qed.

Lemma normalize_loop_dash b : normalize_loop (to_upper_rune <$> [45]) b = Ok b.
Proof. reflexivity. Qed.

Lemma normalize_loop_ok rs b b' :
  normalize_loop rs b = Ok b' →
  Forall (λ x, x ∈ bytes_of inviteAlphabet) b → Forall (λ x, x ∈ bytes_of inviteAlphabet) b'.
Proof.
  revert b. induction rs as [|r rs IH]; intros b Hrun Hb; simpl in *; [congruence|].
  destruct ((r =? 45) || (r =? 32)); [eauto|].
  destruct (in_alphabet r) eqn:Hr; [|congruence].
  eapply IH; [done|]. apply Forall_app. split; [done|].
  constructor; [|done]. by apply bool_decide_eq_true in Hr.
Qed.

(** The bytes of a displayed code are the two halves around a dash. *)
Lemma format_bytes c :
  length (bytes_of c) = inviteLen →
  bytes_of (FormatInviteCode c) = take 4 (bytes_of c) ++ [45] ++ drop 4 (bytes_of c).
Proof.
  intros Hlen.
  destruct c as [|a0 [|a1 [|a2 [|a3 [|a4 [|a5 [|a6 [|a7 [|]]]]]]]]]; try discriminate Hlen.
  reflexivity.
Qed.

Lemma storage_code_string_of bs : code_bytes_ok bs → storage_code (string_of bs).
Proof.
  intros [Hlen Hall]. unfold storage_code.
  rewrite byte_string_byte by (eapply Forall_impl; [by apply code_bytes_range|]; simpl; lia).
  by split.
Qed.

Lemma normalize_storage inp c : NormalizeInviteCode inp = Ok c → storage_code c.
Proof.
  unfold NormalizeInviteCode.
  destruct (normalize_loop _ _) as [bs|e] eqn:Hloop; [|done].
  destruct (length bs =? inviteLen)%nat eqn:Hlen; [|done]. intros [= <-].
  apply storage_code_string_of. split; [by apply Nat.eqb_eq|].
  by eapply normalize_loop_ok.
Qed.

Lemma normalize_format c : storage_code c → NormalizeInviteCode (FormatInviteCode c) = Ok c.
Proof.
  intros [Hlen Hall]. unfold NormalizeInviteCode.
  pose proof (Forall_take _ 4%nat _ Hall) as H1. pose proof (Forall_drop _ 4%nat _ Hall) as H2.
  assert (runes (FormatInviteCode c) = take 4 (bytes_of c) ++ [45] ++ drop 4 (bytes_of c)) as ->.
  { rewrite runes_ascii, format_bytes by
      (done || rewrite format_bytes by done; repeat (apply Forall_app; split);
       repeat constructor; try lia; by apply code_bytes_range).
    done. }
  rewrite !fmap_app, !normalize_loop_app, normalize_loop_alphabet by done. cbv iota.
  rewrite normalize_loop_app, normalize_loop_dash. cbv iota.
  rewrite normalize_loop_alphabet, app_nil_l, take_drop, Hlen by done.
  by rewrite Nat.eqb_refl, string_bytes_string.
Qed.

(** ** Properties *)

(** Invite codes round-trip: every code [NewInviteCode] draws from eight
    random bytes is a storage code, and typing the form [FormatInviteCode]
    displays gives that storage code back; conversely whatever
    [NormalizeInviteCode] accepts is a storage code whose displayed form is
    accepted again, so a lookup by an accepted code never carries anything but
    eight alphabet letters. *)
Theorem invite_code_roundtrip (buf : list Z) :
  length buf = inviteLen →
  ∃ c, NewInviteCode (Ok buf) = Ok c ∧ storage_code c ∧
       NormalizeInviteCode (FormatInviteCode c) = Ok c ∧
       (∀ inp c', NormalizeInviteCode inp = Ok c' →
          storage_code c' ∧ NormalizeInviteCode (FormatInviteCode c') = Ok c').
Proof.
  intros Hbuf. exists (string_of (alphabet_letter <$> buf)).
  assert (storage_code (string_of (alphabet_letter <$> buf))) as Hc.
  { apply storage_code_string_of. split; [by rewrite length_fmap|].
    apply Forall_fmap, Forall_true. intros b. apply alphabet_letter_in. }
  split; [done|]. split; [done|]. split; [by apply normalize_format|].
  intros inp c' Hn%normalize_storage. auto using normalize_format.
Qed.

Lemma invite_code_roundtrip_witness :
  ∃ c, NewInviteCode (Ok [0; 33; 255; 7; 8; 9; 100; 24]) = Ok c ∧
       NormalizeInviteCode (FormatInviteCode c) = Ok c.
Proof.
  destruct (invite_code_roundtrip [0; 33; 255; 7; 8; 9; 100; 24] eq_refl) as (c & H1 & _ & H2 & _).
  exists c. split; [exact H1 | exact H2].
Defined.

(** The codes a user types: lower case and a space are accepted. *)
Example normalize_typed : NormalizeInviteCode "k7m9-qx2p" = Ok "K7M9QX2P".
Proof. reflexivity. Qed.
Example normalize_lookalike : NormalizeInviteCode "K7M9-QX20" = Err ErrInvalidInviteCode.
Proof. reflexivity. Qed.
