(* ===== verification/Catalog.v ===== *)
(** * Catalog: the places and interests users pick from (src/internal/catalog/catalog.go)

    The fixed lists, the maps [init] builds from them, and what it is for: every
    entry the profile editor offers can be looked up and is itself. *)

From S2P Require Import Prelude GoLib.
From Stdlib Require Import Strings.Ascii.

#[local] Open Scope Z_scope.

Record Place := mk_Place { pl_ID : string; pl_Name : string; pl_Country : string }.
Record Country := mk_Country { co_Code : string; co_Name : string; co_Places : list Place }.
Record Interest := mk_Interest { in_ID : string; in_Name : string; in_Category : string }.

Definition MaxInterests : Z := 10.

Definition asia : list (string * string * list string) := [
  ("th", "Thailand", [
     "Bangkok"; "Chiang Mai"; "Chiang Rai"; "Phuket"; "Pattaya"; "Khon Kaen"; "Hat Yai"; "Nakhon Ratchasima";
     "Udon Thani"; "Hua Hin"; "Ayutthaya"; "Nonthaburi"; "Surat Thani"; "Ubon Ratchathani"; "Mae Sot"]);
  ("mm", "Myanmar", [
     "Yangon"; "Mandalay"; "Naypyidaw"; "Mawlamyine"; "Bago"; "Taunggyi"; "Pathein"; "Monywa"; "Myitkyina";
     "Sittwe"; "Lashio"; "Dawei"; "Myeik"; "Hpa-An"; "Magway"; "Pyay"]);
  ("la", "Laos", ["Vientiane"; "Luang Prabang"; "Pakse"; "Savannakhet"]);
  ("kh", "Cambodia", ["Phnom Penh"; "Siem Reap"; "Battambang"; "Sihanoukville"]);
  ("vn", "Vietnam", ["Hanoi"; "Ho Chi Minh City"; "Da Nang"; "Hai Phong"; "Can Tho"; "Nha Trang"; "Hue"]);
  ("my", "Malaysia", ["Kuala Lumpur"; "Penang"; "Johor Bahru"; "Ipoh"; "Kota Kinabalu"; "Kuching"; "Malacca"]);
  ("sg", "Singapore", ["Singapore"]);
  ("id", "Indonesia", [
     "Jakarta"; "Surabaya"; "Bandung"; "Medan"; "Bali"; "Yogyakarta"; "Semarang"; "Makassar"]);
  ("ph", "Philippines", ["Manila"; "Quezon City"; "Cebu"; "Davao"]);
  ("bn", "Brunei", ["Bandar Seri Begawan"]);
  ("cn", "China", [
     "Beijing"; "Shanghai"; "Guangzhou"; "Shenzhen"; "Chengdu"; "Chongqing"; "Kunming"; "Hangzhou"; "Wuhan";
     "Xi'an"]);
  ("hk", "Hong Kong", ["Hong Kong"]);
  ("mo", "Macau", ["Macau"]);
  ("tw", "Taiwan", ["Taipei"; "Taichung"; "Kaohsiung"]);
  ("jp", "Japan", ["Tokyo"; "Osaka"; "Kyoto"; "Yokohama"; "Nagoya"; "Fukuoka"; "Sapporo"]);
  ("kr", "South Korea", ["Seoul"; "Busan"; "Incheon"; "Daegu"]);
  ("mn", "Mongolia", ["Ulaanbaatar"]);
  ("in", "India", ["Delhi"; "Mumbai"; "Bengaluru"; "Chennai"; "Kolkata"; "Hyderabad"; "Pune"]);
  ("bd", "Bangladesh", ["Dhaka"; "Chittagong"]);
  ("np", "Nepal", ["Kathmandu"; "Pokhara"]);
  ("lk", "Sri Lanka", ["Colombo"; "Kandy"]);
  ("pk", "Pakistan", ["Karachi"; "Lahore"; "Islamabad"]);
  ("bt", "Bhutan", ["Thimphu"]);
  ("mv", "Maldives", ["Malé"])].

Definition regions : list Place := [
  mk_Place "other-asia" "Elsewhere in Asia" EmptyString;
  mk_Place "middle-east" "Middle East" EmptyString;
  mk_Place "europe" "Europe" EmptyString;
  mk_Place "north-america" "North America" EmptyString;
  mk_Place "latin-america" "Latin America" EmptyString;
  mk_Place "africa" "Africa" EmptyString;
  mk_Place "oceania" "Oceania" EmptyString].

Definition interests : list Interest := [
  mk_Interest "gaming" "Video games" "Games"; mk_Interest "mobile_games" "Mobile games" "Games";
  mk_Interest "esports" "Esports" "Games"; mk_Interest "board_games" "Board games" "Games";
  mk_Interest "football" "Football" "Sports"; mk_Interest "basketball" "Basketball" "Sports";
  mk_Interest "badminton" "Badminton" "Sports"; mk_Interest "volleyball" "Volleyball" "Sports";
  mk_Interest "sepak_takraw" "Sepak takraw" "Sports"; mk_Interest "martial_arts" "Martial arts" "Sports";
  mk_Interest "swimming" "Swimming" "Sports"; mk_Interest "running" "Running" "Sports";
  mk_Interest "cycling" "Cycling" "Sports"; mk_Interest "gym" "Gym & fitness" "Sports";
  mk_Interest "music" "Music" "Music"; mk_Interest "kpop" "K-pop" "Music"; mk_Interest "jpop" "J-pop" "Music";
  mk_Interest "rock" "Rock" "Music"; mk_Interest "hiphop" "Hip-hop" "Music"; mk_Interest "edm" "EDM" "Music";
  mk_Interest "instruments" "Playing instruments" "Music"; mk_Interest "singing" "Singing" "Music";
  mk_Interest "movies" "Movies" "Entertainment"; mk_Interest "tv_series" "TV series" "Entertainment";
  mk_Interest "kdrama" "K-drama" "Entertainment"; mk_Interest "anime" "Anime" "Entertainment";
  mk_Interest "manga" "Manga & comics" "Entertainment"; mk_Interest "art" "Art & drawing" "Creative";
  mk_Interest "photography" "Photography" "Creative"; mk_Interest "writing" "Writing" "Creative";
  mk_Interest "design" "Design" "Creative"; mk_Interest "fashion" "Fashion" "Creative";
  mk_Interest "makeup" "Makeup & beauty" "Creative"; mk_Interest "coding" "Coding" "Tech";
  mk_Interest "tech" "Technology" "Tech"; mk_Interest "ai" "AI" "Tech"; mk_Interest "gadgets" "Gadgets" "Tech";
  mk_Interest "travel" "Travel" "Lifestyle"; mk_Interest "food" "Food" "Lifestyle";
  mk_Interest "cooking" "Cooking" "Lifestyle"; mk_Interest "coffee" "Coffee & cafés" "Lifestyle";
  mk_Interest "pets" "Pets" "Lifestyle"; mk_Interest "nature" "Nature" "Lifestyle";
  mk_Interest "hiking" "Hiking & camping" "Lifestyle"; mk_Interest "meditation" "Meditation" "Lifestyle";
  mk_Interest "reading" "Reading" "Learning"; mk_Interest "languages" "Languages" "Learning";
  mk_Interest "science" "Science" "Learning"; mk_Interest "history" "History" "Learning";
  mk_Interest "business" "Business" "Learning"; mk_Interest "volunteering" "Volunteering" "Learning"].

(** The replacer turns a space into a dash and an e acute into an e and drops an
    apostrophe; then ToLower.  Every name of the list is ASCII but for that one
    letter. *)
Fixpoint slug_bytes (bs : list Z) : list Z :=
  match bs with
  | [] => []
  | 0xC3 :: 0xA9 :: bs => 101 :: slug_bytes bs
  | b :: bs =>
    if b =? 32 then 45 :: slug_bytes bs
    else if b =? 39 then slug_bytes bs
    else (if in_range 65 90 b then b + 32 else b) :: slug_bytes bs
  end.
Definition slug (s : string) : string := string_of (slug_bytes (bytes_of s)).

(** ** [init] *)

Definition country_of (c : string * string * list string) : Country :=
  let '(code, name, cities) := c in
  mk_Country code name
    (((λ city, mk_Place (code +:+ "-" +:+ slug city) city code) <$> cities) ++
     (if (1 <? Z.of_nat (length cities))%Z then [mk_Place code ("Other city in " +:+ name) code] else [])).

Definition countries : list Country := country_of <$> asia.

(** The entries of [placeByID], in the order they are written. *)
Definition places : list Place := mjoin (co_Places <$> countries) ++ regions.

Definition placeByID : gmap string Place := foldl (λ m p, <[pl_ID p := p]> m) ∅ places.
Definition interestOK : gset string := list_to_set (in_ID <$> interests).

Definition LookupPlace (id : string) : option Place := placeByID !! id.
Definition ValidInterest (id : string) : bool := bool_decide (id ∈ interestOK).

Record Options := mk_Options {
  op_Countries : list Country;
  op_Regions : list Place;
  op_Interests : list Interest;
  op_MaxInterests : Z;
}.
Definition AllOptions : Options := mk_Options countries regions interests MaxInterests.

(** ** The lists are consistent *)

Definition ids_differ : bool := bool_decide (NoDup (pl_ID <$> places)) && bool_decide (NoDup (in_ID <$> interests)).

Lemma ids_differ_true : ids_differ = true.
Proof. vm_compute. reflexivity. Qed.

Lemma foldl_insert_lookup (l : list Place) (m : gmap string Place) p :
  NoDup (pl_ID <$> l) → p ∈ l → foldl (λ m p, <[pl_ID p := p]> m) m l !! pl_ID p = Some p.
Proof.
  revert m. induction l as [|q l IH]; intros m Hnd Hp; [by apply not_elem_of_nil in Hp|].
  apply NoDup_cons in Hnd as [Hq Hnd]. apply elem_of_cons in Hp as [->|Hp]; [|by apply IH]. simpl.
  assert (∀ m' : gmap string Place, m' !! pl_ID q = Some q → foldl (λ (m : gmap string Place) p, <[pl_ID p := p]> m) m' l !! pl_ID q = Some q) as Hkeep.
  { clear -Hq. induction l as [|r l IH]; intros m' Hm; [done|]. simpl in *. apply IH.
    - intros Hin. apply Hq. by apply list_elem_of_further.
    - rewrite lookup_insert_ne; [done|]. intros E. apply Hq. rewrite <- E. apply list_elem_of_here. }
  apply Hkeep, lookup_insert_eq.
Qed.

Lemma foldl_insert_inv (l : list Place) (m : gmap string Place) id p :
  foldl (λ m p, <[pl_ID p := p]> m) m l !! id = Some p → (p ∈ l ∧ pl_ID p = id) ∨ m !! id = Some p.
Proof.
  revert m. induction l as [|q l IH]; intros m H; [by right|]. simpl in H. apply IH in H as [[Hp Hid]|H].
  - left. split; [by apply list_elem_of_further|done].
  - apply lookup_insert_Some in H as [[<- <-]|[_ H]]; [left; split; [apply list_elem_of_here|done]|by right].
Qed.

(** Every place and interest the editor offers is accepted and is itself, and nothing
    else is accepted. *)
Theorem catalog_lookup p id :
  (p ∈ places → LookupPlace (pl_ID p) = Some p) ∧
  (LookupPlace id = Some p → p ∈ mjoin (co_Places <$> op_Countries AllOptions) ++ op_Regions AllOptions ∧ pl_ID p = id) ∧
  (ValidInterest id = true ↔ ∃ i, i ∈ op_Interests AllOptions ∧ in_ID i = id).
Proof.
  pose proof ids_differ_true as Hids. apply andb_true_iff in Hids as [Hp _]. apply bool_decide_eq_true in Hp.
  split; [intros H; by apply foldl_insert_lookup|]. split.
  - intros H. apply foldl_insert_inv in H as [H|H]; [exact H|by rewrite lookup_empty in H].
  - unfold ValidInterest, interestOK. rewrite bool_decide_eq_true, elem_of_list_to_set, list_elem_of_fmap. naive_solver.
Qed.
