(* ===== verification/Chat_Emoji.v ===== *)
(** * Chat_Emoji: what counts as one emoji (src/internal/chat/emoji.go)

    [ValidateEmoji] is the code's hand-written scanner.  The grammar its comment describes
    (a flag, a keycap, pictographs joined by ZWJ) reads a text as the pieces between the
    joiners; [documented] has each piece as the comment does, [lenient] with any
    modifiers in any number.  [validate_emoji_grammar] proves what the scanner accepts
    to be the second, and the first to be part of it; [two_tones_accepted] that they differ. *)

From S2P Require Import Prelude GoLib.

#[local] Open Scope Z_scope.

Definition ErrNotAnEmoji : error := ErrNew "chat" "emoji must be a single emoji".

Definition maxEmojiBytes : nat := 64.

Definition isPictographic (r : Z) : bool :=
  in_range 0x1F300 0x1FAFF r
  || in_range 0x2600 0x27BF r
  || in_range 0x2B00 0x2BFF r
  || in_range 0x2190 0x21FF r
  || in_range 0x2300 0x23FF r
  || in_range 0x1F000 0x1F2FF r
  || (r =? 0x00A9) || (r =? 0x00AE) || (r =? 0x203C) || (r =? 0x2049)
  || (r =? 0x2122) || (r =? 0x2139)
  || (r =? 0x3030) || (r =? 0x303D) || (r =? 0x3297) || (r =? 0x3299).

Definition zwj : Z := 0x200D.
Definition vs16 : Z := 0xFE0F.
Definition keycapMark : Z := 0x20E3.

Definition isSkinTone (r : Z) : bool := in_range 0x1F3FB 0x1F3FF r.
Definition isRegional (r : Z) : bool := in_range 0x1F1E6 0x1F1FF r.
Definition isTag (r : Z) : bool := in_range 0xE0020 0xE007F r.

(** [(r >= '0' && r <= '9') || r == '#' || r == '*'] *)
Definition is_keycap_base (r : Z) : bool := in_range 48 57 r || (r =? 35) || (r =? 42).

(** The loop over the pictograph sequence and the check after it. *)
Fixpoint picto_loop (expectBase : bool) (rs : list Z) : result unit :=
  match rs with
  | [] => if expectBase then Err ErrNotAnEmoji else Ok tt
  | r :: rs' =>
    if expectBase then
      if isPictographic r then picto_loop false rs' else Err ErrNotAnEmoji
    else if (r =? vs16) || isSkinTone r || isTag r then picto_loop false rs'
    else if r =? zwj then picto_loop true rs'
    else Err ErrNotAnEmoji
  end.

Definition ValidateEmoji (s : string) : result unit :=
  if (String.length s =? 0)%nat || (maxEmojiBytes <? String.length s)%nat || negb (ValidString s)
  then Err ErrNotAnEmoji
  else
    match runes s with
    | [] => Err ErrNotAnEmoji (* a non-empty string has a first rune *)
    | r0 :: rest =>
      if isRegional r0 then
        match rest with
        | [r1] => if isRegional r1 then Ok tt else Err ErrNotAnEmoji
        | _ => Err ErrNotAnEmoji
        end
      else if is_keycap_base r0 then
        match rest with
        | [r1] => if r1 =? keycapMark then Ok tt else Err ErrNotAnEmoji
        | [r1; r2] => if (r1 =? vs16) && (r2 =? keycapMark) then Ok tt else Err ErrNotAnEmoji
        | _ => Err ErrNotAnEmoji
        end
      else picto_loop true (r0 :: rest)
    end.

(** ** The grammar *)

(** The pieces of a text between joiners. *)
Fixpoint pieces (rs : list Z) : list (list Z) :=
  match rs with
  | [] => [[]]
  | r :: rs =>
    if r =? zwj then [] :: pieces rs
    else match pieces rs with
         | p :: ps => (r :: p) :: ps
         | [] => [[r]]
         end
  end.

Definition modifier (r : Z) : bool := (r =? vs16) || isSkinTone r || isTag r.

(** A pictograph and what the comment lets follow it: a variation selector if any, a skin
    tone if any, the tags of a flag if any. *)
Definition optional (p : Z → bool) (rs : list Z) : list Z :=
  match rs with r :: rest => if p r then rest else rs | [] => [] end.
Definition documented_piece (p : list Z) : bool :=
  match p with
  | b :: mods => isPictographic b && forallb isTag (optional isSkinTone (optional (Z.eqb vs16) mods))
  | [] => false
  end.

(** A pictograph and any modifiers. *)
Definition lenient_piece (p : list Z) : bool :=
  match p with b :: mods => isPictographic b && forallb modifier mods | [] => false end.

(** Two regional indicators; [0-9#*] FE0F? 20E3; or pieces, of which the first does not
    start with a regional indicator. *)
Definition flag (rs : list Z) : Prop := ∃ r0 r1, rs = [r0; r1] ∧ isRegional r0 = true ∧ isRegional r1 = true.
Definition keycap (rs : list Z) : Prop := ∃ r, is_keycap_base r = true ∧ (rs = [r; keycapMark] ∨ rs = [r; vs16; keycapMark]).
Definition joined (piece : list Z → bool) (rs : list Z) : Prop :=
  (∀ r0 rest, rs = r0 :: rest → isRegional r0 = false) ∧ forallb piece (pieces rs) = true.
Definition emoji_of (piece : list Z → bool) (rs : list Z) : Prop := flag rs ∨ keycap rs ∨ joined piece rs.

Definition documented : list Z → Prop := emoji_of documented_piece.
Definition lenient : list Z → Prop := emoji_of lenient_piece.

Lemma optional_incl p q rs : (∀ r, p r = true → q r = true) → forallb q (optional p rs) = true → forallb q rs = true.
Proof. intros Hp. destruct rs as [|r rs]; [done|]. simpl. destruct (p r) eqn:E; [|done]. by rewrite (Hp r E). Qed.

Lemma documented_piece_lenient p : documented_piece p = true → lenient_piece p = true.
Proof.
  destruct p as [|b mods]; [done|]. simpl. rewrite !andb_true_iff. intros [-> H]. split; [done|].
  eapply (optional_incl (Z.eqb vs16)); [intros r Hr%Z.eqb_eq; unfold modifier; subst; done|].
  eapply (optional_incl isSkinTone); [intros r Hr; unfold modifier; by rewrite Hr, orb_true_r|].
  apply forallb_forall. intros r Hr. rewrite forallb_forall in H. unfold modifier. by rewrite (H r Hr), orb_true_r.
Qed.

Lemma documented_lenient rs : documented rs → lenient rs.
Proof.
  intros [?|[?|[Hr Hp]]]; [by left|by right; left|right; right]. split; [done|].
  apply forallb_forall. intros p Hin. rewrite forallb_forall in Hp. by apply documented_piece_lenient, Hp.
Qed.

Lemma pieces_cons rs : ∃ p ps, pieces rs = p :: ps.
Proof. induction rs as [|r rs (p & ps & IH)]; [by do 2 eexists|]. simpl. rewrite IH. destruct (r =? zwj); by do 2 eexists. Qed.

Lemma picto_loop_answers b rs : picto_loop b rs = Ok tt ∨ picto_loop b rs = Err ErrNotAnEmoji.
Proof. revert b. induction rs as [|r rs IH]; intros [|]; simpl; auto; repeat case_match; auto. Qed.

(** What the scanner makes of the rest of a piece, and of the pieces after it. *)
Lemma picto_loop_pieces rs :
  (picto_loop true rs = Ok tt ↔ forallb lenient_piece (pieces rs) = true) ∧
  (picto_loop false rs = Ok tt ↔ ∃ p ps, pieces rs = p :: ps ∧ forallb modifier p = true ∧ forallb lenient_piece ps = true).
Proof.
  induction rs as [|r rs [IHt IHf]].
  { split; [done|]. split; [intros _; by exists [], []|done]. }
  destruct (pieces_cons rs) as (p & ps & E). cbn [picto_loop pieces]. rewrite E. destruct (Z.eqb_spec r zwj) as [->|Hne].
  - split; [done|]. change ((zwj =? vs16) || isSkinTone zwj || isTag zwj) with false. cbv iota. rewrite IHt, E.
    split; [intros H; by exists [], (p :: ps)|by intros (p' & ps' & [= <- <-] & _ & H)].
  - split.
    + simpl. destruct (isPictographic r); [|done]. rewrite IHf, E, andb_true_iff.
      split; [by intros (p' & ps' & [= <- <-] & H)|intros H; by exists p, ps].
    + change ((r =? vs16) || isSkinTone r || isTag r) with (modifier r). destruct (modifier r) eqn:Em.
      * rewrite IHf, E. split.
        -- intros (p' & ps' & [= <- <-] & H1 & H2). exists (r :: p), ps. simpl. by rewrite Em.
        -- intros (p' & ps' & [= <- <-] & H1 & H2). exists p, ps. simpl in H1. by rewrite Em in H1.
      * split; [done|]. intros (p' & ps' & [= <- <-] & H1 & _). simpl in H1. by rewrite Em in H1.
Qed.

Lemma keycap_base_not_picto r :
  is_keycap_base r = true → isRegional r = false ∧ isPictographic r = false.
Proof.
  unfold is_keycap_base, isRegional, isPictographic, in_range. split; lia.
Qed.

(** A text of pieces starts with a pictograph. *)
Lemma joined_head r0 rest : joined lenient_piece (r0 :: rest) → isRegional r0 = false ∧ is_keycap_base r0 = false.
Proof.
  intros [Hr Hp]. split; [by eapply Hr|]. destruct (is_keycap_base r0) eqn:Hk; [|done].
  destruct (keycap_base_not_picto r0 Hk) as [_ Hn]. destruct (pieces_cons rest) as (p & ps & E). revert Hp. simpl. rewrite E.
  destruct (r0 =? zwj); simpl; [done|by rewrite Hn].
Qed.

(** The scanner after the length and UTF-8 checks. *)
Lemma validate_runes r0 rest :
  (if isRegional r0 then
     match rest with [r1] => if isRegional r1 then Ok tt else Err ErrNotAnEmoji | _ => Err ErrNotAnEmoji end
   else if is_keycap_base r0 then
     match rest with
     | [r1] => if r1 =? keycapMark then Ok tt else Err ErrNotAnEmoji
     | [r1; r2] => if (r1 =? vs16) && (r2 =? keycapMark) then Ok tt else Err ErrNotAnEmoji
     | _ => Err ErrNotAnEmoji
     end
   else picto_loop true (r0 :: rest)) = Ok tt ↔ lenient (r0 :: rest).
Proof.
  split.
  - destruct (isRegional r0) eqn:H0.
    { destruct rest as [|r1 [|]]; try done. destruct (isRegional r1) eqn:H1; [|done].
      intros _. left. by exists r0, r1. }
    destruct (is_keycap_base r0) eqn:Hk.
    { destruct rest as [|r1 [|r2 [|]]]; try done.
      - destruct (Z.eqb_spec r1 keycapMark) as [->|]; [|done]. intros _. right; left. exists r0. split; [done|by left].
      - destruct (Z.eqb_spec r1 vs16) as [->|], (Z.eqb_spec r2 keycapMark) as [->|]; try done.
        intros _. right; left. exists r0. split; [done|by right]. }
    intros H%picto_loop_pieces. right; right. split; [by intros ? ? [= <- <-]|exact H].
  - intros [(? & ? & [= -> ->] & H0 & H1)|[(? & Hk & [[= -> ->]|[= -> ->]])|Hj]].
    + by rewrite H0, H1.
    + destruct (keycap_base_not_picto _ Hk) as [-> _]. by rewrite Hk.
    + destruct (keycap_base_not_picto _ Hk) as [-> _]. by rewrite Hk.
    + destruct (joined_head _ _ Hj) as [-> ->]. apply picto_loop_pieces, Hj.
Qed.

Lemma runes_nonempty s : (String.length s =? 0)%nat = false → runes s ≠ [].
Proof.
  destruct s as [|a s]; [done|]. intros _. unfold runes, runes_raw. simpl.
  by destruct (decode_rune _).
Qed.

(** What is looked at before the runes. *)
Definition short_text (s : string) : Prop := (0 < String.length s ≤ maxEmojiBytes)%nat ∧ ValidString s = true.

Lemma validate_lenient s : ValidateEmoji s = Ok tt ↔ short_text s ∧ lenient (runes s).
Proof.
  unfold ValidateEmoji, short_text.
  destruct (String.length s =? 0)%nat eqn:H0; simpl.
  { apply Nat.eqb_eq in H0. split; [done|lia]. }
  destruct (maxEmojiBytes <? String.length s)%nat eqn:H1; simpl.
  { apply Nat.ltb_lt in H1. split; [done|lia]. }
  apply Nat.ltb_ge in H1. pose proof (proj1 (Nat.eqb_neq _ _) H0) as H0'.
  destruct (ValidString s) eqn:Hv; simpl; [|naive_solver].
  pose proof (runes_nonempty s H0) as Hne.
  destruct (runes s) as [|r0 rest]; [done|].
  rewrite validate_runes. split; [intros Hone; repeat split; auto; lia | tauto].
Qed.

(** C40. [ValidateEmoji] takes every emoji its comment describes, of 1 to 64 bytes of valid
    UTF-8: a flag, a keycap, or pictographs joined by ZWJ, each with a variation selector, a
    skin tone and tags, all optional.  What it takes beyond those are texts of the same form
    whose pictographs have any modifiers in any number and order: a second emoji, text, a
    joiner at either end and a lone regional indicator at the start are always refused, with
    ErrNotAnEmoji. *)
Theorem validate_emoji_grammar (s : string) :
  (short_text s → documented (runes s) → ValidateEmoji s = Ok tt) ∧
  (ValidateEmoji s = Ok tt ↔ short_text s ∧ lenient (runes s)) ∧
  (ValidateEmoji s = Ok tt ∨ ValidateEmoji s = Err ErrNotAnEmoji).
Proof.
  split_and!; [intros Hs Hd; apply validate_lenient; by split; [|apply documented_lenient]|apply validate_lenient|].
  unfold ValidateEmoji. repeat case_match; auto using picto_loop_answers.
Qed.

Definition thumb_with_tone : string := string_of [0xF0;0x9F;0x91;0x8D;0xF0;0x9F;0x8F;0xBD].

Lemma validate_emoji_grammar_witness : ValidateEmoji thumb_with_tone = Ok tt.
Proof.
  apply (proj1 (validate_emoji_grammar thumb_with_tone)); [split; [split; apply Nat.leb_le; reflexivity|reflexivity]|].
  right; right. split; [by intros ? ? [= <- <-]|reflexivity].
Defined.

(** A thumbs-up with two skin tones is no emoji of the comment, and is accepted. *)
Lemma two_tones_accepted :
  let s := string_of [0xF0;0x9F;0x91;0x8D;0xF0;0x9F;0x8F;0xBD;0xF0;0x9F;0x8F;0xBD] in ValidateEmoji s = Ok tt ∧ ¬ documented (runes s).
Proof.
  split; [reflexivity|]. intros [(? & ? & H & _)|[(? & _ & [H|H])|[_ H]]]; vm_compute in H; discriminate H.
Qed.

(** The scanner on concrete bytes: a thumbs-up with a skin tone, a keycap, a
    flag; two emoji in a row and a trailing ZWJ are refused. *)
Example emoji_thumb : ValidateEmoji (string_of [0xF0;0x9F;0x91;0x8D;0xF0;0x9F;0x8F;0xBD]) = Ok tt.
Proof. reflexivity. Qed.
Example emoji_keycap_one : ValidateEmoji (string_of [0x31;0xEF;0xB8;0x8F;0xE2;0x83;0xA3]) = Ok tt.
Proof. reflexivity. Qed.
Example emoji_two : ValidateEmoji (string_of [0xF0;0x9F;0x91;0x8D;0xF0;0x9F;0x91;0x8D]) = Err ErrNotAnEmoji.
Proof. reflexivity. Qed.
Example emoji_trailing_zwj : ValidateEmoji (string_of [0xF0;0x9F;0x91;0x8D;0xE2;0x80;0x8D]) = Err ErrNotAnEmoji.
Proof. reflexivity. Qed.
