(* ===== verification/Versioned.v ===== *)
(** * Versioned: the versioned cache (src/internal/platform/redisx/versioned.go)

    One JSON value per id next to a version counter.  The first part gives the
    operations as programs over a Redis cache whose calls may fail; the second
    interleaves any number of readers and writers of one id, each Redis command
    and each commit being one step, and shows when the cache can hold a value
    that PostgreSQL has replaced. *)

From S2P Require Import Prelude.

#[local] Open Scope Z_scope.

(** The keys of one [Versioned]: [c_val] is {prefix}{id}, [c_ver] is
    {prefix}{id}:ver.  Ids are uuid strings, so the two key families are
    disjoint and are kept as two maps. *)
Record cache (T : Type) := mk_cache {
  c_val : gmap string T;
  c_ver : gmap string Z;
}.
Arguments mk_cache {T} _ _.
Arguments c_val {T} _.
Arguments c_ver {T} _.

Definition empty_cache {T} : cache T := mk_cache ∅ ∅.

(** *** The Redis commands *)

Definition cache_version {T} (id : string) (c : cache T) : Z := default 0 (c_ver c !! id).

Definition cache_set {T} (id : string) (v : T) (c : cache T) : cache T :=
  mk_cache (<[id := v]> (c_val c)) (c_ver c).

(** INCR, EXPIRE, DEL of one id. *)
Definition cache_bump {T} (id : string) (c : cache T) : cache T :=
  mk_cache (delete id (c_val c)) (<[id := cache_version id c + 1]> (c_ver c)).

Definition cache_bump_all {T} (ids : list string) (c : cache T) : cache T :=
  foldl (λ c id, cache_bump id c) c ids.

(** ** The operations *)

Class HasCache (S T : Type) := {
  cache_of : S → cache T;
  set_cache : cache T → S → S;
}.

Section operations.
Context {S T : Type} `{Faulty S} `{HasCache S T}.

Definition Get (id : string) : M S (option T) :=
  io (get (λ s, c_val (cache_of s) !! id)).

Definition Version (id : string) : M S Z :=
  io (get (λ s, cache_version id (cache_of s))).

(** WATCH/GET of the counter, then MULTI/SET/EXEC if it still is [version].
    (The EXEC that finds the counter touched is the interleaved model's.) *)
Definition Put (id : string) (version : Z) (val : T) : M S unit :=
  cur ← io (get (λ s, cache_version id (cache_of s)));
  if cur =? version
  then io (modify (λ s, set_cache (cache_set id val (cache_of s)) s))
  else mret tt.

Definition Invalidate (ids : list string) : M S unit :=
  io (modify (λ s, set_cache (cache_bump_all ids (cache_of s)) s)).

Definition Load (id : string) (load : M S T) : M S T :=
  r ← try (Get id);
  match r with
  | Ok (Some val) => mret val
  | _ => (* a miss, or a cache error, which is only reported *)
    ver ← try (Version id);
    val ← load;
    match ver with
    | Err _ => mret val
    | Ok version => _ ← try (Put id version val); mret val
    end
  end.
End operations.

(** What a load means for its caller: the answer is the cached value or what
    the loader returned, whatever fails in Redis. *)
Section load_laws.
Context {S T : Type} `{Faulty S} `{HasCache S T}.

(** [Q] holds of every value of the cache entry, and the loader only returns
    values of which [Q] holds and errors of which [E] holds. *)
Lemma Load_spec (id : string) (load : M S T) (P : S → Prop) (Q : T → Prop) (E : error → Prop) :
  (∀ s b fs, faults s = b :: fs → P s → P (set_faults fs s)) →
  (∀ s v, P s → Q v → P (set_cache (cache_set id v (cache_of s)) s)) →
  (∀ s v, P s → c_val (cache_of s) !! id = Some v → Q v) →
  hoare P load (λ v s, P s ∧ Q v) (λ e s, P s ∧ E e) →
  hoare P (Load id load) (λ v s, P s ∧ Q v) (λ e s, P s ∧ E e).
Proof.
  intros Hf Hc Hhit Hload.
  assert (∀ A (m : M S A), hoare P m (λ _ s, P s) (λ _ s, P s) →
            hoare P (io m) (λ _ s, P s) (λ _ s, P s)) as Hio.
  { intros A m Hm s HP. unfold io. destruct (faults s) as [|[] fs] eqn:Hfs; [by apply Hm| by eauto |].
    apply Hm. eauto. }
  unfold Load. eapply hoare_bind with
    (R := λ r s, P s ∧ match r with Ok (Some v) => Q v | _ => True end).
  { intros s HP. unfold try, Get, io, get.
    destruct (faults s) as [|[] fs] eqn:Hfs; simpl; (split; [by eauto|]).
    - destruct (c_val _ !! id) eqn:Hv; eauto.
    - done.
    - destruct (c_val _ !! id) eqn:Hv; eauto. }
  assert (hoare P (ver ← try (Version id); val ← load;
     match ver with Err _ => mret val | Ok version => _ ← try (Put id version val); mret val end)
     (λ v s, P s ∧ Q v) (λ e s, P s ∧ E e)) as Hmiss.
  { eapply hoare_bind with (R := λ _ s, P s).
    { apply hoare_try, Hio. by intros s HP. }
    intros ver. eapply hoare_bind; [exact Hload|]. intros val. destruct ver as [version|e].
    - eapply hoare_bind with (R := λ _ s, P s ∧ Q val); [|intros []; by apply hoare_ret].
      intros s [HP HQ]. pose proof (hoare_try (Put id version val) P (λ _ s, P s) (λ _ _, False)) as Ht.
      assert (hoare P (Put id version val) (λ _ s, P s) (λ _ s, P s)) as Hput.
      { unfold Put. eapply hoare_bind; [apply Hio; by intros s' HP'|]. intros cur.
        destruct (cur =? version); [|by apply hoare_ret]. apply Hio. intros s' HP'. simpl. auto. }
      specialize (Ht Hput s HP). by destruct (try (Put id version val) s) as [[a|e] s'].
    - by apply hoare_ret. }
  intros [[v|]|e].
  - apply hoare_ret. tauto.
  - eapply hoare_conseq; [exact Hmiss|tauto|done|done].
  - eapply hoare_conseq; [exact Hmiss|tauto|done|done].
Qed.
End load_laws.

(** ** Interleaved readers and writers of one id *)

(** The life of one [Load] after its cache miss.  [clean] is false once a
    write has been committed since the load from PostgreSQL began: the loaders
    run several queries, so such a load may return any mixture. *)
Inductive reader (T : Type) : Type :=
  | RMissed                          (* Get found nothing *)
  | RVersioned (v : Z)               (* Version returned v *)
  | RLoading (v : Z) (clean : bool)  (* load is running *)
  | RLoaded (v : Z) (val : T)        (* load returned val *)
  | RWatching (val : T) (dirty : bool) (* Put saw the same version; EXEC is next *)
  | RDone.
Arguments RMissed {T}.
Arguments RVersioned {T} v.
Arguments RLoading {T} v clean.
Arguments RLoaded {T} v val.
Arguments RWatching {T} val dirty.
Arguments RDone {T}.

Record vstate (T : Type) := mk_vstate {
  v_db : T;                    (* what a load alone would return *)
  v_cache : cache T;
  v_pending : nat;             (* writers that committed and have not invalidated *)
  v_readers : gmap nat (reader T);
}.
Arguments mk_vstate {T} _ _ _ _.
Arguments v_db {T} _.
Arguments v_cache {T} _.
Arguments v_pending {T} _.
Arguments v_readers {T} _.

(** What a commit and a touched counter do to a reader in flight. *)
Definition on_commit {T} (r : reader T) : reader T :=
  match r with RLoading v _ => RLoading v false | _ => r end.
Definition on_touch {T} (r : reader T) : reader T :=
  match r with RWatching val _ => RWatching val true | _ => r end.

(** The counter key disappears: it expired, was evicted, or Redis was flushed. *)
Definition cache_lose_version {T} (id : string) (c : cache T) : cache T :=
  mk_cache (c_val c) (delete id (c_ver c)).
Definition cache_expire {T} (id : string) (c : cache T) : cache T :=
  mk_cache (delete id (c_val c)) (c_ver c).

Section interleaving.
Context {T : Type} (id : string).

Definition set_reader (n : nat) (r : reader T) (s : vstate T) : vstate T :=
  mk_vstate (v_db s) (v_cache s) (v_pending s) (<[n := r]> (v_readers s)).

(** [lossy] allows the counter itself to be lost. *)
Inductive vstep (lossy : bool) : vstate T → vstate T → Prop :=
  | step_miss s n :
      v_readers s !! n = None →
      vstep lossy s (set_reader n RMissed s)
  | step_version s n :
      v_readers s !! n = Some RMissed →
      vstep lossy s (set_reader n (RVersioned (cache_version id (v_cache s))) s)
  | step_load_begin s n v :
      v_readers s !! n = Some (RVersioned v) →
      vstep lossy s (set_reader n (RLoading v true) s)
  | step_load_end s n v clean val :
      v_readers s !! n = Some (RLoading v clean) →
      (clean = true → val = v_db s) →
      vstep lossy s (set_reader n (RLoaded v val) s)
  | step_put_watch s n v val :
      v_readers s !! n = Some (RLoaded v val) →
      vstep lossy s (set_reader n
        (if cache_version id (v_cache s) =? v then RWatching val false else RDone) s)
  | step_put_exec s n val :
      v_readers s !! n = Some (RWatching val false) →
      vstep lossy s (mk_vstate (v_db s) (cache_set id val (v_cache s)) (v_pending s)
                       (<[n := RDone]> (v_readers s)))
  | step_put_abort s n val :
      v_readers s !! n = Some (RWatching val true) →
      vstep lossy s (set_reader n RDone s)
  | step_commit s d :
      vstep lossy s (mk_vstate d (v_cache s) (S (v_pending s)) (on_commit <$> v_readers s))
  | step_invalidate s p :
      v_pending s = S p →
      vstep lossy s (mk_vstate (v_db s) (cache_bump_all [id] (v_cache s)) p (on_touch <$> v_readers s))
  | step_expire s :
      vstep lossy s (mk_vstate (v_db s) (cache_expire id (v_cache s)) (v_pending s) (v_readers s))
  | step_lose s :
      lossy = true →
      vstep lossy s (mk_vstate (v_db s) (cache_lose_version id (v_cache s)) (v_pending s)
                       (on_touch <$> v_readers s)).

Definition fresh_start (d : T) : vstate T := mk_vstate d empty_cache 0 ∅.

(** What is known of a reader: it never holds a version from the future, and
    once every committed write is invalidated, a reader whose version is
    still current has seen nothing old. *)
Definition reader_ok (s : vstate T) (r : reader T) : Prop :=
  let cur := cache_version id (v_cache s) in
  match r with
  | RMissed | RDone => True
  | RVersioned v => v ≤ cur
  | RLoading v clean => v ≤ cur ∧ (v = cur → v_pending s = 0%nat → clean = true)
  | RLoaded v val => v ≤ cur ∧ (v = cur → v_pending s = 0%nat → val = v_db s)
  | RWatching val dirty => dirty = false → v_pending s = 0%nat → val = v_db s
  end.

Definition vinv (s : vstate T) : Prop :=
  (∀ x, c_val (v_cache s) !! id = Some x → v_pending s = 0%nat → x = v_db s) ∧
  (∀ n r, v_readers s !! n = Some r → reader_ok s r).

Lemma vinv_set_reader s n r : vinv s → reader_ok s r → vinv (set_reader n r s).
Proof.
  intros [Hc Hr] Hok. split; [exact Hc|]. intros m r' Hm. simpl in Hm.
  destruct (decide (n = m)) as [->|Hne]; simplify_map_eq; [exact Hok|].
  exact (Hr m r' Hm).
Qed.

Lemma cache_version_bump (c : cache T) :
  cache_version id (cache_bump id c) = cache_version id c + 1.
Proof. unfold cache_version, cache_bump. simpl. by simplify_map_eq. Qed.

Lemma vinv_step s s' : vinv s → vstep false s s' → vinv s'.
Proof.
  intros Hinv Hstep. pose proof Hinv as [Hc Hr].
  inversion Hstep as [?? H|?? H|??? H|????? H Hval|???? H|??? H|??? H|??|?? H|?|?]; subst;
    try (apply vinv_set_reader; [done|]; try (specialize (Hr _ _ H); simpl in *); simpl; try done).
  - destruct Hr as [Hle Hcl]. split; [done|]. intros -> Hp. auto.
  - destruct Hr as [Hle Hv]. destruct (Z.eqb_spec (cache_version id (v_cache s)) v) as [<-|];
      simpl; auto.
  - split; simpl.
    + intros x. rewrite lookup_insert_eq. intros [= <-].
      by apply (Hr _ _ H).
    + intros m r Hm. destruct (decide (n = m)) as [<-|Hne].
      * rewrite lookup_insert_eq in Hm. by injection Hm as <-.
      * rewrite lookup_insert_ne in Hm by done. specialize (Hr m r Hm). destruct r; exact Hr.
  - split; simpl; [done|]. intros n r Hn.
    apply lookup_fmap_Some in Hn as (r0 & <- & Hn). specialize (Hr _ _ Hn).
    destruct r0; simpl in *; naive_solver.
  - split; simpl; [intros x Hx; by simplify_map_eq|].
    intros n r Hn. apply lookup_fmap_Some in Hn as (r0 & <- & Hn). specialize (Hr _ _ Hn).
    destruct r0; cbn [on_touch reader_ok v_cache v_pending v_db] in *; try done;
      rewrite cache_version_bump; [lia|split; [lia|intros ->; lia]..].
  - split; simpl; [intros x Hx; by simplify_map_eq|exact Hr].
  - done.
Qed.
End interleaving.

(** The promise of the version counter: as long as the counter itself is
    not lost, in every interleaving of readers and writers a cached value is
    the value PostgreSQL holds, unless some writer has committed and not yet
    invalidated.  In particular a slow read never puts back a value that a
    finished write has replaced. *)
Theorem versioned_never_stale {T} (id : string) (d : T) (s : vstate T) :
  reachable (vstep id false) (fresh_start d) s →
  ∀ x, c_val (v_cache s) !! id = Some x → x = v_db s ∨ (0 < v_pending s)%nat.
Proof.
  intros Hreach.
  assert (vinv id s) as [Hc _].
  { revert Hreach. apply reachable_invariant; [|intros ??; apply vinv_step].
    split; intros *; cbn [fresh_start v_cache v_readers c_val empty_cache];
      rewrite lookup_empty; discriminate. }
  intros x Hx. destruct (v_pending s) eqn:Hp; [left; eauto|right; lia].
Qed.

(** A run with a slow reader racing one writer: reader 0 loads the old value,
    the writer commits and invalidates, and the old value is not cached. *)
Definition race_prefix : vstate nat :=
  mk_vstate 1%nat (mk_cache ∅ {["k" := 1]}) 0 {[0%nat := RLoaded 0 0%nat]}.

Definition race_state (d : nat) (pending : nat) (r : reader nat) : vstate nat :=
  mk_vstate d empty_cache pending {[0%nat := r]}.

Lemma race_prefix_reachable lossy : reachable (vstep "k" lossy) (fresh_start 0%nat) race_prefix.
Proof.
  apply (reach_step _ _ (race_state 1 1 (RLoaded 0 0%nat)));
    [|exact (step_invalidate "k" lossy (race_state 1 1 (RLoaded 0 0%nat)) 0%nat eq_refl)].
  apply (reach_step _ _ (race_state 0 0 (RLoaded 0 0%nat)));
    [|exact (step_commit "k" lossy (race_state 0 0 (RLoaded 0 0%nat)) 1%nat)].
  apply (reach_step _ _ (race_state 0 0 (RLoading 0 true)));
    [|exact (step_load_end "k" lossy (race_state 0 0 (RLoading 0 true)) 0%nat 0 true 0%nat eq_refl (λ _, eq_refl))].
  apply (reach_step _ _ (race_state 0 0 (RVersioned 0)));
    [|exact (step_load_begin "k" lossy (race_state 0 0 (RVersioned 0)) 0%nat 0 eq_refl)].
  apply (reach_step _ _ (race_state 0 0 RMissed));
    [|exact (step_version "k" lossy (race_state 0 0 RMissed) 0%nat eq_refl)].
  apply (reach_step _ _ (fresh_start 0%nat));
    [|exact (step_miss "k" lossy (fresh_start 0%nat) 0%nat eq_refl)].
  apply reach_refl.
Qed.

Lemma versioned_never_stale_witness :
  ∃ s : vstate nat, reachable (vstep "k" false) (fresh_start 0%nat) s ∧
    v_db s = 1%nat ∧ ∀ x, c_val (v_cache s) !! "k" = Some x → x = 1%nat ∨ (0 < v_pending s)%nat.
Proof.
  exists race_prefix. split; [apply race_prefix_reachable|]. split; [reflexivity|].
  apply (versioned_never_stale "k" 0%nat race_prefix). apply race_prefix_reachable.
Defined.

(** The same promise does not survive the loss of the counter (its TTL, an
    eviction, or flushing Redis): after such a loss the counter reads 0 again,
    and a slow reader that saw 0 caches the replaced value although no write is
    pending. *)
Theorem lost_counter_makes_stale :
  ∃ s : vstate nat, reachable (vstep "k" true) (fresh_start 0%nat) s ∧
    v_pending s = 0%nat ∧ (∀ n r, v_readers s !! n = Some r → r = RDone) ∧
    ∃ x, c_val (v_cache s) !! "k" = Some x ∧ x ≠ v_db s.
Proof.
  exists (mk_vstate 1%nat (mk_cache {["k" := 0%nat]} ∅) 0 {[0%nat := RDone]}).
  split; [|split; [reflexivity|split]].
  - apply (reach_step _ _ (race_state 1 0 (RWatching 0%nat false)));
      [|exact (step_put_exec "k" true (race_state 1 0 (RWatching 0%nat false)) 0%nat 0%nat eq_refl)].
    apply (reach_step _ _ (race_state 1 0 (RLoaded 0 0%nat)));
      [|exact (step_put_watch "k" true (race_state 1 0 (RLoaded 0 0%nat)) 0%nat 0 0%nat eq_refl)].
    apply (reach_step _ _ race_prefix);
      [|exact (step_lose "k" true race_prefix eq_refl)].
    apply race_prefix_reachable.
  - intros n r Hn. simpl in Hn. by apply lookup_singleton_Some in Hn as [_ <-].
  - exists 0%nat. split; [reflexivity|]. simpl. lia.
Qed.
