(* ===== verification/Revoke.v ===== *)
(** * Revoke: ending access tokens early (src/internal/platform/revoke/revoke.go)

    The revocations in Redis and the short local memory of each server.  [RevokeAll] and
    [Revoked] are the operations as programs over any state that has them, for the requests
    that call them.  [Shared] has the calls of several servers on one Redis, cut where the
    code holds no lock; [RevokeAll_alone] and [Revoked_alone] say that the programs are
    those steps with no other call in between. *)

From S2P Require Import Prelude.

#[local] Open Scope Z_scope.

Definition localTTL : duration := 5 * second.

(** [e_revokedAt] is None for the zero time: not revoked. *)
Record entry := mk_entry { e_revokedAt : option time; e_checked : time }.

(** auth:revoked:{user} = unix milliseconds, with the time the key expires. *)
Abbreviation revoked_keys := (gmap uuid (Z * time)) (only parsing).

(** What one server sees: Redis, and [recent]. *)
Record revocations := mk_revocations { rv_redis : revoked_keys; rv_recent : gmap uuid entry }.

Definition redis_get (id : uuid) (now : time) (r : revoked_keys) : option Z :=
  match r !! id with Some (ms, expires) => if now <? expires then Some ms else None | None => None end.

Definition fetched (id : uuid) (now : time) (r : revoked_keys) : entry :=
  mk_entry ((λ ms, ms * millisecond) <$> redis_get id now r) now.

(** [len(s.recent) > 100_000]: clear, then the entry. *)
Definition remember (id : uuid) (e : entry) (recent : gmap uuid entry) : gmap uuid entry :=
  <[id := e]> (if Z.of_nat (size recent) >? 100000 then ∅ else recent).

Definition fresh (now : time) (e : entry) : bool := now - e_checked e <=? localTTL.

(** [!e.revokedAt.IsZero() && !issuedAt.After(e.revokedAt)] *)
Definition refuses (e : entry) (issuedAt : time) : bool :=
  match e_revokedAt e with Some t => issuedAt <=? t | None => false end.

Class HasRevocations (S : Type) := {
  revocations_of : S → revocations;
  set_revocations : revocations → S → S;
  revoke_clock : S → time;
  revoke_keep : duration;
}.

Section operations.
Context {S : Type} `{Faulty S} `{HasRevocations S}.

Definition set_recent (f : gmap uuid entry → gmap uuid entry) : M S unit :=
  modify (λ s, let r := revocations_of s in set_revocations (mk_revocations (rv_redis r) (f (rv_recent r))) s).

Definition RevokeAll (userID : uuid) : M S unit :=
  now ← get revoke_clock;
  let ms := now / millisecond in
  io (modify (λ s, let r := revocations_of s in
        set_revocations (mk_revocations (<[userID := (ms, now + revoke_keep)]> (rv_redis r)) (rv_recent r)) s)) ;;
  set_recent (<[userID := mk_entry (Some (ms * millisecond)) now]>).

Definition Revoked (userID : uuid) (issuedAt : time) : M S bool :=
  now ← get revoke_clock;
  known ← get (λ s, rv_recent (revocations_of s) !! userID);
  let lookup : M S entry :=
    e ← io (get (λ s, fetched userID now (rv_redis (revocations_of s))));
    set_recent (remember userID e) ;; mret e in
  e ← match known with
      | Some e => if fresh now e then mret e else lookup
      | None => lookup
      end;
  mret (refuses e issuedAt).
End operations.

Lemma ms_mono t t' : t <= t' → t / millisecond <= t' / millisecond.
Proof. apply Z.div_le_mono. unfold millisecond. lia. Qed.

(** ** Servers that share one Redis

    The two operations as the code runs them: between the locks, the clock and Redis other
    requests of any server come in. *)

Module Shared.
(** Where a call is.  [Looking]: Revoked has read [recent]; [Asking]: it goes to Redis;
    [Fetched]: it has the answer; [Storing]: it has stamped it.  [Revoking]: RevokeAll has
    read the clock, in milliseconds; [Told]: Redis has the key. *)
Inductive task :=
  | Looking (k : nat) (u : uuid) (issued : time) (known : option entry)
  | Asking (k : nat) (u : uuid) (issued : time)
  | Fetched (k : nat) (u : uuid) (issued : time) (ms : option Z)
  | Storing (k : nat) (u : uuid) (issued : time) (e : entry)
  | Answered (k : nat) (u : uuid) (issued : time) (r : result bool)
  | Revoking (k : nat) (u : uuid) (ms : Z)
  | Told (k : nat) (u : uuid) (ms : Z)
  | Finished (r : result unit).

(** Redis, the memory of each server, the clock, and the calls that were made. *)
Record servers := mk_servers {
  sv_redis : revoked_keys;
  sv_recent : gmap nat (gmap uuid entry);
  sv_now : time;
  sv_tasks : gmap nat task;
}.

Definition recent (k : nat) (s : servers) : gmap uuid entry := default ∅ (sv_recent s !! k).

Definition with_task (i : nat) (x : task) (s : servers) : servers :=
  mk_servers (sv_redis s) (sv_recent s) (sv_now s) (<[i := x]> (sv_tasks s)).
Definition with_recent (k : nat) (m : gmap uuid entry) (s : servers) : servers :=
  mk_servers (sv_redis s) (<[k := m]> (sv_recent s)) (sv_now s) (sv_tasks s).

Section servers.
Variable keep : duration.

(** The next step of call [i], which is at [x]; [ok] is whether Redis answers. *)
Definition advance (ok : bool) (i : nat) (x : task) (s : servers) : option servers :=
  match x with
  | Looking k u issued known =>
    Some (with_task i (match known with
                       | Some e => if fresh (sv_now s) e then Answered k u issued (Ok (refuses e issued)) else Asking k u issued
                       | None => Asking k u issued
                       end) s)
  | Asking k u issued =>
    Some (with_task i (if ok then Fetched k u issued (redis_get u (sv_now s) (sv_redis s)) else Answered k u issued (Err ErrInfra)) s)
  | Fetched k u issued ms => Some (with_task i (Storing k u issued (mk_entry ((λ ms, ms * millisecond) <$> ms) (sv_now s))) s)
  | Storing k u issued e =>
    Some (with_task i (Answered k u issued (Ok (refuses e issued))) (with_recent k (remember u e (recent k s)) s))
  | Revoking k u ms =>
    Some (if ok
          then with_task i (Told k u ms) (mk_servers (<[u := (ms, sv_now s + keep)]> (sv_redis s)) (sv_recent s) (sv_now s) (sv_tasks s))
          else with_task i (Finished (Err ErrInfra)) s)
  | Told k u ms =>
    Some (with_task i (Finished (Ok tt)) (with_recent k (<[u := mk_entry (Some (ms * millisecond)) (sv_now s)]> (recent k s)) s))
  | Answered _ _ _ _ | Finished _ => None
  end.

Definition next (ok : bool) (i : nat) (s : servers) : option servers :=
  match sv_tasks s !! i with Some x => advance ok i x s | None => None end.

(** A call begins, or goes on; a server starts anew; time passes. *)
Inductive event :=
  | Lookup (i k : nat) (u : uuid) (issued : time)
  | Revocation (i k : nat) (u : uuid)
  | Go (ok : bool) (i : nat)
  | Restart (k : nat)
  | Wait (d : duration).

Definition play (e : event) (s : servers) : option servers :=
  match e with
  | Lookup i k u issued => if decide (sv_tasks s !! i = None) then Some (with_task i (Looking k u issued (recent k s !! u)) s) else None
  | Revocation i k u => if decide (sv_tasks s !! i = None) then Some (with_task i (Revoking k u (sv_now s / millisecond)) s) else None
  | Go ok i => next ok i s
  | Restart k => Some (with_recent k ∅ s)
  | Wait d => if 0 <=? d then Some (mk_servers (sv_redis s) (sv_recent s) (sv_now s + d) (sv_tasks s)) else None
  end.

Definition rstep (s s' : servers) : Prop := ∃ e, play e s = Some s'.

Fixpoint plays (es : list event) (s : servers) : option servers :=
  match es with [] => Some s | e :: es => s' ← play e s; plays es s' end.

Lemma plays_rtc es s s' : plays es s = Some s' → rtc rstep s s'.
Proof.
  revert s. induction es as [|e es IH]; intros s; simpl; [intros [= ->]; apply rtc_refl|].
  destruct (play e s) as [s1|] eqn:E; [|done]. simpl. intros H. apply (rtc_l _ _ s1); [by exists e|by apply IH].
Qed.

(** *** The programs above are these steps with nothing in between *)

(** One server's view while it runs an operation, with the failures to come. *)
Record one_server := mk_one_server { os_rv : revocations; os_now : time; os_faults : list bool }.

#[export] Instance one_server_faulty : Faulty one_server :=
  {| faults := os_faults; set_faults fs s := mk_one_server (os_rv s) (os_now s) fs |}.
#[local] Instance one_server_revocations : HasRevocations one_server :=
  {| revocations_of := os_rv; set_revocations r s := mk_one_server r (os_now s) (os_faults s);
     revoke_clock := os_now; revoke_keep := keep |}.

Definition view (k : nat) (fs : list bool) (s : servers) : one_server :=
  mk_one_server (mk_revocations (sv_redis s) (recent k s)) (sv_now s) fs.
Definition answers (fs : list bool) : bool := match fs with true :: _ => false | _ => true end.

(** Call [i] until it ends. *)
Fixpoint alone (n : nat) (ok : bool) (i : nat) (s : servers) : servers :=
  match n with
  | O => s
  | S n => match next ok i s with Some s' => alone n ok i s' | None => s end
  end.

Lemma next_at ok i x s : next ok i (with_task i x s) = advance ok i x (with_task i x s).
Proof. unfold next. simpl. by rewrite lookup_insert_eq. Qed.

(** What the call answers, and what it leaves in Redis and in the memory of its server. *)
Definition left_by {A} (k : nat) (run : result A * one_server) (s' : servers) : Prop :=
  sv_redis s' = rv_redis (os_rv run.2) ∧ recent k s' = rv_recent (os_rv run.2).

Ltac run_alone := simpl; repeat (rewrite next_at; simpl); unfold left_by, recent; simpl; rewrite ?lookup_insert_eq.

Lemma RevokeAll_alone i k fs u s s0 : play (Revocation i k u) s = Some s0 →
  let run := RevokeAll u (view k fs s) in let s' := alone 2 (answers fs) i s0 in
  sv_tasks s' !! i = Some (Finished run.1) ∧ left_by k run s'.
Proof.
  simpl. case_decide; [|done]. intros [= <-]. destruct fs as [|[] fs]; by run_alone.
Qed.

Lemma Revoked_alone i k fs u issued s s0 : play (Lookup i k u issued) s = Some s0 →
  let run := Revoked u issued (view k fs s) in let s' := alone 4 (answers fs) i s0 in
  sv_tasks s' !! i = Some (Answered k u issued run.1) ∧ left_by k run s'.
Proof.
  simpl. case_decide; [|done]. intros [= <-]. unfold Revoked, M_bind, mbind, get, io. cbn [view revocations_of one_server_revocations os_rv rv_recent os_now].
  destruct (recent k s !! u) as [e|]; [destruct (fresh (sv_now s) e) eqn:F|].
  - run_alone. rewrite !F. by run_alone.
  - destruct fs as [|[] fs]; run_alone; rewrite !F; by run_alone.
  - destruct fs as [|[] fs]; by run_alone.
Qed.

(** *** What a revocation leaves behind *)

(** Call [i] revoked the tokens of [u] up to [m] milliseconds and set the key at [T]; [j]
    is the server that is asked later. *)
Section revoked.
Context (i k j : nat) (u : uuid) (m : Z) (T : time).

(** A call that could hide it: it holds an answer of Redis from before, or an older
    revocation, that it has not stored yet. *)
Definition in_the_way (x : task) : bool :=
  match x with
  | Fetched k' v _ _ | Storing k' v _ _ => bool_decide (k' = j ∧ v = u)
  | Revoking _ v m' => bool_decide (v = u) && (m' <? m)
  | Told k' v m' => bool_decide (k' = j ∧ v = u) && (m' <? m)
  | _ => false
  end.

Definition good (e : entry) : Prop := ∃ t, e_revokedAt e = Some t ∧ m * millisecond <= t.

Definition task_good (x : task) : Prop :=
  match x with
  | Fetched k' v _ ms => k' = j → v = u → ∃ n, ms = Some n ∧ m <= n
  | Storing k' v _ e => k' = j → v = u → good e
  | Revoking _ v m' => v = u → m <= m'
  | Told k' v m' => k' = j → v = u → m <= m'
  | _ => True
  end.

Definition finished (s : servers) : Prop := ∃ r, sv_tasks s !! i = Some (Finished r).

Record revoked (s : servers) : Prop := {
  rv_now : T <= sv_now s;
  rv_old : m * millisecond <= T;
  rv_key : ∃ ms expires, sv_redis s !! u = Some (ms, expires) ∧ m <= ms ∧ T + keep <= expires;
  rv_entry e : recent j s !! u = Some e → good e ∨ (e_checked e <= T ∧ (j = k → ¬ finished s));
  rv_tasks i' x : sv_tasks s !! i' = Some x → task_good x;
  rv_self : sv_tasks s !! i = Some (Told k u m) ∨ finished s;
}.

Lemma good_ms n c : m <= n → good (mk_entry (Some (n * millisecond)) c).
Proof. intros H. eexists. split; [done|]. apply Z.mul_le_mono_nonneg_r; [unfold millisecond; lia|done]. Qed.

Lemma good_refuses e issued : good e → issued <= m * millisecond → refuses e issued = true.
Proof. intros (t & Ht & Hle) Hi. unfold refuses. rewrite Ht. lia. Qed.

Lemma remember_lookup v e (r : gmap uuid entry) w e' : remember v e r !! w = Some e' → (w = v ∧ e' = e) ∨ (w ≠ v ∧ r !! w = Some e').
Proof.
  unfold remember. intros [[-> ->]|[Hne H]]%lookup_insert_Some; [by left|right].
  destruct (_ >? _); [by rewrite lookup_empty in H|done].
Qed.

Lemma recent_with k' r s : recent j (with_recent k' r s) = if decide (k' = j) then r else recent j s.
Proof.
  unfold recent, with_recent. simpl. destruct (decide (k' = j)) as [->|Hne]; [by rewrite lookup_insert_eq|by rewrite lookup_insert_ne].
Qed.

(** Call [i'] goes to [y]; the rest of [revoked] is what changed with it. *)
Lemma revoked_moves i' y s s' : revoked s →
  sv_now s' = sv_now s → sv_tasks s' = <[i' := y]> (sv_tasks s) → task_good y →
  (∃ ms expires, sv_redis s' !! u = Some (ms, expires) ∧ m <= ms ∧ T + keep <= expires) →
  (∀ e, recent j s' !! u = Some e → good e ∨ (recent j s !! u = Some e ∧ (i' = i → j ≠ k))) →
  (i' = i → ∃ r, y = Finished r) → revoked s'.
Proof.
  intros [Hn Ho Hk He Ht Hs] En Et Hy Hk' He' Hf. split; [by rewrite En|done|done| | |].
  - intros e [Hg|[Hr Hne]]%He'; [by left|]. destruct (He e Hr) as [Hg|[Hc Hfin]]; [by left|]. right. split; [done|].
    intros Hjk [r Hfr]. rewrite Et in Hfr. destruct (decide (i' = i)) as [->|Hii]; [by destruct (Hne eq_refl)|].
    rewrite lookup_insert_ne in Hfr by done. by destruct (Hfin Hjk); exists r.
  - intros i2 z. rewrite Et. intros [[_ <-]|[_ Hz]]%lookup_insert_Some; [done|by eapply Ht].
  - unfold finished. rewrite Et. destruct (decide (i' = i)) as [->|Hii].
    + destruct (Hf eq_refl) as [r ->]. right. exists r. apply lookup_insert_eq.
    + rewrite !lookup_insert_ne by done. exact Hs.
Qed.

(** A call that touches no table. *)
Lemma revoked_goes i' y s : revoked s → i' ≠ i → task_good y → revoked (with_task i' y s).
Proof. intros R Hi Hy. apply (revoked_moves i' y s); try done; [apply R|by right]. Qed.

Lemma revoked_begins i' y s : revoked s → sv_tasks s !! i' = None → task_good y → revoked (with_task i' y s).
Proof. intros R Hi Hy. apply revoked_goes; [done| |done]. intros ->. destruct (rv_self _ R) as [E|[r E]]; congruence. Qed.

Lemma revoked_self i' x s : revoked s → sv_tasks s !! i' = Some x →
  match x with Told _ _ _ | Finished _ => True | _ => i' ≠ i end.
Proof. intros R Hx. destruct x; try done; intros ->; destruct (rv_self _ R) as [E|[r' E]]; congruence. Qed.

Lemma revoked_advance ok i' x s s' : revoked s → sv_now s < T + keep → sv_tasks s !! i' = Some x →
  advance ok i' x s = Some s' → revoked s'.
Proof.
  intros R Hlive Hx H. pose proof (revoked_self i' x s R Hx) as Hi. pose proof (rv_tasks _ R _ _ Hx) as Hg.
  destruct x as [k' v iss known|k' v iss|k' v iss ms|k' v iss e|k' v iss r|k' v ms|k' v ms|r]; simpl in H; try done; injection H as <-.
  - apply revoked_goes; [done..|]. repeat case_match; done.
  - apply revoked_goes; [done..|]. destruct ok; [|done]. intros -> ->. destruct (rv_key _ R) as (ms & ex & E & Hms & Hex).
    unfold redis_get. rewrite E. exists ms. split; [|done]. by assert ((sv_now s <? ex) = true) as -> by lia.
  - apply revoked_goes; [done..|]. intros -> ->. destruct (Hg eq_refl eq_refl) as (n & -> & Hn). by apply good_ms.
  - apply (revoked_moves i' (Answered k' v iss (Ok (refuses e iss))) s); try done; [apply R|].
    intros e'. change (recent j (with_task _ _ ?s)) with (recent j s). rewrite recent_with. destruct (decide (k' = j)) as [->|]; [|by right].
    intros [[<- ->]|[_ He]]%remember_lookup; [left; by apply Hg|by right].
  - destruct ok; [|by apply revoked_goes]. apply (revoked_moves i' (Told k' v ms) s); try done; simpl.
    + intros _. by apply Hg.
    + destruct (rv_key _ R) as (ms' & ex & E & Hms & Hex). destruct (decide (v = u)) as [->|Hne].
      * rewrite lookup_insert_eq. do 2 eexists. split; [done|]. split; [by apply Hg|]. pose proof (rv_now _ R). lia.
      * rewrite lookup_insert_ne by done. by exists ms', ex.
    + by right.
  - apply (revoked_moves i' (Finished (Ok tt)) s); try done; [apply R| |by exists (Ok tt)].
    intros e'. change (recent j (with_task _ _ ?s)) with (recent j s). rewrite recent_with. destruct (decide (k' = j)) as [->|Hkj].
    + intros [[-> <-]|[Hv He]]%lookup_insert_Some; [left; by apply good_ms, Hg|]. right. split; [done|]. intros ->.
      destruct (rv_self _ R) as [E|[r' E]]; congruence.
    + intros He. right. split; [done|]. intros -> <-. destruct (rv_self _ R) as [E|[r' E]]; congruence.
Qed.

Lemma revoked_step s s' : revoked s → rstep s s' → sv_now s' < T + keep → revoked s'.
Proof.
  intros R [e H] Hlive. destruct e as [i' k' v iss|i' k' v|ok i'|k'|d]; simpl in H.
  - case_decide; [|done]. injection H as <-. by apply revoked_begins.
  - case_decide as Hn; [|done]. injection H as <-. apply revoked_begins; [done..|]. intros ->.
    pose proof (rv_now _ R). pose proof (rv_old _ R). apply Z.div_le_lower_bound; unfold millisecond in *; lia.
  - unfold next in H. destruct (sv_tasks s !! i') as [x|] eqn:Hx; [|done]. refine (revoked_advance ok i' x s s' R _ Hx H).
    enough (sv_now s' = sv_now s) by lia. destruct x; simpl in H; simplify_eq; repeat case_match; done.
  - injection H as <-. destruct R as [Hn Ho Hk He Ht Hs]. split; try done. intros e. rewrite recent_with.
    destruct (decide _); [by rewrite lookup_empty|apply He].
  - destruct (0 <=? d) eqn:Hd; [|done]. injection H as <-. destruct R as [Hn Ho Hk He Ht Hs]. split; try done. simpl. lia.
Qed.

(** *** What a lookup that begins later answers *)

Definition settled (s : servers) : Prop := (j = k ∧ finished s) ∨ T + localTTL < sv_now s.

Definition later (s : servers) (x : task) : Prop :=
  match x with
  | Looking k' v _ (Some e) => k' = j → v = u → good e ∨ e_checked e + localTTL < sv_now s
  | Answered k' v issued r => k' = j → v = u → issued <= m * millisecond → r = Ok true ∨ r = Err ErrInfra
  | _ => True
  end.

Lemma now_step s s' : rstep s s' → sv_now s <= sv_now s'.
Proof.
  intros [e H]. destruct e as [i' k' v iss|i' k' v|ok i'|k'|d]; simpl in H; try case_decide; simplify_eq; simpl; try lia.
  - unfold next in H. destruct (sv_tasks s !! i') as [x|]; [|done]. destruct x; simpl in H; simplify_eq; repeat case_match; simpl; lia.
  - destruct (0 <=? d) eqn:Hd; simplify_eq. simpl. lia.
Qed.

Lemma now_reached s s' : rtc rstep s s' → sv_now s <= sv_now s'.
Proof. induction 1 as [s|s s1 s' H1 H IH]; [lia|]. pose proof (now_step _ _ H1). lia. Qed.

(** Every step leaves the other calls alone. *)
Lemma task_step s s' i' y : rstep s s' → sv_tasks s' !! i' = Some y →
  sv_tasks s !! i' = Some y ∨
  (sv_tasks s !! i' = None ∧ sv_now s' = sv_now s ∧ ((∃ k' v issued, y = Looking k' v issued (recent k' s !! v)) ∨ ∃ k' v, y = Revoking k' v (sv_now s / millisecond))) ∨
  ∃ ok x, sv_tasks s !! i' = Some x ∧ advance ok i' x s = Some s'.
Proof.
  intros [e H] Hy. destruct e as [i2 k' v iss|i2 k' v|ok i2|k'|d]; simpl in H.
  - case_decide; [|done]. injection H as <-. simpl in Hy. apply lookup_insert_Some in Hy as [[<- <-]|[_ Hy]]; [right; left; eauto 8|by left].
  - case_decide; [|done]. injection H as <-. simpl in Hy. apply lookup_insert_Some in Hy as [[<- <-]|[_ Hy]]; [right; left; eauto 8|by left].
  - unfold next in H. destruct (sv_tasks s !! i2) as [x|] eqn:Hx; [|done].
    destruct (decide (i2 = i')) as [->|Hne]; [right; right; by exists ok, x|left].
    destruct x; simpl in H; simplify_eq; repeat case_match; simpl in Hy; by rewrite lookup_insert_ne in Hy.
  - injection H as <-. by left.
  - destruct (0 <=? d); [|done]. injection H as <-. by left.
Qed.

Lemma task_lost s s' i' x : rstep s s' → sv_tasks s !! i' = Some x → ∃ y, sv_tasks s' !! i' = Some y ∧ (∀ r, x = Finished r → y = x).
Proof.
  intros [e H] Hx. destruct e as [i2 k' v iss|i2 k' v|ok i2|k'|d]; simpl in H.
  1,2: case_decide; [|done]; injection H as <-; exists x; simpl; rewrite lookup_insert_ne; [done|congruence].
  - unfold next in H. destruct (decide (i2 = i')) as [->|Hne].
    + rewrite Hx in H. destruct x; simpl in H; simplify_eq; repeat case_match; simpl; rewrite lookup_insert_eq; (eexists; split; [reflexivity|intros ? [=]]).
    + destruct (sv_tasks s !! i2) as [z|]; [|done]. exists x. split; [|done].
      destruct z; simpl in H; simplify_eq; repeat case_match; simpl; by rewrite lookup_insert_ne.
  - injection H as <-. by exists x.
  - destruct (0 <=? d); [|done]. injection H as <-. by exists x.
Qed.

Lemma settled_step s s' : rstep s s' → settled s → settled s'.
Proof.
  intros H [[-> [r Hr]]|Ht]; [left|right].
  - split; [done|]. destruct (task_lost _ _ _ _ H Hr) as (y & Hy & Hf). rewrite (Hf r eq_refl) in Hy. by exists r.
  - pose proof (now_step _ _ H). lia.
Qed.

(** What the memory of the server says once the revocation has settled. *)
Lemma settled_entry s e : revoked s → settled s → recent j s !! u = Some e → good e ∨ e_checked e + localTTL < sv_now s.
Proof.
  intros R Hs He. destruct (rv_entry _ R e He) as [Hg|[Hc Hf]]; [by left|]. destruct Hs as [[Hjk Hfin]|Ht]; [by destruct (Hf Hjk)|right; lia].
Qed.

Lemma later_answer e k' v issued s : (k' = j → v = u → good e) → later s (Answered k' v issued (Ok (refuses e issued))).
Proof. intros Hg Hk Hv Hi. left. f_equal. eapply good_refuses; eauto. Qed.

Lemma later_step s s' i' : revoked s → settled s → rstep s s' →
  (∀ x, sv_tasks s !! i' = Some x → later s x) → ∀ y, sv_tasks s' !! i' = Some y → later s' y.
Proof.
  intros R Hs Hstep Hl y Hy. pose proof (now_step _ _ Hstep) as Hnow.
  destruct (task_step _ _ _ _ Hstep Hy) as [Hx|[(_ & En & [(k' & v & iss & ->)|(k' & v & ->)])|(ok & x & Hx & Ha)]].
  - specialize (Hl y Hx). destruct y as [k' v iss [e|]| | | | | | |]; simpl in *; try done. intros Hk Hv. destruct (Hl Hk Hv); [by left|right; lia].
  - simpl. destruct (recent k' s !! v) as [e|] eqn:E; [|done]. intros -> ->. rewrite En. by apply settled_entry.
  - done.
  - specialize (Hl x Hx). pose proof (rv_tasks _ R _ _ Hx) as Hg.
    destruct x as [k' v iss known|k' v iss|k' v iss ms|k' v iss e|k' v iss r|k' v ms|k' v ms|r]; simpl in Ha; try done;
      [|destruct ok|..|destruct ok|]; injection Ha as <-; simpl in Hy; rewrite lookup_insert_eq in Hy; injection Hy as <-; try done.
    + destruct known as [e|]; [|done]. destruct (fresh (sv_now s) e) eqn:F; [|done]. apply later_answer. intros Hk Hv.
      destruct (Hl Hk Hv) as [Hge|Hold]; [done|]. unfold fresh in F. lia.
    + intros _ _ _. by right.
    + by apply later_answer.
Qed.
End revoked.

(** *** Clocks *)

(** Nothing comes from the future. *)
Definition past (now : time) (x : task) : Prop :=
  match x with
  | Storing _ _ _ e => e_checked e <= now
  | Revoking _ _ ms | Told _ _ ms => ms * millisecond <= now
  | _ => True
  end.
Record clocked (s : servers) : Prop := {
  ck_recent j v e : recent j s !! v = Some e → e_checked e <= sv_now s;
  ck_tasks i x : sv_tasks s !! i = Some x → past (sv_now s) x;
}.


Lemma past_mono t t' x : t <= t' → past t x → past t' x.
Proof. destruct x; simpl; lia. Qed.

Lemma clocked_moves i x s s' : clocked s → sv_now s' = sv_now s → sv_tasks s' = <[i := x]> (sv_tasks s) → past (sv_now s) x →
  (∀ j v e, recent j s' !! v = Some e → recent j s !! v = Some e ∨ e_checked e <= sv_now s) → clocked s'.
Proof.
  intros [Hr Ht] En Et Hx He. split.
  - intros j v e [H|H]%He; rewrite En; [by eapply Hr|done].
  - intros i' y. rewrite Et, En. intros [[_ <-]|[_ Hy]]%lookup_insert_Some; [done|by eapply Ht].
Qed.

Lemma clocked_goes i x s : clocked s → past (sv_now s) x → clocked (with_task i x s).
Proof. intros C Hx. apply (clocked_moves i x s); try done. intros j v e He. by left. Qed.

Lemma clocked_advance ok i x s s' : clocked s → sv_tasks s !! i = Some x → advance ok i x s = Some s' → clocked s'.
Proof.
  intros C Hx H. pose proof (ck_tasks _ C _ _ Hx) as Hp.
  destruct x as [k v iss known|k v iss|k v iss ms|k v iss e|k v iss r|k v ms|k v ms|r]; simpl in H; try done; injection H as <-.
  - apply clocked_goes; [done|]. repeat case_match; done.
  - apply clocked_goes; [done|]. by destruct ok.
  - apply clocked_goes; [done|]. simpl. lia.
  - apply (clocked_moves i (Answered k v iss (Ok (refuses e iss))) s); try done. intros j w e'.
    change (recent j (with_task _ _ ?s)) with (recent j s). rewrite recent_with. destruct (decide _) as [->|]; [|by left].
    intros [[_ ->]|[_ He]]%remember_lookup; [by right|by left].
  - destruct ok; [|by apply clocked_goes]. apply (clocked_moves i (Told k v ms) s); try done. intros j w e' He. by left.
  - apply (clocked_moves i (Finished (Ok tt)) s); try done. intros j w e'.
    change (recent j (with_task _ _ ?s)) with (recent j s). rewrite recent_with. destruct (decide _) as [->|]; [|by left].
    intros [[_ <-]|[_ He]]%lookup_insert_Some; [right; simpl; lia|by left].
Qed.

Lemma clocked_step s s' : rstep s s' → clocked s → clocked s'.
Proof.
  intros [e H] C. destruct e as [i k v iss|i k v|ok i|k|d]; simpl in H.
  - case_decide; [|done]. injection H as <-. by apply clocked_goes.
  - case_decide; [|done]. injection H as <-. apply clocked_goes; [done|]. simpl. rewrite Z.mul_comm. apply Z.mul_div_le. unfold millisecond. lia.
  - unfold next in H. destruct (sv_tasks s !! i) as [x|] eqn:Hx; [|done]. by eapply clocked_advance.
  - injection H as <-. destruct C as [Hr Ht]. split; [|done]. intros j v e. rewrite recent_with.
    destruct (decide _); [by rewrite lookup_empty|apply Hr].
  - destruct (0 <=? d) eqn:Hd; [|done]. injection H as <-. destruct C as [Hr Ht]. split.
    + intros j v e He. specialize (Hr j v e He). simpl. lia.
    + intros i x Hx. specialize (Ht i x Hx). simpl. eapply past_mono; [|exact Ht]. lia.
Qed.

Definition quiet (t : time) : servers := mk_servers ∅ ∅ t ∅.

Lemma clocked_reached t s : rtc rstep (quiet t) s → clocked s.
Proof.
  apply (rtc_ind_r clocked).
  - split; [|done]. intros j v e. unfold recent. simpl. by rewrite lookup_empty.
  - intros s1 s2 _ Hs. by apply clocked_step.
Qed.

(** The SET of a revocation that nothing is in the way of. *)
Lemma revoked_set i k j u m s s1 : clocked s → sv_tasks s !! i = Some (Revoking k u m) →
  (∀ i' x, i' ≠ i → sv_tasks s !! i' = Some x → in_the_way j u m x = false) →
  next true i s = Some s1 → revoked i k j u m (sv_now s) s1.
Proof.
  intros C Hi Hw H. unfold next in H. rewrite Hi in H. simpl in H. injection H as <-. split; simpl.
  - done.
  - by apply (ck_tasks _ C i (Revoking k u m)).
  - rewrite lookup_insert_eq. do 2 eexists. split; [done|]. lia.
  - intros e He. right. split; [by eapply (ck_recent _ C)|]. intros _ [r Hr]. simpl in Hr. by rewrite lookup_insert_eq in Hr.
  - intros i' x [[<- <-]|[Hne Hx]]%lookup_insert_Some; [simpl; lia|]. specialize (Hw i' x (not_eq_sym Hne) Hx).
    destruct x; simpl in *; try done.
    1,2: intros -> ->; by apply bool_decide_eq_false in Hw as [].
    + intros ->. rewrite bool_decide_eq_true_2 in Hw by done. simpl in Hw. lia.
    + intros -> ->. rewrite bool_decide_eq_true_2 in Hw by done. simpl in Hw. lia.
  - left. by rewrite lookup_insert_eq.
Qed.

Lemma revoked_reached i k j u m T s s' : revoked i k j u m T s → rtc rstep s s' → sv_now s' < T + keep → revoked i k j u m T s'.
Proof.
  intros R H. revert R. induction H as [s|s s1 s' H1 H IH]; intros R Hlive; [done|]. apply IH; [|done].
  eapply revoked_step; [exact R|exact H1|]. pose proof (now_reached _ _ H). lia.
Qed.

Lemma later_reached i k j u m T s s' i' : revoked i k j u m T s → settled i k j T s → sv_tasks s !! i' = None →
  rtc rstep s s' → sv_now s' < T + keep → ∀ x, sv_tasks s' !! i' = Some x → later j u m s' x.
Proof.
  intros R0 S0 Hn Hr Hlive. 
  assert (∀ s'', rtc rstep s s'' → sv_now s'' < T + keep → settled i k j T s'' ∧ ∀ x, sv_tasks s'' !! i' = Some x → later j u m s'' x) as H.
  { apply (rtc_ind_r (λ s'', sv_now s'' < T + keep → settled i k j T s'' ∧ ∀ x, sv_tasks s'' !! i' = Some x → later j u m s'' x)).
    - intros _. split; [done|]. intros x Hx. congruence.
    - intros s1 s2 H1 H2 IH Hl. pose proof (now_step _ _ H2). destruct (IH ltac:(lia)) as [S1 L1].
      split; [by eapply settled_step|]. eapply (later_step i k j u m T); [|exact S1|exact H2|exact L1].
      eapply revoked_reached; [exact R0|exact H1|lia]. }
  by apply (H s' Hr).
Qed.
End servers.
End Shared.

(** C33. A revocation cannot be dodged.  Lookups and revocations are cut where the code
    holds no lock, and the calls of all servers that share the Redis interleave as they
    like.  Let a RevokeAll that read the clock at [m] milliseconds set its key while, for
    this user, no lookup on the server in question holds an answer of Redis that it has not
    stored yet, and no older revocation is under way.  Then every lookup that begins once
    RevokeAll has returned, on the same server, or more than localTTL after the key was
    set, on any, refuses the tokens issued up to then for as long as they can live, whatever
    lookups, revocations, restarts and failures come in between; a Redis that does not
    answer gives an error, not an acceptance. *)
Theorem revocation_is_final keep t0 s i k j u m s1 s2 i' s3 issued r :
  rtc (Shared.rstep keep) (Shared.quiet t0) s →
  Shared.sv_tasks s !! i = Some (Shared.Revoking k u m) →
  (∀ i' x, i' ≠ i → Shared.sv_tasks s !! i' = Some x → Shared.in_the_way j u m x = false) →
  Shared.play keep (Shared.Go true i) s = Some s1 →
  rtc (Shared.rstep keep) s1 s2 →
  (j = k ∧ Shared.sv_tasks s2 !! i = Some (Shared.Finished (Ok tt))) ∨ Shared.sv_now s + localTTL < Shared.sv_now s2 →
  Shared.sv_tasks s2 !! i' = None →
  rtc (Shared.rstep keep) s2 s3 →
  Shared.sv_tasks s3 !! i' = Some (Shared.Answered j u issued r) →
  issued <= m * millisecond → Shared.sv_now s3 < Shared.sv_now s + keep →
  r = Ok true ∨ r = Err ErrInfra.
Proof.
  intros H0 Hi Hw Hset H12 Hj Hn H23 Ha Hiss Hlive.
  pose proof (Shared.revoked_set keep i k j u m s s1 (Shared.clocked_reached keep t0 s H0) Hi Hw Hset) as R1.
  assert (Shared.sv_now s2 <= Shared.sv_now s3) as Hle by by eapply Shared.now_reached.
  assert (Shared.revoked keep i k j u m (Shared.sv_now s) s2) as R2 by (eapply Shared.revoked_reached; [exact R1|exact H12|lia]).
  refine (Shared.later_reached keep i k j u m (Shared.sv_now s) s2 s3 i' R2 _ Hn H23 Hlive _ Ha eq_refl eq_refl Hiss).
  destruct Hj as [[-> Hf]|Ht]; [left; split; [done|by eexists]|by right].
Qed.

(** ** At work *)

Section demo.
Import Shared.

Definition demo_keep : duration := 15 * minute.
Definition demo_play (es : list event) : servers := default (quiet hour) (plays demo_keep es (quiet hour)).
Definition call_ends (n i : nat) : list event := replicate n (Go true i).

(** Server 2 has just seen that user 7 is not revoked; then server 1 revokes. *)
Definition demo_begun : list event := Lookup 0 2 7%N 0 :: call_ends 4 0 ++ [Revocation 1 1 7%N].
Definition demo_over : list event := demo_begun ++ call_ends 2 1.
Definition demo_later : list event := demo_over ++ [Wait (6 * second)].

Example still_trusted :
  sv_tasks (demo_play (demo_over ++ Lookup 2 2 7%N hour :: call_ends 1 2)) !! 2%nat = Some (Answered 2 7%N hour (Ok false)).
Proof. vm_compute. reflexivity. Qed.

Definition demo_asked : servers := demo_play (demo_later ++ Lookup 2 2 7%N hour :: call_ends 4 2).

Lemma demo_rtc es1 es2 : plays demo_keep es2 (demo_play es1) = Some (demo_play (es1 ++ es2)) →
  rtc (rstep demo_keep) (demo_play es1) (demo_play (es1 ++ es2)).
Proof. apply plays_rtc. Qed.

Lemma revocation_is_final_witness : ∃ r, sv_tasks demo_asked !! 2%nat = Some (Answered 2 7%N hour r) ∧ (r = Ok true ∨ r = Err ErrInfra).
Proof.
  exists (Ok true). split; [vm_compute; reflexivity|].
  apply (revocation_is_final demo_keep hour (demo_play demo_begun) 1 1 2 7%N (hour / millisecond)
           (demo_play (demo_begun ++ [Go true 1])) (demo_play demo_later) 2 demo_asked hour).
  - apply (demo_rtc [] demo_begun). by vm_compute.
  - by vm_compute.
  - intros i' x Hi Hx.
    assert (sv_tasks (demo_play demo_begun) = <[1%nat := Revoking 1 7%N (hour / millisecond)]> {[0%nat := Answered 2 7%N 0 (Ok false)]}) as E
      by by vm_compute.
    rewrite E, lookup_insert_ne in Hx by congruence. by apply lookup_singleton_Some in Hx as [<- <-].
  - by vm_compute.
  - apply (demo_rtc (demo_begun ++ [Go true 1]) [Go true 1; Wait (6 * second)]). by vm_compute.
  - right. by vm_compute.
  - by vm_compute.
  - apply (demo_rtc demo_later (Lookup 2 2 7%N hour :: call_ends 4 2)). by vm_compute.
  - by vm_compute.
  - by vm_compute.
  - by vm_compute.
Defined.

(** Between reading Redis and remembering the answer, a lookup holds no lock: one that read
    before a revocation on its own server and stores after it hides the revocation from that
    server until the entry is localTTL old, although RevokeAll has returned. *)
Theorem slow_lookup_hides_revocation :
  let s := demo_play (Lookup 0 1 7%N hour :: call_ends 2 0 ++ Revocation 1 1 7%N :: call_ends 2 1 ++ call_ends 2 0 ++
                      Lookup 2 1 7%N hour :: call_ends 1 2) in
  sv_tasks s !! 1%nat = Some (Finished (Ok tt)) ∧ sv_tasks s !! 2%nat = Some (Answered 1 7%N hour (Ok false)).
Proof. vm_compute. split; reflexivity. Qed.

(** The key is set without looking at the one that is there: a revocation that stalls after
    reading the clock takes a later one back, for as long as the key lives. *)
Theorem stalled_revocation_undoes_later :
  let s := demo_play (Revocation 0 1 7%N :: Wait second :: Revocation 1 1 7%N :: call_ends 2 1 ++ call_ends 2 0 ++
                      Wait minute :: Lookup 2 2 7%N (hour + millisecond) :: call_ends 4 2) in
  sv_tasks s !! 0%nat = Some (Finished (Ok tt)) ∧ sv_tasks s !! 1%nat = Some (Finished (Ok tt)) ∧
  sv_tasks s !! 2%nat = Some (Answered 2 7%N (hour + millisecond) (Ok false)).
Proof. vm_compute. split_and!; reflexivity. Qed.
End demo.
