(* ===== verification/Db.v ===== *)
(** * Db: the PostgreSQL tables (src/internal/database/models.go, src/sql/schema)

    The state the SQL statements act on: one finite map per table, keyed by
    its primary key, with the columns the modelled statements read or write.
    A statement is a program of [M DB]; it returns rows, or the [*pgconn.PgError]
    PostgreSQL raises for the constraint it would break, and then has no
    effect. *)

From S2P Require Import Prelude GoLib.

#[local] Open Scope Z_scope.

(** ** Rows *)

Record User := mk_User {
  u_created_at : time;
  u_updated_at : time;
  u_email : string;
  u_password : option string;
  u_name : string;
  u_email_verified_at : option time;
  u_bio : string;
  u_name_changed_at : option time;
  u_avatar_at : option time;
  u_location_id : option string;
  u_location_country : string;
  u_discoverable : bool;
  u_is_admin : bool;
  u_banned_at : option time;
  u_banned_until : option time;
  u_ban_reason : option string;
  u_last_seen_at : option time;
  u_display_name : string;
  u_hide_last_seen : bool;
}.

Record ChatGroup := mk_ChatGroup {
  g_Name : string;
  g_Description : string;
  g_MaxMember : Z;       (* smallint *)
  g_CreatedAt : time;
  g_UpdatedAt : time;
  g_CurrentMember : Z;   (* smallint *)
  g_InviteCode : string;
  g_AvatarAt : option time;
  g_Visibility : string;
}.

Record MemberTable := mk_MemberTable {
  m_JoinedAt : time;
  m_Role : string;
  m_Permissions : list string;
}.

Record Message := mk_Message {
  pm_Content : option string;
  pm_Parentid : option uuid;
  pm_FromID : option uuid;
  pm_ToID : option uuid;
  pm_DeletedAt : option time;
  pm_CreatedAt : time;
  pm_EditedAt : option time;
  pm_Forwarded : bool;
}.

Record Groupmessage := mk_Groupmessage {
  gm_Content : option string;
  gm_GroupID : option uuid;
  gm_FromID : option uuid;
  gm_ParentID : option uuid;
  gm_CreatedAt : time;
  gm_DeletedAt : option time;
  gm_EditedAt : option time;
  gm_Searchable : bool;
  gm_Forwarded : bool;
}.

Record Reaction := mk_Reaction {
  r_Emoji : string;
  r_CreatedAt : time;
}.

Record GroupRead := mk_GroupRead {
  gr_MessageID : uuid;
  gr_UpdatedAt : time;
}.

Record UserRelationship := mk_UserRelationship {
  rel_UserID : uuid;
  rel_OtheruserID : uuid;
  rel_Status : string;
  rel_CreatedAt : time;
  rel_UpdatedAt : time;
}.

Record Call := mk_Call {
  call_CallerID : option uuid;
  call_CalleeID : option uuid;
  call_State : string;
  call_EndReason : option string;
  call_StartedAt : time;
  call_AnsweredAt : option time;
  call_EndedAt : option time;
}.

Record RefreshToken := mk_RefreshToken {
  rt_CreatedAt : time;
  rt_UpdatedAt : time;
  rt_UserID : uuid;
  rt_ExpireAt : time;
  rt_RevokedAt : option time;
}.

Record EmailCode := mk_EmailCode {
  ec_CodeHash : string;
  ec_Attempts : Z;
  ec_ExpiresAt : time;
  ec_CreatedAt : time;
  ec_NewEmail : option string;
}.

Record UserIdentity := mk_UserIdentity {
  ui_UserID : uuid;
  ui_Email : string;
  ui_CreatedAt : time;
}.

Record UserDevice := mk_UserDevice {
  ud_UserID : uuid;
  ud_Platform : string;
  ud_CreatedAt : time;
  ud_LastSeenAt : time;
}.

Record Medium := mk_Medium {
  md_OwnerID : option uuid;
  md_Kind : string;
  md_ContentType : string;
  md_Size : Z;
  md_Status : string;
  md_ChatType : option string;
  md_ChatID : option uuid;
  md_MessageID : option uuid;
  md_CreatedAt : time;
  md_ExpiresAt : time;
  md_DeliveredAt : option time;
  md_LastAccessAt : time;
  md_DeletedAt : option time;
  md_DurationMs : option Z;   (* int *)
  md_Width : option Z;
  md_Height : option Z;
  md_HasThumbnail : bool;
  md_FileName : option string;
  md_Waveform : option (list Z);
}.

Record NotificationPref := mk_NotificationPref {
  np_Private : bool;
  np_Groups : bool;
  np_Friends : bool;
  np_Reactions : bool;
}.

Record AdminAction := mk_AdminAction {
  aa_AdminID : option uuid;
  aa_Action : string;
  aa_TargetUser : option uuid;
  aa_TargetGroup : option uuid;
  aa_Detail : string;
  aa_At : time;
}.

Record Report := mk_Report {
  rp_ReporterID : option uuid;
  rp_ReportedID : uuid;
  rp_Reason : string;
  rp_Note : string;
  rp_Status : string;
  rp_ResolvedBy : option uuid;
  rp_ResolvedAt : option time;
  rp_Resolution : string;
  rp_CreatedAt : time;
}.

Record ReportMessage := mk_ReportMessage {
  rpm_ChatType : string;
  rpm_GroupID : option uuid;
  rpm_SenderID : option uuid;
  rpm_Content : string;
  rpm_SentAt : time;
}.

#[export] Instance MemberTable_eq_dec : EqDecision MemberTable.
Proof. solve_decision. Defined.
#[export] Instance Groupmessage_eq_dec : EqDecision Groupmessage.
Proof. solve_decision. Defined.
#[export] Instance Message_eq_dec : EqDecision Message.
Proof. solve_decision. Defined.

(** ** The database *)

Record DB := mk_DB {
  db_now : time;                                 (* what NOW() returns *)
  users : gmap uuid User;
  chat_groups : gmap uuid ChatGroup;
  member_table : gmap (uuid * uuid) MemberTable; (* (group_id, member_id) *)
  group_avatars : gmap uuid (list Z * time);
  message : gmap uuid Message;
  groupmessage : gmap uuid Groupmessage;
  message_reactions : gmap (uuid * uuid) Reaction; (* (message_id, user_id) *)
  group_message_reactions : gmap (uuid * uuid) Reaction;
  group_reads : gmap (uuid * uuid) GroupRead;    (* (group_id, user_id) *)
  seen_messages : gmap (string * uuid) uuid;     (* (chat_id, seen_id) *)
  user_relationships : gmap uuid UserRelationship;
  user_blocks : gmap (uuid * uuid) time;         (* (blocker_id, blocked_id) *)
  calls : gmap uuid Call;
  refresh_tokens : gmap string RefreshToken;
  email_codes : gmap (uuid * string) EmailCode;  (* (user_id, purpose) *)
  user_identities : gmap (string * string) UserIdentity; (* (provider, subject) *)
  user_devices : gmap string UserDevice;         (* by token *)
  user_avatars : gmap uuid (list Z * time);
  user_interests : gset (uuid * string);
  media : gmap uuid Medium;
  media_downloads : gset (uuid * uuid);          (* (media_id, user_id) *)
  notification_prefs : gmap uuid NotificationPref;
  chat_mutes : gmap (uuid * string * uuid) (option time); (* (user_id, chat_type, chat_id) *)
  admin_actions : gmap uuid AdminAction;
  reports : gmap uuid Report;
  report_messages : gmap (uuid * uuid) ReportMessage; (* (report_id, message_id) *)
}.

Definition empty_db : DB :=
  mk_DB 0 ∅ ∅ ∅ ∅ ∅ ∅ ∅ ∅ ∅ ∅ ∅ ∅ ∅ ∅ ∅ ∅ ∅ ∅ ∅ ∅ ∅ ∅ ∅ ∅ ∅ ∅.

Definition with_users (x : gmap uuid User) (d : DB) : DB :=
  mk_DB (db_now d) x (chat_groups d) (member_table d) (group_avatars d) (message d) (groupmessage d)
    (message_reactions d) (group_message_reactions d) (group_reads d) (seen_messages d) (user_relationships d)
    (user_blocks d) (calls d) (refresh_tokens d) (email_codes d) (user_identities d) (user_devices d)
    (user_avatars d) (user_interests d) (media d) (media_downloads d) (notification_prefs d) (chat_mutes d)
    (admin_actions d) (reports d) (report_messages d).
Definition with_chat_groups (x : gmap uuid ChatGroup) (d : DB) : DB :=
  mk_DB (db_now d) (users d) x (member_table d) (group_avatars d) (message d) (groupmessage d)
    (message_reactions d) (group_message_reactions d) (group_reads d) (seen_messages d) (user_relationships d)
    (user_blocks d) (calls d) (refresh_tokens d) (email_codes d) (user_identities d) (user_devices d)
    (user_avatars d) (user_interests d) (media d) (media_downloads d) (notification_prefs d) (chat_mutes d)
    (admin_actions d) (reports d) (report_messages d).
Definition with_member_table (x : gmap (uuid * uuid) MemberTable) (d : DB) : DB :=
  mk_DB (db_now d) (users d) (chat_groups d) x (group_avatars d) (message d) (groupmessage d)
    (message_reactions d) (group_message_reactions d) (group_reads d) (seen_messages d) (user_relationships d)
    (user_blocks d) (calls d) (refresh_tokens d) (email_codes d) (user_identities d) (user_devices d)
    (user_avatars d) (user_interests d) (media d) (media_downloads d) (notification_prefs d) (chat_mutes d)
    (admin_actions d) (reports d) (report_messages d).
Definition with_group_avatars (x : gmap uuid (list Z * time)) (d : DB) : DB :=
  mk_DB (db_now d) (users d) (chat_groups d) (member_table d) x (message d) (groupmessage d)
    (message_reactions d) (group_message_reactions d) (group_reads d) (seen_messages d) (user_relationships d)
    (user_blocks d) (calls d) (refresh_tokens d) (email_codes d) (user_identities d) (user_devices d)
    (user_avatars d) (user_interests d) (media d) (media_downloads d) (notification_prefs d) (chat_mutes d)
    (admin_actions d) (reports d) (report_messages d).
Definition with_message (x : gmap uuid Message) (d : DB) : DB :=
  mk_DB (db_now d) (users d) (chat_groups d) (member_table d) (group_avatars d) x (groupmessage d)
    (message_reactions d) (group_message_reactions d) (group_reads d) (seen_messages d) (user_relationships d)
    (user_blocks d) (calls d) (refresh_tokens d) (email_codes d) (user_identities d) (user_devices d)
    (user_avatars d) (user_interests d) (media d) (media_downloads d) (notification_prefs d) (chat_mutes d)
    (admin_actions d) (reports d) (report_messages d).
Definition with_groupmessage (x : gmap uuid Groupmessage) (d : DB) : DB :=
  mk_DB (db_now d) (users d) (chat_groups d) (member_table d) (group_avatars d) (message d) x
    (message_reactions d) (group_message_reactions d) (group_reads d) (seen_messages d) (user_relationships d)
    (user_blocks d) (calls d) (refresh_tokens d) (email_codes d) (user_identities d) (user_devices d)
    (user_avatars d) (user_interests d) (media d) (media_downloads d) (notification_prefs d) (chat_mutes d)
    (admin_actions d) (reports d) (report_messages d).
Definition with_message_reactions (x : gmap (uuid * uuid) Reaction) (d : DB) : DB :=
  mk_DB (db_now d) (users d) (chat_groups d) (member_table d) (group_avatars d) (message d) (groupmessage d) x
    (group_message_reactions d) (group_reads d) (seen_messages d) (user_relationships d) (user_blocks d)
    (calls d) (refresh_tokens d) (email_codes d) (user_identities d) (user_devices d) (user_avatars d)
    (user_interests d) (media d) (media_downloads d) (notification_prefs d) (chat_mutes d) (admin_actions d)
    (reports d) (report_messages d).
Definition with_group_message_reactions (x : gmap (uuid * uuid) Reaction) (d : DB) : DB :=
  mk_DB (db_now d) (users d) (chat_groups d) (member_table d) (group_avatars d) (message d) (groupmessage d)
    (message_reactions d) x (group_reads d) (seen_messages d) (user_relationships d) (user_blocks d) (calls d)
    (refresh_tokens d) (email_codes d) (user_identities d) (user_devices d) (user_avatars d) (user_interests d)
    (media d) (media_downloads d) (notification_prefs d) (chat_mutes d) (admin_actions d) (reports d)
    (report_messages d).
Definition with_group_reads (x : gmap (uuid * uuid) GroupRead) (d : DB) : DB :=
  mk_DB (db_now d) (users d) (chat_groups d) (member_table d) (group_avatars d) (message d) (groupmessage d)
    (message_reactions d) (group_message_reactions d) x (seen_messages d) (user_relationships d) (user_blocks d)
    (calls d) (refresh_tokens d) (email_codes d) (user_identities d) (user_devices d) (user_avatars d)
    (user_interests d) (media d) (media_downloads d) (notification_prefs d) (chat_mutes d) (admin_actions d)
    (reports d) (report_messages d).
Definition with_seen_messages (x : gmap (string * uuid) uuid) (d : DB) : DB :=
  mk_DB (db_now d) (users d) (chat_groups d) (member_table d) (group_avatars d) (message d) (groupmessage d)
    (message_reactions d) (group_message_reactions d) (group_reads d) x (user_relationships d) (user_blocks d)
    (calls d) (refresh_tokens d) (email_codes d) (user_identities d) (user_devices d) (user_avatars d)
    (user_interests d) (media d) (media_downloads d) (notification_prefs d) (chat_mutes d) (admin_actions d)
    (reports d) (report_messages d).
Definition with_user_relationships (x : gmap uuid UserRelationship) (d : DB) : DB :=
  mk_DB (db_now d) (users d) (chat_groups d) (member_table d) (group_avatars d) (message d) (groupmessage d)
    (message_reactions d) (group_message_reactions d) (group_reads d) (seen_messages d) x (user_blocks d)
    (calls d) (refresh_tokens d) (email_codes d) (user_identities d) (user_devices d) (user_avatars d)
    (user_interests d) (media d) (media_downloads d) (notification_prefs d) (chat_mutes d) (admin_actions d)
    (reports d) (report_messages d).
Definition with_user_blocks (x : gmap (uuid * uuid) time) (d : DB) : DB :=
  mk_DB (db_now d) (users d) (chat_groups d) (member_table d) (group_avatars d) (message d) (groupmessage d)
    (message_reactions d) (group_message_reactions d) (group_reads d) (seen_messages d) (user_relationships d) x
    (calls d) (refresh_tokens d) (email_codes d) (user_identities d) (user_devices d) (user_avatars d)
    (user_interests d) (media d) (media_downloads d) (notification_prefs d) (chat_mutes d) (admin_actions d)
    (reports d) (report_messages d).
Definition with_calls (x : gmap uuid Call) (d : DB) : DB :=
  mk_DB (db_now d) (users d) (chat_groups d) (member_table d) (group_avatars d) (message d) (groupmessage d)
    (message_reactions d) (group_message_reactions d) (group_reads d) (seen_messages d) (user_relationships d)
    (user_blocks d) x (refresh_tokens d) (email_codes d) (user_identities d) (user_devices d) (user_avatars d)
    (user_interests d) (media d) (media_downloads d) (notification_prefs d) (chat_mutes d) (admin_actions d)
    (reports d) (report_messages d).
Definition with_refresh_tokens (x : gmap string RefreshToken) (d : DB) : DB :=
  mk_DB (db_now d) (users d) (chat_groups d) (member_table d) (group_avatars d) (message d) (groupmessage d)
    (message_reactions d) (group_message_reactions d) (group_reads d) (seen_messages d) (user_relationships d)
    (user_blocks d) (calls d) x (email_codes d) (user_identities d) (user_devices d) (user_avatars d)
    (user_interests d) (media d) (media_downloads d) (notification_prefs d) (chat_mutes d) (admin_actions d)
    (reports d) (report_messages d).
Definition with_email_codes (x : gmap (uuid * string) EmailCode) (d : DB) : DB :=
  mk_DB (db_now d) (users d) (chat_groups d) (member_table d) (group_avatars d) (message d) (groupmessage d)
    (message_reactions d) (group_message_reactions d) (group_reads d) (seen_messages d) (user_relationships d)
    (user_blocks d) (calls d) (refresh_tokens d) x (user_identities d) (user_devices d) (user_avatars d)
    (user_interests d) (media d) (media_downloads d) (notification_prefs d) (chat_mutes d) (admin_actions d)
    (reports d) (report_messages d).
Definition with_user_identities (x : gmap (string * string) UserIdentity) (d : DB) : DB :=
  mk_DB (db_now d) (users d) (chat_groups d) (member_table d) (group_avatars d) (message d) (groupmessage d)
    (message_reactions d) (group_message_reactions d) (group_reads d) (seen_messages d) (user_relationships d)
    (user_blocks d) (calls d) (refresh_tokens d) (email_codes d) x (user_devices d) (user_avatars d)
    (user_interests d) (media d) (media_downloads d) (notification_prefs d) (chat_mutes d) (admin_actions d)
    (reports d) (report_messages d).
Definition with_user_devices (x : gmap string UserDevice) (d : DB) : DB :=
  mk_DB (db_now d) (users d) (chat_groups d) (member_table d) (group_avatars d) (message d) (groupmessage d)
    (message_reactions d) (group_message_reactions d) (group_reads d) (seen_messages d) (user_relationships d)
    (user_blocks d) (calls d) (refresh_tokens d) (email_codes d) (user_identities d) x (user_avatars d)
    (user_interests d) (media d) (media_downloads d) (notification_prefs d) (chat_mutes d) (admin_actions d)
    (reports d) (report_messages d).
Definition with_user_avatars (x : gmap uuid (list Z * time)) (d : DB) : DB :=
  mk_DB (db_now d) (users d) (chat_groups d) (member_table d) (group_avatars d) (message d) (groupmessage d)
    (message_reactions d) (group_message_reactions d) (group_reads d) (seen_messages d) (user_relationships d)
    (user_blocks d) (calls d) (refresh_tokens d) (email_codes d) (user_identities d) (user_devices d) x
    (user_interests d) (media d) (media_downloads d) (notification_prefs d) (chat_mutes d) (admin_actions d)
    (reports d) (report_messages d).
Definition with_user_interests (x : gset (uuid * string)) (d : DB) : DB :=
  mk_DB (db_now d) (users d) (chat_groups d) (member_table d) (group_avatars d) (message d) (groupmessage d)
    (message_reactions d) (group_message_reactions d) (group_reads d) (seen_messages d) (user_relationships d)
    (user_blocks d) (calls d) (refresh_tokens d) (email_codes d) (user_identities d) (user_devices d)
    (user_avatars d) x (media d) (media_downloads d) (notification_prefs d) (chat_mutes d) (admin_actions d)
    (reports d) (report_messages d).
Definition with_media (x : gmap uuid Medium) (d : DB) : DB :=
  mk_DB (db_now d) (users d) (chat_groups d) (member_table d) (group_avatars d) (message d) (groupmessage d)
    (message_reactions d) (group_message_reactions d) (group_reads d) (seen_messages d) (user_relationships d)
    (user_blocks d) (calls d) (refresh_tokens d) (email_codes d) (user_identities d) (user_devices d)
    (user_avatars d) (user_interests d) x (media_downloads d) (notification_prefs d) (chat_mutes d)
    (admin_actions d) (reports d) (report_messages d).
Definition with_media_downloads (x : gset (uuid * uuid)) (d : DB) : DB :=
  mk_DB (db_now d) (users d) (chat_groups d) (member_table d) (group_avatars d) (message d) (groupmessage d)
    (message_reactions d) (group_message_reactions d) (group_reads d) (seen_messages d) (user_relationships d)
    (user_blocks d) (calls d) (refresh_tokens d) (email_codes d) (user_identities d) (user_devices d)
    (user_avatars d) (user_interests d) (media d) x (notification_prefs d) (chat_mutes d) (admin_actions d)
    (reports d) (report_messages d).
Definition with_notification_prefs (x : gmap uuid NotificationPref) (d : DB) : DB :=
  mk_DB (db_now d) (users d) (chat_groups d) (member_table d) (group_avatars d) (message d) (groupmessage d)
    (message_reactions d) (group_message_reactions d) (group_reads d) (seen_messages d) (user_relationships d)
    (user_blocks d) (calls d) (refresh_tokens d) (email_codes d) (user_identities d) (user_devices d)
    (user_avatars d) (user_interests d) (media d) (media_downloads d) x (chat_mutes d) (admin_actions d)
    (reports d) (report_messages d).
Definition with_chat_mutes (x : gmap (uuid * string * uuid) (option time)) (d : DB) : DB :=
  mk_DB (db_now d) (users d) (chat_groups d) (member_table d) (group_avatars d) (message d) (groupmessage d)
    (message_reactions d) (group_message_reactions d) (group_reads d) (seen_messages d) (user_relationships d)
    (user_blocks d) (calls d) (refresh_tokens d) (email_codes d) (user_identities d) (user_devices d)
    (user_avatars d) (user_interests d) (media d) (media_downloads d) (notification_prefs d) x (admin_actions d)
    (reports d) (report_messages d).
Definition with_admin_actions (x : gmap uuid AdminAction) (d : DB) : DB :=
  mk_DB (db_now d) (users d) (chat_groups d) (member_table d) (group_avatars d) (message d) (groupmessage d)
    (message_reactions d) (group_message_reactions d) (group_reads d) (seen_messages d) (user_relationships d)
    (user_blocks d) (calls d) (refresh_tokens d) (email_codes d) (user_identities d) (user_devices d)
    (user_avatars d) (user_interests d) (media d) (media_downloads d) (notification_prefs d) (chat_mutes d) x
    (reports d) (report_messages d).
Definition with_reports (x : gmap uuid Report) (d : DB) : DB :=
  mk_DB (db_now d) (users d) (chat_groups d) (member_table d) (group_avatars d) (message d) (groupmessage d)
    (message_reactions d) (group_message_reactions d) (group_reads d) (seen_messages d) (user_relationships d)
    (user_blocks d) (calls d) (refresh_tokens d) (email_codes d) (user_identities d) (user_devices d)
    (user_avatars d) (user_interests d) (media d) (media_downloads d) (notification_prefs d) (chat_mutes d)
    (admin_actions d) x (report_messages d).
Definition with_report_messages (x : gmap (uuid * uuid) ReportMessage) (d : DB) : DB :=
  mk_DB (db_now d) (users d) (chat_groups d) (member_table d) (group_avatars d) (message d) (groupmessage d)
    (message_reactions d) (group_message_reactions d) (group_reads d) (seen_messages d) (user_relationships d)
    (user_blocks d) (calls d) (refresh_tokens d) (email_codes d) (user_identities d) (user_devices d)
    (user_avatars d) (user_interests d) (media d) (media_downloads d) (notification_prefs d) (chat_mutes d)
    (admin_actions d) (reports d) x.

(** ** SQL *)

(** A [pgtype.Timestamp] parameter: the driver sends whole microseconds. *)
Definition pgTime (t : time) : time := t / 1000 * 1000.

(** Class 23 errors: unique, foreign key, check; class 22: data too long. *)
Definition unique_violation (constr : string) : error := ErrPg "23505" constr.
Definition foreign_key_violation (constr : string) : error := ErrPg "23503" constr.
Definition check_violation (constr : string) : error := ErrPg "23514" constr.
Definition string_too_long : error := ErrPg "22001" EmptyString.

(** VARCHAR(n) counts characters. *)
Definition varchar_ok (n : Z) (s : string) : bool := RuneCountInString s <=? n.

(** Rows of a table satisfying a WHERE clause, in the table's own order. *)
Definition select {K V} `{Countable K} (p : K → V → bool) (m : gmap K V) : list (K * V) :=
  List.filter (λ kv, p kv.1 kv.2) (map_to_list m).

(** [:one] queries: the first row, or [pgx.ErrNoRows]. *)
Definition one {A} (l : list A) : result A :=
  match l with x :: _ => Ok x | [] => Err ErrNoRows end.

(** ORDER BY, given the "comes no later than" test of the sort keys. *)
Definition le_rel {A} (le : A → A → bool) : relation A := λ x y, le x y = true.
#[export] Instance le_rel_dec {A} (le : A → A → bool) : RelDecision (le_rel le).
Proof. intros x y. unfold le_rel. apply _. Defined.

Definition order_by {A} (le : A → A → bool) (l : list A) : list A := merge_sort (le_rel le) l.

Definition limit {A} (n : Z) (l : list A) : list A := take (Z.to_nat n) l.

Lemma elem_of_select {K V} `{Countable K} (p : K → V → bool) (m : gmap K V) k v :
  (k, v) ∈ select p m ↔ m !! k = Some v ∧ p k v = true.
Proof.
  unfold select. rewrite list_elem_of_In, List.filter_In, <- list_elem_of_In, elem_of_map_to_list.
  done.
Qed.

Lemma NoDup_select {K V} `{Countable K} (p : K → V → bool) (m : gmap K V) : NoDup (select p m).
Proof. apply NoDup_list_filter, NoDup_map_to_list. Qed.

Lemma order_by_permutation {A} (le : A → A → bool) (l : list A) : order_by le l ≡ₚ l.
Proof. apply merge_sort_Permutation. Qed.

Lemma elem_of_order_by {A} (le : A → A → bool) (l : list A) x : x ∈ order_by le l ↔ x ∈ l.
Proof. by rewrite order_by_permutation. Qed.

Section ordering.
Context {A : Type} (le : A → A → bool).
Hypothesis le_total : ∀ x y, le x y = true ∨ le y x = true.
Hypothesis le_trans : ∀ x y z, le x y = true → le y z = true → le x z = true.

Lemma order_by_sorted l : StronglySorted (le_rel le) (order_by le l).
Proof.
  pose proof (le_trans : Transitive (le_rel le)). pose proof (le_total : Total (le_rel le)).
  apply (StronglySorted_merge_sort _).
Qed.

(** The first row of an ordered query comes no later than any other. *)
Lemma order_by_head l x l' y :
  order_by le l = x :: l' → y ∈ l → le x y = true.
Proof.
  intros Hl Hy. pose proof (order_by_sorted l) as Hs. rewrite Hl in Hs.
  apply StronglySorted_inv in Hs as [_ Hall].
  rewrite <- (elem_of_order_by le), Hl in Hy. apply elem_of_cons in Hy as [->|Hy].
  - by destruct (le_total x x).
  - rewrite Forall_forall in Hall. by apply Hall.
Qed.
End ordering.
