(* ===== verification/Types.v ===== *)
(** * Types: what the components exchange

    The websocket events (src/internal/ws/events.go), the notification jobs
    (src/internal/push/push.go) and the media attachments that chat carries
    around (src/internal/media/media.go).  [UuidLib] stands for the uuid
    library's [String] and [Parse]. *)

From S2P Require Import Prelude.

#[local] Open Scope Z_scope.

(** ** github.com/google/uuid *)

Class UuidLib := {
  uuid_string : uuid → string;        (* uuid.UUID.String *)
  uuid_parse : string → option uuid;  (* uuid.Parse; None is its error *)
}.

(** What the code relies on, from the library's documentation: parsing the
    canonical form gives the id back, the empty text is not an id, and the
    canonical form (hexadecimal digits and dashes) has no underscore (character
    95).  Ids are numbers below 2^128; the laws are stated for all of N so that no
    theorem carries the bound. *)
Class UuidLaws {ulib : UuidLib} := {
  uuid_parse_string u : uuid_parse (uuid_string u) = Some u;
  uuid_parse_empty : uuid_parse EmptyString = None;
  uuid_string_plain u : Ascii.ascii_of_nat 95 ∉ String.list_ascii_of_string (uuid_string u);
}.
Arguments UuidLaws : clear implicits.

#[export] Instance uuid_string_inj (ulib : UuidLib) (laws : UuidLaws ulib) : Inj (=) (=) uuid_string.
Proof. intros a b Hab. pose proof (uuid_parse_string a) as H. rewrite Hab, uuid_parse_string in H. congruence. Qed.

(** ** Attachments *)

Record Attachment := mk_Attachment {
  att_ID : uuid;
  att_Kind : string;
  att_ContentType : string;
  att_Size : Z;
  att_ExpiresAt : time;
  att_Expired : bool;
  att_DurationMs : Z;
  att_Width : Z;
  att_Height : Z;
  att_Thumbnail : bool;
  att_FileName : string;
  att_Waveform : list Z;
}.

(** ** Websocket events *)

Record OutGroupAdded := mk_OutGroupAdded { ga_GroupID : string; ga_ByID : string }.

Record OutGroupReadEvent := mk_OutGroupReadEvent {
  gre_GroupID : string; gre_UserID : string; gre_MsgID : string }.

Record OutGoingEventForSeen := mk_OutGoingEventForSeen { seen_MsgID : string; seen_FromID : string }.

Record OutGoingEventForTyping := mk_OutGoingEventForTyping {
  typ_FromID : string; typ_GroupID : string }.

Record OutFriEvent := mk_OutFriEvent { fri_ReqID : string; fri_FromID : string }.

Record OutReactionEvent := mk_OutReactionEvent {
  rea_MsgID : string; rea_FromID : string; rea_Type : string; rea_GroupID : string; rea_Emoji : string }.

Record OutEditedEvent := mk_OutEditedEvent {
  ed_MsgID : string; ed_FromID : string; ed_Type : string; ed_GroupID : string;
  ed_Content : string; ed_EditedAt : time }.

Record OutDeletedEvent := mk_OutDeletedEvent {
  del_MsgID : string; del_FromID : string; del_Type : string; del_GroupID : string; del_ByID : string }.

Record OutGroupUpdated := mk_OutGroupUpdated {
  gu_GroupID : string; gu_Change : string; gu_UserID : string }.

Record OutGroupRemoved := mk_OutGroupRemoved { grm_GroupID : string; grm_Reason : string }.

Record OutUnfriendEvent := mk_OutUnfriendEvent { unf_FromID : string }.

Record OutGoingMessage := mk_OutGoingMessage {
  out_ID : string;
  out_Content : string;
  out_ParentID : string;
  out_FromID : string;
  out_ToID : string;
  out_Type : string;
  out_GroupID : string;
  out_CreatedAt : time;
  out_Media : list Attachment;
  out_Forwarded : bool;
}.

(** A friend came online or went; hidden, there is nothing to see. *)
Record OutPresenceEvent := mk_OutPresenceEvent {
  pre_UserID : string; pre_Online : bool; pre_LastSeenAt : option time; pre_Hidden : bool }.

(** [Event.Payload] is an interface; these are the values stored in it. *)
Inductive Payload : Type :=
  | PMessage (m : OutGoingMessage)
  | PTyping (e : OutGoingEventForTyping)
  | PSeen (e : OutGoingEventForSeen)
  | PFriend (e : OutFriEvent)
  | PUnfriend (e : OutUnfriendEvent)
  | PReaction (e : OutReactionEvent)
  | PEdited (e : OutEditedEvent)
  | PDeleted (e : OutDeletedEvent)
  | PGroupUpdated (e : OutGroupUpdated)
  | PGroupRemoved (e : OutGroupRemoved)
  | PGroupRead (e : OutGroupReadEvent)
  | PGroupAdded (e : OutGroupAdded)
  | PPresence (e : OutPresenceEvent)
  | PCall (fields : list (string * string)) (duration_ms : option Z).

Record Event := mk_Event { ev_name : string; ev_payload : Payload }.

Definition EventMessage : string := "msg".
Definition EventTyping : string := "Typing".
Definition EventSeen : string := "Seen".
Definition EventAddFriend : string := "AddFri".
Definition EventAccept : string := "AcceptFri".
Definition EventDeny : string := "DenyFri".
Definition EventUnfriend : string := "RemoveFri".
Definition EventReaction : string := "Reaction".
Definition EventEdited : string := "MsgEdited".
Definition EventDeleted : string := "MsgDeleted".
Definition EventGroupUpd : string := "GroupUpdated".
Definition EventGroupGone : string := "GroupRemoved".
Definition EventGroupRead : string := "GroupRead".
Definition EventGroupAdded : string := "GroupAdded".
Definition EventPresence : string := "Presence".

(** One live connection: a user on one device (ws/hub.go). *)
Record Conn := mk_Conn { conn_User : uuid; conn_ID : uuid }.
#[export] Instance Conn_eq_dec : EqDecision Conn.
Proof. solve_decision. Defined.

(** ** Notification jobs *)

Definition KindPrivate : string := "private".
Definition KindGroup : string := "public".
Definition KindFriendRequest : string := "friend_request".
Definition KindFriendAccept : string := "friend_accept".
Definition KindReaction : string := "reaction".
Definition KindGroupAdded : string := "group_added".
Definition KindCall : string := "call".
Definition KindMissedCall : string := "missed_call".

Record Job := mk_Job {
  job_Kind : string;
  job_To : list uuid;
  job_From : uuid;
  job_Group : uuid;
  job_MsgID : uuid;
  job_Preview : string;
  job_CallID : uuid;
}.

(** ** mail *)

(** [mail.Message] *)
Record Mail := mk_Mail { mail_To : string; mail_Subject : string; mail_Text : string; mail_HTML : string }.

(** One notification for one device (push/fcm.go). *)
Record PushMessage := mk_PushMessage {
  pn_Token : string;
  pn_Title : string;
  pn_Body : string;
  pn_Tag : string;
  pn_Data : list (string * string);
  pn_DataOnly : bool;
  pn_TTL : duration;
}.
