(* ===== verification/Queue.v ===== *)
(** * Queue: background jobs (src/internal/platform/queue)

    The memory queue and the Redis queue, with what [Typed] handlers answer as an outcome.
    A Redis stream is a table of entries by id; what XREADGROUP and XAUTOCLAIM hand to the
    workers of all servers are copies, so one entry can be in several hands.  A payload is
    its JSON text.  Every entry carries the number of the job it was published as, which
    Redis does not have, so that the theorems speak of jobs and not of payloads.  Streams
    have a cap, beyond which Redis drops the oldest entries: a step keeps within it. *)

From stdpp Require Import gmap.
From S2P Require Import Prelude Types Db.

#[local] Open Scope Z_scope.

(** What a handler answers: nil, an error, or a [Permanent] one (which a payload that does
    not decode is too). *)
Inductive outcome := Done | Failed | PermanentlyFailed.

(** [d := 200ms << min(n-1, 8)] *)
Definition Backoff (n : Z) : duration := Z.min (Z.shiftl (200 * millisecond) (Z.min (n - 1) 8)) (30 * second).

(** ** The memory queue *)

Module Memory.
Record memJob := mk_memJob { mj_payload : string; mj_attempt : Z }.

(** The channel of a topic, the retries waiting for their timer, what the handler was run
    on, and what was published. *)
Record topic := mk_topic {
  tp_chan : list memJob;
  tp_timers : list memJob;
  tp_runs : list memJob;
  tp_published : list string;
}.

Definition capacity : nat := 1000.
Definition empty_topic : topic := mk_topic [] [] [] [].

(** A full channel blocks the publisher. *)
Definition Publish (payload : string) (t : topic) : option topic :=
  if (length (tp_chan t) <? capacity)%nat then 
  Some (mk_topic (tp_chan t ++ [mk_memJob payload 0]) (tp_timers t) (tp_runs t) (tp_published t ++ [payload]))
  else None.

(** A worker takes the next job and runs the handler. *)
Definition handle (maxRetries : Z) (o : outcome) (t : topic) : option topic :=
  match tp_chan t with
  | [] => None
  | job :: ch =>
    let runs := tp_runs t ++ [job] in
    Some (match o with
          | Done => mk_topic ch (tp_timers t) runs (tp_published t)
          | PermanentlyFailed => mk_topic ch (tp_timers t) runs (tp_published t)
          | Failed =>
            if mj_attempt job + 1 >=? maxRetries then mk_topic ch (tp_timers t) runs (tp_published t)
            else mk_topic ch (tp_timers t ++ [mk_memJob (mj_payload job) (mj_attempt job + 1)]) runs (tp_published t)
          end)
  end.

(** A timer fires: the retry is dropped when the topic is full. *)
Definition fire (i : nat) (t : topic) : option topic :=
  match tp_timers t !! i with
  | None => None
  | Some job =>
    let timers := delete i (tp_timers t) in
    Some (if (length (tp_chan t) <? capacity)%nat then mk_topic (tp_chan t ++ [job]) timers (tp_runs t) (tp_published t)
          else mk_topic (tp_chan t) timers (tp_runs t) (tp_published t))
  end.

Inductive step (maxRetries : Z) : relation topic :=
  | step_publish p t t' : Publish p t = Some t' → step maxRetries t t'
  | step_handle o t t' : handle maxRetries o t = Some t' → step maxRetries t t'
  | step_fire i t t' : fire i t = Some t' → step maxRetries t t'.
End Memory.

(** ** The Redis queue *)

Module Redis.
Record options := mk_options {
  MaxRetries : Z;
  StreamMaxLen : Z;
  ClaimIdle : duration;
}.

(** [defaults] *)
Definition defaults (o : options) : options := mk_options
  (if MaxRetries o <=? 0 then 8 else MaxRetries o)
  (if StreamMaxLen o <=? 0 then 100000 else StreamMaxLen o)
  (if ClaimIdle o <=? 0 then minute else ClaimIdle o).

Record entry := mk_entry { en_payload : string; en_attempt : Z; en_job : nat }.

(** An entry in a worker's hands. *)
Record delivery := mk_delivery { dv_topic : string; dv_id : N; dv_entry : entry }.

(** [envelope]: topic, payload, attempt. *)
Notation envelope := (string * string * Z)%type (only parsing).

(** A job is known by its place in [q_published]; Redis does not hold that number, it is
    carried along to tell apart jobs whose topic and payload are equal. *)
Record state := mk_state {
  q_streams : gmap (string * N) entry;                    (* jobs:{topic}, by topic and id *)
  q_last : N;                                             (* the last id given *)
  q_pending : gmap (string * N) time;                     (* delivered, not acknowledged: when *)
  q_delayed : gmap envelope (Z * nat);                    (* jobs:delayed: the score of each envelope *)
  q_dead : list (envelope * nat);                         (* jobs:dead *)
  q_hands : list delivery;                                (* what the workers of all servers hold *)
  q_published : list (string * string);                   (* every job that was published *)
  q_done : list nat;                                      (* the jobs that were handled *)
  q_merged : list (nat * nat);                            (* the jobs whose envelope another one took *)
}.

Definition empty_state : state := mk_state ∅ 0 ∅ ∅ [] [] [] [] [].

Definition with_streams (s : gmap (string * N) entry) (l : N) (q : state) : state :=
  mk_state s l (q_pending q) (q_delayed q) (q_dead q) (q_hands q) (q_published q) (q_done q) (q_merged q).
Definition with_pending (p : gmap (string * N) time) (q : state) : state :=
  mk_state (q_streams q) (q_last q) p (q_delayed q) (q_dead q) (q_hands q) (q_published q) (q_done q) (q_merged q).
Definition with_delayed (d : gmap envelope (Z * nat)) (m : list (nat * nat)) (q : state) : state :=
  mk_state (q_streams q) (q_last q) (q_pending q) d (q_dead q) (q_hands q) (q_published q) (q_done q) m.
Definition with_dead (d : list (envelope * nat)) (q : state) : state :=
  mk_state (q_streams q) (q_last q) (q_pending q) (q_delayed q) d (q_hands q) (q_published q) (q_done q) (q_merged q).
Definition with_hands (h : list delivery) (q : state) : state :=
  mk_state (q_streams q) (q_last q) (q_pending q) (q_delayed q) (q_dead q) h (q_published q) (q_done q) (q_merged q).
Definition with_published (p : list (string * string)) (q : state) : state :=
  mk_state (q_streams q) (q_last q) (q_pending q) (q_delayed q) (q_dead q) (q_hands q) p (q_done q) (q_merged q).
Definition with_done (d : list nat) (q : state) : state :=
  mk_state (q_streams q) (q_last q) (q_pending q) (q_delayed q) (q_dead q) (q_hands q) (q_published q) d (q_merged q).

(** XADD *)
Definition add (topic payload : string) (attempt : Z) (job : nat) (q : state) : state :=
  let id := (q_last q + 1)%N in
  with_streams (<[(topic, id) := mk_entry payload attempt job]> (q_streams q)) id q.

Definition Publish (topic payload : string) (q : state) : state :=
  add topic payload 0 (length (q_published q)) (with_published (q_published q ++ [(topic, payload)]) q).

Definition hand (topic : string) (id : N) (e : entry) (now : time) (q : state) : state :=
  with_hands (mk_delivery topic id e :: q_hands q) (with_pending (<[(topic, id) := now]> (q_pending q)) q).

(** XREADGROUP: an entry that was never delivered. *)
Definition read (topic : string) (id : N) (now : time) (q : state) : option state :=
  match q_streams q !! (topic, id), q_pending q !! (topic, id) with
  | Some e, None => Some (hand topic id e now q)
  | _, _ => None
  end.

(** XAUTOCLAIM: an entry delivered long ago and not acknowledged. *)
Definition claim (o : options) (topic : string) (id : N) (now : time) (q : state) : option state :=
  match q_streams q !! (topic, id), q_pending q !! (topic, id) with
  | Some e, Some t => if now - t >=? ClaimIdle o then Some (hand topic id e now q) else None
  | _, _ => None
  end.

(** ZADD: a member that is there gets the new score, and stands for the new job only. *)
Definition delay (k : envelope) (score : Z) (job : nat) (q : state) : state :=
  let merged := match q_delayed q !! k with
                | Some (_, old) => if decide (old = job) then q_merged q else q_merged q ++ [(old, job)]
                | None => q_merged q
                end in
  with_delayed (<[k := (score, job)]> (q_delayed q)) merged q.

(** XACK and XDEL *)
Definition acknowledge (topic : string) (id : N) (q : state) : state :=
  with_streams (delete (topic, id) (q_streams q)) (q_last q) (with_pending (delete (topic, id) (q_pending q)) q).

(** The transaction of [process]: what becomes of the job, and the acknowledgement. *)
Definition finish (o : options) (d : delivery) (res : outcome) (now : time) (q : state) : state :=
  let e := dv_entry d in let attempt := en_attempt e + 1 in let k := (dv_topic d, en_payload e, attempt) in
  let dead := with_dead (q_dead q ++ [(k, en_job e)]) q in
  let q := match res with
           | Done => with_done (q_done q ++ [en_job e]) q
           | PermanentlyFailed => dead
           | Failed =>
             if attempt >=? MaxRetries o then dead
             else delay k ((now + Backoff attempt) / millisecond) (en_job e) q
           end in
  acknowledge (dv_topic d) (dv_id d) q.

(** A worker runs the handler on what it holds; the transaction may fail. *)
Definition process (o : options) (i : nat) (res : outcome) (tx : bool) (now : time) (q : state) : option state :=
  match q_hands q !! i with
  | None => None
  | Some d =>
    let q := with_hands (delete i (q_hands q)) q in
    Some (if tx then finish o d res now q else q)
  end.

(** The envelopes whose time has come, at most 100, the earliest first. *)
Definition due (now : time) (q : state) : list (envelope * nat) :=
  (λ x : envelope * (Z * nat), (x.1, x.2.2)) <$>
    take 100 (order_by (λ a b : envelope * (Z * nat), a.2.1 <=? b.2.1) (select (λ _ s, s.1 <=? now / millisecond) (q_delayed q))).

(** ZREM and XADD *)
Definition move_one (q : state) (x : envelope * nat) : state :=
  let q := with_delayed (delete x.1 (q_delayed q)) (q_merged q) q in
  add x.1.1.1 x.1.1.2 x.1.2 x.2 q.

(** [moveDueScript] *)
Definition moveDue (now : time) (q : state) : state := foldl move_one q (due now q).

Definition stream_length (topic : string) (q : state) : Z :=
  Z.of_nat (length (select (λ k _, bool_decide (k.1 = topic)) (q_streams q))).
(** No stream is over its cap. *)
Definition fits (o : options) (q : state) : Prop :=
  (∀ topic, stream_length topic q <= StreamMaxLen o) ∧ Z.of_nat (length (q_dead q)) <= StreamMaxLen o.

Inductive step (o : options) : relation state :=
  | step_publish t p q : fits o (Publish t p q) → step o q (Publish t p q)
  | step_read t id now q q' : read t id now q = Some q' → step o q q'
  | step_claim t id now q q' : claim o t id now q = Some q' → step o q q'
  | step_process i res tx now q q' : process o i res tx now q = Some q' → fits o q' → step o q q'
  (* a server dies with what its workers hold *)
  | step_crash h q : h ⊆ q_hands q → step o q (with_hands h q)
  | step_move now q : fits o (moveDue now q) → step o q (moveDue now q).
End Redis.

(** * No job is lost, and none is tried for ever *)

(** ** The delay before a retry *)

Lemma Backoff_bounds n : 1 <= n → 200 * millisecond <= Backoff n <= 30 * second.
Proof.
  intros Hn. unfold Backoff. rewrite Z.shiftl_mul_pow2 by lia.
  assert (2 ^ 0 <= 2 ^ Z.min (n - 1) 8) by (apply Z.pow_le_mono_r; lia). unfold second, millisecond in *. lia.
Qed.

(** ** The memory queue *)

Module Bounded.
Import Memory.

(** How often the handler may still be run on jobs with this payload. *)
Definition left_of (maxRetries : Z) (p : string) (l : list memJob) : Z :=
  foldr (λ j n, (if decide (mj_payload j = p) then maxRetries - mj_attempt j else 0) + n) 0 l.
Definition runs_of (p : string) (l : list memJob) : Z := Z.of_nat (length (filter (λ j, mj_payload j = p) l)).
Definition count_of (p : string) (l : list string) : Z := Z.of_nat (length (filter (λ s, s = p) l)).

Lemma left_app m p l1 l2 : left_of m p (l1 ++ l2) = left_of m p l1 + left_of m p l2.
Proof. induction l1 as [|j l1 IH]; simpl; lia. Qed.
Lemma left_delete m p l i j : l !! i = Some j → left_of m p l = left_of m p [j] + left_of m p (delete i l).
Proof.
  revert i. induction l as [|x l IH]; intros [|i] H; simplify_eq/=; [lia|]. rewrite (IH i H). simpl. lia.
Qed.
Lemma runs_app p l j : runs_of p (l ++ [j]) = runs_of p l + (if decide (mj_payload j = p) then 1 else 0).
Proof. unfold runs_of. rewrite filter_app, length_app. unfold filter at 2. simpl. case_decide; simpl; lia. Qed.
Lemma count_app p l x : count_of p (l ++ [x]) = count_of p l + (if decide (x = p) then 1 else 0).
Proof. unfold count_of. rewrite filter_app, length_app. unfold filter at 2. simpl. case_decide; simpl; lia. Qed.

Definition good (m : Z) (j : memJob) : Prop := 0 <= mj_attempt j < m.
Record bounded (m : Z) (t : topic) : Prop := {
  bd_jobs : Forall (good m) (tp_chan t ++ tp_timers t);
  bd_left p : runs_of p (tp_runs t) + left_of m p (tp_chan t) + left_of m p (tp_timers t) <= m * count_of p (tp_published t);
}.

Lemma left_pos m p l : Forall (good m) l → 0 <= left_of m p l.
Proof. induction 1 as [|j l [H0 H1] _ IH]; simpl; [lia|]. case_decide; lia. Qed.

Lemma step_bounded m t t' : 1 <= m → step m t t' → bounded m t → bounded m t'.
Proof.
  intros Hm Hs [Hj Hl]. destruct Hs as [p t t' H|o t t' H|i t t' H].
  - unfold Publish in H. destruct (_ <? _)%nat; [|done]. injection H as <-. split; cbn [tp_chan tp_timers tp_runs tp_published].
    + rewrite <- app_assoc. apply Forall_app in Hj as [H1 H2]. apply Forall_app. split; [done|].
      apply Forall_app. split; [|done]. repeat constructor; simpl; lia.
    + intros q. specialize (Hl q). rewrite left_app, count_app. simpl. case_decide; lia.
  - unfold handle in H. destruct (tp_chan t) as [|job ch] eqn:Hch; [done|]. rewrite Forall_app, Forall_cons in Hj. destruct Hj as [[[H0 H1] H2] H3].
    assert (bounded m (mk_topic ch (tp_timers t) (tp_runs t ++ [job]) (tp_published t))) as Hdrop.
    { split; cbn [tp_chan tp_timers tp_runs tp_published]; [by apply Forall_app|]. intros q. specialize (Hl q).
      rewrite runs_app. simpl in Hl. case_decide; lia. }
    injection H as <-. destruct o; [done| |done]. destruct (mj_attempt job + 1 >=? m) eqn:E; [done|].
    split; cbn [tp_chan tp_timers tp_runs tp_published].
    + apply Forall_app. split; [done|]. apply Forall_app. split; [done|]. repeat constructor; simpl; lia.
    + intros q. specialize (Hl q). rewrite runs_app, left_app. simpl in *. case_decide; lia.
  - unfold fire in H. destruct (tp_timers t !! i) as [job|] eqn:Hi; [|done]. injection H as <-.
    apply Forall_app in Hj as [H1 H2]. pose proof (Forall_delete _ _ i H2) as H3.
    pose proof (Forall_lookup_1 _ _ _ _ H2 Hi) as Hg. destruct (_ <? _)%nat; split; cbn [tp_chan tp_timers tp_runs tp_published].
    + rewrite <- app_assoc. apply Forall_app. split; [done|]. apply Forall_app. split; [by constructor|done].
    + intros q. specialize (Hl q). rewrite left_app. rewrite (left_delete m q _ _ _ Hi) in Hl. lia.
    + by apply Forall_app.
    + intros q. specialize (Hl q). rewrite (left_delete m q _ _ _ Hi) in Hl.
      pose proof (left_pos m q [job] ltac:(by constructor)). lia.
Qed.
End Bounded.

(** A job is not tried for ever.  However publishers, workers and timers of a memory
    queue interleave and whatever the handler answers, it is run at most [maxRetries] times
    for each time a payload was published; and a retry waits between 200 ms and 30 s. *)
Theorem retries_bounded maxRetries t p : 1 <= maxRetries → rtc (Memory.step maxRetries) Memory.empty_topic t →
  Bounded.runs_of p (Memory.tp_runs t) <= maxRetries * Bounded.count_of p (Memory.tp_published t) ∧
  ∀ n, 1 <= n → 200 * millisecond <= Backoff n <= 30 * second.
Proof.
  intros Hm Hs. split; [|exact Backoff_bounds].
  assert (Bounded.bounded maxRetries t) as [Hj Hl].
  { revert Hs. apply (rtc_ind_r (Bounded.bounded maxRetries)).
    - split; [constructor|]. intros q. simpl. unfold Bounded.runs_of, Bounded.count_of. simpl. lia.
    - intros t1 t2 _ H1. by apply Bounded.step_bounded. }
  specialize (Hl p). apply Forall_app in Hj as [H1 H2].
  pose proof (Bounded.left_pos maxRetries p _ H1). pose proof (Bounded.left_pos maxRetries p _ H2). lia.
Qed.

(** ** The Redis queue *)

Module Kept.
Import Redis.

Section kept.
Context (o : options) (retries_pos : 1 <= MaxRetries o).

(** Where job [j], with this topic and payload, is: in its stream, waiting for a retry, in
    the dead letters, or handled. *)
Definition somewhere (q : state) (j : nat) (t p : string) : Prop :=
  (∃ id a, q_streams q !! (t, id) = Some (mk_entry p a j)) ∨ (∃ a s, q_delayed q !! (t, p, a) = Some (s, j)) ∨
  (∃ a, ((t, p, a), j) ∈ q_dead q) ∨ j ∈ q_done q.

(** Job [j2], with the same topic and payload, took the envelope of [j]. *)
Definition merged (q : state) (j j2 : nat) : Prop := (j, j2) ∈ q_merged q.

(** Every job but [out] is somewhere, and what is stored for a job is what was published. *)
Record safe (out : option nat) (q : state) : Prop := {
  sf_kept j t p : out ≠ Some j → q_published q !! j = Some (t, p) → somewhere q j t p ∨ ∃ j2, merged q j j2;
  sf_merged j j2 : merged q j j2 → j ≠ j2 ∧ ∃ x, q_published q !! j = Some x ∧ q_published q !! j2 = Some x;
  sf_ids t id e : q_streams q !! (t, id) = Some e → (id <= q_last q)%N;
  sf_hands d : d ∈ q_hands q → (dv_id d <= q_last q)%N ∧ 0 <= en_attempt (dv_entry d) < MaxRetries o ∧
    q_published q !! en_job (dv_entry d) = Some (dv_topic d, en_payload (dv_entry d)) ∧
    ∀ e, q_streams q !! (dv_topic d, dv_id d) = Some e → e = dv_entry d;
  sf_streams t id e : q_streams q !! (t, id) = Some e →
    0 <= en_attempt e < MaxRetries o ∧ q_published q !! en_job e = Some (t, en_payload e);
  sf_delayed t p a s j : q_delayed q !! (t, p, a) = Some (s, j) → 1 <= a < MaxRetries o ∧ q_published q !! j = Some (t, p);
  sf_dead t p a j : ((t, p, a), j) ∈ q_dead q → 1 <= a <= MaxRetries o;
}.

Lemma safe_empty : safe None empty_state.
Proof. split; simpl; try done; unfold merged; simpl; set_solver. Qed.

Lemma safe_but j q : safe None q → safe (Some j) q.
Proof. intros [K M I H St D X]. split; try done. intros j' t p _. by apply K. Qed.

Lemma fresh_id out t q : safe out q → q_streams q !! (t, (q_last q + 1)%N) = None.
Proof. intros S. destruct (q_streams q !! _) as [e|] eqn:E; [|done]. apply (sf_ids _ _ S) in E. lia. Qed.

Lemma in_more {A} (l : list A) y x : x ∈ l → x ∈ l ++ [y].
Proof. intros H. apply elem_of_app. by left. Qed.
Lemma in_last {A} (l : list A) y x : x ∈ l ++ [y] → x ∈ l ∨ x = y.
Proof. intros [H|H%list_elem_of_singleton]%elem_of_app; [by left|by right]. Qed.
Lemma in_end {A} (l : list A) y : y ∈ l ++ [y].
Proof. apply elem_of_app. right. by left. Qed.

(** *** A job comes in, and goes to one of the four places *)

Lemma safe_published t p q : safe None q → safe (Some (length (q_published q))) (with_published (q_published q ++ [(t, p)]) q).
Proof.
  intros [K M I H St D X].
  assert (∀ j x, q_published q !! j = Some x → (q_published q ++ [(t, p)]) !! j = Some x) as Hm by (intros; by apply lookup_app_l_Some).
  split; unfold merged in *; simpl; try done.
  - intros j t' p' Hj [Hp|[Hlen Hp]]%lookup_app_Some; [by apply K|]. destruct (j - length (q_published q))%nat eqn:E; [|done].
    destruct Hj. f_equal. lia.
  - intros j j2 Hjj. destruct (M j j2 Hjj) as (Hne & x & H1 & H2). split; [done|]. exists x. auto.
  - intros d Hd. destruct (H d Hd) as (H1 & H2 & H3 & H4). split_and!; [done|lia|lia|auto|done].
  - intros t' id e He. destruct (St _ _ _ He) as [H1 H2]. auto.
  - intros t' p' a s j Hd. destruct (D _ _ _ _ _ Hd) as [H1 H2]. auto.
Qed.

Lemma safe_add t p a j q : 0 <= a < MaxRetries o → q_published q !! j = Some (t, p) → safe (Some j) q → safe None (add t p a j q).
Proof.
  intros Ha Hj S. pose proof (λ t, fresh_id _ t _ S) as Hf. destruct S as [K M I H St D X]. split; unfold merged in *; simpl; try done.
  - intros j' t' p' _ Hp. destruct (decide (j' = j)) as [->|Hne].
    { left. left. rewrite Hj in Hp. injection Hp as <- <-. eexists _, _. simpl. apply lookup_insert_eq. }
    destruct (K j' t' p' ltac:(congruence) Hp) as [[(id & a' & He)|Hr]|Hr]; [|left; by right|by right].
    left. left. exists id, a'. simpl. rewrite lookup_insert_ne; [done|]. intros [= -> <-]. by rewrite Hf in He.
  - intros t' id e [[[= <- <-] <-]|[_ E]]%lookup_insert_Some; [lia|]. apply I in E. lia.
  - intros d Hd. destruct (H d Hd) as (H1 & H2 & H3 & H4). split_and!; [lia|lia|lia|done|].
    intros e [[E _]|[_ E]]%lookup_insert_Some; [injection E as _ E; lia|by apply H4].
  - intros t' id e [[[= <- <-] <-]|[_ E]]%lookup_insert_Some; [done|]. by apply (St t' id).
Qed.

Lemma safe_acknowledge d q : safe None q →
  (∀ e, q_streams q !! (dv_topic d, dv_id d) = Some e → e = dv_entry d) →
  safe (Some (en_job (dv_entry d))) (acknowledge (dv_topic d) (dv_id d) q).
Proof.
  intros [K M I H St D X] He. split; unfold merged in *; simpl; try done.
  - intros j t p Hne Hp. destruct (K j t p ltac:(done) Hp) as [[(id & a & Hi)|Hr]|Hr]; [|left; by right|by right].
    left. left. exists id, a. simpl. rewrite lookup_delete_ne; [done|]. intros [= <- <-]. apply He in Hi. by rewrite <- Hi in Hne.
  - intros t id e [_ E]%lookup_delete_Some. by apply (I t id e).
  - intros d' Hd'. destruct (H d' Hd') as (H1 & H2 & H3 & H4). split_and!; [done|lia|lia|done|].
    intros e [_ E]%lookup_delete_Some. by apply H4.
  - intros t id e [_ E]%lookup_delete_Some. by apply (St t id e).
Qed.

(** A step of the other tables that keeps what is there and puts job [j] somewhere. *)
Lemma somewhere_put j q q' : safe (Some j) q → q_published q' = q_published q →
  (∀ t p, q_published q !! j = Some (t, p) → somewhere q' j t p) →
  (∀ j' t p, j' ≠ j → somewhere q j' t p → somewhere q' j' t p ∨ ∃ j2, merged q' j' j2) →
  (∀ x, x ∈ q_merged q → x ∈ q_merged q') →
  ∀ j' t p, q_published q' !! j' = Some (t, p) → somewhere q' j' t p ∨ ∃ j2, merged q' j' j2.
Proof.
  intros S Ep Hj Ho Hm j' t p Hp. rewrite Ep in Hp. destruct (decide (j' = j)) as [->|Hne]; [left; by apply Hj|].
  destruct (sf_kept _ _ S j' t p ltac:(congruence) Hp) as [Hs|[j2 Hs]]; [by apply Ho|right; exists j2; by apply Hm].
Qed.

Lemma safe_done j q : safe (Some j) q → safe None (with_done (q_done q ++ [j]) q).
Proof.
  intros S. destruct (S) as [K M I H St D X]. split; try done. intros j' t p _. revert j' t p. apply (somewhere_put j q); try done.
  - intros t p _. right; right; right. apply in_end.
  - intros j' t p _ [Hs|[Hs|[Hs|Hs]]]; left; unfold somewhere; simpl; auto. right; right; right. by apply in_more.
Qed.

Lemma safe_bury t p a j q : 1 <= a <= MaxRetries o → q_published q !! j = Some (t, p) → safe (Some j) q →
  safe None (with_dead (q_dead q ++ [((t, p, a), j)]) q).
Proof.
  intros Ha Hj S. destruct (S) as [K M I H St D X]. split; try done.
  - intros j' t' p' _. revert j' t' p'. apply (somewhere_put j q); try done.
    + intros t' p' Hp. rewrite Hj in Hp. injection Hp as <- <-. right; right; left. exists a. apply in_end.
    + intros j' t' p' _ [Hs|[Hs|[[b Hs]|Hs]]]; left; unfold somewhere; simpl; auto. right; right; left. exists b. by apply in_more.
  - intros t' p' a' j' [Hk|Hk]%in_last; [by apply (X t' p' a' j')|]. by injection Hk as -> -> -> ->.
Qed.

Lemma safe_delay t p a s j q : 1 <= a < MaxRetries o → q_published q !! j = Some (t, p) → safe (Some j) q →
  safe None (delay (t, p, a) s j q).
Proof.
  intros Ha Hj S. destruct (S) as [K M I H St D X].
  assert (∀ x, x ∈ q_merged q → x ∈ q_merged (delay (t, p, a) s j q)) as Hm.
  { intros x Hx. unfold delay. simpl. repeat case_match; auto using in_more. }
  split; try done.
  - intros j' t' p' _. revert j' t' p'. apply (somewhere_put j q); try done.
    + intros t' p' Hp. rewrite Hj in Hp. injection Hp as <- <-. right; left. exists a, s. simpl. apply lookup_insert_eq.
    + intros j' t' p' Hne [Hs|[(b & s' & Hs)|[Hs|Hs]]]; [by left; left| |by left; right; right; left|by left; right; right; right].
      destruct (decide ((t', p', b) = (t, p, a))) as [[= -> -> ->]|Hk].
      * right. exists j. unfold merged, delay. simpl. rewrite Hs. rewrite decide_False by done. apply in_end.
      * left. right; left. exists b, s'. simpl. by rewrite lookup_insert_ne.
  - intros j1 j2. unfold merged, delay. simpl. destruct (q_delayed q !! (t, p, a)) as [[s' old]|] eqn:E; [|apply M].
    destruct (decide (old = j)); [apply M|]. intros [Hx|Hx]%in_last; [by apply M|]. injection Hx as -> ->.
    split; [done|]. exists (t, p). split; [by eapply D|done].
  - intros t' p' a' s' j' E. simpl in E. apply lookup_insert_Some in E as [[Ek E]|[_ E]]; [|by apply D in E].
    injection Ek as <- <- <-. by injection E as <- <-.
Qed.

Lemma safe_undelay t p a s j q : q_delayed q !! (t, p, a) = Some (s, j) → safe None q →
  safe (Some j) (with_delayed (delete (t, p, a) (q_delayed q)) (q_merged q) q).
Proof.
  intros Hd [K M I H St D X]. split; unfold merged in *; simpl; try done.
  - intros j' t' p' Hne Hp. destruct (K j' t' p' ltac:(done) Hp) as [[Hs|[(b & s' & Hs)|Hs]]|Hs];
      [by left; left| |by left; right; right|by right].
    left. right; left. exists b, s'. simpl. rewrite lookup_delete_ne; [done|]. intros [= -> -> ->]. congruence.
  - intros t' p' a' s' j' [_ E]%lookup_delete_Some. by eapply D.
Qed.

(** *** The steps *)

Lemma safe_finish d res now q : safe None q → (dv_id d <= q_last q)%N → 0 <= en_attempt (dv_entry d) < MaxRetries o →
  q_published q !! en_job (dv_entry d) = Some (dv_topic d, en_payload (dv_entry d)) →
  (∀ e, q_streams q !! (dv_topic d, dv_id d) = Some e → e = dv_entry d) → safe None (finish o d res now q).
Proof.
  intros S Hid Ha Hp He. pose proof (safe_acknowledge d q S He) as S1.
  assert (∀ a, 1 <= a <= MaxRetries o → safe None (acknowledge (dv_topic d) (dv_id d)
            (with_dead (q_dead q ++ [((dv_topic d, en_payload (dv_entry d), a), en_job (dv_entry d))]) q))) as Hdead.
  { intros a Hb. exact (safe_bury _ _ a _ (acknowledge _ _ q) Hb Hp S1). }
  unfold finish. cbv zeta. destruct res; [exact (safe_done _ (acknowledge _ _ q) S1)| |apply (Hdead (_ + 1)); lia].
  destruct (_ >=? _) eqn:E; [apply (Hdead (_ + 1)); lia|]. refine (safe_delay _ _ _ _ _ (acknowledge _ _ q) _ Hp S1). lia.
Qed.

Lemma safe_move_one q k s j : q_delayed q !! k = Some (s, j) → safe None q → safe None (move_one q (k, j)).
Proof.
  destruct k as [[t p] a]. intros Hk S. destruct (sf_delayed _ _ S _ _ _ _ _ Hk) as [Ha Hp].
  apply safe_add; [simpl; lia|exact Hp|]. by eapply safe_undelay.
Qed.

Lemma safe_moves xs q : NoDup (xs.*1) → (∀ k j, (k, j) ∈ xs → ∃ s, q_delayed q !! k = Some (s, j)) → safe None q → safe None (foldl move_one q xs).
Proof.
  revert q. induction xs as [|[k j] xs IH]; intros q; [done|]. intros [Hk Hnd]%NoDup_cons Hall S. simpl. apply IH; [done| |].
  - intros k' j' Hk'. destruct (Hall k' j' ltac:(by right)) as [s Hs]. exists s. simpl. rewrite lookup_delete_ne; [done|].
    intros ->. apply Hk. apply list_elem_of_fmap. by exists (k', j').
  - destruct (Hall k j ltac:(by left)) as [s Hs]. by eapply safe_move_one.
Qed.

Lemma due_ok now q : NoDup ((due now q).*1) ∧ ∀ k j, (k, j) ∈ due now q → ∃ s, q_delayed q !! k = Some (s, j).
Proof.
  unfold due. set (l := order_by _ _).
  assert (∀ k s, (k, s) ∈ l → q_delayed q !! k = Some s) as Hl.
  { intros k s H. unfold l in H. rewrite elem_of_order_by in H. by apply elem_of_select in H as [H _]. }
  assert (∀ x, x ∈ take 100 l → x ∈ l) as Htake by (intros x (i & Hi & _)%elem_of_take; by eapply list_elem_of_lookup_2).
  split.
  - rewrite <- list_fmap_compose. apply NoDup_fmap_fst.
    + intros k s1 s2 H1%Htake%Hl H2%Htake%Hl. congruence.
    + apply (sublist_NoDup _ l); [|apply sublist_take]. unfold l. rewrite order_by_permutation. apply NoDup_select.
  - intros k j ([k' [s j']] & [= -> ->] & H%Htake%Hl)%list_elem_of_fmap. by exists s.
Qed.

(** The hands and the pending entries say nothing of where the jobs are. *)
Lemma safe_hands h p q :
  (∀ d, d ∈ h → d ∈ q_hands q ∨ q_streams q !! (dv_topic d, dv_id d) = Some (dv_entry d)) → safe None q → safe None (with_hands h (with_pending p q)).
Proof.
  intros Hh [K M I H St D X]. split; try done. simpl. intros d [Hd|Hd]%Hh; [by apply H|].
  destruct (St _ _ _ Hd) as [Ha Hp]. split_and!; [by eapply I|lia|lia|done|]. intros e. congruence.
Qed.

Lemma safe_hand t id e now q : q_streams q !! (t, id) = Some e → safe None q → safe None (hand t id e now q).
Proof. intros He. apply safe_hands. intros d [->|Hd]%elem_of_cons; [by right|by left]. Qed.

Lemma safe_step q q' : step o q q' → safe None q → safe None q'.
Proof.
  intros Hs S. destruct Hs as [t p q _|t id now q q' H|t id now q q' H|i res tx now q q' H _|h q Hh|now q _].
  - apply safe_add; [lia| |by apply safe_published]. simpl. rewrite lookup_app_r, Nat.sub_diag by done. done.
  - unfold read in H. destruct (q_streams q !! (t, id)) as [e|] eqn:He; [|done]. destruct (q_pending q !! _); [done|].
    injection H as <-. by apply safe_hand.
  - unfold claim in H. destruct (q_streams q !! (t, id)) as [e|] eqn:He; [|done]. destruct (q_pending q !! _); [|done].
    destruct (_ >=? _); [|done]. injection H as <-. by apply safe_hand.
  - unfold process in H. destruct (q_hands q !! i) as [d|] eqn:Hd; [|done]. injection H as <-.
    assert (safe None (with_hands (delete i (q_hands q)) q)) as S1.
    { apply (safe_hands _ (q_pending q)); [|done]. intros d' Hd'. left.
      by apply (sublist_subseteq (delete i (q_hands q))), Hd'; apply sublist_delete. }
    destruct tx; [|done]. apply list_elem_of_lookup_2 in Hd. destruct (sf_hands _ _ S d Hd) as (H1 & H2 & H3 & H4). by apply safe_finish.
  - apply (safe_hands _ (q_pending q)); [|done]. intros d Hd. left. by apply Hh.
  - destruct (due_ok now q) as [Hnd Hall]. by apply safe_moves.
Qed.

(** A stored entry can be handed to a worker, now or once it has been held too long. *)
Lemma handed t id e q : q_streams q !! (t, id) = Some e → ∃ now, read t id now q = Some (hand t id e now q) ∨ claim o t id now q = Some (hand t id e now q).
Proof.
  intros He. unfold read, claim. rewrite He. destruct (q_pending q !! (t, id)) as [s|].
  - exists (s + ClaimIdle o). right. by assert ((s + ClaimIdle o - s >=? ClaimIdle o) = true) as -> by lia.
  - exists 0. by left.
Qed.

(** What is due goes back into its stream. *)
Lemma move_one_keeps q x k e : (k.2 <= q_last q)%N → q_streams q !! k = Some e →
  q_streams (move_one q x) !! k = Some e ∧ (k.2 <= q_last (move_one q x))%N.
Proof. intros Hk He. simpl. split; [|lia]. rewrite lookup_insert_ne; [done|]. intros <-. simpl in Hk. lia. Qed.
Lemma moves_keep xs q k e : (k.2 <= q_last q)%N → q_streams q !! k = Some e → q_streams (foldl move_one q xs) !! k = Some e.
Proof.
  revert q. induction xs as [|x xs IH]; intros q Hk He; [done|]. destruct (move_one_keeps q x k e Hk He) as [H1 H2]. by apply IH.
Qed.
Lemma moves_put xs q t p a j : ((t, p, a), j) ∈ xs → ∃ id, q_streams (foldl move_one q xs) !! (t, id) = Some (mk_entry p a j).
Proof.
  intros (xs1 & xs2 & ->)%list_elem_of_split. rewrite foldl_app. simpl. exists (q_last (foldl move_one q xs1) + 1)%N.
  apply moves_keep; [reflexivity|]. simpl. apply lookup_insert_eq.
Qed.
Lemma moved now q t p a j : ((t, p, a), j) ∈ due now q → ∃ id, q_streams (moveDue now q) !! (t, id) = Some (mk_entry p a j).
Proof. apply moves_put. Qed.
End kept.
End Kept.

(** C12. No job is lost but to its twin.  However publishers, the workers of any number of
    servers, reclaiming, retries, failed transactions and crashes interleave, as long as no
    stream outgrows its cap: every job that was published is in its stream, waiting for a
    retry, in the dead letters, or was handled successfully, unless its place among the
    retries was taken by another job published with the same topic and payload.  So a job
    whose topic and payload no other job has is never lost.  What is in a stream is what was
    published and can be handed to a worker again; what waits for a retry is put back into
    its stream once it is due; and no job has more attempts than allowed. *)
Theorem jobs_not_lost opts q : let o := Redis.defaults opts in rtc (Redis.step o) Redis.empty_state q →
  (∀ j t p, Redis.q_published q !! j = Some (t, p) → Kept.somewhere q j t p ∨
     ∃ j2, Kept.merged q j j2 ∧ j2 ≠ j ∧ Redis.q_published q !! j2 = Some (t, p)) ∧
  (∀ j t p, Redis.q_published q !! j = Some (t, p) → (∀ j2, Redis.q_published q !! j2 = Some (t, p) → j2 = j) → Kept.somewhere q j t p) ∧
  (∀ t id e, Redis.q_streams q !! (t, id) = Some e → Redis.en_attempt e < Redis.MaxRetries o ∧
     Redis.q_published q !! Redis.en_job e = Some (t, Redis.en_payload e) ∧
     ∃ now, Redis.read t id now q = Some (Redis.hand t id e now q) ∨ Redis.claim o t id now q = Some (Redis.hand t id e now q)) ∧
  (∀ t p a j now, ((t, p, a), j) ∈ Redis.due now q → ∃ id, Redis.q_streams (Redis.moveDue now q) !! (t, id) = Some (Redis.mk_entry p a j)) ∧
  (∀ t p a j, ((t, p, a), j) ∈ Redis.q_dead q → 1 <= a <= Redis.MaxRetries o).
Proof.
  intros o Hs. assert (1 <= Redis.MaxRetries o) as Hpos.
  { unfold o, Redis.defaults. cbn [Redis.MaxRetries]. destruct (_ <=? 0) eqn:E; lia. }
  assert (Kept.safe o None q) as S.
  { revert Hs. apply (rtc_ind_r (Kept.safe o None)).
    - by apply Kept.safe_empty.
    - intros q1 q2 _ H1. by apply Kept.safe_step. }
  assert (∀ j t p, Redis.q_published q !! j = Some (t, p) → Kept.somewhere q j t p ∨
     ∃ j2, Kept.merged q j j2 ∧ j2 ≠ j ∧ Redis.q_published q !! j2 = Some (t, p)) as Hk.
  { intros j t p Hp. destruct (Kept.sf_kept _ _ _ S j t p ltac:(done) Hp) as [H|[j2 H]]; [by left|]. right. exists j2.
    destruct (Kept.sf_merged _ _ _ S _ _ H) as (Hne & x & H1 & H2). split_and!; [done|done|congruence]. }
  split_and!; [exact Hk| | | |apply S].
  - intros j t p Hp Hu. destruct (Hk j t p Hp) as [H|(j2 & _ & Hne & H2)]; [done|]. by destruct Hne; apply Hu.
  - intros t id e He. destruct (Kept.sf_streams _ _ _ S t id e He) as [Ha Hp]. split_and!; [lia|done|by apply Kept.handed].
  - intros t p a j now H. by apply Kept.moved.
Qed.

(** Two jobs with the same payload that fail once are one member of jobs:delayed, so one of
    them is never tried again, although the transaction is said to lose none. *)
Definition twin_options : Redis.options := Redis.defaults (Redis.mk_options 0 0 0).
Definition twins : option Redis.state :=
  let q := Redis.Publish "t" "{}" (Redis.Publish "t" "{}" Redis.empty_state) in
  q ← Redis.read "t" 1 0 q;
  q ← Redis.read "t" 2 0 q;
  q ← Redis.process twin_options 0 Failed true 0 q;
  Redis.process twin_options 0 Failed true 0 q.

Lemma twin_jobs_merge : ∃ q, twins = Some q ∧ Redis.q_streams q = ∅ ∧ Redis.q_hands q = [] ∧ Redis.q_dead q = [] ∧ Redis.q_done q = [] ∧
  Redis.q_published q = [("t", "{}"); ("t", "{}")] ∧ size (Redis.q_delayed q) = 1%nat.
Proof. eexists. split; [vm_compute; reflexivity|]. by vm_compute. Qed.
