(* ===== verification/Ws_Hub.v ===== *)
(** * Ws_Hub: live websocket connections (src/internal/ws/hub.go, serve.go, client.go)

    A [*Client] is an address of [hb_heap]; its channel [Send] is a buffer that is
    open or closed, and closing it twice, or sending on it once it is closed, panics
    ([hb_panic]).  A critical section of [h.mu] is one action.  Run takes one client
    at a time from Register and Unregister; here each connection does its own part of
    Run, so more interleavings are covered than Run allows.  [hb_told] lists the
    goroutines started for presence and calls, in the order they were started. *)

From stdpp Require Import gmap.
From S2P Require Import Prelude GoLib Threads Types.

(** [json.Marshal] of an event. *)
Class EventJson := { marshal_Event : Event → result string }.

Definition MaxDevices : nat := 5.
(** [make(chan []byte, 256)] *)
Definition sendBuffer : nat := 256.

Record Client := mk_Client { cl_UserID : uuid; cl_ID : uuid; cl_Send : list string; cl_closed : bool }.

(** [go h.calls.Connected(c)], [go h.calls.Disconnected(c)], [go h.presence(u, online)]. *)
Inductive told := TConnected (c : Conn) | TDisconnected (c : Conn) | TPresence (u : uuid) (online : bool).

Record Hub := mk_Hub {
  hb_heap : gmap nat Client;
  hb_next : nat;
  hb_clients : gmap uuid (list nat);   (* oldest first *)
  hb_told : list told;
  hb_panic : bool;
}.

Definition NewHub : Hub := mk_Hub ∅ 0 ∅ [] false.

Definition with_client (p : nat) (c : Client) (h : Hub) : Hub :=
  mk_Hub (<[p := c]> (hb_heap h)) (hb_next h) (hb_clients h) (hb_told h) (hb_panic h).
Definition with_clients (m : gmap uuid (list nat)) (h : Hub) : Hub :=
  mk_Hub (hb_heap h) (hb_next h) m (hb_told h) (hb_panic h).
Definition tell (t : told) (h : Hub) : Hub :=
  mk_Hub (hb_heap h) (hb_next h) (hb_clients h) (hb_told h ++ [t]) (hb_panic h).
Definition panic (h : Hub) : Hub := mk_Hub (hb_heap h) (hb_next h) (hb_clients h) (hb_told h) true.

(** [h.clients[u]]: nil when there is none. *)
Definition devices (u : uuid) (h : Hub) : list nat := default [] (hb_clients h !! u).

Definition conn_of (c : Client) : Conn := mk_Conn (cl_UserID c) (cl_ID c).

(** [close(c.Send)] *)
Definition close_Send (p : nat) (h : Hub) : Hub :=
  match hb_heap h !! p with
  | Some c => if cl_closed c then panic h else with_client p (mk_Client (cl_UserID c) (cl_ID c) (cl_Send c) true) h
  | None => panic h
  end.

(** [select { case c.Send <- bytes: true; default: false }] *)
Definition try_send (bytes : string) (p : nat) (h : Hub) : bool * Hub :=
  match hb_heap h !! p with
  | Some c =>
    if cl_closed c then (false, panic h)
    else if decide (length (cl_Send c) < sendBuffer)%nat
    then (true, with_client p (mk_Client (cl_UserID c) (cl_ID c) (cl_Send c ++ [bytes]) false) h)
    else (false, h)
  | None => (false, panic h)
  end.

(** WritePump: [message, ok := <-c.Send] *)
Definition receive (p : nat) (h : Hub) : option string * Hub :=
  match hb_heap h !! p with
  | Some c => match cl_Send c with
              | b :: l => (Some b, with_client p (mk_Client (cl_UserID c) (cl_ID c) l (cl_closed c)) h)
              | [] => (None, h)
              end
  | None => (None, h)
  end.

(** [close(c.Send); go h.calls.Disconnected(Conn{User: ..., ID: c.ID})] *)
Definition drop_conn (p : nat) (h : Hub) : Hub :=
  match hb_heap h !! p with
  | Some c => tell (TDisconnected (conn_of c)) (close_Send p h)
  | None => panic h
  end.

(** [Run], a client from Register: the critical section, and whether it is the user's
    first device. *)
Definition register (p : nat) (h : Hub) : bool * Hub :=
  match hb_heap h !! p with
  | Some c =>
    let u := cl_UserID c in
    let first := bool_decide (devices u h = []) in
    let list := devices u h ++ [p] in
    let h := if decide (MaxDevices < length list)%nat then drop_conn (hd 0 list) h else h in
    let list := if decide (MaxDevices < length list)%nat then tail list else list in
    (first, with_clients (<[u := list]> (hb_clients h)) h)
  | None => (false, panic h)
  end.

(** [append(list[:i:i], list[i+1:]...)] for the first [i] with [list[i] == client]. *)
Fixpoint without (p : nat) (l : list nat) : option (list nat) :=
  match l with
  | [] => None
  | q :: l => if decide (q = p) then Some l else cons q <$> without p l
  end.

(** [remove] *)
Definition remove (p : nat) (h : Hub) : unit * Hub :=
  match hb_heap h !! p with
  | Some c =>
    let u := cl_UserID c in
    match without p (devices u h) with
    | Some list =>
      let h := drop_conn p h in
      (tt, match list with
           | [] => tell (TPresence u false) (with_clients (delete u (hb_clients h)) h)
           | _ => with_clients (<[u := list]> (hb_clients h)) h
           end)
    | None => (tt, h)
    end
  | None => (tt, h)   (* no address without a client *)
  end.

(** [Disconnect], its critical section, and whether there was a device. *)
Definition disconnect_locked (u : uuid) (h : Hub) : bool * Hub :=
  let list := devices u h in
  let h := fold_left (λ h p, drop_conn p h) list h in
  (bool_decide (list ≠ []), with_clients (delete u (hb_clients h)) h).

(** [send], its critical section: the clients whose buffer is full. *)
Fixpoint send_clients (bytes : string) (ps : list nat) (h : Hub) : list nat * Hub :=
  match ps with
  | [] => ([], h)
  | p :: ps =>
    let r := try_send bytes p h in
    let rest := send_clients bytes ps r.2 in
    ((if r.1 then [] else [p]) ++ rest.1, rest.2)
  end.
Definition send_locked (targets : list uuid) (bytes : string) (h : Hub) : list nat * Hub :=
  send_clients bytes (targets ≫= λ u, devices u h) h.

(** [SendToConn], its critical section: the client, and whether it was sent. *)
Definition target_of (c : Conn) (h : Hub) : option nat :=
  last (List.filter (λ p, match hb_heap h !! p with Some cl => bool_decide (cl_ID cl = conn_ID c) | None => false end)
          (devices (conn_User c) h)).
Definition send_conn_locked (c : Conn) (bytes : string) (h : Hub) : (option nat * bool) * Hub :=
  match target_of c h with
  | Some p => let r := try_send bytes p h in ((Some p, r.1), r.2)
  | None => ((None, false), h)
  end.

(** [WriteToUserExcept], its critical section. *)
Definition send_except_locked (user except : uuid) (bytes : string) (h : Hub) : unit * Hub :=
  (tt, (send_clients bytes
          (List.filter (λ p, match hb_heap h !! p with Some cl => negb (bool_decide (cl_ID cl = except)) | None => true end)
             (devices user h)) h).2).

(** [Online], [CheckWsConnection], [Count]. *)
Definition Online (u : uuid) (h : Hub) : bool := bool_decide (devices u h ≠ []).
Definition Count (h : Hub) : nat := size (hb_clients h).

(** ** Goroutines *)

Definition update (f : Hub → Hub) : prog Hub unit := atomically (λ h, (tt, f h)).

Fixpoint remove_all (ps : list nat) : prog Hub unit :=
  match ps with [] => mret tt | p :: ps => atomically (remove p) ;; remove_all ps end.

Section goroutines.
Context {json : EventJson}.

Definition WriteToUsers (targets : list uuid) (payload : Event) : prog Hub (result unit) :=
  match marshal_Event payload with
  | Err e => mret (Err e)
  | Ok bytes => slow ← atomically (send_locked targets bytes); remove_all slow ;; mret (Ok tt)
  end.

Definition WriteIntoConnection (u : uuid) (payload : Event) : prog Hub (result unit) := WriteToUsers [u] payload.

Definition SendToConn (c : Conn) (payload : Event) : prog Hub bool :=
  match marshal_Event payload with
  | Err _ => mret false
  | Ok bytes =>
    r ← atomically (send_conn_locked c bytes);
    match r with
    | (Some p, false) => atomically (remove p) ;; mret false
    | (_, sent) => mret sent
    end
  end.

Definition WriteToUserExcept (user except : uuid) (payload : Event) : prog Hub unit :=
  match marshal_Event payload with
  | Err _ => mret tt
  | Ok bytes => atomically (send_except_locked user except bytes)
  end.

Definition Disconnect (u : uuid) : prog Hub unit :=
  some ← atomically (disconnect_locked u);
  if some : bool then update (tell (TPresence u false)) else mret tt.

(** [NewClient(h, conn, make(chan []byte, 256), userID)] *)
Definition NewClient (u id : uuid) (h : Hub) : nat * Hub :=
  (hb_next h, mk_Hub (<[hb_next h := mk_Client u id [] false]> (hb_heap h)) (S (hb_next h)) (hb_clients h) (hb_told h) (hb_panic h)).

(** A connection: Serve, what Run does with it, and ReadPump's Unregister at its end. *)
Definition Serve (u id : uuid) : prog Hub unit :=
  p ← atomically (NewClient u id);
  first ← atomically (register p);
  (if first : bool then update (tell (TPresence u true)) else mret tt) ;;
  update (tell (TConnected (mk_Conn u id))) ;;
  atomically (remove p).

(** ** Interleavings *)

Inductive hub_goroutine : prog Hub unit → Prop :=
  | g_serve u id : hub_goroutine (Serve u id)
  | g_write targets ev : hub_goroutine (WriteToUsers targets ev ;; mret tt)
  | g_send c ev : hub_goroutine (SendToConn c ev ;; mret tt)
  | g_except user except ev : hub_goroutine (WriteToUserExcept user except ev)
  | g_disconnect u : hub_goroutine (Disconnect u).

(** WritePump takes what is in a buffer. *)
Definition pumped (h h' : Hub) : Prop := ∃ p, h' = (receive p h).2.

Definition hub_step : Hub * list (prog Hub unit) → Hub * list (prog Hub unit) → Prop :=
  sstep hub_goroutine (λ _ _ _, False) pumped.

Definition hub_reach (h : Hub) (ts : list (prog Hub unit)) : Prop := rtc hub_step (NewHub, []) (h, ts).
End goroutines.

(** * The hub's typestate

    A channel is closed once, nothing is sent on a closed one, and every open one
    belongs to a registered client or to a connection that is about to register. *)

(** ** The heap and the primitives *)

Definition is_open (p : nat) (h : Hub) : Prop := ∃ c, hb_heap h !! p = Some c ∧ cl_closed c = false.

(** The client's user and id stay, a closed channel stays closed and only drains. *)
Definition grows (h h' : Hub) : Prop :=
  ∀ p c, hb_heap h !! p = Some c →
  ∃ c', hb_heap h' !! p = Some c' ∧ conn_of c' = conn_of c ∧
    (cl_closed c = true → cl_closed c' = true ∧ cl_Send c' `suffix_of` cl_Send c).

#[export] Instance grows_refl : Reflexive grows.
Proof. intros h p c Hc. exists c. by split_and!. Qed.

#[export] Instance grows_trans : Transitive grows.
Proof.
  intros h1 h2 h3 H12 H23 p c Hc. destruct (H12 p c Hc) as (c2 & Hc2 & He2 & Hs2).
  destruct (H23 p c2 Hc2) as (c3 & Hc3 & He3 & Hs3). exists c3. split; [done|]. split; [congruence|].
  intros Hcl. destruct (Hs2 Hcl) as [Hcl2 Hsuf]. destruct (Hs3 Hcl2). split; [done|]. by trans (cl_Send c2).
Qed.

Lemma grows_put p c c' h :
  hb_heap h !! p = Some c → conn_of c' = conn_of c →
  (cl_closed c = true → cl_closed c' = true ∧ cl_Send c' `suffix_of` cl_Send c) →
  grows h (with_client p c' h).
Proof.
  intros Hc He Hs q d Hd. simpl. destruct (decide (q = p)) as [->|Hq].
  - rewrite lookup_insert_eq. assert (d = c) as -> by congruence. by exists c'.
  - rewrite lookup_insert_ne by done. exists d. by split_and!.
Qed.

(** What does not touch the heap. *)
Lemma grows_heap h h' : hb_heap h' = hb_heap h → grows h h'.
Proof. intros He p c Hc. rewrite He. exists c. by split_and!. Qed.

(** ** The invariant *)

(** [F] are the clients made and not registered yet. *)
Record hub_ok (F : gset nat) (h : Hub) : Prop := {
  ok_panic : hb_panic h = false;
  ok_lists u l : hb_clients h !! u = Some l → l ≠ [] ∧ length l ≤ MaxDevices ∧ NoDup l;
  ok_mine u p : p ∈ devices u h → ∃ c, hb_heap h !! p = Some c ∧ cl_UserID c = u;
  ok_open p : is_open p h ↔ p ∈ F ∨ ∃ u, p ∈ devices u h;
  ok_fresh p : p ∈ F → ∀ u, p ∉ devices u h;
  ok_buffer p c : hb_heap h !! p = Some c → length (cl_Send c) ≤ sendBuffer;
  ok_next p : is_Some (hb_heap h !! p) → p < hb_next h;
}.

Lemma devices_some u p h : p ∈ devices u h → ∃ l, hb_clients h !! u = Some l ∧ p ∈ l.
Proof. unfold devices. destruct (hb_clients h !! u) as [l|] eqn:E; simpl; [by exists l|set_solver]. Qed.

Lemma ok_NoDup F h u : hub_ok F h → NoDup (devices u h).
Proof.
  intros H. unfold devices. destruct (hb_clients h !! u) as [l|] eqn:E; simpl; [by apply (ok_lists F h H u l)|constructor].
Qed.

(** A client is in the list of its user only. *)
Lemma ok_one F h u v p : hub_ok F h → p ∈ devices u h → p ∈ devices v h → u = v.
Proof. intros H Hu Hv. destruct (ok_mine F h H u p Hu) as (c & Hc & <-). destruct (ok_mine F h H v p Hv) as (c' & Hc' & <-). congruence. Qed.

Lemma devices_insert u v l h : devices v (with_clients (<[u := l]> (hb_clients h)) h) = if decide (v = u) then l else devices v h.
Proof. unfold devices. simpl. destruct (decide (v = u)) as [->|Hv]; [by rewrite lookup_insert_eq|by rewrite lookup_insert_ne]. Qed.

Lemma devices_delete u v h : devices v (with_clients (delete u (hb_clients h)) h) = if decide (v = u) then [] else devices v h.
Proof. unfold devices. simpl. destruct (decide (v = u)) as [->|Hv]; [by rewrite lookup_delete_eq|by rewrite lookup_delete_ne]. Qed.

(** *** Taking from a buffer, adding to one *)

Lemma ok_put F h p c c' :
  hub_ok F h → hb_heap h !! p = Some c → conn_of c' = conn_of c → cl_closed c' = cl_closed c →
  length (cl_Send c') ≤ sendBuffer → hub_ok F (with_client p c' h).
Proof.
  intros H Hc He Hcl Hl.
  assert (∀ q, is_open q (with_client p c' h) ↔ is_open q h) as Hopen.
  { intros q. unfold is_open. simpl. destruct (decide (q = p)) as [->|Hq].
    - rewrite lookup_insert_eq. split; intros (d & Hd & Hdc); simplify_eq; eexists; split; try done; congruence.
    - by rewrite lookup_insert_ne. }
  destruct H as [H1 H2 H3 H4 H5 H6 H7]. split; [done..| | | | |].
  - intros u q Hq. destruct (H3 u q Hq) as (d & Hd & Hu). simpl. destruct (decide (q = p)) as [->|Hqp].
    + rewrite lookup_insert_eq. exists c'. split; [done|]. injection He as He _. congruence.
    + rewrite lookup_insert_ne by done. by exists d.
  - intros q. rewrite Hopen. apply H4.
  - apply H5.
  - intros q d. simpl. destruct (decide (q = p)) as [->|Hqp]; [rewrite lookup_insert_eq|rewrite lookup_insert_ne by done].
    + by intros [= <-].
    + apply H6.
  - intros q. simpl. destruct (decide (q = p)) as [->|Hqp]; [rewrite lookup_insert_eq|rewrite lookup_insert_ne by done].
    + intros _. by apply H7.
    + apply H7.
Qed.

Lemma ok_tell F h t : hub_ok F h → hub_ok F (tell t h).
Proof. by intros [H1 H2 H3 H4 H5 H6 H7]. Qed.

Lemma receive_ok F h p : hub_ok F h → hub_ok F (receive p h).2 ∧ grows h (receive p h).2.
Proof.
  intros H. unfold receive. destruct (hb_heap h !! p) as [c|] eqn:Hc; [|done].
  pose proof (ok_buffer F h H p c Hc) as Hl. destruct (cl_Send c) as [|b l] eqn:Hs; [done|]. simpl in *. split.
  - eapply ok_put; [done..|]. simpl. lia.
  - eapply grows_put; [done..|]. simpl. intros ->. split; [done|]. rewrite Hs. by apply suffix_cons_r.
Qed.

(** Sending on an open channel. *)
Lemma try_send_ok F h p bytes : hub_ok F h → is_open p h →
  hub_ok F (try_send bytes p h).2 ∧ grows h (try_send bytes p h).2 ∧ ∀ q, is_open q h → is_open q (try_send bytes p h).2.
Proof.
  intros H (c & Hc & Hcl). unfold try_send. rewrite Hc, Hcl. destruct (decide _) as [Hl|Hl]; [|done]. cbn [snd].
  split_and!.
  - eapply ok_put; [done..|by rewrite Hcl|]. simpl. rewrite length_app. simpl. lia.
  - eapply grows_put; [done..|]. by rewrite Hcl.
  - intros q (d & Hd & Hdc). unfold is_open. simpl. destruct (decide (q = p)) as [->|Hq].
    + rewrite lookup_insert_eq. by eexists.
    + rewrite lookup_insert_ne by done. by exists d.
Qed.

Lemma send_clients_ok F bytes ps h : hub_ok F h → (∀ p, p ∈ ps → is_open p h) →
  hub_ok F (send_clients bytes ps h).2 ∧ grows h (send_clients bytes ps h).2.
Proof.
  revert h. induction ps as [|p ps IH]; intros h H Hps; simpl; [done|].
  destruct (try_send_ok F h p bytes H) as (H1 & Hg & Ho); [apply Hps; by left|].
  destruct (IH _ H1) as [H2 Hg2]; [intros q Hq; apply Ho, Hps; by right|]. split; [done|]. by etrans.
Qed.

Lemma devices_open F h u p : hub_ok F h → p ∈ devices u h → is_open p h.
Proof. intros H Hp. apply (ok_open F h H). right. by exists u. Qed.

(** *** Closing *)

Definition drop_all (ps : list nat) (h : Hub) : Hub := fold_left (λ h p, drop_conn p h) ps h.

Lemma drop_conn_open p h : is_open p h →
  ∃ c, hb_heap h !! p = Some c ∧
    drop_conn p h = tell (TDisconnected (conn_of c)) (with_client p (mk_Client (cl_UserID c) (cl_ID c) (cl_Send c) true) h).
Proof. intros (c & Hc & Hcl). exists c. split; [done|]. unfold drop_conn, close_Send. by rewrite Hc, Hcl. Qed.

Lemma drop_all_open ps h : NoDup ps → (∀ p, p ∈ ps → is_open p h) →
  let h' := drop_all ps h in
  hb_clients h' = hb_clients h ∧ hb_next h' = hb_next h ∧ hb_panic h' = hb_panic h ∧
  (∀ q, q ∉ ps → hb_heap h' !! q = hb_heap h !! q) ∧
  (∀ q, q ∈ ps → ∃ c, hb_heap h !! q = Some c ∧ hb_heap h' !! q = Some (mk_Client (cl_UserID c) (cl_ID c) (cl_Send c) true)).
Proof.
  intros Hnd. revert h. induction Hnd as [|p ps Hp Hnd IH]; intros h Hps; simpl.
  { split_and!; [done..|]. intros q Hq. by apply elem_of_nil in Hq. }
  destruct (drop_conn_open p h) as (c & Hc & ->); [apply Hps; by left|].
  set (h1 := tell _ _). assert (∀ q, q ≠ p → hb_heap h1 !! q = hb_heap h !! q) as Hh1 by (intros; simpl; by rewrite lookup_insert_ne).
  destruct (IH h1) as (H1 & H2 & H3 & H4 & H5).
  { intros q Hq. unfold is_open. rewrite Hh1 by (intros ->; done). apply Hps. by right. }
  split_and!; [done..| |].
  - intros q [Hqp Hq]%not_elem_of_cons. rewrite H4 by done. by apply Hh1.
  - intros q [->|Hq]%elem_of_cons.
    + exists c. split; [done|]. rewrite H4 by done. simpl. by rewrite lookup_insert_eq.
    + rewrite <- (Hh1 q) by (intros ->; done). by apply H5.
Qed.

(** Closing some clients and listing the others anew. *)
Lemma ok_relist F F' h ps m :
  hub_ok F h → NoDup ps → (∀ p, p ∈ ps → is_open p h) →
  (∀ u l, m !! u = Some l → l ≠ [] ∧ length l ≤ MaxDevices ∧ NoDup l) →
  (∀ u p, p ∈ default [] (m !! u) → ∃ c, hb_heap h !! p = Some c ∧ cl_UserID c = u) →
  (∀ p, p ∈ F' → ∀ u, p ∉ default [] (m !! u)) →
  (∀ p, (p ∈ F' ∨ ∃ u, p ∈ default [] (m !! u)) ↔ is_open p h ∧ p ∉ ps) →
  let h' := with_clients m (drop_all ps h) in hub_ok F' h' ∧ grows h h'.
Proof.
  intros H Hnd Hps Hm Hmine Hfresh Hopen. cbv zeta.
  destruct (drop_all_open ps h Hnd Hps) as (H1 & H2 & H3 & H4 & H5). split.
  - split; simpl; unfold devices; simpl.
    + rewrite H3. apply H.
    + apply Hm.
    + intros u p Hp. destruct (Hmine u p Hp) as (c & Hc & Hu). destruct (decide (p ∈ ps)) as [Hin|Hin].
      * destruct (H5 p Hin) as (c' & Hc' & He). rewrite He. eexists. split; [done|]. simpl. congruence.
      * rewrite H4 by done. by exists c.
    + intros p. rewrite Hopen. unfold is_open. simpl. destruct (decide (p ∈ ps)) as [Hin|Hin].
      * destruct (H5 p Hin) as (c & _ & He). rewrite He. split; [intros (d & Hd & Hdc); by simplify_eq/=|tauto].
      * rewrite H4 by done. tauto.
    + apply Hfresh.
    + intros p c Hc. destruct (decide (p ∈ ps)) as [Hin|Hin].
      * destruct (H5 p Hin) as (d & Hd & He). rewrite He in Hc. injection Hc as <-. simpl. by eapply ok_buffer.
      * rewrite H4 in Hc by done. by eapply ok_buffer.
    + intros p Hp. rewrite H2. apply (ok_next F h H). destruct (decide (p ∈ ps)) as [Hin|Hin]; [|by rewrite <- H4].
      destruct (H5 p Hin) as (d & Hd & He). by exists d.
  - intros p c Hc. simpl. destruct (decide (p ∈ ps)) as [Hin|Hin].
    + destruct (H5 p Hin) as (d & Hd & He). simplify_eq. rewrite He. eexists. split_and!; [done..|]. intros _. by split.
    + rewrite H4 by done. exists c. by split_and!.
Qed.

(** ** The critical sections *)

Lemma NewClient_ok F h u id : hub_ok F h →
  let r := NewClient u id h in r.1 ∉ F ∧ hub_ok ({[r.1]} ∪ F) r.2 ∧ grows h r.2.
Proof.
  intros H. cbv zeta. unfold NewClient. cbn [fst snd]. set (p := hb_next h). set (c := mk_Client u id [] false).
  assert (hb_heap h !! p = None) as Hp.
  { apply eq_None_not_Some. intros Hs%(ok_next F h H). unfold p in Hs. lia. }
  assert (∀ q d, hb_heap h !! q = Some d → q ≠ p) as Hne by (intros q d Hd ->; congruence).
  assert (¬ is_open p h) as Hno by (intros (d & Hd & _); congruence).
  rewrite (ok_open F h H) in Hno. split; [tauto|]. split.
  - destruct H as [H1 H2 H3 H4 H5 H6 H7]. split; simpl; [done..| | | | |].
    + intros v q Hq. destruct (H3 v q Hq) as (d & Hd & Hu). exists d. rewrite lookup_insert_ne; [done|]. symmetry. by eapply Hne.
    + intros q. unfold is_open. simpl. destruct (decide (q = p)) as [->|Hq].
      * rewrite lookup_insert_eq. split; [set_solver|]. intros _. by exists c.
      * rewrite lookup_insert_ne by done. rewrite (H4 q). set_solver.
    + intros q [->%elem_of_singleton|Hq]%elem_of_union v; [|by apply H5]. intros Hv. apply Hno. right. by exists v.
    + intros q d. destruct (decide (q = p)) as [->|Hq]; [rewrite lookup_insert_eq|rewrite lookup_insert_ne by done; apply H6].
      intros [= <-]. simpl. lia.
    + intros q. destruct (decide (q = p)) as [->|Hq]; [unfold p; lia|]. rewrite lookup_insert_ne by done. intros Hs%H7. lia.
  - intros q d Hd. simpl. rewrite lookup_insert_ne; [exists d; by split_and!|]. symmetry. by eapply Hne.
Qed.

Lemma without_perm p l : p ∈ l → ∃ l', without p l = Some l' ∧ l ≡ₚ p :: l'.
Proof.
  induction l as [|q l IH]; intros Hp; [by apply elem_of_nil in Hp|]. simpl. destruct (decide (q = p)) as [->|Hq].
  - by exists l.
  - destruct IH as (l' & -> & He); [set_solver|]. exists (q :: l'). split; [done|]. rewrite He. constructor.
Qed.

Lemma without_none p l : p ∉ l → without p l = None.
Proof. induction l as [|q l IH]; intros Hp; [done|]. simpl. rewrite decide_False by set_solver. rewrite IH by set_solver. done. Qed.

Lemma drop_conn_clients p h : hb_clients (drop_conn p h) = hb_clients h.
Proof. unfold drop_conn, close_Send. destruct (hb_heap h !! p) as [c|] eqn:E; [|done]. by destruct (cl_closed c). Qed.

(** The list of one user, anew. *)
Lemma relist_some u v (l : list nat) (m : gmap uuid (list nat)) :
  default [] (<[u := l]> m !! v) = if decide (v = u) then l else default [] (m !! v).
Proof. destruct (decide (v = u)) as [->|Hv]; [by rewrite lookup_insert_eq|by rewrite lookup_insert_ne]. Qed.
Lemma relist_none u v (m : gmap uuid (list nat)) :
  default [] (delete u m !! v) = if decide (v = u) then [] else default [] (m !! v).
Proof. destruct (decide (v = u)) as [->|Hv]; [by rewrite lookup_delete_eq|by rewrite lookup_delete_ne]. Qed.

(** Dropping some of a user's devices: [l] are left. *)
Lemma ok_drop F h u ps l : hub_ok F h → NoDup l → NoDup ps → length l ≤ MaxDevices →
  (∀ p, p ∈ devices u h ↔ p ∈ ps ∨ p ∈ l) → (∀ p, p ∈ ps → p ∉ l) →
  let h' := with_clients (if decide (l = []) then delete u (hb_clients h) else <[u := l]> (hb_clients h)) (drop_all ps h) in
  hub_ok F h' ∧ grows h h'.
Proof.
  intros H Hl Hps Hlen Heq Hdis. cbv zeta. set (m := if decide (l = []) then _ else _).
  assert (∀ v, default [] (m !! v) = if decide (v = u) then l else devices v h) as Hm.
  { intros v. unfold m, devices. destruct (decide (l = [])) as [->|]; [apply relist_none|apply relist_some]. }
  assert (∀ p, p ∈ ps → p ∈ devices u h) as Hmine by (intros p Hp; apply Heq; by left).
  apply (ok_relist F F); [done..|intros p Hp; eapply devices_open; [done|by apply Hmine]| | | |].
  - intros v k. unfold m. destruct (decide (l = [])) as [->|Hne].
    + intros [Hvu Hk]%lookup_delete_Some. by apply (ok_lists F h H v).
    + intros [[<- <-]|[Hvu Hk]]%lookup_insert_Some; [done|]. by apply (ok_lists F h H v).
  - intros v p. rewrite Hm. destruct (decide (v = u)) as [->|Hv]; intros Hp; apply (ok_mine F h H); [|done]. apply Heq. by right.
  - intros p Hp v. rewrite Hm. pose proof (ok_fresh F h H p Hp) as Hno. destruct (decide (v = u)) as [->|Hv]; [|apply Hno].
    intros Hin. apply (Hno u), Heq. by right.
  - intros p. rewrite (ok_open F h H). setoid_rewrite Hm. split.
    + intros [Hp|(v & Hv)].
      * split; [by left|]. intros Hin%Hmine. by apply (ok_fresh F h H p Hp u).
      * destruct (decide (v = u)) as [->|Hvu].
        -- split; [right; exists u; apply Heq; by right|]. intros Hin. by apply (Hdis p).
        -- split; [right; by exists v|]. intros Hin%Hmine. apply Hvu. by eapply ok_one.
    + intros [[Hp|(v & Hv)] Hnot]; [by left|right]. exists v. destruct (decide (v = u)) as [->|]; [|done].
      apply Heq in Hv. tauto.
Qed.

Lemma remove_ok F h p : hub_ok F h → hub_ok F (remove p h).2 ∧ grows h (remove p h).2.
Proof.
  intros H. unfold remove. destruct (hb_heap h !! p) as [c|] eqn:Hc; [|done]. set (u := cl_UserID c).
  destruct (decide (p ∈ devices u h)) as [Hin|Hout]; [|by rewrite without_none].
  destruct (without_perm p _ Hin) as (l & -> & Hperm).
  assert (NoDup (p :: l)) as Hnd by (rewrite <- Hperm; by eapply ok_NoDup).
  assert (length (devices u h) ≤ MaxDevices) as Hlen.
  { apply devices_some in Hin as (k & Hk & _). unfold devices. rewrite Hk. by apply (ok_lists F h H u). }
  apply NoDup_cons in Hnd as [Hpl Hnd].
  destruct (ok_drop F h u [p] l H) as [H' Hg]; [done|apply NoDup_singleton| | |set_solver|].
  { apply Permutation_length in Hperm. simpl in Hperm. lia. }
  { intros q. rewrite Hperm, elem_of_cons. set_solver. }
  simpl in H', Hg. cbn [snd]. rewrite drop_conn_clients. destruct l as [|q l].
  - split; [by apply ok_tell|exact Hg].
  - split; [exact H'|exact Hg].
Qed.

Lemma disconnect_ok F h u : hub_ok F h → hub_ok F (disconnect_locked u h).2 ∧ grows h (disconnect_locked u h).2.
Proof.
  intros H. unfold disconnect_locked. cbn [snd].
  destruct (ok_drop F h u (devices u h) [] H) as [H' Hg]; [constructor|by eapply ok_NoDup|simpl; lia|set_solver|set_solver|].
  rewrite decide_True in H', Hg by done. unfold drop_all in *.
  assert (∀ ps h, hb_clients (fold_left (λ h p, drop_conn p h) ps h) = hb_clients h) as Hfold.
  { clear. induction ps as [|p ps IH]; intros h; simpl; [done|]. by rewrite IH, drop_conn_clients. }
  rewrite Hfold. done.
Qed.

(** A device more: the sixth closes the oldest. *)
Lemma register_ok R h p : p ∉ R → hub_ok ({[p]} ∪ R) h → hub_ok R (register p h).2 ∧ grows h (register p h).2.
Proof.
  intros HpR H. assert (is_open p h) as (c & Hc & Hcl) by (apply (ok_open _ _ H); set_solver).
  assert (∀ v, p ∉ devices v h) as Hfresh by (intros v; apply (ok_fresh _ _ H); set_solver).
  unfold register. rewrite Hc. cbv zeta. cbn [snd]. set (u := cl_UserID c). set (l := devices u h ++ [p]).
  assert (NoDup l) as Hnd.
  { apply NoDup_app. split_and!; [by eapply ok_NoDup| |apply NoDup_singleton]. intros q Hq ->%list_elem_of_singleton. by apply (Hfresh u). }
  assert (length (devices u h) ≤ MaxDevices) as Hlen.
  { unfold devices. destruct (hb_clients h !! u) as [k|] eqn:E; [by apply (ok_lists _ _ H u)|simpl; lia]. }
  set (ps := if decide (MaxDevices < length l) then [hd 0 l] else []).
  set (l' := if decide (MaxDevices < length l) then tail l else l).
  assert (l = ps ++ l') as Hsplit.
  { unfold ps, l'. destruct (decide _) as [Hd|Hd]; [|done]. destruct l; [simpl in Hd; lia|done]. }
  assert (length l = S (length (devices u h))) as Hll by (unfold l; rewrite length_app; simpl; lia).
  assert (length l' ≤ MaxDevices) as Hlen'.
  { unfold l'. destruct (decide _) as [Hd|Hd]; [|lia]. destruct l; simpl in *; lia. }
  assert (p ∈ l') as Hpl'.
  { unfold l'. destruct (decide _) as [Hd|Hd]; [|unfold l; set_solver]. unfold l in *. destruct (devices u h) as [|q k]; simpl in *; [unfold MaxDevices in Hd; lia|set_solver]. }
  assert (∀ q, q ∈ l ↔ q = p ∨ q ∈ devices u h) as Hl by (intros; unfold l; set_solver).
  rewrite Hsplit in Hnd. apply NoDup_app in Hnd as (Hps & Hdis & Hl').
  assert (∀ q, q ∈ ps → q ∈ devices u h) as Hpsd.
  { intros q Hq. assert (q ∈ l) as [->|]%Hl by (rewrite Hsplit; set_solver); [|done]. by destruct (Hdis p). }
  assert ((if decide (MaxDevices < length l) then drop_conn (hd 0 l) h else h) = drop_all ps h) as ->
    by (unfold ps; by destruct (decide _)).
  assert (hb_clients (drop_all ps h) = hb_clients h) as ->.
  { unfold ps. destruct (decide _); [apply drop_conn_clients|done]. }
  apply (ok_relist ({[p]} ∪ R) R); [done..| | | | |].
  - intros q Hq. eapply devices_open; [done|by apply Hpsd].
  - intros v k [[<- <-]|[Hvu Hk]]%lookup_insert_Some; [|by apply (ok_lists _ _ H v)]. split_and!; [|done..]. intros E. rewrite E in Hpl'. by apply elem_of_nil in Hpl'.
  - intros v q. rewrite relist_some. destruct (decide (v = u)) as [->|Hv]; [|apply (ok_mine _ _ H)]. intros Hq.
    assert (q ∈ l) as [->|Hd]%Hl by (rewrite Hsplit; set_solver); [by exists c|by apply (ok_mine _ _ H)].
  - intros q Hq v. rewrite relist_some. assert (∀ v, q ∉ devices v h) as Hno by (intros w; apply (ok_fresh _ _ H); set_solver).
    destruct (decide (v = u)) as [->|Hv]; [|apply Hno]. intros Hin.
    assert (q ∈ l) as [->|Hd]%Hl by (rewrite Hsplit; set_solver); [done|by apply (Hno u)].
  - intros q. rewrite (ok_open _ _ H). setoid_rewrite relist_some. split.
    + intros [Hq|(v & Hv)].
      * split; [set_solver|]. intros Hin%Hpsd. revert Hin. apply (ok_fresh _ _ H). set_solver.
      * destruct (decide (v = u)) as [->|Hvu].
        -- assert (q ∈ l) as Hql by (rewrite Hsplit; set_solver). split; [|intros Hin; by apply (Hdis q)].
           apply Hl in Hql as [->|Hd]; [set_solver|right; by exists u].
        -- split; [right; by exists v|]. intros Hin%Hpsd. apply Hvu. by eapply ok_one.
    + intros [[Hq|(v & Hv)] Hnot].
      * apply elem_of_union in Hq as [->%elem_of_singleton|Hq]; [|by left]. right. exists u. by rewrite decide_True.
      * right. exists v. destruct (decide (v = u)) as [->|]; [|done].
        assert (q ∈ l) as Hql by (apply Hl; by right). rewrite Hsplit in Hql. set_solver.
Qed.

Lemma send_locked_ok F h targets bytes : hub_ok F h →
  hub_ok F (send_locked targets bytes h).2 ∧ grows h (send_locked targets bytes h).2.
Proof.
  intros H. apply send_clients_ok; [done|]. intros p Hp. apply list_elem_of_bind in Hp as (u & Hp & _). by eapply devices_open.
Qed.

Lemma last_some_elem {A} (l : list A) x : last l = Some x → x ∈ l.
Proof. intros (l' & ->)%last_Some. set_solver. Qed.

Lemma send_conn_ok F h c bytes : hub_ok F h →
  hub_ok F (send_conn_locked c bytes h).2 ∧ grows h (send_conn_locked c bytes h).2.
Proof.
  intros H. unfold send_conn_locked. destruct (target_of c h) as [p|] eqn:E; [|done]. cbn [snd].
  apply last_some_elem, list_elem_of_In, List.filter_In in E as [Hp%list_elem_of_In _].
  destruct (try_send_ok F h p bytes H) as (H1 & Hg & _); [by eapply devices_open|done].
Qed.

Lemma send_except_ok F h user except bytes : hub_ok F h →
  hub_ok F (send_except_locked user except bytes h).2 ∧ grows h (send_except_locked user except bytes h).2.
Proof.
  intros H. apply send_clients_ok; [done|]. intros p [Hp _]%list_elem_of_In%List.filter_In.
  apply list_elem_of_In in Hp. by eapply devices_open.
Qed.

(** ** Any interleaving *)

Section pool.
Context {json : EventJson}.

#[local] Abbreviation calm := (quiet hub_ok grows) (only parsing).

Lemma tell_keeps t : keeps hub_ok grows (λ h, (tt, tell t h)).
Proof. intros F h H. split; [by apply ok_tell|by apply grows_heap]. Qed.

Lemma remove_all_quiet ps : calm (λ _, True) (remove_all ps).
Proof.
  induction ps as [|p ps IH]; [done|]. simpl. split; [|done]. intros F h H. by apply remove_ok.
Qed.

Lemma WriteToUsers_quiet targets ev : calm (λ _, True) (WriteToUsers targets ev).
Proof.
  unfold WriteToUsers. destruct (marshal_Event ev) as [bytes|]; [|done]. split; [intros F h H; by apply send_locked_ok|].
  intros slow. eapply quiet_bind; [apply remove_all_quiet|done].
Qed.

Lemma SendToConn_quiet c ev : calm (λ _, True) (SendToConn c ev).
Proof.
  unfold SendToConn. destruct (marshal_Event ev) as [bytes|]; [|done]. split; [intros F h H; by apply send_conn_ok|].
  intros [[p|] [|]]; [done| |done..]. split; [intros F h H; by apply remove_ok|done].
Qed.

Lemma WriteToUserExcept_quiet user except ev : calm (λ _, True) (WriteToUserExcept user except ev).
Proof.
  unfold WriteToUserExcept. destruct (marshal_Event ev) as [bytes|]; [|done]. split; [intros F h H; by apply send_except_ok|done].
Qed.

Lemma Disconnect_quiet u : calm (λ _, True) (Disconnect u).
Proof. split; [intros F h H; by apply disconnect_ok|]. intros [|]; [|done]. split; [apply tell_keeps|done]. Qed.

Lemma Serve_owns u id : owns hub_ok grows ∅ (Serve u id).
Proof.
  constructor. intros R h _ H. rewrite union_empty_l_L in H. destruct (NewClient_ok R h u id H) as (Hp & H1 & Hg).
  split; [done|]. exists {[(NewClient u id h).1]}. split; [set_solver|]. split; [exact H1|].
  generalize (NewClient u id h).1. clear. intros p. constructor. intros R h Hp H.
  destruct (register_ok R h p) as [H1 Hg]; [set_solver|done|]. split; [done|]. exists ∅. split; [set_solver|].
  split; [by rewrite union_empty_l_L|]. generalize (register p h).1. clear. intros first.
  apply (owns_quiet _ _ (λ _, True)). apply (quiet_bind _ _ (λ _, True)).
  - destruct first; [|done]. split; [apply tell_keeps|done].
  - intros _ _. split; [apply tell_keeps|]. intros []. split; [intros F s H; by apply remove_ok|done].
Qed.

Lemma hub_goroutine_owns p : hub_goroutine p → owns hub_ok grows ∅ p.
Proof.
  intros [u id|targets ev|c ev|user except ev|u]; [apply Serve_owns|..]; apply (owns_quiet _ _ (λ _, True)).
  - eapply quiet_bind; [apply WriteToUsers_quiet|done].
  - eapply quiet_bind; [apply SendToConn_quiet|done].
  - apply WriteToUserExcept_quiet.
  - apply Disconnect_quiet.
Qed.

Lemma hub_new_ok : hub_ok ∅ NewHub.
Proof.
  split; unfold devices, is_open; simpl; try (intros *; rewrite ?lookup_empty; set_solver).
Qed.

Lemma hub_reach_ok h ts : hub_reach h ts → pool_ok hub_ok grows (h, ts).
Proof.
  unfold hub_reach. intros Hr. assert (pool_ok hub_ok grows (NewHub, [])) as H0 by (exists ∅; split; [constructor|apply hub_new_ok]).
  revert H0. remember (NewHub, []) as c0 eqn:E0. remember (h, ts) as c eqn:E. clear E0 E.
  induction Hr as [|c0 c1 c2 Hs _ IH]; [done|]. intros Hok. apply IH. revert Hok Hs.
  apply pool_invariant; [apply hub_goroutine_owns|done|]. intros h0 h1 F (p & ->) H. by apply receive_ok.
Qed.

(** C14. However connections come and go, events are sent, users are disconnected and
    buffers drain, the hub never panics: no channel is closed twice and nothing is sent on
    a closed one.  A user has at most five devices, each of them once, open, and theirs;
    no buffer holds more than its 256 events; and Count is the number of users who are
    Online. *)
Theorem hub_never_panics h ts : hub_reach h ts →
  hb_panic h = false ∧
  (∀ u, length (devices u h) ≤ 5 ∧ NoDup (devices u h) ∧
        ∀ p, p ∈ devices u h → ∃ c, hb_heap h !! p = Some c ∧ cl_UserID c = u ∧ cl_closed c = false) ∧
  (∀ p c, hb_heap h !! p = Some c → length (cl_Send c) ≤ 256) ∧
  (∀ users : gset uuid, (∀ u, u ∈ users ↔ Online u h = true) → Count h = size users).
Proof.
  intros (F & _ & H)%hub_reach_ok. simpl in H. split_and!; [apply H| |apply H|].
  - intros u. split_and!; [|by eapply ok_NoDup|].
    + unfold devices. destruct (hb_clients h !! u) as [l|] eqn:E; [by apply (ok_lists F h H u)|simpl; lia].
    + intros p Hp. destruct (ok_mine F h H u p Hp) as (c & Hc & Hu). destruct (devices_open F h u p H Hp) as (c' & Hc' & Hcl).
      exists c. split_and!; [done..|congruence].
  - intros users Hu. unfold Count. rewrite <- (size_dom (D := gset uuid)). f_equal. apply leibniz_equiv. intros u.
    rewrite Hu, elem_of_dom. unfold Online, devices. rewrite bool_decide_eq_true. destruct (hb_clients h !! u) as [l|] eqn:E; simpl.
    + split; [|by eexists]. intros _. by apply (ok_lists F h H u).
    + by split; [intros [? ?]|].
Qed.
End pool.

(** ** What one write does *)

Lemma remove_spec F h u p : hub_ok F h → p ∈ devices u h →
  let h' := (remove p h).2 in
  hub_ok F h' ∧
  (∃ c, hb_heap h !! p = Some c ∧ hb_heap h' !! p = Some (mk_Client (cl_UserID c) (cl_ID c) (cl_Send c) true)) ∧
  (∀ q, q ≠ p → hb_heap h' !! q = hb_heap h !! q) ∧
  (∀ v q, q ∈ devices v h' ↔ q ∈ devices v h ∧ q ≠ p).
Proof.
  intros H Hp. split; [by apply remove_ok|]. destruct (ok_mine F h H u p Hp) as (c & Hc & Hu).
  destruct (drop_conn_open p h) as (c' & Hc' & Hd); [by eapply devices_open|]. assert (c' = c) as -> by congruence.
  unfold remove. rewrite Hc, Hu. destruct (without_perm p _ Hp) as (l & -> & Hperm). cbn [snd]. rewrite drop_conn_clients.
  assert (NoDup (p :: l)) as [Hpl _]%NoDup_cons by (rewrite <- Hperm; by eapply ok_NoDup).
  set (m := if decide (l = []) then delete u (hb_clients h) else <[u := l]> (hb_clients h)).
  match goal with |- context [hb_heap ?x !! p = _] => set (h' := x) end.
  assert (hb_heap h' = hb_heap (drop_conn p h) ∧ hb_clients h' = m) as [-> Hm] by (unfold h', m; destruct l; done).
  unfold devices at 1. setoid_rewrite Hm. rewrite Hd. simpl. split_and!.
  - exists c. split; [done|]. by rewrite lookup_insert_eq.
  - intros q Hq. by rewrite lookup_insert_ne.
  - assert (∀ v, default [] (m !! v) = if decide (v = u) then l else devices v h) as Hdev.
    { intros v. unfold m, devices. destruct (decide (l = [])) as [->|]; [apply relist_none|apply relist_some]. }
    intros v q. rewrite Hdev. destruct (decide (v = u)) as [->|Hv].
    + rewrite Hperm, elem_of_cons. split; [intros Hq; split; [by right|intros ->; done]|tauto].
    + split; [|tauto]. intros Hq. split; [done|]. intros ->. apply Hv. by eapply ok_one.
Qed.

Lemma remove_all_spec F ps h : hub_ok F h → NoDup ps → (∀ p, p ∈ ps → ∃ u, p ∈ devices u h) →
  let h' := (run (remove_all ps) h).2 in
  (∀ p, p ∈ ps → ∃ c, hb_heap h !! p = Some c ∧ hb_heap h' !! p = Some (mk_Client (cl_UserID c) (cl_ID c) (cl_Send c) true)) ∧
  (∀ q, q ∉ ps → hb_heap h' !! q = hb_heap h !! q) ∧
  (∀ v q, q ∈ devices v h' ↔ q ∈ devices v h ∧ q ∉ ps).
Proof.
  intros H Hnd. revert h H. induction Hnd as [|p ps Hp Hnd IH]; intros h H Hps; simpl.
  { split_and!; [set_solver|done|set_solver]. }
  destruct (Hps p) as (u & Hu); [by left|]. destruct (remove_spec F h u p H Hu) as (H1 & Hcl & Hh & Hd).
  destruct (IH (remove p h).2 H1) as (I1 & I2 & I3).
  { intros q Hq. destruct (Hps q) as (v & Hv); [by right|]. exists v. apply Hd. split; [done|]. intros ->. done. }
  split_and!.
  - intros q [->|Hq]%elem_of_cons.
    + destruct Hcl as (c & Hc & Hc'). exists c. split; [done|]. by rewrite I2.
    + destruct (I1 q Hq) as (c & Hc & Hc'). exists c. split; [|done]. rewrite <- Hc. symmetry. apply Hh. intros ->. done.
  - intros q [Hqp Hq]%not_elem_of_cons. rewrite I2 by done. by apply Hh.
  - intros v q. rewrite I3, Hd. set_solver.
Qed.

(** The client has room for one more event. *)
Definition has_room (c : Client) : Prop := length (cl_Send c) < sendBuffer.

Lemma send_clients_spec F bytes ps h : hub_ok F h → NoDup ps → (∀ p, p ∈ ps → is_open p h) →
  let r := send_clients bytes ps h in
  hub_ok F r.2 ∧ hb_clients r.2 = hb_clients h ∧ NoDup r.1 ∧
  (∀ q, q ∉ ps → hb_heap r.2 !! q = hb_heap h !! q) ∧
  (∀ p c, p ∈ ps → hb_heap h !! p = Some c →
     if decide (length (cl_Send c) < sendBuffer)
     then p ∉ r.1 ∧ hb_heap r.2 !! p = Some (mk_Client (cl_UserID c) (cl_ID c) (cl_Send c ++ [bytes]) false)
     else p ∈ r.1 ∧ hb_heap r.2 !! p = Some c) ∧
  (∀ p, p ∈ r.1 → p ∈ ps).
Proof.
  intros H Hnd. revert h H. induction Hnd as [|p ps Hp Hnd IH]; intros h H Hps; simpl.
  { split_and!; [done..|constructor|done|set_solver|set_solver]. }
  destruct (Hps p) as (c & Hc & Hcl); [by left|].
  destruct (try_send_ok F h p bytes H) as (H1 & _ & Ho); [by exists c|].
  destruct (IH _ H1) as (I0 & I1 & I2 & I3 & I4 & I5); [intros q Hq; apply Ho, Hps; by right|].
  assert (hb_clients (try_send bytes p h).2 = hb_clients h) as Hcs
    by (unfold try_send; rewrite Hc, Hcl; by destruct (decide _)).
  assert (∀ q, q ≠ p → hb_heap (try_send bytes p h).2 !! q = hb_heap h !! q) as Hne.
  { intros q Hq. unfold try_send. rewrite Hc, Hcl. destruct (decide _); [|done]. simpl. by rewrite lookup_insert_ne. }
  split_and!; [done|by rewrite I1| | | |].
  - destruct (try_send bytes p h).1; [done|]. constructor; [|done]. intros Hin. by apply Hp, I5.
  - intros q [Hqp Hq]%not_elem_of_cons. rewrite I3 by done. by apply Hne.
  - intros q d [->|Hq]%elem_of_cons Hd.
    + assert (d = c) as -> by congruence.
      assert (p ∉ (send_clients bytes ps (try_send bytes p h).2).1) as Hno by (intros Hin; by apply Hp, I5).
      rewrite I3 by done. unfold try_send in *. rewrite Hc, Hcl in *. destruct (decide _) as [Hl|Hl]; cbn [fst snd] in *.
      * split; [set_solver|]. simpl. by rewrite lookup_insert_eq.
      * split; [set_solver|done].
    + assert (q ≠ p) as Hqp by (intros ->; done). specialize (I4 q d Hq). rewrite Hne in I4 by done.
      specialize (I4 Hd). destruct (decide _); destruct I4 as [I4 I6]; (split; [|done]); [|set_solver].
      destruct (try_send bytes p h).1; set_solver.
  - intros q. destruct (try_send bytes p h).1; simpl; set_solver.
Qed.

(** The devices of different users are different. *)
Lemma devices_NoDup F h targets : hub_ok F h → NoDup targets → NoDup (targets ≫= λ u, devices u h).
Proof.
  intros H. induction 1 as [|u us Hu Hnd IH]; simpl; [constructor|]. apply NoDup_app. split_and!; [by eapply ok_NoDup| |done].
  intros p Hp (v & Hpv & Hv)%list_elem_of_bind. apply Hu. by rewrite (ok_one F h u v p H Hp Hpv).
Qed.

Section write.
Context {json : EventJson}.

(** C24. An event reaches every device of every target, or the device goes.  After
    WriteToUsers, a device with room in its buffer has the event at the end of it and is
    still connected; one whose buffer was full is closed, with what it had, and no longer
    listed; and no other connection has changed. *)
Theorem event_reaches_devices F h targets ev bytes :
  hub_ok F h → NoDup targets → marshal_Event ev = Ok bytes →
  let r := run (WriteToUsers targets ev) h in
  r.1 = Ok tt ∧
  ∀ u p c, p ∈ devices u h → hb_heap h !! p = Some c →
    (u ∈ targets → has_room c →
       p ∈ devices u r.2 ∧ hb_heap r.2 !! p = Some (mk_Client (cl_UserID c) (cl_ID c) (cl_Send c ++ [bytes]) false)) ∧
    (u ∈ targets → ¬ has_room c →
       p ∉ devices u r.2 ∧ hb_heap r.2 !! p = Some (mk_Client (cl_UserID c) (cl_ID c) (cl_Send c) true)) ∧
    (u ∉ targets → p ∈ devices u r.2 ∧ hb_heap r.2 !! p = Some c).
Proof.
  intros H Hnd Hm. cbv zeta. unfold WriteToUsers. rewrite Hm, run_bind. simpl. rewrite run_bind. cbn [run mret fst snd]. unfold mret, prog_ret. simpl.
  split; [done|]. set (ps := targets ≫= λ u, devices u h).
  assert (∀ p, p ∈ ps ↔ ∃ u, u ∈ targets ∧ p ∈ devices u h) as Hps.
  { intros p. unfold ps. rewrite list_elem_of_bind. naive_solver. }
  destruct (send_clients_spec F bytes ps h H) as (S0 & S1 & S2 & S3 & S4 & S5);
    [by eapply devices_NoDup|intros p (u & _ & Hp)%Hps; by eapply devices_open|].
  assert (∀ u, devices u (send_locked targets bytes h).2 = devices u h) as Hdev
    by (intros u; unfold devices, send_locked; fold ps; by rewrite S1).
  destruct (remove_all_spec F (send_locked targets bytes h).1 _ S0 S2) as (R1 & R2 & R3).
  { intros p (u & _ & Hp)%S5%Hps. exists u. by rewrite Hdev. }
  unfold send_locked in R1, R2, R3, Hdev |- *. fold ps in R1, R2, R3, Hdev |- *. set (h1 := send_clients bytes ps h) in *.
  intros u p c Hp Hc.
  assert (u ∈ targets → p ∈ ps) as Hin by (intros Hu; apply Hps; by exists u).
  assert (u ∉ targets → p ∉ ps) as Hout.
  { intros Hu (v & Hv & Hpv)%Hps. apply Hu. by rewrite (ok_one F h u v p H Hp Hpv). }
  split_and!.
  - intros Hu Hroom. specialize (S4 p c (Hin Hu) Hc). rewrite decide_True in S4 by done. destruct S4 as [Hno Hh].
    split; [apply R3; by rewrite Hdev|]. by rewrite R2.
  - intros Hu Hroom. specialize (S4 p c (Hin Hu) Hc). rewrite decide_False in S4 by done. destruct S4 as [Hslow Hh].
    destruct (R1 p Hslow) as (d & Hd & Hd'). rewrite Hh in Hd. injection Hd as <-. split; [|done]. rewrite R3. tauto.
  - intros Hu%Hout. assert (p ∉ h1.1) as Hno by (intros Hs; by apply Hu, S5). split; [apply R3; by rewrite Hdev|].
    rewrite R2 by done. by rewrite S3.
Qed.
End write.
