(* ===== verification/Users_Model.v ===== *)
(** * Users_Model: accounts as the users package shows them (src/internal/users/model.go)

    The API's records, the errors, and the rules on names, addresses and passwords
    (users/service.go). *)

From S2P Require Import Prelude GoLib Types Catalog.
From stdpp Require Export pretty.

#[local] Open Scope Z_scope.

(** [time.Time.UnixMilli] *)
Definition UnixMilli (t : time) : Z := (t / millisecond)%Z.

Definition ErrUserNotFound : error := ErrNew "users" "no user found".
Definition ErrDuplicateEmail : error := ErrNew "users" "duplicate error".
Definition ErrDuplicateName : error := ErrNew "users" "duplicate name error".
Definition ErrInvalidInput : error := ErrNew "users" "invalid input".
Definition ErrNoPassword : error := ErrNew "users" "account has no password".
Definition ErrBioTooLong : error := ErrNew "users" "bio must be at most 150 characters".
Definition ErrBadPlace : error := ErrNew "users" "location must be an id from GET /api/discover/options".
Definition ErrBadInterests : error := ErrNew "users" "interests must be up to 10 ids from GET /api/discover/options".
Definition ErrBadDisplayName : error :=
  ErrNew "users" "display name must be 1-50 characters without line breaks or invisible characters".
Definition ErrBadImage : error := ErrNew "users" "upload a JPEG, PNG or WebP image".
Definition ErrImageTooLarge : error := ErrNew "users" "image is too large (at most 5 MB and 40 megapixels)".

Definition RenameEvery : duration := 30 * 24 * hour.
Definition maxBioLen : Z := 150.

Definition RenameTooSoonError (until : time) : error := ErrUntil "users" "RenameTooSoonError" until.

Definition avatarURL `{UuidLib} (id : uuid) (at_ : time) : option string :=
  Some ("/api/users/" +:+ uuid_string id +:+ "/avatar?v=" +:+ pretty (UnixMilli at_))%string.

Definition AvatarURLFrom `{UuidLib} (id : uuid) (at_ : option time) : option string :=
  match at_ with
  | None => None
  | Some t => avatarURL id t
  end.

Definition PlaceOf (id : string) : option Place := LookupPlace id.

(** The display name, or the username when none is set. *)
Definition ShownName (username display : string) : string :=
  if decide (display = EmptyString) then username else display.

(** [users.User] *)
Record Account := mk_Account {
  ac_ID : uuid;
  ac_Name : string;
  ac_DisplayName : string;
  ac_CreatedAt : time;
  ac_UpdatedAt : time;
  ac_Email : string;
  ac_Verified : bool;
  ac_Bio : string;
  ac_NameChangeAvailableAt : option time;
  ac_AvatarURL : option string;
  ac_Location : option Place;
  ac_Interests : option (list string);
  ac_Discoverable : bool;
  ac_HideLastSeen : bool;
  ac_IsAdmin : bool;
}.

Record Profile := mk_Profile {
  pf_ID : uuid;
  pf_Name : string;
  pf_DisplayName : string;
  pf_Bio : string;
  pf_AvatarURL : option string;
  pf_Location : option Place;
  pf_Interests : list string;
}.

(** PATCH /api/users/me; None is an absent field. *)
Record UpdateProfileRequest := mk_UpdateProfileRequest {
  up_Name : option string;
  up_DisplayName : option string;
  up_Bio : option string;
  up_Location : option string;
  up_Interests : option (list string);
  up_Discoverable : option bool;
}.

Record CreateUserInput := mk_CreateUserInput { ci_Name : string; ci_DisplayName : string; ci_Email : string; ci_Password : string }.

(** ** The rules (users/service.go) *)

Definition minPasswordLen : Z := 8.
Definition maxPasswordLen : Z := 128.
Definition maxEmailLen : Z := 125.
Definition maxDisplayNameLen : Z := 50.
Definition passwordSpecials : string := "@$!%*?&".

Definition ValidatePassword (p : string) : option error :=
  if (byte_length p <? minPasswordLen) || (byte_length p >? maxPasswordLen) || negb (ContainsAny p passwordSpecials)
  then Some ErrInvalidInput else None.

(** [usernamePattern]: lowercase letters, digits, "_" and ".", 3 to 25 of them. *)
Definition username_byte (b : Z) : bool := in_range 97 122 b || in_range 48 57 b || (b =? 95) || (b =? 46).
Definition usernamePattern (s : string) : bool :=
  forallb username_byte (bytes_of s) && in_range 3 25 (byte_length s).

Definition NormalizeUsername `{GoLower} (name : string) : string := ToLower (TrimSpace name).

Definition ValidateName (name : string) : option error :=
  if negb (usernamePattern name) then Some ErrInvalidInput else None.

(** unicode.Zl and Zp hold U+2028 and U+2029. *)
Definition bad_display_rune (r : Z) : bool :=
  (is_space r && negb (r =? 32)) || is_control r || is_Cf r || (r =? 0x2028) || (r =? 0x2029) || (r =? rune_error).

Definition ValidateDisplayName (name : string) : option error :=
  let n := RuneCountInString name in
  if (n =? 0) || (n >? maxDisplayNameLen) then Some ErrBadDisplayName
  else if existsb bad_display_rune (runes name) then Some ErrBadDisplayName
  else None.

(** net/mail: [ParseAddress] gives the address of a mailbox, None is its error.  Its
    grammar (RFC 5322) is left out. *)
Class MailParse := { ParseAddress : string → option string }.

Definition ValidateEmail `{MailParse} (email : string) : option error :=
  if byte_length email >? maxEmailLen then Some ErrInvalidInput
  else match ParseAddress email with
       | Some address => if decide (address = email) then None else Some ErrInvalidInput
       | None => Some ErrInvalidInput
       end.

Definition validateRegister `{MailParse} (name email password : string) : option error :=
  match ValidateName name with
  | Some e => Some e
  | None => match ValidateEmail email with
            | Some e => Some e
            | None => ValidatePassword password
            end
  end.
