(* ===== verification/Groups_Model.v ===== *)
(** * Groups_Model: roles, permissions, requests (src/internal/groups/model.go)

    Also the cached view of a group ([GroupSnapshot], repo.go) and the
    validation of a creation request (service.go). *)

From S2P Require Import Prelude GoLib Types Users_Model.

#[local] Open Scope Z_scope.

Definition ErrNotFoundGroup : error := ErrNew "groups" "group not found".
Definition ErrGroupFull : error := ErrNew "groups" "group full".
Definition ErrAlreadyMember : error := ErrNew "groups" "already a member".
Definition ErrNotMember : error := ErrNew "groups" "not a member".
Definition ErrInvalidGroupReq : error := ErrNew "groups" ("group_name must be 1-30 characters, description at most 1000, max_mems 2-1000, visibility " +:+ quoted "private" +:+ " or " +:+ quoted "public")%string.
Definition ErrNoPermission : error := ErrNew "groups" "you don't have permission to do this".
Definition ErrKickSelf : error := ErrNew "groups" "you can't remove yourself; leave the group instead".
Definition ErrCantRemoveAdmin : error := ErrNew "groups" "the group admin can't be removed".
Definition ErrAlreadyAdmin : error := ErrNew "groups" "that member is already the admin".
Definition ErrNothingToUpdate : error := ErrNew "groups" "send group_name, description and/or visibility".
Definition ErrInvalidGroupInfo : error := ErrNew "groups" ("group_name must be 1-30 characters, description at most 1000, visibility " +:+ quoted "private" +:+ " or " +:+ quoted "public")%string.
Definition ErrNotFriend : error := ErrNew "groups" "you can only add your friends".
Definition ErrNoAvatar : error := ErrNew "groups" "no group picture".
Definition ErrBadRole : error := ErrNew "groups" ("role must be " +:+ quoted "moderator" +:+ " or " +:+ quoted "member" +:+ "; permissions from add_members, remove_members, delete_messages, edit_info, manage_invite")%string.
Definition ErrSelfRole : error := ErrNew "groups" "you can't change your own role".
Definition ErrBadSearch : error := ErrNew "groups" "q must be 2-30 characters".

Definition RoleAdmin : string := "admin".
Definition RoleModerator : string := "moderator".
Definition RoleMember : string := "member".

Definition PermAddMembers : string := "add_members".
Definition PermRemoveMembers : string := "remove_members".
Definition PermDeleteMessages : string := "delete_messages".
Definition PermEditInfo : string := "edit_info".
Definition PermManageInvite : string := "manage_invite".

Definition AllPermissions : list string :=
  [PermAddMembers; PermRemoveMembers; PermDeleteMessages; PermEditInfo; PermManageInvite].

Definition Private : string := "private".
Definition Public : string := "public".

Definition maxGroupNameLen : Z := 30.
Definition maxDescLen : Z := 1000.
Definition maxGroupSize : Z := 1000.

(** [perm] is [EmptyString] for what only the admin may do. *)
Definition allowed (role : string) (perms : list string) (perm : string) : bool :=
  if decide (role = RoleAdmin) then true
  else if decide (role = RoleModerator)
  then negb (bool_decide (perm = EmptyString)) && slices_contains perms perm
  else false.

Definition cleanPermissions (inp : list string) : result (list string) :=
  if forallb (λ p, slices_contains AllPermissions p) inp
  then Ok (List.filter (λ p, slices_contains inp p) AllPermissions)
  else Err ErrBadRole.

Record createGroupRequest := mk_createGroupRequest {
  cr_GroupName : string;
  cr_Description : string;
  cr_MaxMems : Z;  (* int16 *)
  cr_Visibility : string;
}.

Record updateGroupRequest := mk_updateGroupRequest {
  up_GroupName : option string;
  up_Description : option string;
  up_Visibility : option string;
}.

Record roleRequest := mk_roleRequest { rr_Role : string; rr_Permissions : list string }.

Record GroupPreview := mk_GroupPreview {
  gp_ID : uuid;
  gp_Name : string;
  gp_Description : string;
  gp_MaxMembers : Z;
  gp_MemberCount : Z;
  gp_Visibility : string;
  gp_AvatarURL : option string;
  gp_IsMember : option bool;
}.

Record GroupMember := mk_GroupMember {
  mem_UserID : uuid;
  mem_Name : string;
  mem_DisplayName : string;
  mem_Role : string;
  mem_Permissions : list string;
  mem_AvatarURL : option string;
}.

Record GroupDetail := mk_GroupDetail {
  gd_ID : uuid;
  gd_Name : string;
  gd_Description : string;
  gd_MaxMembers : Z;
  gd_MemberCount : Z;
  gd_Visibility : string;
  gd_IsMember : bool;
  gd_AvatarURL : option string;
  gd_Members : list GroupMember;
}.

Record GroupSummary := mk_GroupSummary {
  gsum_ID : uuid;
  gsum_Name : string;
  gsum_Description : string;
  gsum_MaxMembers : Z;
  gsum_Members : Z;
  gsum_Visibility : string;
  gsum_Role : string;
  gsum_Permissions : list string;
  gsum_AvatarURL : option string;
}.

Definition AvatarURL `{UuidLib} (id : uuid) (at_ : option time) : option string :=
  match at_ with
  | None => None
  | Some t => Some ("/api/chats/groups/" +:+ uuid_string id +:+ "/avatar?v=" +:+ pretty (UnixMilli t))%string
  end.

(** [Mods] maps each moderator to their permissions. *)
Record GroupSnapshot := mk_GroupSnapshot {
  gs_Name : string;
  gs_MaxMem : Z;
  gs_AdminID : uuid;
  gs_Public : bool;
  gs_Members : list uuid;
  gs_Mods : gmap uuid (list string);
}.

(** [GroupSnapshot.Role]: the role, [EmptyString] for someone not in the group. *)
Definition snapshot_Role (g : GroupSnapshot) (user : uuid) : string * list string :=
  if decide (user = gs_AdminID g) then (RoleAdmin, [])
  else match gs_Mods g !! user with
       | Some perms => (RoleModerator, perms)
       | None => if slices_contains (gs_Members g) user then (RoleMember, []) else (EmptyString, [])
       end.

(** The result of a member leaving. *)
Record Leaving := mk_Leaving {
  lv_NewAdmin : uuid;
  lv_Deleted : bool;
  lv_Members : list uuid;
}.

(** ** Validation (service.go) *)

Definition validVisibility (v : string) : bool :=
  bool_decide (v = Private) || bool_decide (v = Public).

(** The request with its defaults filled in, or the error. *)
Definition validateCreate (req : createGroupRequest) : result createGroupRequest :=
  let name := TrimSpace (cr_GroupName req) in
  let vis := if decide (cr_Visibility req = EmptyString) then Private else cr_Visibility req in
  let n := RuneCountInString name in
  if (n =? 0) || (n >? maxGroupNameLen) || (RuneCountInString (cr_Description req) >? maxDescLen)
     || negb (validVisibility vis)
  then Err ErrInvalidGroupReq
  else if (cr_MaxMems req <? 2) || (cr_MaxMems req >? maxGroupSize)
  then Err ErrInvalidGroupReq
  else Ok (mk_createGroupRequest name (cr_Description req) (cr_MaxMems req) vis).

(** ** Lemmas *)

Lemma role_names_distinct :
  RoleAdmin ≠ RoleModerator ∧ RoleAdmin ≠ RoleMember ∧ RoleModerator ≠ RoleMember.
Proof. done. Qed.

Lemma allowed_admin perms perm : allowed RoleAdmin perms perm = true.
Proof. reflexivity. Qed.

(** What only the admin may do, the permission [EmptyString] names. *)
Lemma allowed_admin_only role perms : allowed role perms EmptyString = true ↔ role = RoleAdmin.
Proof.
  unfold allowed. destruct (decide (role = RoleAdmin)) as [->|Hne]; [done|].
  destruct (decide (role = RoleModerator)); naive_solver.
Qed.

Lemma allowed_cases role perms perm :
  allowed role perms perm = true ↔
  role = RoleAdmin ∨ role = RoleModerator ∧ perm ≠ EmptyString ∧ perm ∈ perms.
Proof.
  unfold allowed. destruct (decide (role = RoleAdmin)) as [->|Hne]; [tauto|].
  destruct (decide (role = RoleModerator)) as [->|Hne'].
  - rewrite andb_true_iff, negb_true_iff, bool_decide_eq_false, slices_contains_true. tauto.
  - naive_solver.
Qed.

Lemma validateCreate_ok req req' :
  validateCreate req = Ok req' →
  2 <= cr_MaxMems req' <= maxGroupSize ∧ validVisibility (cr_Visibility req') = true ∧
  0 < RuneCountInString (cr_GroupName req') <= maxGroupNameLen ∧
  RuneCountInString (cr_Description req') <= maxDescLen.
Proof.
  unfold validateCreate. cbv zeta.
  set (name := TrimSpace (cr_GroupName req)).
  set (vis := if decide (cr_Visibility req = EmptyString) then Private else cr_Visibility req).
  destruct (orb (orb _ _) _) eqn:H1; [done|].
  match goal with |- (if ?b then _ else _) = _ → _ => destruct b eqn:H2 end; [done|].
  intros [= <-]; simpl.
  apply orb_false_iff in H1 as [[[H1 H3]%orb_false_iff H4]%orb_false_iff H5].
  apply orb_false_iff in H2 as [H2 H6]. apply negb_false_iff in H5.
  pose proof (Zle_0_nat (length (runes name))).
  unfold RuneCountInString, maxGroupSize, maxGroupNameLen, maxDescLen in *.
  repeat split; try done; lia.
Qed.

(** [cleanPermissions] keeps exactly the permissions asked for, each once. *)
Lemma cleanPermissions_ok inp out :
  cleanPermissions inp = Ok out →
  NoDup out ∧ (∀ p, p ∈ out ↔ p ∈ inp) ∧ (∀ p, p ∈ out → p ∈ AllPermissions).
Proof.
  unfold cleanPermissions. destruct (forallb _ inp) eqn:Hall; [|done]. intros Hout.
  assert (out = List.filter (λ p, slices_contains inp p) AllPermissions) as -> by congruence.
  assert (∀ p, p ∈ inp → p ∈ AllPermissions) as Hin.
  { intros p Hp. rewrite forallb_forall in Hall. apply slices_contains_true, Hall.
    by apply list_elem_of_In. }
  assert (∀ p, p ∈ List.filter (λ p, slices_contains inp p) AllPermissions ↔ p ∈ inp) as Heq.
  { intros p. rewrite list_elem_of_In, filter_In, <- list_elem_of_In, slices_contains_true.
    naive_solver. }
  split; [|split; [exact Heq|]].
  - apply NoDup_list_filter.
    apply (bool_decide_unpack _). vm_compute. exact I.
  - intros p Hp. by apply Hin, Heq.
Qed.
