(* ===== verification/Sql_Groups.v ===== *)
(** * Sql_Groups: the group statements (src/internal/database/groups.sql.go)

    One definition per generated query, named after it, with the constraints
    of src/sql/schema that the statement can break. *)

From S2P Require Import Prelude GoLib Db Groups_Model.

#[local] Open Scope Z_scope.

(** member_table: role and permissions checks, primary key, foreign keys. *)
Definition member_checks (m : MemberTable) : bool :=
  (bool_decide (m_Role m = RoleAdmin) || bool_decide (m_Role m = RoleModerator)
   || bool_decide (m_Role m = RoleMember))
  && forallb (λ p, slices_contains AllPermissions p) (m_Permissions m).

Definition insert_member (groupID memberID : uuid) (m : MemberTable) : M DB unit := λ d,
  if negb (member_checks m) then (Err (check_violation "member_table_role_check"), d)
  else match member_table d !! (groupID, memberID) with
  | Some _ => (Err (unique_violation "member_table_pkey"), d)
  | None =>
    match chat_groups d !! groupID, users d !! memberID with
    | Some _, Some _ => (Ok tt, with_member_table (<[(groupID, memberID) := m]> (member_table d)) d)
    | None, _ => (Err (foreign_key_violation "member_table_group_id_fkey"), d)
    | _, None => (Err (foreign_key_violation "member_table_member_id_fkey"), d)
    end
  end.

Definition AddMember (groupID memberID : uuid) (joinedAt : time) : M DB unit :=
  insert_member groupID memberID (mk_MemberTable joinedAt RoleMember []).

Definition CreateGroupLeaderRole (groupID memberID : uuid) (joinedAt : time) : M DB unit :=
  insert_member groupID memberID (mk_MemberTable joinedAt RoleAdmin []).

(** chat_groups: the columns' lengths, the visibility check and the unique
    invite code; [invite_code_taken] says whether another group has the code. *)
Definition invite_code_taken (id : uuid) (code : string) (d : DB) : bool :=
  existsb (λ kv, negb (bool_decide (kv.1 = id)) && bool_decide (g_InviteCode kv.2 = code))
    (map_to_list (chat_groups d)).

Definition group_columns_ok (name description visibility : string) : option error :=
  if negb (varchar_ok 30 name) || negb (varchar_ok 1000 description) then Some string_too_long
  else if negb (validVisibility visibility) then Some (check_violation "chat_groups_visibility_check")
  else None.

Definition CreateGroup (id : uuid) (name description : string) (maxMember : Z)
    (inviteCode visibility : string) : M DB unit := λ d,
  match group_columns_ok name description visibility with
  | Some e => (Err e, d)
  | None =>
    match chat_groups d !! id with
    | Some _ => (Err (unique_violation "chat_groups_pkey"), d)
    | None =>
      if invite_code_taken id inviteCode d
      then (Err (unique_violation "chat_groups_invite_code_key"), d)
      else (Ok tt, with_chat_groups (<[id := mk_ChatGroup name description maxMember (db_now d) (db_now d)
                                        1 inviteCode None visibility]> (chat_groups d)) d)
    end
  end.

Definition DeleteGroupAvatar (groupID : uuid) : M DB unit :=
  modify (λ d, with_group_avatars (delete groupID (group_avatars d)) d).

Definition DeleteMemFromGroup (groupID memberID : uuid) : M DB unit :=
  modify (λ d, with_member_table (delete (groupID, memberID) (member_table d)) d).

Definition GetGroupByInviteCode (code : string) : M DB (uuid * ChatGroup) := λ d,
  (one (select (λ _ g, bool_decide (g_InviteCode g = code)) (chat_groups d)), d).

Definition GetGroupInfoByID (id : uuid) : M DB ChatGroup := λ d,
  (match chat_groups d !! id with Some g => Ok g | None => Err ErrNoRows end, d).

(** Rows of one group. *)
Definition members_where (groupID : uuid) (p : uuid → MemberTable → bool) (d : DB) : list (uuid * MemberTable) :=
  (λ kv : uuid * uuid * MemberTable, (kv.1.2, kv.2)) <$>
    select (λ k m, bool_decide (k.1 = groupID) && p k.2 m) (member_table d).

Definition GetGroupLeader (groupID : uuid) : M DB uuid := λ d,
  (one (fst <$> members_where groupID (λ _ m, bool_decide (m_Role m = RoleAdmin)) d), d).

Definition GetInviteCode (id : uuid) : M DB string := λ d,
  (match chat_groups d !! id with Some g => Ok (g_InviteCode g) | None => Err ErrNoRows end, d).

Definition GetMember (groupID memberID : uuid) : M DB MemberTable := λ d,
  (match member_table d !! (groupID, memberID) with Some m => Ok m | None => Err ErrNoRows end, d).

Definition GetMemberListByID (groupID : uuid) : M DB (list uuid) := λ d,
  (Ok (fst <$> members_where groupID (λ _ _, true) d), d).

Definition is_member_row (groupID userID : uuid) (d : DB) : bool :=
  match member_table d !! (groupID, userID) with Some _ => true | None => false end.

Definition GroupAvatarForMember (groupID viewer : uuid) : M DB (list Z * time) := λ d,
  (match group_avatars d !! groupID, chat_groups d !! groupID with
   | Some a, Some g =>
     if bool_decide (g_Visibility g = Public) || is_member_row groupID viewer d
     then Ok a else Err ErrNoRows
   | _, _ => Err ErrNoRows
   end, d).

(** (m.role = 'admin') DESC, (m.role = 'moderator') DESC, m.joined_at *)
Definition role_rank (role : string) : Z :=
  if decide (role = RoleAdmin) then 0 else if decide (role = RoleModerator) then 1 else 2.

Definition ListGroupMembers (groupID : uuid) : M DB (list (uuid * User * MemberTable)) := λ d,
  (Ok (order_by
        (λ a b, (role_rank (m_Role a.2) <? role_rank (m_Role b.2)) ||
                ((role_rank (m_Role a.2) =? role_rank (m_Role b.2)) && (m_JoinedAt a.2 <=? m_JoinedAt b.2)))
        (omap (λ um : uuid * MemberTable,
                 match users d !! um.1 with Some u => Some (um.1, u, um.2) | None => None end)
              (members_where groupID (λ _ _, true) d))), d).

(** FOR UPDATE: the transaction that ran it holds the group's row until it ends. *)
Definition LockGroup (id : uuid) : M DB (Z * Z) := λ d,
  (match chat_groups d !! id with
   | Some g => Ok (g_MaxMember g, g_CurrentMember g)
   | None => Err ErrNoRows
   end, d).

Definition ModeratorsOf (groupID : uuid) : M DB (list (uuid * list string)) := λ d,
  (Ok ((λ um : uuid * MemberTable, (um.1, m_Permissions um.2)) <$>
        members_where groupID (λ _ m, bool_decide (m_Role m = RoleModerator)) d), d).

(** (role = 'moderator') DESC, joined_at, member_id *)
Definition next_admin_le (a b : uuid * MemberTable) : bool :=
  let ma := bool_decide (m_Role a.2 = RoleModerator) in
  let mb := bool_decide (m_Role b.2 = RoleModerator) in
  (ma && negb mb) ||
  (eqb ma mb && ((m_JoinedAt a.2 <? m_JoinedAt b.2) ||
                 ((m_JoinedAt a.2 =? m_JoinedAt b.2) && (a.1 <=? b.1)%N))).

Definition NextAdmin (groupID leaving : uuid) : M DB uuid := λ d,
  (one (fst <$> order_by next_admin_le
      (members_where groupID (λ u _, negb (bool_decide (u = leaving))) d)), d).

(** UPDATE chat_groups SET ... WHERE id = $1: nothing happens to no row. *)
Definition update_group (id : uuid) (f : ChatGroup → ChatGroup) (d : DB) : DB :=
  with_chat_groups (alter f id (chat_groups d)) d.

Definition SetGroupAvatarAt (id : uuid) (at_ : option time) : M DB unit :=
  modify (λ d, update_group id (λ g, mk_ChatGroup (g_Name g) (g_Description g) (g_MaxMember g)
    (g_CreatedAt g) (db_now d) (g_CurrentMember g) (g_InviteCode g) at_ (g_Visibility g)) d).

Definition SetGroupMemberCount (id : uuid) (currentMember : Z) : M DB unit :=
  modify (λ d, update_group id (λ g, mk_ChatGroup (g_Name g) (g_Description g) (g_MaxMember g)
    (g_CreatedAt g) (db_now d) currentMember (g_InviteCode g) (g_AvatarAt g) (g_Visibility g)) d).

Definition SetInviteCode (id : uuid) (inviteCode : string) : M DB unit := λ d,
  match chat_groups d !! id with
  | None => (Ok tt, d)
  | Some _ =>
    if invite_code_taken id inviteCode d
    then (Err (unique_violation "chat_groups_invite_code_key"), d)
    else (Ok tt, update_group id (λ g, mk_ChatGroup (g_Name g) (g_Description g) (g_MaxMember g)
            (g_CreatedAt g) (db_now d) (g_CurrentMember g) inviteCode (g_AvatarAt g) (g_Visibility g)) d)
  end.

Definition SetMemberRole (role : string) (permissions : list string) (groupID memberID : uuid) : M DB unit := λ d,
  match member_table d !! (groupID, memberID) with
  | None => (Ok tt, d)
  | Some m =>
    let m' := mk_MemberTable (m_JoinedAt m) role permissions in
    if negb (member_checks m') then (Err (check_violation "member_table_role_check"), d)
    else (Ok tt, with_member_table (<[(groupID, memberID) := m']> (member_table d)) d)
  end.

(** COALESCE(NULL, column) keeps the column. *)
Definition UpdateGroupInfo (name description visibility : option string) (id : uuid) : M DB ChatGroup := λ d,
  match chat_groups d !! id with
  | None => (Err ErrNoRows, d)
  | Some g =>
    let g' := mk_ChatGroup (default (g_Name g) name) (default (g_Description g) description) (g_MaxMember g)
      (g_CreatedAt g) (db_now d) (g_CurrentMember g) (g_InviteCode g) (g_AvatarAt g)
      (default (g_Visibility g) visibility) in
    match group_columns_ok (g_Name g') (g_Description g') (g_Visibility g') with
    | Some e => (Err e, d)
    | None => (Ok g', with_chat_groups (<[id := g']> (chat_groups d)) d)
    end
  end.

Definition UpsertGroupAvatar (groupID : uuid) (image : list Z) (at_ : time) : M DB unit := λ d,
  if 262144 <? Z.of_nat (length image) then (Err (check_violation "group_avatars_image_check"), d)
  else match chat_groups d !! groupID with
  | None => (Err (foreign_key_violation "group_avatars_group_id_fkey"), d)
  | Some _ => (Ok tt, with_group_avatars (<[groupID := (image, at_)]> (group_avatars d)) d)
  end.

(** DELETE FROM chat_groups (accounts.sql.go), with what the schema cascades to:
    the group's members, picture, messages, their reactions and read markers. *)
Definition DeleteGroup (id : uuid) : M DB unit := modify (λ d,
  let gone (m : uuid) := match groupmessage d !! m with
                         | Some g => bool_decide (gm_GroupID g = Some id) | None => false end in
  with_chat_groups (delete id (chat_groups d))
  (with_member_table (filter (λ kv, kv.1.1 ≠ id) (member_table d))
  (with_group_avatars (delete id (group_avatars d))
  (with_groupmessage (filter (λ kv, gm_GroupID kv.2 ≠ Some id) (groupmessage d))
  (with_group_message_reactions (filter (λ kv, gone kv.1.1 = false) (group_message_reactions d))
  (with_group_reads (filter (λ kv, kv.1.1 ≠ id ∧ gone (gr_MessageID kv.2) = false) (group_reads d)) d)))))).

(** ** Reading members *)

Lemma elem_of_members_where groupID p d u m :
  (u, m) ∈ members_where groupID p d ↔
  member_table d !! (groupID, u) = Some m ∧ p u m = true.
Proof.
  unfold members_where. rewrite list_elem_of_fmap. split.
  - intros ([[g' u'] m'] & [= -> ->] & Hin). apply elem_of_select in Hin as [Hl Hp].
    apply andb_true_iff in Hp as [Hg%bool_decide_eq_true Hp]. simpl in *. by subst.
  - intros [Hl Hp]. exists ((groupID, u), m). split; [done|].
    apply elem_of_select. simpl. rewrite bool_decide_true by done. done.
Qed.

Lemma elem_of_member_ids groupID p d u :
  u ∈ (members_where groupID p d).*1 ↔
  ∃ m, member_table d !! (groupID, u) = Some m ∧ p u m = true.
Proof.
  rewrite list_elem_of_fmap. split.
  - intros ([u' m] & -> & Hin). apply elem_of_members_where in Hin. eauto.
  - intros (m & Hm). exists (u, m). split; [done|]. by apply elem_of_members_where.
Qed.

Lemma next_admin_le_total a b : next_admin_le a b = true ∨ next_admin_le b a = true.
Proof.
  unfold next_admin_le. repeat case_bool_decide; simpl; try tauto;
    destruct (Z.ltb_spec (m_JoinedAt a.2) (m_JoinedAt b.2)), (Z.eqb_spec (m_JoinedAt a.2) (m_JoinedAt b.2)),
      (Z.ltb_spec (m_JoinedAt b.2) (m_JoinedAt a.2)), (Z.eqb_spec (m_JoinedAt b.2) (m_JoinedAt a.2)),
      (N.leb_spec a.1 b.1), (N.leb_spec b.1 a.1); simpl; tauto || lia.
Qed.

Lemma next_admin_le_trans a b c :
  next_admin_le a b = true → next_admin_le b c = true → next_admin_le a c = true.
Proof.
  unfold next_admin_le. repeat case_bool_decide; simpl; intros Hab Hbc; simplify_eq/=; try lia;
    rewrite orb_true_iff, andb_true_iff, Z.ltb_lt, Z.eqb_eq, N.leb_le in *; lia.
Qed.
