(* ===== verification/Friends_Model.v ===== *)
(** * Friends_Model: friend lists and requests (src/internal/friends/model.go) *)

From S2P Require Import Prelude Types.

Definition ErrSelfRequest : error := ErrNew "friends" "cannot send a friend request to yourself".
Definition ErrRequestExists : error := ErrNew "friends" "a pending request already exists between these users".
Definition ErrAlreadyFriends : error := ErrNew "friends" "already friends".
Definition ErrNotFound : error := ErrNew "friends" "friend request not found".
Definition ErrUnknownUser : error := ErrNew "friends" "user does not exist".
Definition ErrNotFriends : error := ErrNew "friends" "you are not friends with this user".
Definition ErrSelfBlock : error := ErrNew "friends" "cannot block yourself".
Definition ErrYouBlocked : error := ErrNew "friends" "you blocked this user; unblock them first".

Record BlockedUser := mk_BlockedUser {
  bu_UserID : uuid;
  bu_Name : string;
  bu_CreatedAt : time;
}.

Record FriendMetaData := mk_FriendMetaData {
  fmd_UserID : uuid;
  fmd_Name : string;
  fmd_DisplayName : string;
  fmd_AvatarURL : option string;
}.

(** Everything cached about one user's relationships; the two maps go from
    request id to the other user. *)
Record Snapshot := mk_Snapshot {
  sn_Friends : list FriendMetaData;
  sn_Incoming : gmap uuid FriendMetaData;
  sn_Outgoing : gmap uuid FriendMetaData;
}.
