(* ===== verification/Sql_Friends.v ===== *)
(** * Sql_Friends: the friendship statements (src/internal/database/friends.sql.go)

    Friend requests, friendships and blocks, with the constraints of
    src/sql/schema 010, 019 and 029. *)

From S2P Require Import Prelude GoLib Db.

#[local] Open Scope Z_scope.

(** The order of text in the database (its collation). *)
Class Collation := { name_le : string → string → bool }.

Definition is_confirm (r : UserRelationship) : bool := bool_decide (rel_Status r = "confirm").
Definition is_pending (r : UserRelationship) : bool := bool_decide (rel_Status r = "pending").

(** LEAST and GREATEST of the two ids: the pair whichever way the row goes. *)
Definition same_pair (r : UserRelationship) (a b : uuid) : bool :=
  bool_decide (N.min (rel_UserID r) (rel_OtheruserID r) = N.min a b) &&
  bool_decide (N.max (rel_UserID r) (rel_OtheruserID r) = N.max a b).

(** The rows of a pair. *)
Definition pair_rows (a b : uuid) (d : DB) : list (uuid * UserRelationship) :=
  select (λ _ r, same_pair r a b) (user_relationships d).

Definition set_rel (id : uuid) (r : UserRelationship) (d : DB) : DB :=
  with_user_relationships (<[id := r]> (user_relationships d)) d.
Definition del_rel (id : uuid) (d : DB) : DB :=
  with_user_relationships (delete id (user_relationships d)) d.

(** DELETE or UPDATE ... WHERE id = $1 AND ...: the row, if it qualifies. *)
Definition request_row (id : uuid) (p : UserRelationship → bool) (d : DB) : option UserRelationship :=
  match user_relationships d !! id with
  | Some r => if p r then Some r else None
  | None => None
  end.

Definition AcceptFriendRequest (id otheruserID : uuid) : M DB uuid := λ d,
  match request_row id (λ r, bool_decide (rel_OtheruserID r = otheruserID) && is_pending r) d with
  | Some r => (Ok (rel_UserID r),
      set_rel id (mk_UserRelationship (rel_UserID r) (rel_OtheruserID r) "confirm" (rel_CreatedAt r) (db_now d)) d)
  | None => (Err ErrNoRows, d)
  end.

Definition BlockBetween (a b : uuid) : M DB (bool * bool) := λ d,
  (Ok (bool_decide (is_Some (user_blocks d !! (a, b))), bool_decide (is_Some (user_blocks d !! (b, a)))), d).

(** INSERT ... ON CONFLICT DO NOTHING and DELETE in one statement; the
    constraints of the insert make the whole statement fail. *)
Definition BlockUser (blocker blocked : uuid) (at_ : time) : M DB bool := λ d,
  if decide (blocker = blocked) then (Err (check_violation "user_blocks_check"), d)
  else match user_blocks d !! (blocker, blocked), users d !! blocker, users d !! blocked with
  | None, None, _ => (Err (foreign_key_violation "user_blocks_blocker_id_fkey"), d)
  | None, _, None => (Err (foreign_key_violation "user_blocks_blocked_id_fkey"), d)
  | old, _, _ =>
    let blocks := match old with
                  | Some _ => user_blocks d
                  | None => <[(blocker, blocked) := at_]> (user_blocks d)
                  end in
    (Ok (existsb (λ kv : uuid * UserRelationship, is_confirm kv.2) (pair_rows blocker blocked d)),
     with_user_blocks blocks
       (with_user_relationships
         (filter (λ kv, same_pair kv.2 blocker blocked = false) (user_relationships d)) d))
  end.

Definition CancelFriendRequest (id userID : uuid) : M DB uuid := λ d,
  match request_row id (λ r, bool_decide (rel_UserID r = userID) && is_pending r) d with
  | Some r => (Ok (rel_OtheruserID r), del_rel id d)
  | None => (Err ErrNoRows, d)
  end.

(** The check (019) comes before the unique indexes, the foreign keys last. *)
Definition CreateFriendRequest (id userID otheruserID : uuid) : M DB unit := λ d,
  if decide (userID = otheruserID) then (Err (check_violation "user_relationships_not_self"), d)
  else match user_relationships d !! id with
  | Some _ => (Err (unique_violation "user_relationships_pkey"), d)
  | None =>
    match pair_rows userID otheruserID d with
    | _ :: _ => (Err (unique_violation "user_relationships_pair_key"), d)
    | [] =>
      match users d !! userID, users d !! otheruserID with
      | Some _, Some _ =>
        (Ok tt, set_rel id (mk_UserRelationship userID otheruserID "pending" (db_now d) (db_now d)) d)
      | None, _ => (Err (foreign_key_violation "user_relationships_user_id_fkey"), d)
      | _, None => (Err (foreign_key_violation "user_relationships_otheruser_id_fkey"), d)
      end
    end
  end.

Definition DenyFriendRequest (id otheruserID : uuid) : M DB uuid := λ d,
  match request_row id (λ r, bool_decide (rel_OtheruserID r = otheruserID) && is_pending r) d with
  | Some r => (Ok (rel_UserID r), del_rel id d)
  | None => (Err ErrNoRows, d)
  end.

(** JOIN users: the rows whose user exists. *)
Definition join_user {A} (id : uuid) (f : User → A) (d : DB) : option A := f <$> users d !! id.

Definition ListBlocked (blocker : uuid) : M DB (list (uuid * string * time)) := λ d,
  (Ok (order_by (λ a b, b.2 <=? a.2)
     (omap (λ kv : uuid * uuid * time, join_user kv.1.2 (λ u, (kv.1.2, u_name u, kv.2)) d)
        (select (λ k _, bool_decide (k.1 = blocker)) (user_blocks d)))), d).

Definition friends_of (me : uuid) (d : DB) (u : uuid) : bool :=
  existsb (λ kv : uuid * UserRelationship, is_confirm kv.2 &&
      ((bool_decide (rel_UserID kv.2 = me) && bool_decide (rel_OtheruserID kv.2 = u)) ||
       (bool_decide (rel_OtheruserID kv.2 = me) && bool_decide (rel_UserID kv.2 = u))))
    (map_to_list (user_relationships d)).

Definition ListFriends `{Collation} (userID : uuid) : M DB (list (uuid * User)) := λ d,
  (Ok (order_by (λ a b, name_le (u_name a.2) (u_name b.2))
     (select (λ u _, friends_of userID d u) (users d))), d).

Definition ListIncomingFriendRequests (userID : uuid) : M DB (list (uuid * (uuid * User))) := λ d,
  (Ok (omap (λ kv : uuid * UserRelationship, join_user (rel_UserID kv.2) (λ u, (kv.1, (rel_UserID kv.2, u))) d)
     (order_by (λ a b, rel_CreatedAt a.2 <=? rel_CreatedAt b.2)
        (select (λ _ r, bool_decide (rel_OtheruserID r = userID) && is_pending r) (user_relationships d)))), d).

Definition ListOutgoingFriendRequests (userID : uuid) : M DB (list (uuid * (uuid * User))) := λ d,
  (Ok (omap (λ kv : uuid * UserRelationship, join_user (rel_OtheruserID kv.2) (λ u, (kv.1, (rel_OtheruserID kv.2, u))) d)
     (order_by (λ a b, rel_CreatedAt a.2 <=? rel_CreatedAt b.2)
        (select (λ _ r, bool_decide (rel_UserID r = userID) && is_pending r) (user_relationships d)))), d).

Definition PairStatus (a b : uuid) : M DB string := λ d,
  (one ((λ kv : uuid * UserRelationship, rel_Status kv.2) <$> pair_rows a b d), d).

Definition UnblockUser (blocker blocked : uuid) : M DB unit :=
  modify (λ d, with_user_blocks (delete (blocker, blocked) (user_blocks d)) d).

Definition Unfriend (a b : uuid) : M DB uuid := λ d,
  match select (λ _ r, is_confirm r && same_pair r a b) (user_relationships d) with
  | (id, _) :: _ =>
    (Ok id, with_user_relationships
       (filter (λ kv, is_confirm kv.2 && same_pair kv.2 a b = false) (user_relationships d)) d)
  | [] => (Err ErrNoRows, d)
  end.

(** ** Pairs *)

Lemma same_pair_iff r a b :
  same_pair r a b = true ↔
  (rel_UserID r = a ∧ rel_OtheruserID r = b) ∨ (rel_UserID r = b ∧ rel_OtheruserID r = a).
Proof. unfold same_pair. rewrite andb_true_iff, !bool_decide_eq_true. lia. Qed.

Lemma same_pair_sym r a b : same_pair r a b = same_pair r b a.
Proof. unfold same_pair. by rewrite (N.min_comm a b), (N.max_comm a b). Qed.

Lemma pair_rows_sym a b d : pair_rows a b d = pair_rows b a d.
Proof. unfold pair_rows, select. apply List.filter_ext. intros [k r]. apply same_pair_sym. Qed.

Lemma elem_of_pair_rows a b d id r :
  (id, r) ∈ pair_rows a b d ↔ user_relationships d !! id = Some r ∧ same_pair r a b = true.
Proof. unfold pair_rows. by rewrite elem_of_select. Qed.

Lemma friends_of_iff me d u :
  friends_of me d u = true ↔
  ∃ id r, user_relationships d !! id = Some r ∧ is_confirm r = true ∧ same_pair r me u = true.
Proof.
  unfold friends_of. rewrite existsb_exists. setoid_rewrite same_pair_iff. split.
  - intros ([id r] & Hin & H). apply list_elem_of_In, elem_of_map_to_list in Hin. exists id, r.
    rewrite andb_true_iff, orb_true_iff, !andb_true_iff, !bool_decide_eq_true in H. simpl in H. tauto.
  - intros (id & r & Hr & H). exists (id, r). rewrite <- list_elem_of_In, elem_of_map_to_list.
    rewrite andb_true_iff, orb_true_iff, !andb_true_iff, !bool_decide_eq_true. simpl. tauto.
Qed.
