(* ===== verification/Chat_Dedupe.v ===== *)
(** * Chat_Dedupe: one message per client id (src/internal/chat/dedupe.go)

    The table of recent sends, and the calls of [do] as a step relation in which
    any number of requests interleave between two critical sections of the mutex.
    Entries are pointers: [e] is an address of [d_heap], so that [forget] can
    compare [d.m[k] == e] and a waiter keeps its entry after it left the table. *)

From S2P Require Import Prelude.

#[local] Open Scope Z_scope.

Definition DedupeWindow : duration := 10 * minute.

(** [dedupeKey]: the sender and the id the client made. *)
Definition dedupeKey : Type := uuid * uuid.

(** [done] is closed once [id] and [err] are set. *)
Record dedupeEntry := mk_dedupeEntry { de_done : option (result uuid); de_at : time }.

Record dedupe := mk_dedupe {
  d_m : gmap dedupeKey nat;
  d_heap : gmap nat dedupeEntry;   (* every entry ever made *)
  d_next : nat;                    (* the next address *)
  d_lastGC : time;
  d_maxKeys : Z;
}.

(** [lastGC] is the zero time, long before any [now]. *)
Definition newDedupe (zero : time) : dedupe := mk_dedupe ∅ ∅ 0 zero 200000.

(** ** The critical sections *)

(** A finished entry older than the window. *)
Definition expired (now : time) (e : dedupeEntry) : bool := DedupeWindow <? now - de_at e.

Definition collectable (d : dedupe) (now : time) (a : nat) : bool :=
  match d_heap d !! a with
  | Some e => bool_decide (is_Some (de_done e)) && expired now e
  | None => false
  end.

Definition gc (now : time) (d : dedupe) : dedupe :=
  let m := if d_maxKeys d <? Z.of_nat (size (d_m d)) then ∅ else d_m d in
  if now - d_lastGC d <? minute
  then mk_dedupe m (d_heap d) (d_next d) (d_lastGC d) (d_maxKeys d)
  else mk_dedupe (filter (λ kv, collectable d now kv.2 = false) m) (d_heap d) (d_next d) now (d_maxKeys d).

(** From taking the mutex to releasing it: the call runs [send] for a new entry
    ([inl]), or waits for one ([inr]). *)
Definition enter (k : dedupeKey) (now : time) (d0 : dedupe) : (nat + nat) * dedupe :=
  let d := gc now d0 in
  let fresh := (inl (d_next d), mk_dedupe (<[k := d_next d]> (d_m d))
                  (<[d_next d := mk_dedupeEntry None now]> (d_heap d)) (S (d_next d)) (d_lastGC d) (d_maxKeys d)) in
  match d_m d !! k with
  | Some a =>
    match d_heap d !! a with
    | Some e => if expired now e then fresh else (inr a, d)
    | None => fresh
    end
  | None => fresh
  end.

(** [e.id, e.err = id, err; close(e.done)] *)
Definition finish (a : nat) (r : result uuid) (d : dedupe) : dedupe :=
  mk_dedupe (d_m d) (alter (λ e, mk_dedupeEntry (Some r) (de_at e)) a (d_heap d)) (d_next d) (d_lastGC d) (d_maxKeys d).

Definition forget (k : dedupeKey) (a : nat) (d : dedupe) : dedupe :=
  if decide (d_m d !! k = Some a)
  then mk_dedupe (delete k (d_m d)) (d_heap d) (d_next d) (d_lastGC d) (d_maxKeys d)
  else d.

(** The result an entry has, once [done] is closed. *)
Definition outcome (d : dedupe) (a : nat) : option (result uuid) := d_heap d !! a ≫= de_done.

(** ** Interleaved calls *)

(** Where a call of [do] for key [k] stands. *)
Inductive call : Type :=
  | Loop (k : dedupeKey)                         (* at the head of the loop *)
  | Sending (k : dedupeKey) (a : nat)            (* in [send()], for its entry *)
  | Failed (k : dedupeKey) (a : nat) (e : error) (* before [d.forget] *)
  | Waiting (k : dedupeKey) (a : nat)            (* in the select *)
  | Returned (k : dedupeKey) (r : result uuid).

(** [x_sent] records the sends that succeeded: key, when its entry was made,
    and the message. *)
Record calls := mk_calls {
  x_d : dedupe;
  x_now : time;
  x_calls : gmap nat call;
  x_sent : list (dedupeKey * time * uuid);
}.

Definition set_call (t : nat) (c : call) (x : calls) (d : dedupe) : calls :=
  mk_calls d (x_now x) (<[t := c]> (x_calls x)) (x_sent x).

(** [roomy]: the table is within [maxKeys], so [gc] does not clear it. *)
Definition roomy (d : dedupe) : Prop := Z.of_nat (size (d_m d)) ≤ d_maxKeys d.

Inductive xstep (x : calls) : calls → Prop :=
  | x_tick now : x_now x ≤ now → xstep x (mk_calls (x_d x) now (x_calls x) (x_sent x))
  | x_call t k : x_calls x !! t = None → xstep x (set_call t (Loop k) x (x_d x))
  | x_enter t k : x_calls x !! t = Some (Loop k) → roomy (x_d x) →
      xstep x (match enter k (x_now x) (x_d x) with
               | (inl a, d) => set_call t (Sending k a) x d
               | (inr a, d) => set_call t (Waiting k a) x d
               end)
  | x_send t k a id at_ : x_calls x !! t = Some (Sending k a) → de_at <$> d_heap (x_d x) !! a = Some at_ →
      xstep x (mk_calls (finish a (Ok id) (x_d x)) (x_now x) (<[t := Returned k (Ok id)]> (x_calls x))
                 (x_sent x ++ [(k, at_, id)]))
  | x_fail t k a e : x_calls x !! t = Some (Sending k a) →
      xstep x (set_call t (Failed k a e) x (finish a (Err e) (x_d x)))
  | x_forget t k a e : x_calls x !! t = Some (Failed k a e) →
      xstep x (set_call t (Returned k (Err e)) x (forget k a (x_d x)))
  | x_wake t k a id : x_calls x !! t = Some (Waiting k a) → outcome (x_d x) a = Some (Ok id) →
      xstep x (set_call t (Returned k (Ok id)) x (x_d x))
  | x_retry t k a e : x_calls x !! t = Some (Waiting k a) → outcome (x_d x) a = Some (Err e) →
      xstep x (set_call t (Loop k) x (x_d x))
  | x_cancel t k a e : x_calls x !! t = Some (Waiting k a) →
      xstep x (set_call t (Returned k (Err e)) x (x_d x)).

(** ** The table's invariant

    [own] says which key each entry was made for.  An entry is [dead] once its
    send failed. *)

Definition dead (e : dedupeEntry) : Prop := ∃ err, de_done e = Some (Err err).

Record table_ok (own : gmap nat dedupeKey) (now : time) (d : dedupe) : Prop := {
  t_next a : (d_next d ≤ a)%nat → d_heap d !! a = None;
  t_own a e : d_heap d !! a = Some e → is_Some (own !! a) ∧ de_at e ≤ now;
  t_map k a : d_m d !! k = Some a → own !! a = Some k ∧ is_Some (d_heap d !! a);
  (** an entry still in its window that has not failed is the one of its key *)
  t_live k a e : own !! a = Some k → d_heap d !! a = Some e → ¬ dead e → now - de_at e ≤ DedupeWindow →
    d_m d !! k = Some a;
  t_apart k a b ea eb : own !! a = Some k → own !! b = Some k → a ≠ b →
    d_heap d !! a = Some ea → d_heap d !! b = Some eb → ¬ dead ea → ¬ dead eb →
    DedupeWindow < Z.abs (de_at ea - de_at eb);
}.

Lemma gc_frame now d :
  d_heap (gc now d) = d_heap d ∧ d_next (gc now d) = d_next d ∧ d_maxKeys (gc now d) = d_maxKeys d.
Proof. unfold gc. by destruct (_ <? minute). Qed.

Lemma gc_shrinks now d k a : d_m (gc now d) !! k = Some a → d_m d !! k = Some a.
Proof.
  unfold gc. destruct (d_maxKeys d <? _), (_ <? minute); simpl; rewrite ?map_lookup_filter_Some; naive_solver.
Qed.

Lemma gc_keeps now d k a :
  roomy d → d_m d !! k = Some a → collectable d now a = false → d_m (gc now d) !! k = Some a.
Proof.
  intros Hroom Hk Hc. unfold gc, roomy in *.
  rewrite (proj2 (Z.ltb_ge (d_maxKeys d) _) Hroom).
  destruct (_ <? minute); simpl; [done|]. by apply map_lookup_filter_Some.
Qed.

Lemma expired_true now e : expired now e = true ↔ DedupeWindow < now - de_at e.
Proof. apply Z.ltb_lt. Qed.
Lemma expired_false now e : expired now e = false ↔ now - de_at e ≤ DedupeWindow.
Proof. apply Z.ltb_ge. Qed.

Lemma table_ok_gc own now d : roomy d → table_ok own now d → table_ok own now (gc now d).
Proof.
  intros Hroom [Hn Ho Hm Hl Ha]. destruct (gc_frame now d) as (Hh & Hx & _).
  split; rewrite ?Hh, ?Hx; [exact Hn|exact Ho| | |exact Ha].
  - intros k a H%gc_shrinks. by apply Hm.
  - intros k a e Hk He Hd Hw. apply gc_keeps; [done|by eapply Hl|].
    unfold collectable. rewrite He, (proj2 (expired_false _ _) Hw). apply andb_false_r.
Qed.

(** A new entry for a key whose entry, if any, is out of its window. *)
Lemma table_ok_fresh own now d k :
  table_ok own now d →
  (∀ a e, d_m d !! k = Some a → d_heap d !! a = Some e → DedupeWindow < now - de_at e) →
  table_ok (<[d_next d := k]> own) now
    (mk_dedupe (<[k := d_next d]> (d_m d)) (<[d_next d := mk_dedupeEntry None now]> (d_heap d))
       (S (d_next d)) (d_lastGC d) (d_maxKeys d)).
Proof.
  intros [Hn Ho Hm Hl Ha] Hout.
  assert (∀ a e, d_heap d !! a = Some e → a ≠ d_next d) as Hold
    by (intros a e He ->; rewrite Hn in He; [done|lia]).
  (* what is left of the entries of k that did not fail is out of the window *)
  assert (∀ a e, own !! a = Some k → d_heap d !! a = Some e → ¬ dead e → DedupeWindow < now - de_at e) as Hgone.
  { intros a e Hk He Hd. destruct (decide (DedupeWindow < now - de_at e)) as [|Hw]; [done|].
    eapply Hout; [eapply Hl|]; eauto. lia. }
  assert (0 ≤ DedupeWindow) as Hpos by (vm_compute; done).
  split; simpl.
  - intros a Hge. rewrite lookup_insert_ne by lia. apply Hn. lia.
  - intros a e. rewrite !lookup_insert_Some. intros [[<- <-]|[Hne He]]; simpl.
    + split; [|lia]. rewrite lookup_insert_eq. by eexists.
    + rewrite lookup_insert_ne by done. by apply Ho.
  - intros k' a. rewrite lookup_insert_Some. intros [[<- <-]|[Hne Hk']].
    + rewrite !lookup_insert_eq. eauto.
    + destruct (Hm _ _ Hk') as [Hown [e He]]. pose proof (Hold _ _ He).
      rewrite !lookup_insert_ne by congruence. eauto.
  - intros k' a e. rewrite !lookup_insert_Some. intros Hown [[Ha' He]|[Hne He]] Hd Hw.
    + destruct Hown as [[_ Hk']|[? _]]; [left; by subst|by subst].
    + destruct Hown as [[? _]|[_ Hown]]; [by subst|]. right. split.
      * intros ->. specialize (Hgone _ _ Hown He Hd). lia.
      * by eapply Hl.
  - intros k' a b ea eb. rewrite !lookup_insert_Some.
    intros [[<- ->]|[Hna Hka]] [[<- ?]|[Hnb Hkb]] Hab [[? <-]|[? Hea]] [[? <-]|[? Heb]] Hda Hdb;
      try congruence; simpl in *.
    + specialize (Hgone _ _ Hkb Heb Hdb). pose proof (proj2 (Ho _ _ Heb)). lia.
    + subst k'. specialize (Hgone _ _ Hka Hea Hda). pose proof (proj2 (Ho _ _ Hea)). lia.
    + by eapply (Ha k' a b).
Qed.

Lemma table_ok_enter own now d k r d' :
  roomy d → table_ok own now d → enter k now d = (r, d') →
  match r with
  | inl a => a = d_next d ∧ d_heap d' !! a = Some (mk_dedupeEntry None now) ∧
             (∀ b, b ≠ a → d_heap d' !! b = d_heap d !! b) ∧ table_ok (<[a := k]> own) now d'
  | inr a => own !! a = Some k ∧ is_Some (d_heap d !! a) ∧ d_heap d' = d_heap d ∧ table_ok own now d'
  end.
Proof.
  intros Hroom Hok. apply (table_ok_gc _ _ _ Hroom) in Hok. destruct (gc_frame now d) as (Hh & Hx & _).
  unfold enter. cbv zeta.
  assert (∀ a, a = d_next d → d_next (gc now d) = a) as Hn by (intros; congruence).
  assert (∀ b, b ≠ d_next d → <[d_next (gc now d):=mk_dedupeEntry None now]> (d_heap (gc now d)) !! b
            = d_heap d !! b) as Hothers
    by (intros b Hb; rewrite lookup_insert_ne by congruence; by rewrite Hh).
  destruct (d_m (gc now d) !! k) as [a|] eqn:Hk.
  - destruct (d_heap (gc now d) !! a) as [e|] eqn:He.
    + destruct (expired now e) eqn:Hexp; intros [= <- <-].
      * split; [done|]. simpl. rewrite lookup_insert_eq, Hx in *. split; [done|]. split; [exact Hothers|].
        rewrite <- Hx. apply table_ok_fresh; [done|]. intros b e' Hb He'.
        rewrite Hk in Hb. simplify_eq. by apply expired_true.
      * split; [by eapply t_map|]. rewrite <- Hh, He. by split; [eexists|].
    + destruct (t_map _ _ _ Hok _ _ Hk) as [_ [? ?]]. congruence.
  - intros [= <- <-]. split; [done|]. simpl. rewrite lookup_insert_eq, Hx in *. split; [done|].
    split; [exact Hothers|]. rewrite <- Hx. apply table_ok_fresh; [done|]. intros b e' Hb. congruence.
Qed.

Lemma table_ok_tick own now now' d : now ≤ now' → table_ok own now d → table_ok own now' d.
Proof.
  intros Hle [Hn Ho Hm Hl Ha]. split; [done| |done| |done].
  - intros a e He. destruct (Ho _ _ He). split; [done|lia].
  - intros k a e Hk He Hd Hw. eapply Hl; eauto. lia.
Qed.

Lemma table_ok_finish own now d a r e0 :
  d_heap d !! a = Some e0 → de_done e0 = None → table_ok own now d → table_ok own now (finish a r d).
Proof.
  intros Ha0 Hd0 [Hn Ho Hm Hl Ha].
  assert (∀ b e, d_heap (finish a r d) !! b = Some e →
            ∃ e', d_heap d !! b = Some e' ∧ de_at e = de_at e' ∧ (¬ dead e → ¬ dead e')) as Hback.
  { simpl. intros b e. rewrite lookup_alter_Some. intros [[<- (e' & He' & ->)]|[Hne He]]; [|eauto].
    exists e'. simplify_eq. repeat split; [done|]. intros _ [err ?]. congruence. }
  split; simpl.
  - intros b Hb. rewrite lookup_alter_None. by apply Hn.
  - intros b e He. destruct (Hback _ _ He) as (e' & He' & -> & _). by eapply Ho.
  - intros k b Hk. destruct (Hm _ _ Hk) as [Hown Hsome]. split; [done|].
    destruct (decide (a = b)) as [<-|Hne]; [rewrite lookup_alter_eq|by rewrite lookup_alter_ne].
    destruct Hsome as [? ->]. by eexists.
  - intros k b e Hk He Hd Hw. destruct (Hback _ _ He) as (e' & He' & Hat & Hdead).
    rewrite Hat in Hw. by eapply Hl; eauto.
  - intros k b c eb ec Hb Hc Hne Heb Hec Hdb Hdc.
    destruct (Hback _ _ Heb) as (eb' & ? & -> & ?), (Hback _ _ Hec) as (ec' & ? & -> & ?).
    by eapply (Ha k b c); eauto.
Qed.

Lemma table_ok_forget own now d k a e :
  own !! a = Some k → d_heap d !! a = Some e → dead e → table_ok own now d → table_ok own now (forget k a d).
Proof.
  intros Hown He Hdead [Hn Ho Hm Hl Ha]. unfold forget. destruct (decide (d_m d !! k = Some a)) as [Hk|]; [|by split].
  split; simpl; [done|done| | |done].
  - intros k' b [_ Hb]%lookup_delete_Some. by apply Hm.
  - intros k' b e' Hb He' Hd Hw. rewrite lookup_delete_Some. split; [|by eapply Hl].
    intros <-. assert (b = a) as -> by (specialize (Hl _ _ _ Hb He' Hd Hw); congruence). congruence.
Qed.

Lemma forget_heap k a d : d_heap (forget k a d) = d_heap d.
Proof. unfold forget. by destruct (decide _). Qed.

(** ** The calls' invariant *)

Definition call_ok (own : gmap nat dedupeKey) (x : calls) (c : call) : Prop :=
  match c with
  | Loop _ => True
  | Sending k a => own !! a = Some k ∧ ∃ at_, d_heap (x_d x) !! a = Some (mk_dedupeEntry None at_)
  | Failed k a _ => own !! a = Some k ∧ ∃ e, d_heap (x_d x) !! a = Some e ∧ dead e
  | Waiting k a => own !! a = Some k ∧ is_Some (d_heap (x_d x) !! a)
  | Returned k (Ok id) => ∃ at_, (k, at_, id) ∈ x_sent x
  | Returned k (Err _) => True
  end.

(** The sends that succeeded, pair by pair: the same key only after the window. *)
Definition sent_apart (sent : list (dedupeKey * time * uuid)) : Prop :=
  ∀ i j k t1 t2 id1 id2, i ≠ j → sent !! i = Some (k, t1, id1) → sent !! j = Some (k, t2, id2) →
    DedupeWindow < Z.abs (t1 - t2).

Record calls_ok (own : gmap nat dedupeKey) (x : calls) : Prop := {
  c_table : table_ok own (x_now x) (x_d x);
  c_calls t c : x_calls x !! t = Some c → call_ok own x c;
  c_unique t1 t2 k1 k2 a : x_calls x !! t1 = Some (Sending k1 a) → x_calls x !! t2 = Some (Sending k2 a) → t1 = t2;
  c_sent k at_ id : (k, at_, id) ∈ x_sent x ↔
    ∃ a, own !! a = Some k ∧ d_heap (x_d x) !! a = Some (mk_dedupeEntry (Some (Ok id)) at_);
  c_apart : sent_apart (x_sent x);
}.

Lemma sent_apart_snoc sent k at_ id :
  sent_apart sent → (∀ t id', (k, t, id') ∈ sent → DedupeWindow < Z.abs (t - at_)) →
  sent_apart (sent ++ [(k, at_, id)]).
Proof.
  intros Hap Hnew i j k' t1 t2 id1 id2 Hne Hi Hj.
  apply lookup_app_Some in Hi as [Hi|[? Hi]], Hj as [Hj|[? Hj]].
  - by eapply Hap.
  - apply list_lookup_singleton_Some in Hj as [? Hj]. simplify_eq.
    apply Hnew with id1. by eapply list_elem_of_lookup_2.
  - apply list_lookup_singleton_Some in Hi as [? Hi]. simplify_eq.
    assert (DedupeWindow < Z.abs (t2 - t1)); [|lia]. apply Hnew with id2. by eapply list_elem_of_lookup_2.
  - apply list_lookup_singleton_Some in Hi as [Hi ?], Hj as [Hj ?]. lia.
Qed.

(** A step that only moves a call, the table's entries staying as they are. *)
Lemma calls_ok_move own x t c d :
  calls_ok own x → d_heap d = d_heap (x_d x) → table_ok own (x_now x) d →
  (∀ k a, c = Sending k a → x_calls x !! t = Some c) → call_ok own x c →
  calls_ok own (set_call t c x d).
Proof.
  intros [Ht Hc Hu Hs Ha] Hheap Hd Hnew Hok.
  assert (∀ c', call_ok own x c' → call_ok own (set_call t c x d) c') as Hsame
    by (intros c'; unfold call_ok, set_call; simpl; by rewrite Hheap).
  split; simpl; [done| | | |done].
  - intros t' c'. rewrite lookup_insert_Some. intros [[_ <-]|[_ H]]; eauto.
  - intros t1 t2 k1 k2 a H1 H2.
    assert (∀ t' k', <[t:=c]> (x_calls x) !! t' = Some (Sending k' a) →
              x_calls x !! t' = Some (Sending k' a)) as Hback.
    { intros t' k'. rewrite lookup_insert_Some. intros [[<- Hc']|[_ H]]; [|done]. rewrite <- Hc'. by eapply Hnew. }
    eauto.
  - intros. by rewrite Hheap.
Qed.

Lemma calls_ok_enter own x t k :
  calls_ok own x → x_calls x !! t = Some (Loop k) → roomy (x_d x) →
  ∃ own', calls_ok own' (match enter k (x_now x) (x_d x) with
                         | (inl a, d) => set_call t (Sending k a) x d
                         | (inr a, d) => set_call t (Waiting k a) x d
                         end).
Proof.
  intros Hok Ht Hroom. destruct (enter k (x_now x) (x_d x)) as [r d] eqn:Hent.
  pose proof (table_ok_enter _ _ _ _ _ _ Hroom (c_table _ _ Hok) Hent) as Htab.
  destruct r as [a|a].
  2: { destruct Htab as (Hown & Hsome & Hheap & Htab). exists own. by apply calls_ok_move. }
  destruct Htab as (Ha & Hnew & Hold & Htab). destruct Hok as [Ht0 Hc Hu Hs Hap].
  assert (∀ b, is_Some (d_heap (x_d x) !! b) → b ≠ a) as Hne.
  { intros b [e He] ->. rewrite (t_next _ _ _ Ht0) in He; [done|lia]. }
  assert (∀ c, call_ok own x c → call_ok (<[a:=k]> own) (set_call t (Sending k a) x d) c) as Hkeep.
  { intros [k'|k' b|k' b e|k' b|k' [id|e]]; simpl; try done;
      [intros (Ho & at_ & He)|intros (Ho & e' & He & ?)|intros (Ho & e & He)];
      (assert (b ≠ a) by (apply Hne; eauto)); rewrite lookup_insert_ne, Hold by done; eauto. }
  exists (<[a:=k]> own). split; simpl.
  - exact Htab.
  - intros t' c. rewrite lookup_insert_Some. intros [[_ <-]|[_ H]]; [|eauto].
    simpl. rewrite lookup_insert_eq. eauto.
  - intros t1 t2 k1 k2 b. rewrite !lookup_insert_Some.
    intros [[<- H1]|[_ H1]] [[<- H2]|[_ H2]]; [done| | |by eapply Hu].
    + injection H1 as _ <-. destruct (Hc _ _ H2) as (_ & at_ & He).
      by destruct (Hne _ (mk_is_Some _ _ He)).
    + injection H2 as _ <-. destruct (Hc _ _ H1) as (_ & at_ & He).
      by destruct (Hne _ (mk_is_Some _ _ He)).
  - intros k' at_ id. rewrite Hs. split; intros (b & Hb & He); exists b.
    + assert (b ≠ a) by (apply Hne; eauto). rewrite lookup_insert_ne, Hold by done. done.
    + destruct (decide (b = a)) as [->|]; [congruence|]. rewrite lookup_insert_ne in Hb by done. rewrite Hold in He by done. done.
  - done.
Qed.

(** [send] returns: the entry of the call gets its result. *)
Lemma calls_ok_finish own x t k a at_ r c sent :
  calls_ok own x → x_calls x !! t = Some (Sending k a) →
  d_heap (x_d x) !! a = Some (mk_dedupeEntry None at_) →
  c = match r with Ok id => Returned k (Ok id) | Err e => Failed k a e end →
  sent = match r with Ok id => x_sent x ++ [(k, at_, id)] | Err _ => x_sent x end →
  calls_ok own (mk_calls (finish a r (x_d x)) (x_now x) (<[t := c]> (x_calls x)) sent).
Proof.
  intros [Ht0 Hc Hu Hs Hap] Ht Hat -> ->.
  destruct (Hc _ _ Ht) as [Hown _].
  assert (∀ b, b ≠ a → d_heap (finish a r (x_d x)) !! b = d_heap (x_d x) !! b) as Hold
    by (intros; simpl; by rewrite lookup_alter_ne).
  assert (d_heap (finish a r (x_d x)) !! a = Some (mk_dedupeEntry (Some r) at_)) as Hnew
    by (simpl; by rewrite lookup_alter_eq, Hat).
  split; cbn [x_d x_now x_calls x_sent].
  - by eapply table_ok_finish.
  - intros t' c'. rewrite lookup_insert_Some. intros [[_ <-]|[Hne H]].
    + destruct r as [id|e]; simpl; [exists at_; set_solver|]. split; [done|]. rewrite lookup_alter_eq, Hat.
      eexists. split; [done|]. by eexists.
    + pose proof (Hc _ _ H) as H'.
      destruct c' as [k'|k' b|k' b e|k' b|k' [id|e]]; cbn [call_ok x_d x_sent] in *; try done.
      * destruct H' as (Ho & at' & He). rewrite Hold; [eauto|]. intros ->. by apply Hne, (Hu t t' k k' a).
      * destruct H' as (Ho & e' & He & Hd). rewrite Hold; [eauto|]. intros ->. destruct Hd as [? Hd]. by simplify_eq.
      * destruct H' as (Ho & He). split; [done|]. destruct (decide (b = a)) as [->|]; [rewrite Hnew; by eexists|].
        by rewrite Hold.
      * destruct H' as [at' H']. exists at'. destruct r; set_solver.
  - intros t1 t2 k1 k2 b. rewrite !lookup_insert_Some.
    intros [[? H1]|[? H1]] [[? H2]|[? H2]]; try (by destruct r); by eapply Hu.
  - intros k' at' id. transitivity ((k', at', id) ∈ x_sent x ∨ (r = Ok id ∧ k' = k ∧ at' = at_)).
    { destruct r as [id'|e]; [rewrite elem_of_app, list_elem_of_singleton|]; naive_solver. }
    rewrite Hs. split.
    + intros [(b & Hb & He)|(-> & -> & ->)]; [|eauto]. exists b. rewrite Hold; [done|]. intros ->. congruence.
    + intros (b & Hb & He). destruct (decide (b = a)) as [->|Hne]; [|rewrite Hold in He by done; eauto].
      rewrite Hnew in He. right. by simplify_eq.
  - destruct r as [id|e]; [|done]. apply sent_apart_snoc; [done|]. intros t' id' Hin.
    apply Hs in Hin as (b & Hb & He).
    assert (b ≠ a) as Hne by (intros ->; congruence).
    eapply (t_apart _ _ _ Ht0 k b a _ _ Hb Hown Hne He Hat); by intros [? ?].
Qed.

Lemma calls_ok_step own x x' : calls_ok own x → xstep x x' → ∃ own', calls_ok own' x'.
Proof.
  intros Hok Hstep. pose proof Hok as [Ht0 Hc Hu Hs Hap]. destruct Hstep.
  - exists own. split; try done. by eapply table_ok_tick.
  - exists own. by apply calls_ok_move.
  - by eapply calls_ok_enter.
  - destruct (Hc _ _ H) as (_ & at' & He). rewrite He in H0. simpl in H0. simplify_eq.
    exists own. by eapply calls_ok_finish.
  - destruct (Hc _ _ H) as (_ & at' & He). exists own. by eapply calls_ok_finish.
  - destruct (Hc _ _ H) as (Hown & e' & He & Hd). exists own.
    apply calls_ok_move; try done; [apply forget_heap|by eapply table_ok_forget].
  - destruct (Hc _ _ H) as (Hown & e' & He). exists own. apply calls_ok_move; try done.
    unfold outcome in H0. rewrite He in H0. destruct e' as [o at']; simpl in H0; subst o.
    exists at'. apply Hs. eauto.
  - exists own. by apply calls_ok_move.
  - exists own. by apply calls_ok_move.
Qed.

Definition start (zero now : time) : calls := mk_calls (newDedupe zero) now ∅ [].

Lemma calls_ok_start zero now : calls_ok ∅ (start zero now).
Proof.
  split; simpl; try done.
  intros k at_ id. split; [by intros ?%not_elem_of_nil|]. by intros (a & Ha & _).
Qed.

Lemma calls_ok_reachable zero now x : reachable xstep (start zero now) x → ∃ own, calls_ok own x.
Proof.
  apply (reachable_invariant xstep (λ x, ∃ own, calls_ok own x)); [eauto using calls_ok_start|].
  intros ? ? [own Hok] ?. by eapply calls_ok_step.
Qed.

(** ** What callers get *)

(** C21. However calls, retries and failures interleave, as long as the table
    never outgrows maxKeys: two successful sends of one (sender, client id) pair
    have entries made more than DedupeWindow apart, so a client that retries
    within the window creates one message; and every call that returns an id
    returns one that was really sent for its own key. *)
Theorem dedupe_sends_once (zero now : time) (x : calls) :
  reachable xstep (start zero now) x →
  sent_apart (x_sent x) ∧
  ∀ t k id, x_calls x !! t = Some (Returned k (Ok id)) → ∃ at_, (k, at_, id) ∈ x_sent x.
Proof.
  intros (own & Hok)%calls_ok_reachable. split; [apply (c_apart _ _ Hok)|].
  intros t k id Ht. exact (c_calls _ _ Hok _ _ Ht).
Qed.

(** A failed attempt is forgotten: the next call for the key runs [send]. *)
Lemma failed_attempt_is_retried k now now' a e d d1 :
  enter k now d = (inl a, d1) → ∃ b, (enter k now' (forget k a (finish a (Err e) d1))).1 = inl b.
Proof.
  intros Hent.
  assert (d_m d1 !! k = Some a) as Hk.
  { unfold enter in Hent. cbv zeta in Hent.
    destruct (d_m (gc now d) !! k); [destruct (d_heap _ !! _); [destruct (expired _ _)|]|];
      simplify_eq; apply lookup_insert_eq. }
  unfold forget. rewrite decide_True by done. unfold enter. cbv zeta.
  destruct (d_m (gc now' _) !! k) as [b|] eqn:Hb; [|by eexists].
  apply gc_shrinks in Hb. simpl in Hb. by rewrite lookup_delete_eq in Hb.
Qed.

(** Two devices send the same message at once: one runs [send], the other waits
    and gets the same id. *)
Definition demo_key : dedupeKey := (1%N, 9%N).
Definition both_called : calls :=
  let x := start (- 10 * minute) 0 in
  let x1 := set_call 1 (Loop demo_key) x (x_d x) in
  set_call 2 (Loop demo_key) x1 (x_d x1).
Definition one_sends : calls := set_call 1 (Sending demo_key 0%nat) both_called (enter demo_key 0 (x_d both_called)).2.
Definition one_waits : calls := set_call 2 (Waiting demo_key 0%nat) one_sends (enter demo_key 0 (x_d one_sends)).2.
Definition one_sent : calls :=
  mk_calls (finish 0 (Ok 7%N) (x_d one_waits)) 0 (<[1%nat := Returned demo_key (Ok 7%N)]> (x_calls one_waits))
    (x_sent one_waits ++ [(demo_key, 0, 7%N)]).
Definition twice : calls := set_call 2 (Returned demo_key (Ok 7%N)) one_sent (x_d one_sent).

Lemma twice_reachable : reachable xstep (start (- 10 * minute) 0) twice.
Proof.
  apply reach_step with one_sent; [|by apply (x_wake one_sent 2 demo_key 0%nat 7%N)].
  apply reach_step with one_waits; [|by apply (x_send one_waits 1 demo_key 0%nat 7%N 0)].
  apply reach_step with one_sends; [|by apply (x_enter one_sends 2 demo_key)].
  apply reach_step with both_called; [|by apply (x_enter both_called 1 demo_key)].
  eapply reach_step; [eapply reach_step; [apply reach_refl|by apply (x_call _ 1 demo_key)]|].
  by apply (x_call _ 2 demo_key).
Qed.

Lemma dedupe_sends_once_witness : ∃ at_, (demo_key, at_, 7%N) ∈ x_sent twice.
Proof.
  apply (proj2 (dedupe_sends_once _ _ _ twice_reachable) 2%nat). reflexivity.
Defined.
