(* ===== verification/World.v ===== *)
(** * World: what a request handler can touch

    The state of the handlers: PostgreSQL, the Redis caches, the clock, the
    sources of fresh ids and random bytes, and the log of what was sent to the
    websocket hub, the notifier and the queue.  Every call to a service is
    wrapped in [io], so it can fail. *)

From S2P Require Import Prelude Types Revoke Db Versioned Groups_Model Friends_Model Chat_Dedupe.

#[local] Open Scope Z_scope.

(** The payload of the chat.seen.update topic (src/internal/chat/model.go). *)
Record JobSeen := mk_JobSeen { js_ChatID : string; js_MsgID : uuid; js_SeenID : uuid }.

(** An object of the media bucket. *)
Record Object := mk_Object { ob_ContentType : string; ob_Data : list Z }.

(** What left the process. *)
Inductive effect : Type :=
  | Pushed (targets : list uuid) (ev : Event)   (* hub.WriteToUsers *)
  | Sent (to : Conn) (ev : Event)               (* hub.SendToConn *)
  | PushedExcept (user except : uuid) (ev : Event) (* hub.WriteToUserExcept *)
  | Closed (user : uuid)                        (* hub.Disconnect *)
  | Notified (j : Job)                          (* push.Notifier.Notify *)
  | Queued (topic : string) (j : JobSeen)       (* queue.Publisher.Publish *)
  | BrokeUp (a b : uuid)                        (* friends.OnBreak hooks *)
  | Mailed (m : Mail)                           (* mail.Sender.Send *)
  | Phoned (m : PushMessage)                    (* push.Sender.Send *)
  | Registered (user : uuid).                   (* hub.Register *)

Record World := mk_World {
  w_db : DB;
  w_groups : cache GroupSnapshot;         (* group:v2:{id} *)
  w_friends : cache Snapshot;             (* user:social:v2:{id} *)
  w_seen : gmap string string;            (* chat:seen:{chat}:{user} *)
  w_names : gmap uuid string;             (* user:{id}:handle *)
  w_banned : option (gset uuid * time);   (* bannedCache: ids and fetched *)
  w_dedupe : dedupe;                      (* chatService.dedupe *)
  w_revocations : revocations;            (* auth:revoked:{id}, and revoke.Store.recent *)
  w_store : gmap string Object;           (* the media bucket (R2), by key *)
  w_now : time;                           (* time.Now(), one instant per request *)
  w_ids : list uuid;                      (* what uuid.NewV7 and gen_random_uuid() return next *)
  w_rand : list (list Z);                 (* what rand.Read fills in next *)
  w_log : list effect;
  w_faults : list bool;
}.

Definition with_db (x : DB) (w : World) : World :=
  mk_World x (w_groups w) (w_friends w) (w_seen w) (w_names w) (w_banned w) (w_dedupe w) (w_revocations w)
    (w_store w) (w_now w) (w_ids w) (w_rand w) (w_log w) (w_faults w).
Definition with_groups (x : cache GroupSnapshot) (w : World) : World :=
  mk_World (w_db w) x (w_friends w) (w_seen w) (w_names w) (w_banned w) (w_dedupe w) (w_revocations w)
    (w_store w) (w_now w) (w_ids w) (w_rand w) (w_log w) (w_faults w).
Definition with_friends (x : cache Snapshot) (w : World) : World :=
  mk_World (w_db w) (w_groups w) x (w_seen w) (w_names w) (w_banned w) (w_dedupe w) (w_revocations w)
    (w_store w) (w_now w) (w_ids w) (w_rand w) (w_log w) (w_faults w).
Definition with_seen (x : gmap string string) (w : World) : World :=
  mk_World (w_db w) (w_groups w) (w_friends w) x (w_names w) (w_banned w) (w_dedupe w) (w_revocations w)
    (w_store w) (w_now w) (w_ids w) (w_rand w) (w_log w) (w_faults w).
Definition with_names (x : gmap uuid string) (w : World) : World :=
  mk_World (w_db w) (w_groups w) (w_friends w) (w_seen w) x (w_banned w) (w_dedupe w) (w_revocations w)
    (w_store w) (w_now w) (w_ids w) (w_rand w) (w_log w) (w_faults w).
Definition with_banned (x : option (gset uuid * time)) (w : World) : World :=
  mk_World (w_db w) (w_groups w) (w_friends w) (w_seen w) (w_names w) x (w_dedupe w) (w_revocations w)
    (w_store w) (w_now w) (w_ids w) (w_rand w) (w_log w) (w_faults w).
Definition with_dedupe (x : dedupe) (w : World) : World :=
  mk_World (w_db w) (w_groups w) (w_friends w) (w_seen w) (w_names w) (w_banned w) x (w_revocations w)
    (w_store w) (w_now w) (w_ids w) (w_rand w) (w_log w) (w_faults w).
Definition with_revocations (x : revocations) (w : World) : World :=
  mk_World (w_db w) (w_groups w) (w_friends w) (w_seen w) (w_names w) (w_banned w) (w_dedupe w) x (w_store w)
    (w_now w) (w_ids w) (w_rand w) (w_log w) (w_faults w).
Definition with_store (x : gmap string Object) (w : World) : World :=
  mk_World (w_db w) (w_groups w) (w_friends w) (w_seen w) (w_names w) (w_banned w) (w_dedupe w)
    (w_revocations w) x (w_now w) (w_ids w) (w_rand w) (w_log w) (w_faults w).
Definition with_now (x : time) (w : World) : World :=
  mk_World (w_db w) (w_groups w) (w_friends w) (w_seen w) (w_names w) (w_banned w) (w_dedupe w)
    (w_revocations w) (w_store w) x (w_ids w) (w_rand w) (w_log w) (w_faults w).
Definition with_ids (x : list uuid) (w : World) : World :=
  mk_World (w_db w) (w_groups w) (w_friends w) (w_seen w) (w_names w) (w_banned w) (w_dedupe w)
    (w_revocations w) (w_store w) (w_now w) x (w_rand w) (w_log w) (w_faults w).
Definition with_rand (x : list (list Z)) (w : World) : World :=
  mk_World (w_db w) (w_groups w) (w_friends w) (w_seen w) (w_names w) (w_banned w) (w_dedupe w)
    (w_revocations w) (w_store w) (w_now w) (w_ids w) x (w_log w) (w_faults w).
Definition with_log (x : list effect) (w : World) : World :=
  mk_World (w_db w) (w_groups w) (w_friends w) (w_seen w) (w_names w) (w_banned w) (w_dedupe w)
    (w_revocations w) (w_store w) (w_now w) (w_ids w) (w_rand w) x (w_faults w).
Definition with_faults (x : list bool) (w : World) : World :=
  mk_World (w_db w) (w_groups w) (w_friends w) (w_seen w) (w_names w) (w_banned w) (w_dedupe w)
    (w_revocations w) (w_store w) (w_now w) (w_ids w) (w_rand w) (w_log w) x.

#[export] Instance world_faulty : Faulty World := {| faults := w_faults; set_faults := with_faults |}.
#[export] Instance world_groups : HasCache World GroupSnapshot :=
  {| cache_of := w_groups; set_cache := with_groups |}.
#[export] Instance world_friends : HasCache World Snapshot :=
  {| cache_of := w_friends; set_cache := with_friends |}.

(** ** Calls *)

(** Runs a statement on the database component. *)
Definition on_db {A} (q : M DB A) : M World A := λ w,
  let '(r, d) := q (w_db w) in (r, with_db d w).

Definition query {A} (q : M DB A) : M World A := io (on_db q).

Definition Now : M World time := get w_now.

(** [pgtype.Timestamp{Time: time.Now().UTC(), Valid: true}] *)
Definition nowUTC : M World time := t ← Now; mret (pgTime t).

(** [uuid.NewV7]: fails when the system has no random bytes. *)
Definition NewV7 : M World uuid := λ w,
  match w_ids w with
  | id :: rest => (Ok id, with_ids rest w)
  | [] => (Err ErrInfra, w)
  end.

(** [rand.Read] into a buffer. *)
Definition rand_Read : M World (list Z) := λ w,
  match w_rand w with
  | buf :: rest => (Ok buf, with_rand rest w)
  | [] => (Err ErrInfra, w)
  end.

Definition emit (e : effect) : M World unit := modify (λ w, with_log (w_log w ++ [e]) w).

(** [hub.WriteToUsers]; its error is logged by every caller. *)
Definition WriteToUsers (targets : list uuid) (ev : Event) : M World unit :=
  io (emit (Pushed targets ev)).

(** [hub.Online], for the services that ask it. *)
Class HubOnline := { hub_Online : uuid → M World bool }.

Definition Notify (j : Job) : M World unit := emit (Notified j).

(** [pgx.BeginFunc]: BEGIN, the function, then COMMIT, or ROLLBACK when the
    function or the commit fails. *)
Definition BeginFunc {A} (fn : M World A) : M World A := λ w0,
  match io (mret tt) w0 with
  | (Err e, w) => (Err e, w)
  | (Ok _, w) =>
    match fn w with
    | (Err e, w') => (Err e, with_db (w_db w) w')
    | (Ok a, w') =>
      match io (mret tt) w' with
      | (Ok _, w'') => (Ok a, w'')
      | (Err e, w'') => (Err e, with_db (w_db w) w'')
      end
    end
  end.

(** ** Invariants of the database along a run *)

(** [preserves I m]: whatever fails, [m] keeps the database in [I]. *)
Definition preserves {A} (I : DB → Prop) (m : M World A) : Prop :=
  hoare (λ w, I (w_db w)) m (λ _ w, I (w_db w)) (λ _ w, I (w_db w)).

(** [untouched m]: [m] does not write to the database. *)
Definition untouched {A} (m : M World A) : Prop :=
  ∀ w r w', m w = (r, w') → w_db w' = w_db w.

(** [atomic m]: a failed [m] leaves the database as it was. *)
Definition atomic {A} (m : M World A) : Prop :=
  ∀ w e w', m w = (Err e, w') → w_db w' = w_db w.

Lemma io_cases {A} (m : M World A) w r w' :
  io m w = (r, w') →
  (∃ fs, m (with_faults fs w) = (r, w')) ∨ (r = Err ErrInfra ∧ ∃ fs, w' = with_faults fs w).
Proof.
  unfold io. simpl. destruct (w_faults w) as [|[] fs] eqn:Hf; intros H.
  - left. exists []. destruct w; simpl in *; subst. exact H.
  - right. split; [congruence|]. exists fs. congruence.
  - left. eauto.
Qed.

(** The outcome of a statement: its own, or a failure with nothing done. *)
Lemma query_cases {A} (q : M DB A) w r w' :
  query q w = (r, w') →
  (∃ fs d, q (w_db w) = (r, d) ∧ w' = with_db d (with_faults fs w)) ∨
  (r = Err ErrInfra ∧ ∃ fs, w' = with_faults fs w).
Proof.
  intros [(fs & H)|H]%io_cases; [left|by right].
  unfold on_db in H. simpl in H. destruct (q (w_db w)) as [r' d] eqn:Hq.
  simplify_eq. eauto.
Qed.

Lemma query_ok {A} (q : M DB A) w a w' :
  query q w = (Ok a, w') → ∃ fs d, q (w_db w) = (Ok a, d) ∧ w' = with_db d (with_faults fs w).
Proof. intros [H|[H _]]%query_cases; [done|done]. Qed.

Lemma query_ok_db {A} (q : M DB A) w a w' :
  query q w = (Ok a, w') → q (w_db w) = (Ok a, w_db w').
Proof. intros (fs & d & Hq & ->)%query_ok. done. Qed.

(** A statement that fails does nothing. *)
Definition clean_failure {A} (q : M DB A) : Prop := ∀ d e d', q d = (Err e, d') → d' = d.

Lemma query_atomic {A} (q : M DB A) : clean_failure q → atomic (query q).
Proof.
  intros Hq w e w' [(fs & d & H & ->)|[_ (fs & ->)]]%query_cases; simpl; [|done]. eauto.
Qed.

Lemma untouched_atomic {A} (m : M World A) : untouched m → atomic m.
Proof. intros H w e w' Hm. exact (H _ _ _ Hm). Qed.

Lemma untouched_bind {A B} (m : M World A) (k : A → M World B) :
  untouched m → (∀ a, untouched (k a)) → untouched (m ≫= k).
Proof.
  intros Hm Hk w r w'. rewrite bind_run. destruct (m w) as [[a|e] w1] eqn:H1; intros H.
  - rewrite <- (Hm _ _ _ H1). exact (Hk _ _ _ _ H).
  - simplify_eq. exact (Hm _ _ _ H1).
Qed.

Lemma untouched_try {A} (m : M World A) : untouched m → untouched (try m).
Proof. intros Hm w r w'. unfold try. destruct (m w) as [r1 w1] eqn:H1. intros [= <- <-]. exact (Hm _ _ _ H1). Qed.

Lemma untouched_ret {A} (a : A) : untouched (mret a : M World A).
Proof. intros w r w' [= _ <-]. done. Qed.

Lemma untouched_throw {A} e : untouched (throw e : M World A).
Proof. intros w r w' [= _ <-]. done. Qed.

Lemma untouched_io {A} (m : M World A) : untouched m → untouched (io m).
Proof.
  intros Hm w r w' [(fs & H)|[_ (fs & ->)]]%io_cases; [|done]. by rewrite (Hm _ _ _ H).
Qed.

Lemma untouched_for_each {A} (l : list A) (f : A → M World unit) :
  (∀ x, untouched (f x)) → untouched (for_each l f).
Proof.
  intros Hf. induction l as [|x l IH]; [apply untouched_ret|]. apply untouched_bind; auto.
Qed.

Lemma untouched_emit e : untouched (emit e).
Proof. intros w r w' [= _ <-]. done. Qed.
Lemma untouched_push targets ev : untouched (WriteToUsers targets ev).
Proof. apply untouched_io, untouched_emit. Qed.
Lemma untouched_notify j : untouched (Notify j).
Proof. apply untouched_emit. Qed.
Lemma untouched_now : untouched Now.
Proof. intros w r w' [= _ <-]. done. Qed.
Lemma untouched_nowUTC : untouched nowUTC.
Proof. intros w r w' [= _ <-]. done. Qed.
Lemma untouched_newv7 : untouched NewV7.
Proof. intros w r w'. unfold NewV7. destruct (w_ids w); intros [= _ <-]; done. Qed.
Lemma untouched_rand : untouched rand_Read.
Proof. intros w r w'. unfold rand_Read. destruct (w_rand w); intros [= _ <-]; done. Qed.

(** Reads. *)
Definition read_only {A} (q : M DB A) : Prop := ∀ d r d', q d = (r, d') → d' = d.

Lemma untouched_query {A} (q : M DB A) : read_only q → untouched (query q).
Proof.
  intros Hq w r w' [(fs & d & H & ->)|[_ (fs & ->)]]%query_cases; simpl; eauto.
Qed.

Create HintDb world.
#[export] Hint Resolve untouched_bind untouched_try untouched_ret untouched_throw
  untouched_io untouched_for_each untouched_emit untouched_push untouched_notify
  untouched_now untouched_nowUTC untouched_newv7 untouched_rand untouched_query untouched_atomic : world.

(** Loading through a cache. *)
Lemma untouched_Load {T} `{HasCache World T} id (load : M World T) :
  (∀ c w, w_db (set_cache c w) = w_db w) → untouched load → untouched (Load id load).
Proof.
  intros Hlaw Hload.
  assert (∀ A (f : World → A), untouched (get f)) as Hget by (intros A f w r w' [= _ <-]; done).
  assert (∀ f : World → World, (∀ w, w_db (f w) = w_db w) → untouched (modify f)) as Hmod
    by (intros f Hf w r w' [= _ <-]; apply Hf).
  unfold Load, Get, Version, Put.
  apply untouched_bind; [auto with world|]. intros [[v|]|e]; [auto with world| |];
    (apply untouched_bind; [auto with world|]; intros ver; apply untouched_bind; [done|]; intros val;
     destruct ver as [n|]; [|auto with world]; apply untouched_bind; [|auto with world];
     apply untouched_try, untouched_bind; [auto with world|]; intros cur;
     destruct (cur =? n); [apply untouched_io, Hmod; intros; apply Hlaw|auto with world]).
Qed.

(** [atomic] composes with what comes before a write. *)
Lemma atomic_bind {A B} (m : M World A) (k : A → M World B) :
  untouched m → (∀ a, atomic (k a)) → atomic (m ≫= k).
Proof.
  intros Hm Hk w e w' [H|(a & w1 & H1 & H)]%bind_err_inv; [exact (Hm _ _ _ H)|].
  rewrite <- (Hm _ _ _ H1). exact (Hk _ _ _ _ H).
Qed.

(** A transaction that fails is rolled back. *)
Lemma BeginFunc_atomic {A} (fn : M World A) : atomic (BeginFunc fn).
Proof.
  intros w e w'. unfold BeginFunc. destruct (io (mret tt) w) as [[[]|e1] w1] eqn:H1.
  - assert (w_db w1 = w_db w) as Hw by (eapply (untouched_io (mret tt)); [apply untouched_ret|done]).
    destruct (fn w1) as [[a|e2] w2] eqn:H2.
    + destruct (io (mret tt) w2) as [[[]|e3] w3]; intros [= <- <-]; simpl; done.
    + intros [= <- <-]; simpl; done.
  - intros [= <- <-]. eapply (untouched_io (mret tt)); [apply untouched_ret|done].
Qed.

(** A transaction that succeeds did what its function did. *)
Lemma BeginFunc_ok {A} (fn : M World A) w a w' :
  BeginFunc fn w = (Ok a, w') →
  ∃ fs fs' w2, fn (with_faults fs w) = (Ok a, w2) ∧ w' = with_faults fs' w2.
Proof.
  unfold BeginFunc. destruct (io (mret tt) w) as [[[]|e1] w1] eqn:H1; [|done].
  apply io_cases in H1 as [(fs & [= <-])|[? _]]; [|done].
  destruct (fn (with_faults fs w)) as [[a2|e2] w2] eqn:H2; [|done].
  destruct (io (mret tt) w2) as [[[]|e3] w3] eqn:H3; [|done]. intros [= <- <-].
  apply io_cases in H3 as [(fs' & [= <-])|[? _]]; [|done]. eauto.
Qed.

(** A transaction that fails failed in its function, or in PostgreSQL. *)
Lemma BeginFunc_err {A} (fn : M World A) w e w' :
  BeginFunc fn w = (Err e, w') →
  w_db w' = w_db w ∧ (e = ErrInfra ∨ ∃ fs w2, fn (with_faults fs w) = (Err e, w2)).
Proof.
  intros H. split; [by eapply BeginFunc_atomic|]. revert H.
  unfold BeginFunc. destruct (io (mret tt) w) as [[[]|e1] w1] eqn:H1.
  2: { apply io_cases in H1 as [(fs & [=])|[[= ->] _]]. intros [= <- _]. by left. }
  apply io_cases in H1 as [(fs & [= <-])|[? _]]; [|done].
  destruct (fn (with_faults fs w)) as [[a2|e2] w2] eqn:H2.
  - destruct (io (mret tt) w2) as [[[]|e3] w3] eqn:H3; [done|]. intros [= <- _].
    apply io_cases in H3 as [(fs' & [=])|[[= ->] _]]. by left.
  - intros [= <- _]. right. eauto.
Qed.

(** An invariant kept by every successful run of a transaction is kept by the
    transaction. *)
Lemma preserves_BeginFunc {A} (I : DB → Prop) (fn : M World A) :
  (∀ w a w', I (w_db w) → fn w = (Ok a, w') → I (w_db w')) →
  preserves I (BeginFunc fn).
Proof.
  intros Hfn w HI. destruct (BeginFunc fn w) as [[a|e] w'] eqn:Hrun.
  - apply BeginFunc_ok in Hrun as (fs & fs' & w2 & Hrun & ->). simpl. by eapply Hfn, Hrun.
  - by rewrite (BeginFunc_atomic _ _ _ _ Hrun).
Qed.

Lemma preserves_untouched {A} (I : DB → Prop) (m : M World A) : untouched m → preserves I m.
Proof.
  intros Hm w HI. destruct (m w) as [[a|e] w'] eqn:H; by rewrite (Hm _ _ _ H).
Qed.

Lemma preserves_bind {A B} (I : DB → Prop) (m : M World A) (k : A → M World B) :
  preserves I m → (∀ a, preserves I (k a)) → preserves I (m ≫= k).
Proof. intros Hm Hk. eapply hoare_bind; [exact Hm|exact Hk]. Qed.

(** ** Weakest preconditions

    [wp F m d now Φ]: run on any world whose database is [d] and whose clock
    reads [now], whatever ids and bytes are drawn, [m] ends in a result and a
    database satisfying [Φ], the clock and the caches unmoved.  Calls fail only if [F]: with
    [F] false the statement is about the runs in which no call fails. *)
Definition may_fail (F : Prop) (w : World) : Prop := F ∨ w_faults w = [].

Definition framed (w w' : World) : Prop :=
  w_now w' = w_now w ∧ w_groups w' = w_groups w ∧ w_friends w' = w_friends w.

Lemma framed_trans w1 w2 w3 : framed w1 w2 → framed w2 w3 → framed w1 w3.
Proof. intros (? & ? & ?) (? & ? & ?). repeat split; congruence. Qed.

Definition wp {A} (F : Prop) (m : M World A) (d : DB) (now : time) (Φ : result A → DB → Prop) : Prop :=
  ∀ w, w_db w = d → w_now w = now → may_fail F w →
    Φ (m w).1 (w_db (m w).2) ∧ framed w (m w).2 ∧ may_fail F (m w).2.

Section wp.
Context {A : Type} (F : Prop) (d : DB) (now : time).

Lemma wp_mono (m : M World A) (Φ Ψ : result A → DB → Prop) :
  wp F m d now Φ → (∀ r d', Φ r d' → Ψ r d') → wp F m d now Ψ.
Proof. intros Hm HΦ w Hd Hn Hf. destruct (Hm w Hd Hn Hf) as (? & ? & ?). split; auto. Qed.

Lemma wp_ret (a : A) (Φ : result A → DB → Prop) : Φ (Ok a) d → wp F (mret a) d now Φ.
Proof. intros H w <- <- Hf. by split. Qed.

Lemma wp_throw e (Φ : result A → DB → Prop) : Φ (Err e) d → wp F (throw e) d now Φ.
Proof. intros H w <- <- Hf. by split. Qed.

Lemma wp_lift r (Φ : result A → DB → Prop) : Φ r d → wp F (lift_result r) d now Φ.
Proof. intros H w <- <- Hf. by split. Qed.

Lemma wp_bind {B} (m : M World B) (k : B → M World A) (Φ : result A → DB → Prop) :
  wp F m d now (λ r d', match r with Ok a => wp F (k a) d' now Φ | Err e => Φ (Err e) d' end) →
  wp F (m ≫= k) d now Φ.
Proof.
  intros Hm w Hd Hn Hf. destruct (Hm w Hd Hn Hf) as (H1 & H2 & H3). rewrite bind_run.
  destruct (m w) as [[a|e] w1]; simpl in *; [|by split].
  destruct (H1 w1 eq_refl) as (H4 & H5 & H6); [by destruct H2 as [-> _]|done|].
  split; [done|]. split; [by eapply framed_trans|done].
Qed.

Lemma wp_try {B} (m : M World B) (Φ : result (result B) → DB → Prop) :
  wp F m d now (λ r d', Φ (Ok r) d') → wp F (try m) d now Φ.
Proof. intros Hm w Hd Hn Hf. destruct (Hm w Hd Hn Hf) as [? []]. unfold try. by destruct (m w). Qed.

Lemma wp_io {B} (m : M World B) (Φ : result B → DB → Prop) :
  (F → Φ (Err ErrInfra) d) → wp F m d now Φ → wp F (io m) d now Φ.
Proof.
  intros He Hm w Hd Hn Hf. unfold io; simpl.
  destruct Hf as [Hf|Hf]; [|rewrite Hf; apply Hm; by try right].
  destruct (w_faults w) as [|[] fs]; [apply Hm; by try left| |exact (Hm (with_faults fs w) Hd Hn (or_introl Hf))].
  simpl; subst; split; [by apply He|]. split; [done|by left].
Qed.

Lemma wp_query {B} (q : M DB B) (Φ : result B → DB → Prop) :
  (F → Φ (Err ErrInfra) d) → Φ (q d).1 (q d).2 → wp F (query q) d now Φ.
Proof.
  intros He Hq. apply wp_io; [done|]. intros w <- Hn Hf. unfold on_db.
  destruct (q (w_db w)) as [r d'] eqn:E. simpl in *. by split.
Qed.

Lemma wp_Now (Φ : result time → DB → Prop) : Φ (Ok now) d → wp F Now d now Φ.
Proof. intros H w <- <- Hf. by split. Qed.

Lemma wp_nowUTC (Φ : result time → DB → Prop) : Φ (Ok (pgTime now)) d → wp F nowUTC d now Φ.
Proof. intros H w <- <- Hf. by split. Qed.

Lemma wp_rand (Φ : result (list Z) → DB → Prop) :
  (∀ buf, Φ (Ok buf) d) → Φ (Err ErrInfra) d → wp F rand_Read d now Φ.
Proof.
  intros Hb He w <- <- Hf. unfold rand_Read. destruct (w_rand w); simpl; split; done || apply Hb.
Qed.

Lemma wp_NewV7 (Φ : result uuid → DB → Prop) :
  (∀ id, Φ (Ok id) d) → Φ (Err ErrInfra) d → wp F NewV7 d now Φ.
Proof.
  intros Hb He w <- <- Hf. unfold NewV7. destruct (w_ids w); simpl; split; done || apply Hb.
Qed.

Lemma wp_emit e (Φ : result unit → DB → Prop) : Φ (Ok tt) d → wp F (emit e) d now Φ.
Proof. intros H w <- <- Hf. by split. Qed.

Lemma wp_BeginFunc (fn : M World A) (Φ : result A → DB → Prop) :
  (F → Φ (Err ErrInfra) d) →
  wp F fn d now (λ r d', match r with Ok a => Φ (Ok a) d' | Err e => Φ (Err e) d end) →
  wp F (BeginFunc fn) d now Φ.
Proof.
  intros He Hm w <- <- Hf. unfold BeginFunc.
  assert (∀ (w : World) (Hf : may_fail F w), let r := io (mret tt) w in
            match r.1 with Ok _ => True | Err e => F ∧ e = ErrInfra end ∧
            ∃ fs, r.2 = with_faults fs w ∧ may_fail F r.2) as Hio.
  { clear. intros w Hf. unfold io; simpl. destruct Hf as [Hf|Hf].
    - destruct (w_faults w) as [|[] fs] eqn:E; simpl; split; try done;
        [exists []|exists fs|exists fs]; (split; [|by left]); by destruct w; simpl in *; subst.
    - rewrite Hf. simpl. split; [done|]. exists []. split; [|by right].
      by destruct w; simpl in *; subst. }
  destruct (Hio w Hf) as [Hr (fs & Hw & Hf1)].
  destruct (io (mret tt) w) as [[[]|e1] w1]; simpl in *; subst w1.
  2: { destruct Hr as [HF ->]. split; [by apply He|]. by split. }
  destruct (Hm (with_faults fs w) eq_refl eq_refl Hf1) as (Hfn & Hnow & Hf2).
  destruct (fn (with_faults fs w)) as [[a|e2] w2]; simpl in *; [|done].
  destruct (Hio w2 Hf2) as [Hr' (fs' & Hw' & Hf3)].
  destruct (io (mret tt) w2) as [[[]|e3] w3]; simpl in *; subst w3; [done|].
  destruct Hr' as [HF ->]. split; [by apply He|]. done.
Qed.
End wp.

(** Decides the tests of a handler on known errors. *)
Ltac decide_errors :=
  repeat match goal with
  | |- context [if decide (?e = ?e) then _ else _] => rewrite (decide_True (P := e = e)) by reflexivity
  | |- context [if decide (?e1 = ?e2) then _ else _] =>
      rewrite (decide_False (P := e1 = e2)) by discriminate
  end.

(** A statement that always succeeds. *)
Ltac stmt_ok :=
  try match goal with
  | |- match (fst ?q) with _ => _ end =>
      change (fst q) with (Ok tt : result unit); cbv beta iota
  end.

(** One symbolic step of a handler. *)
Ltac wp_step :=
  lazymatch goal with
  | |- wp _ (mbind _ _) _ _ _ => apply wp_bind
  | |- wp _ (mret _) _ _ _ => apply wp_ret
  | |- wp _ (throw _) _ _ _ => apply wp_throw
  | |- wp _ (lift_result _) _ _ _ => apply wp_lift
  | |- wp _ (try _) _ _ _ => apply wp_try
  | |- wp _ (query _) _ _ _ => apply wp_query
  | |- wp _ (BeginFunc _) _ _ _ => apply wp_BeginFunc
  | |- wp _ Now _ _ _ => apply wp_Now
  | |- wp _ nowUTC _ _ _ => apply wp_nowUTC
  | |- wp _ rand_Read _ _ _ => apply wp_rand; [intros ?|]
  | |- wp _ NewV7 _ _ _ => apply wp_NewV7; [intros ?|]
  | |- wp _ (emit _) _ _ _ => apply wp_emit
  | |- wp _ (Notify _) _ _ _ => apply wp_emit
  | |- wp _ (WriteToUsers _ _) _ _ _ => apply wp_io; [|apply wp_emit]
  end; cbv beta iota; try (match goal with |- _ → _ => intros ? end); decide_errors; stmt_ok.
