(* ===== verification/Moves.v ===== *)
(** * Moves: how far a program can take the state

    [moves R m]: wherever it starts and whatever fails, [m] ends in a state that [R]
    relates to the first.  For a preorder it is proved call by call. *)

From S2P Require Import Prelude Types Db World.

#[local] Open Scope Z_scope.

Definition moves {A} (R : relation World) (m : M World A) : Prop := ∀ w, R w (m w).2.

Lemma moves_at {A} (R : relation World) (m : M World A) w r w' : moves R m → m w = (r, w') → R w w'.
Proof. intros Hm H. specialize (Hm w). by rewrite H in Hm. Qed.

Section moves.
Context (R : relation World) `{!PreOrder R}.

Lemma moves_bind {A B} (m : M World A) (k : A → M World B) :
  moves R m → (∀ a, moves R (k a)) → moves R (m ≫= k).
Proof.
  intros Hm Hk w. rewrite bind_run. specialize (Hm w). destruct (m w) as [[a|e] w1]; [|done].
  etrans; [exact Hm|apply Hk].
Qed.

Lemma moves_try {A} (m : M World A) : moves R m → moves R (try m).
Proof. intros Hm w. specialize (Hm w). unfold try. by destruct (m w). Qed.

Lemma moves_ret {A} (a : A) : moves R (mret a).
Proof. by intros w. Qed.
Lemma moves_throw {A} e : moves R (throw e : M World A).
Proof. by intros w. Qed.
Lemma moves_lift {A} (r : result A) : moves R (lift_result r).
Proof. by intros w. Qed.
Lemma moves_get {A} (f : World → A) : moves R (get f).
Proof. by intros w. Qed.

Lemma moves_for_each {A} (l : list A) (f : A → M World unit) : (∀ a, moves R (f a)) → moves R (for_each l f).
Proof. intros Hf. induction l as [|a l IH]; [apply moves_ret|]. apply moves_bind; [apply Hf|intros []; exact IH]. Qed.

(** Failures to come do not matter to [R], nor what was sent, drawn or cached. *)
Class Blind := {
  blind_faults w x : R w (with_faults x w);
  blind_log w x : R w (with_log x w);
  blind_ids w x : R w (with_ids x w);
  blind_names w x : R w (with_names x w);
  blind_groups w x : R w (with_groups x w);
  blind_friends w x : R w (with_friends x w);
}.

Context {HB : Blind}.

Lemma moves_io {A} (m : M World A) : moves R m → moves R (io m).
Proof.
  intros Hm w. unfold io; simpl. destruct (w_faults w) as [|[] fs]; [apply Hm|apply blind_faults|].
  etrans; [apply blind_faults|apply Hm].
Qed.

Lemma moves_query {A} (q : M DB A) : (∀ w, R w (with_db (q (w_db w)).2 w)) → moves R (query q).
Proof.
  intros Hq. apply moves_io. intros w. unfold on_db. specialize (Hq w). by destruct (q (w_db w)).
Qed.

Lemma with_db_same w : with_db (w_db w) w = w.
Proof. by destruct w. Qed.

Lemma moves_read {A} (q : M DB A) : read_only q → moves R (query q).
Proof.
  intros Hq. apply moves_query. intros w. destruct (q (w_db w)) as [r d] eqn:E. simpl.
  apply Hq in E as ->. by rewrite with_db_same.
Qed.

Lemma moves_emit e : moves R (emit e).
Proof. intros w. apply blind_log. Qed.

Lemma moves_NewV7 : moves R NewV7.
Proof. intros w. unfold NewV7. destruct (w_ids w); [done|apply blind_ids]. Qed.

(** A transaction, when [R] allows taking back what was written. *)
Lemma moves_BeginFunc {A} (fn : M World A) :
  (∀ w w', R w w' → R w (with_db (w_db w) w')) → moves R fn → moves R (BeginFunc fn).
Proof.
  intros Hback Hfn w. unfold BeginFunc.
  pose proof (moves_io (mret tt) (moves_ret tt) w) as H1. destruct (io (mret tt) w) as [[[]|e] w1] eqn:E1; [|done].
  assert (w_db w1 = w_db w) as Hd by exact (untouched_io (mret tt) (untouched_ret tt) _ _ _ E1).
  pose proof (Hfn w1) as H2. destruct (fn w1) as [[a|e] w2]; simpl in *.
  - pose proof (moves_io (mret tt) (moves_ret tt) w2) as H3. destruct (io (mret tt) w2) as [[[]|e] w3]; simpl in *.
    + etrans; [exact H1|]. by etrans.
    + replace (w_db w) with (w_db w1). etrans; [exact H1|]. apply Hback. by etrans.
  - replace (w_db w) with (w_db w1). etrans; [exact H1|]. by apply Hback.
Qed.
End moves.

Arguments Blind R : clear implicits.

(** Statements that only read. *)
Lemma read_only_pure {A} (f : DB → result A) : read_only (λ d, (f d, d)).
Proof. by intros d r d' [= _ <-]. Qed.

(** ** Runs without failures *)

Lemma io_calm {A} (m : M World A) w : w_faults w = [] → io m w = m w.
Proof. unfold io; simpl. by intros ->. Qed.

Lemma query_calm {A} (q : M DB A) w : w_faults w = [] → query q w = ((q (w_db w)).1, with_db (q (w_db w)).2 w).
Proof. intros Hf. unfold query. rewrite io_calm by done. unfold on_db. by destruct (q (w_db w)). Qed.

Lemma read_ok {A} (q : M DB A) w a w' :
  read_only q → query q w = (Ok a, w') → (q (w_db w)).1 = Ok a ∧ ∃ fs, w' = with_faults fs w.
Proof.
  intros Hq (fs & d & E & ->)%query_ok. rewrite E. split; [done|]. exists fs. by apply Hq in E as ->.
Qed.

Lemma try_run {A} (m : M World A) w : try m w = (Ok (m w).1, (m w).2).
Proof. unfold try. by destruct (m w). Qed.

Lemma try_ok {A} (m : M World A) w r w' : try m w = (Ok r, w') → m w = (r, w').
Proof. unfold try. destruct (m w) as [r0 w0]. by intros [= <- <-]. Qed.

(** Names the run of a [try] that [run_inv] found. *)
Ltac untry H :=
  match goal with Hr : try _ _ = (Ok _, _) |- _ => apply try_ok in Hr; rename Hr into H end.

(** Names the run of [f] that [run_inv] found. *)
Ltac run_of f H :=
  let f' := get_head f in
  match goal with
  | Hr : ?m _ = (Ok _, _) |- _ => let h := get_head m in constr_eq h f'; rename Hr into H
  end.

(** Splits on how the run [H] ended. *)
Ltac outcome H := match type of H with _ = (?r, _) => destruct r as [?|?] end.

(** Goes through a program; the calls left are for the lemmas of [moves]. *)
Create HintDb moves.
Ltac walk_program :=
  repeat match goal with
  | |- ∀ _, moves _ _ => intros ?
  | |- moves _ (mbind _ _) => apply (moves_bind _)
  | |- moves _ (try _) => apply moves_try
  | |- moves _ (mret _) => apply (moves_ret _)
  | |- moves _ (throw _) => apply (moves_throw _)
  | |- moves _ (lift_result _) => apply (moves_lift _)
  | |- moves _ (get _) => apply (moves_get _)
  | |- moves _ Now => apply (moves_get _)
  | |- moves _ (let _ := _ in _) => cbv zeta
  | |- moves _ (match ?x with _ => _ end) => destruct x
  | |- moves _ _ => solve [eauto 3 with moves]
  end.

(** ** The clock: only [Sleep] moves it *)

Definition same_now (w w' : World) : Prop := w_now w' = w_now w.
#[export] Instance same_now_preorder : PreOrder same_now.
Proof. split; [by intros w|]. intros w1 w2 w3 H1 H2. unfold same_now in *. congruence. Qed.
#[export] Instance same_now_blind : Blind same_now.
Proof. by split. Qed.

Lemma same_now_query {A} (q : M DB A) : moves same_now (query q).
Proof. by apply (moves_query _). Qed.
Lemma same_now_rand : moves same_now rand_Read.
Proof. intros w. unfold rand_Read. by destruct (w_rand w). Qed.
Lemma same_now_emit e : moves same_now (emit e).
Proof. apply (moves_emit _). Qed.
Lemma same_now_io {A} (m : M World A) : moves same_now m → moves same_now (io m).
Proof. apply (moves_io _). Qed.
#[export] Hint Resolve same_now_query same_now_rand same_now_emit same_now_io : moves.

(** The clock at the end of the runs that [run_inv] found. *)
Ltac clock :=
  repeat match goal with
  | |- same_now ?w ?w => reflexivity
  | H : ?m ?w = (Ok _, ?w') |- same_now _ ?w' => transitivity w; [|exact (moves_at same_now m w _ w' ltac:(walk_program) H)]
  end.
