(* ===== verification/Secure.v ===== *)
(** * Secure: passwords and tokens (src/internal/platform/secure/secure.go)

    The JWT and argon2id libraries are classes with what their documentation says of
    them.  [BurnPasswordCheck] has no result and no effect but the time it takes, and
    is left out. *)

From S2P Require Import Prelude GoLib Types Db World.

#[local] Open Scope Z_scope.

(** ** github.com/alexedwards/argon2id *)

Class Argon := {
  CreateHash : string → list Z → result string;                (* the password and the random salt *)
  ComparePasswordAndHash : string → string → result bool;
}.

(** A hash made from a password is not empty and matches the password. *)
Class ArgonLaws {argon : Argon} := {
  argon_matches p salt h : CreateHash p salt = Ok h → ComparePasswordAndHash p h = Ok true;
  argon_nonempty p salt h : CreateHash p salt = Ok h → h ≠ EmptyString;
}.
Arguments ArgonLaws : clear implicits.

(** ** github.com/golang-jwt/jwt *)

Record Claims := mk_Claims {
  cl_iss : option string;
  cl_sub : option string;
  cl_aud : option string;
  cl_email : option string;
  cl_exp : option time;
  cl_iat : option time;
}.

(** The method in a token's header. *)
Inductive SigningMethod : Type := HMAC (alg : string) | OtherMethod (alg : string).

Record ParserOptions := mk_ParserOptions {
  po_methods : option (list string);     (* WithValidMethods *)
  po_issuer : option string;             (* WithIssuer *)
  po_audience : option string;           (* WithAudience *)
}.

(** Every call of the code also asks for WithExpirationRequired. *)
Class JwtLib := {
  jwt_sign : string → Claims → result string;      (* HS256, with this secret *)
  jwt_parse : string → (SigningMethod → result string) → ParserOptions → time → result Claims;
}.

Definition ErrTokenExpired : error := ErrNew "jwt" "token has invalid claims: token is expired".

(** Dates are written in milliseconds and read back through a float, which can lose
    part of the last one. *)
Definition date_read (d d' : option time) : Prop :=
  match d, d' with
  | Some t, Some t' => t - millisecond <= t' <= t
  | None, None => True
  | _, _ => False
  end.

Record claims_read (c c' : Claims) : Prop := {
  cr_iss : cl_iss c' = cl_iss c;
  cr_sub : cl_sub c' = cl_sub c;
  cr_aud : cl_aud c' = cl_aud c;
  cr_email : cl_email c' = cl_email c;
  cr_exp : date_read (cl_exp c) (cl_exp c');
  cr_iat : date_read (cl_iat c) (cl_iat c');
}.

Definition asks {A} (o : option A) (has : option A) : Prop := match o with Some _ => has = o | None => True end.
Definition method_ok (o : option (list string)) : Prop := match o with Some l => "HS256" ∈ l | None => True end.

(** What the code relies on: a signed token is read back while it lasts, by a parser
    that asks for what it says and has the key; it is never read by another. *)
Class JwtLaws {jwt : JwtLib} := {
  jwt_accepts secret c tok key o now e :
    jwt_sign secret c = Ok tok → key (HMAC "HS256") = Ok secret → method_ok (po_methods o) →
    asks (po_issuer o) (cl_iss c) → asks (po_audience o) (cl_aud c) →
    cl_exp c = Some e → now < e - millisecond → ∃ c', jwt_parse tok key o now = Ok c' ∧ claims_read c c';
  jwt_refuses secret c tok key o now c' :
    jwt_sign secret c = Ok tok → jwt_parse tok key o now = Ok c' →
    claims_read c c' ∧ asks (po_issuer o) (cl_iss c) ∧ asks (po_audience o) (cl_aud c) ∧
    ∃ e, cl_exp c' = Some e ∧ now < e;
}.
Arguments JwtLaws : clear implicits.

(** [jwt.NewNumericDate], with [jwt.TimePrecision] a millisecond. *)
Definition NewNumericDate (t : time) : option time := Some (t / millisecond * millisecond).

(** ** secure.go *)

Definition ErrPassNotMatch : error := ErrNew "secure" "password incorrect".
Definition ErrExpiredToken : error := ErrNew "secure" "expired token".
Definition ErrInvalidToken : error := ErrNew "secure" "invalid token".
Definition ErrMissingToken : error := ErrNew "secure" "missing bearer token".
Definition ErrNoRandom : error := ErrNew "secure" "failed to generate the random data".

Definition issuer : string := "chirpy".
Definition adminIssuer : string := "chirpy-admin".

Section passwords.
Context `{Argon}.

Definition HashPassword (password : string) : M World string :=
  salt ← rand_Read;
  lift_result (CreateHash password salt).

Definition CheckPassword (password hash : string) : result bool := ComparePasswordAndHash password hash.
End passwords.

Section tokens.
Context `{UuidLib} `{JwtLib}.

Definition registered (iss : string) (userID : uuid) (now : time) (expiresIn : duration) : Claims :=
  mk_Claims (Some iss) (Some (uuid_string userID)) None None (NewNumericDate (now + expiresIn)) (NewNumericDate now).

Definition MakeJWT (userID : uuid) (tokenSecret : string) (expiresIn : duration) : M World string :=
  now ← Now;
  lift_result (jwt_sign tokenSecret (registered issuer userID now expiresIn)).

Definition MakeAdminJWT (userID : uuid) (tokenSecret : string) (expiresIn : duration) : M World string :=
  now ← Now;
  lift_result (jwt_sign tokenSecret (registered adminIssuer userID now expiresIn)).

(** The key, for a token whose method is HMAC. *)
Definition hmac_key (tokenSecret : string) (m : SigningMethod) : result string :=
  match m with
  | HMAC _ => Ok tokenSecret
  | OtherMethod _ => Err (ErrNew "secure" "unexpected signing method")
  end.

Definition registered_options (iss : string) : ParserOptions := mk_ParserOptions None (Some iss) None.

(** A missing sub claim is the empty text; None stands for the zero time. *)
Definition ValidateJWTIssued (tokenString tokenSecret : string) (now : time) : result (uuid * option time) :=
  match jwt_parse tokenString (hmac_key tokenSecret) (registered_options issuer) now with
  | Err e => if decide (e = ErrTokenExpired) then Err ErrExpiredToken else Err ErrInvalidToken
  | Ok claims =>
    match uuid_parse (default EmptyString (cl_sub claims)) with
    | None => Err ErrInvalidToken
    | Some userID => Ok (userID, cl_iat claims)
    end
  end.

Definition ValidateJWT (tokenString tokenSecret : string) (now : time) : result uuid :=
  match ValidateJWTIssued tokenString tokenSecret now with
  | Ok (id, _) => Ok id
  | Err e => Err e
  end.

Definition ValidateAdminJWT (tokenString tokenSecret : string) (now : time) : result (uuid * time) :=
  match jwt_parse tokenString (hmac_key tokenSecret) (registered_options adminIssuer) now with
  | Err _ => Err ErrInvalidToken
  | Ok claims =>
    match uuid_parse (default EmptyString (cl_sub claims)), cl_iat claims with
    | Some id, Some issued => Ok (id, issued)
    | _, _ => Err ErrInvalidToken
    end
  end.
End tokens.

Definition CutPrefix (s prefix : string) : option string :=
  if String.prefix prefix s
  then Some (String.substring (String.length prefix) (String.length s - String.length prefix) s) else None.

(** [h] is headers.Get("Authorization"). *)
Definition GetBearerToken (h : string) : result string :=
  match CutPrefix h "Bearer " with
  | None => Err ErrMissingToken
  | Some token => let token := TrimSpace token in
                  if decide (token = EmptyString) then Err ErrMissingToken else Ok token
  end.

Definition MakeRefreshToken : M World string :=
  r ← try rand_Read;
  match r with
  | Ok key => mret (hex_of key)
  | Err _ => throw ErrNoRandom
  end.

(** ** What a token is good for *)

Lemma floor_ms t : t - millisecond < t / millisecond * millisecond <= t.
Proof. pose proof (Z.mul_div_le t millisecond). pose proof (Z.mul_succ_div_gt t millisecond). unfold millisecond in *. lia. Qed.

Section token_rules.
Context {ulib : UuidLib} {jwt : JwtLib} {ulaws : UuidLaws ulib} {jlaws : JwtLaws jwt}.

(** The claims of a token made for [u], as a parser that asks for [iss'] sees them. *)
Lemma registered_parse iss iss' u s ttl now tok t :
  jwt_sign s (registered iss u now ttl) = Ok tok →
  (iss' = iss → t < now + ttl - 2 * millisecond →
     ∃ c, jwt_parse tok (hmac_key s) (registered_options iss') t = Ok c ∧ cl_sub c = Some (uuid_string u) ∧
          ∃ i, cl_iat c = Some i ∧ now - 2 * millisecond < i <= now) ∧
  (iss' ≠ iss ∨ now + ttl <= t → ∃ e, jwt_parse tok (hmac_key s) (registered_options iss') t = Err e).
Proof.
  intros Hs. pose proof (floor_ms (now + ttl)) as Hexp. pose proof (floor_ms now) as Hiat. split.
  - intros -> Ht. destruct (jwt_accepts _ _ _ (hmac_key s) (registered_options iss) t _ Hs eq_refl I eq_refl I eq_refl)
      as (c & Hp & [_ Hsub _ _ _ Hi]); [lia|]. exists c. split; [done|]. split; [done|].
    simpl in Hi. destruct (cl_iat c) as [i|]; [|done]. exists i. split; [done|lia].
  - intros Hbad. destruct (jwt_parse tok (hmac_key s) (registered_options iss') t) as [c|e] eqn:Hp; [|by exists e].
    destruct (jwt_refuses _ _ _ _ _ _ _ Hs Hp) as ([_ _ _ _ He _] & Hiss & _ & e & Hce & Hlt). simpl in *.
    rewrite Hce in He. destruct Hbad as [Hne|Hle]; [congruence|lia].
Qed.

(** A token names its user for as long as it lasts, on its own side only: an
    access token is accepted by the API as the user it was made for, with the time it
    was made (to two milliseconds), until it expires and not after, and never by the
    admin page; an admin token the other way round. *)
Theorem tokens_do_not_cross u s ttl w tok w' t :
  (MakeJWT u s ttl w = (Ok tok, w') →
    (t < w_now w + ttl - 2 * millisecond →
       ∃ i, ValidateJWTIssued tok s t = Ok (u, Some i) ∧ w_now w - 2 * millisecond < i <= w_now w) ∧
    (w_now w + ttl <= t → is_ok (ValidateJWTIssued tok s t) = false) ∧
    ValidateAdminJWT tok s t = Err ErrInvalidToken) ∧
  (MakeAdminJWT u s ttl w = (Ok tok, w') →
    (t < w_now w + ttl - 2 * millisecond →
       ∃ i, ValidateAdminJWT tok s t = Ok (u, i) ∧ w_now w - 2 * millisecond < i <= w_now w) ∧
    (w_now w + ttl <= t → is_ok (ValidateAdminJWT tok s t) = false) ∧
    is_ok (ValidateJWTIssued tok s t) = false).
Proof.
  unfold MakeJWT, MakeAdminJWT, Now. split; intros H; run_inv.
  - match goal with Hs : jwt_sign _ _ = _ |- _ =>
      destruct (registered_parse issuer issuer u s ttl _ tok t Hs) as [Hyes Hno];
      destruct (registered_parse issuer adminIssuer u s ttl _ tok t Hs) as [_ Hcross] end.
    unfold ValidateJWTIssued, ValidateAdminJWT. split_and!.
    + intros Ht. destruct (Hyes eq_refl Ht) as (c & -> & -> & i & -> & Hi). simpl. rewrite uuid_parse_string. by exists i.
    + intros Ht. destruct Hno as (e & ->); [by right|]. by case_decide.
    + destruct Hcross as (e & ->); [by left|]. done.
  - match goal with Hs : jwt_sign _ _ = _ |- _ =>
      destruct (registered_parse adminIssuer adminIssuer u s ttl _ tok t Hs) as [Hyes Hno];
      destruct (registered_parse adminIssuer issuer u s ttl _ tok t Hs) as [_ Hcross] end.
    unfold ValidateJWTIssued, ValidateAdminJWT. split_and!.
    + intros Ht. destruct (Hyes eq_refl Ht) as (c & -> & -> & i & -> & Hi). simpl. rewrite uuid_parse_string. by exists i.
    + intros Ht. destruct Hno as (e & ->); [by right|]. done.
    + destruct Hcross as (e & ->); [by left|]. by case_decide.
Qed.
End token_rules.
