(* ===== verification/Groups_Refine.v ===== *)
(** * Groups_Spec: what a group is, and that the transactions implement it

    [AGroup] is the abstract group: a capacity and the members with their
    roles.  [a_step] is the contract of each membership operation on it, every
    refusal included.  [membership_refines] shows that the transactions of
    Groups_Repo implement it on the tables, whatever fails; [ag_ok], kept by
    every step, is the well-formedness the rest of the program relies on. *)

From S2P Require Import Prelude GoLib Types Db Sql_Groups Groups_Model World Groups_Repo.

#[local] Open Scope Z_scope.

(** ** Abstract groups *)

Record AGroup := mk_AGroup {
  ag_max : Z;
  ag_members : gmap uuid MemberTable;
}.

(** The operations that change who is in a group and with which role. *)
Inductive gop : Type :=
  | OpJoin (user : uuid)
  | OpAdd (actor target : uuid)
  | OpLeave (user successor : uuid)
  | OpKick (actor target : uuid)
  | OpTransfer (actor target : uuid)
  | OpSetRole (actor target : uuid) (role : string) (perms : list string)
  | OpDelete (actor : uuid).

(** A new member: [known] says which users exist. *)
Definition a_add (known : uuid → bool) (now : time) (u : uuid) (ag : AGroup) : result (option AGroup) :=
  match ag_members ag !! u with
  | Some _ => Err ErrAlreadyMember
  | None =>
    if Z.of_nat (size (ag_members ag)) >=? ag_max ag then Err ErrGroupFull
    else if known u
    then Ok (Some (mk_AGroup (ag_max ag) (<[u := mk_MemberTable now RoleMember []]> (ag_members ag))))
    else Err (foreign_key_violation "member_table_member_id_fkey")
  end.

Definition a_remove (u : uuid) (ag : AGroup) : AGroup :=
  mk_AGroup (ag_max ag) (delete u (ag_members ag)).

Definition a_set_role (u : uuid) (role : string) (perms : list string) (ag : AGroup) : AGroup :=
  mk_AGroup (ag_max ag)
    (alter (λ m, mk_MemberTable (m_JoinedAt m) role perms) u (ag_members ag)).

(** What the actor's role allows. *)
Definition a_as (actor : uuid) (perm : string) (ag : AGroup)
    (k : string → result (option AGroup)) : result (option AGroup) :=
  match ag_members ag !! actor with
  | None => Err ErrNotFoundGroup
  | Some m => if allowed (m_Role m) (m_Permissions m) perm then k (m_Role m) else Err ErrNoPermission
  end.

(** The heir of a leaving admin: first among the others, moderators before
    members, then by seniority. *)
Definition a_heir (u : uuid) (ag : AGroup) : option uuid :=
  head (fst <$> order_by next_admin_le (map_to_list (delete u (ag_members ag)))).

Definition a_leave (u successor : uuid) (ag : AGroup) : result (option AGroup) :=
  match ag_members ag !! u with
  | None => Err ErrNotMember
  | Some m =>
    if decide (m_Role m = RoleAdmin) then
      if decide (successor = uuid_nil) then
        match a_heir u ag with
        | None => Ok None
        | Some h => Ok (Some (a_remove u (a_set_role h RoleAdmin [] ag)))
        end
      else
        match ag_members ag !! successor with
        | None => Err ErrNotMember
        | Some _ => if decide (successor = u) then Err ErrNotMember
                    else Ok (Some (a_remove u (a_set_role successor RoleAdmin [] ag)))
        end
    else Ok (Some (a_remove u ag))
  end.

Definition a_kick (actor target : uuid) (ag : AGroup) (role : string) : result (option AGroup) :=
  if decide (target = actor) then Err ErrKickSelf
  else match ag_members ag !! target with
  | None => Err ErrNotMember
  | Some t =>
    if decide (m_Role t = RoleAdmin) then Err ErrCantRemoveAdmin
    else if bool_decide (m_Role t = RoleModerator) && negb (bool_decide (role = RoleAdmin))
    then Err ErrNoPermission
    else Ok (Some (a_remove target ag))
  end.

Definition a_step (known : uuid → bool) (now : time) (op : gop) (ag : AGroup) : result (option AGroup) :=
  match op with
  | OpJoin u => a_add known (pgTime now) u ag
  | OpAdd actor target => a_as actor PermAddMembers ag (λ _, a_add known (pgTime now) target ag)
  | OpLeave u successor => a_leave u successor ag
  | OpKick actor target => a_as actor PermRemoveMembers ag (a_kick actor target ag)
  | OpTransfer actor target => a_as actor EmptyString ag (λ _,
      if decide (target = actor) then Err ErrAlreadyAdmin
      else match ag_members ag !! target with
      | None => Err ErrNotMember
      | Some _ => Ok (Some (a_set_role target RoleAdmin [] (a_set_role actor RoleMember [] ag)))
      end)
  | OpSetRole actor target role perms => a_as actor EmptyString ag (λ _,
      if decide (target = actor) then Err ErrSelfRole
      else match ag_members ag !! target with
      | None => Err ErrNotMember
      | Some t =>
        let perms' := if decide (role = RoleMember) then [] else perms in
        if member_checks (mk_MemberTable (m_JoinedAt t) role perms')
        then Ok (Some (a_set_role target role perms' ag))
        else Err (check_violation "member_table_role_check")
      end)
  | OpDelete actor => a_as actor EmptyString ag (λ _, Ok None)
  end.

(** A well-formed group: within its capacity, which is 2 to 1000, with exactly
    one admin. *)
Definition ag_ok (ag : AGroup) : Prop :=
  2 <= ag_max ag <= maxGroupSize ∧
  Z.of_nat (size (ag_members ag)) <= ag_max ag ∧
  ∃ a, is_Some (ag_members ag !! a) ∧
       ∀ u m, ag_members ag !! u = Some m → (m_Role m = RoleAdmin ↔ u = a).

(** ** The abstraction of the tables *)

Definition members_of (d : DB) (g : uuid) : gmap uuid MemberTable :=
  default ∅ (map_curry (M1 := gmap uuid) (M2 := gmap uuid) (member_table d) !! g).

Definition abs (d : DB) (g : uuid) : option AGroup :=
  match chat_groups d !! g with
  | Some row => Some (mk_AGroup (g_MaxMember row) (members_of d g))
  | None => None
  end.

(** Every group well-formed, [current_member] the number of its members, and
    no member row without its group. *)
Definition groups_ok (d : DB) : Prop :=
  (∀ g row, chat_groups d !! g = Some row →
     ag_ok (mk_AGroup (g_MaxMember row) (members_of d g)) ∧
     g_CurrentMember row = Z.of_nat (size (members_of d g))) ∧
  (∀ g u, is_Some (member_table d !! (g, u)) → is_Some (chat_groups d !! g)).

Definition known_user (d : DB) (u : uuid) : bool :=
  match users d !! u with Some _ => true | None => false end.

(** [d'] differs from [d] in group [g] only. *)
Definition only_group (g : uuid) (d d' : DB) : Prop :=
  ∀ g', g' ≠ g → chat_groups d' !! g' = chat_groups d !! g' ∧ members_of d' g' = members_of d g'.

(** The repository method behind each operation. *)
Definition run_op (g : uuid) (op : gop) : M World unit :=
  match op with
  | OpJoin u => Join g u
  | OpAdd actor target => AddMember_ g actor target
  | OpLeave u successor => Leave g u successor ;; mret tt
  | OpKick actor target => Kick g actor target
  | OpTransfer actor target => TransferAdmin g actor target
  | OpSetRole actor target role perms => SetRole g actor target role perms
  | OpDelete actor => Delete g actor ;; mret tt
  end.

(** ** Tables and their abstraction *)

Lemma lookup_members_of d g u : members_of d g !! u = member_table d !! (g, u).
Proof.
  unfold members_of. rewrite <- (lookup_map_curry (M1 := gmap uuid) (M2 := gmap uuid)).
  destruct (map_curry (M1 := gmap uuid) (M2 := gmap uuid) (member_table d) !! g); simpl;
    [done|apply lookup_empty].
Qed.

Lemma members_of_ext d g (m : gmap uuid MemberTable) :
  (∀ u, member_table d !! (g, u) = m !! u) → members_of d g = m.
Proof. intros Hm. apply map_eq. intros u. by rewrite lookup_members_of. Qed.

Lemma members_of_insert d g u m g' :
  members_of (with_member_table (<[(g, u) := m]> (member_table d)) d) g' =
  if decide (g' = g) then <[u := m]> (members_of d g) else members_of d g'.
Proof.
  apply members_of_ext. intros u'; simpl. destruct (decide (g' = g)) as [->|Hne].
  - destruct (decide (u' = u)) as [->|].
    + by rewrite !lookup_insert_eq.
    + rewrite !lookup_insert_ne by congruence. by rewrite lookup_members_of.
  - rewrite lookup_insert_ne by congruence. by rewrite lookup_members_of.
Qed.

Lemma members_of_delete d g u g' :
  members_of (with_member_table (delete (g, u) (member_table d)) d) g' =
  if decide (g' = g) then delete u (members_of d g) else members_of d g'.
Proof.
  apply members_of_ext. intros u'; simpl. destruct (decide (g' = g)) as [->|Hne].
  - destruct (decide (u' = u)) as [->|].
    + by rewrite !lookup_delete_eq.
    + rewrite !lookup_delete_ne by congruence. by rewrite lookup_members_of.
  - rewrite lookup_delete_ne by congruence. by rewrite lookup_members_of.
Qed.

Lemma members_of_table d d' g : member_table d' = member_table d → members_of d' g = members_of d g.
Proof. unfold members_of. by intros ->. Qed.

(** ** The heir *)

Lemma next_admin_le_antisym a b :
  next_admin_le a b = true → next_admin_le b a = true → a.1 = b.1.
Proof.
  unfold next_admin_le. repeat case_bool_decide; simpl; intros Hab Hba; simplify_eq/=;
    rewrite orb_true_iff, andb_true_iff, Z.ltb_lt, Z.eqb_eq, N.leb_le in *; lia.
Qed.

Lemma heir_agrees d g u row :
  chat_groups d !! g = Some row →
  (NextAdmin g u d).1 =
  match a_heir u (mk_AGroup (g_MaxMember row) (members_of d g)) with
  | Some h => Ok h
  | None => Err ErrNoRows
  end.
Proof.
  intros Hrow. unfold NextAdmin, a_heir. simpl.
  set (l1 := members_where g (λ u0 _, negb (bool_decide (u0 = u))) d).
  set (l2 := map_to_list (delete u (members_of d g))).
  assert (∀ x, x ∈ l1 ↔ x ∈ l2) as Hin.
  { intros [x m]. unfold l1, l2. rewrite elem_of_members_where, elem_of_map_to_list.
    rewrite lookup_delete_Some, lookup_members_of, negb_true_iff, bool_decide_eq_false.
    naive_solver. }
  assert (NoDup l1) as Hnd1.
  { apply NoDup_fmap_2_strong; [|apply NoDup_select].
    intros [[g1 u1] m1] [[g2 u2] m2] [_ H1]%elem_of_select [_ H2]%elem_of_select; simpl in *.
    apply andb_true_iff in H1 as [->%bool_decide_eq_true _], H2 as [->%bool_decide_eq_true _].
    by intros [= -> ->]. }
  assert (order_by next_admin_le l1 = order_by next_admin_le l2) as ->; [|by destruct (order_by _ _)].
  apply (StronglySorted_unique_strong (le_rel next_admin_le)).
  - intros [x1 m1] [x2 m2] H1 H2 H12 H21.
    rewrite elem_of_order_by, Hin in H1. rewrite elem_of_order_by in H2.
    unfold l2 in *. apply elem_of_map_to_list in H1, H2.
    pose proof (next_admin_le_antisym _ _ H12 H21). simpl in *. simplify_eq. done.
  - apply order_by_sorted; [apply next_admin_le_total|apply next_admin_le_trans].
  - apply order_by_sorted; [apply next_admin_le_total|apply next_admin_le_trans].
  - rewrite !order_by_permutation. apply NoDup_Permutation; [done|apply NoDup_map_to_list|done].
Qed.

Lemma heir_other u ag h : a_heir u ag = Some h → h ≠ u ∧ is_Some (ag_members ag !! h).
Proof.
  unfold a_heir. intros Hh. destruct (order_by _ _) as [|[h' m] l] eqn:Ho; [done|].
  simpl in Hh. simplify_eq.
  assert ((h, m) ∈ map_to_list (delete u (ag_members ag))) as Hin.
  { rewrite <- (elem_of_order_by next_admin_le), Ho. constructor. }
  apply elem_of_map_to_list, lookup_delete_Some in Hin as [Hne Hm]. eauto.
Qed.

Lemma heir_none u ag : a_heir u ag = None → delete u (ag_members ag) = ∅.
Proof.
  unfold a_heir. intros Hh. destruct (order_by _ _) as [|x l] eqn:Ho; [|done].
  apply map_to_list_empty_iff, Permutation_nil_r.
  rewrite <- Ho. by rewrite order_by_permutation.
Qed.

(** ** The contract keeps groups well-formed *)

Lemma ag_ok_add known now u ag ag' :
  ag_ok ag → a_add known now u ag = Ok (Some ag') → ag_ok ag'.
Proof.
  intros (Hmax & Hsize & a & Ha & Hadm). unfold a_add.
  destruct (ag_members ag !! u) eqn:Hu; [done|].
  destruct (_ >=? _) eqn:Hfull; [done|]. destruct (known u); [|done].
  intros [= <-]. split; [done|]. simpl. split.
  { rewrite map_size_insert_None by done. lia. }
  assert (a ≠ u) as Hau by (intros ->; by rewrite Hu in Ha; destruct Ha).
  exists a. split; [by rewrite lookup_insert_ne|].
  intros u' m' Hm'. destruct (decide (u' = u)) as [->|Hne].
  - rewrite lookup_insert_eq in Hm'. simplify_eq. split; [done|congruence].
  - rewrite lookup_insert_ne in Hm' by done. auto.
Qed.

Lemma ag_ok_remove u ag :
  ag_ok ag → (∀ m, ag_members ag !! u = Some m → m_Role m ≠ RoleAdmin) → ag_ok (a_remove u ag).
Proof.
  intros (Hmax & Hsize & a & Ha & Hadm) Hu. split; [done|]. simpl. split.
  { pose proof (size_delete_le u (ag_members ag)). lia. }
  assert (a ≠ u) as Hau.
  { intros ->. destruct Ha as [m Hm]. apply (Hu m Hm). by apply (Hadm u m Hm). }
  exists a. split; [by rewrite lookup_delete_ne|].
  intros u' m' [Hne Hm']%lookup_delete_Some. auto.
Qed.

Lemma ag_ok_handover u h ag :
  ag_ok ag → (∀ m, ag_members ag !! u = Some m → m_Role m = RoleAdmin) → is_Some (ag_members ag !! u) →
  h ≠ u → is_Some (ag_members ag !! h) →
  ag_ok (a_remove u (a_set_role h RoleAdmin [] ag)).
Proof.
  intros (Hmax & Hsize & a & Ha & Hadm) Hu [mu Hmu] Hne [mh Hmh].
  split; [done|]. simpl. split.
  { pose proof (size_delete_le u (alter (λ m, mk_MemberTable (m_JoinedAt m) RoleAdmin []) h (ag_members ag)))
      as Hle. rewrite size_alter in Hle. lia. }
  assert (a = u) as -> by (symmetry; apply (Hadm u mu Hmu); auto).
  exists h. split.
  { rewrite lookup_delete_ne by done. rewrite lookup_alter_eq, Hmh. eauto. }
  intros u' m' [Hne' Hm']%lookup_delete_Some.
  destruct (decide (u' = h)) as [->|Hneh].
  - rewrite lookup_alter_eq, Hmh in Hm'. simplify_eq/=. done.
  - rewrite lookup_alter_ne in Hm' by done. rewrite (Hadm u' m' Hm'). split; congruence.
Qed.

Lemma ag_ok_transfer a t ag :
  ag_ok ag → (∃ m, ag_members ag !! a = Some m ∧ m_Role m = RoleAdmin) →
  t ≠ a → is_Some (ag_members ag !! t) →
  ag_ok (a_set_role t RoleAdmin [] (a_set_role a RoleMember [] ag)).
Proof.
  intros (Hmax & Hsize & a' & Ha & Hadm) (m & Hm & Hrole) Hne [mt Hmt].
  assert (a' = a) as -> by (symmetry; by apply (Hadm a m Hm)).
  split; [done|]. simpl. rewrite !size_alter. split; [done|].
  exists t. split.
  { rewrite lookup_alter_eq, lookup_alter_ne, Hmt by done. eauto. }
  intros u' m' Hm'. destruct (decide (u' = t)) as [->|Hnet].
  - rewrite lookup_alter_eq, lookup_alter_ne, Hmt in Hm' by done. by simplify_eq/=.
  - rewrite lookup_alter_ne in Hm' by done. destruct (decide (u' = a)) as [->|Hnea].
    + rewrite lookup_alter_eq, Hm in Hm'. simplify_eq/=. split; [done|congruence].
    + rewrite lookup_alter_ne in Hm' by done. rewrite (Hadm u' m' Hm'). split; congruence.
Qed.

Lemma ag_ok_set_role a t role perms ag :
  ag_ok ag → (∃ m, ag_members ag !! a = Some m ∧ m_Role m = RoleAdmin) → t ≠ a →
  role ≠ RoleAdmin → ag_ok (a_set_role t role perms ag).
Proof.
  intros (Hmax & Hsize & a' & Ha & Hadm) (m & Hm & Hrole) Hne Hr.
  assert (a' = a) as -> by (symmetry; by apply (Hadm a m Hm)).
  split; [done|]. simpl. rewrite size_alter. split; [done|].
  exists a. split; [by rewrite lookup_alter_ne|].
  intros u' m' Hm'. destruct (decide (u' = t)) as [->|Hnet].
  - rewrite lookup_alter_eq in Hm'. apply fmap_Some in Hm' as (m0 & Hm0 & ->). simpl. split; congruence.
  - rewrite lookup_alter_ne in Hm' by done. auto.
Qed.

(** * The transactions implement the contract

    [membership_refines] relates every membership transaction of Groups_Repo,
    run on the tables with calls failing anywhere, to [a_step]; the
    well-formedness of all groups ([groups_ok]) and the capacity bound follow
    along every sequence of transactions. *)

(** ** Updating one group *)

Lemma groups_ok_row d g row :
  groups_ok d → chat_groups d !! g = Some row →
  ag_ok (mk_AGroup (g_MaxMember row) (members_of d g)) ∧
  g_CurrentMember row = Z.of_nat (size (members_of d g)).
Proof. intros [H _] Hrow. by apply H. Qed.

Lemma abs_row d g row :
  chat_groups d !! g = Some row → abs d g = Some (mk_AGroup (g_MaxMember row) (members_of d g)).
Proof. unfold abs. by intros ->. Qed.

Lemma only_group_abs g d d' : only_group g d d' → ∀ g', g' ≠ g → abs d' g' = abs d g'.
Proof. intros H g' Hne. destruct (H g' Hne) as [H1 H2]. unfold abs. by rewrite H1, H2. Qed.

Lemma group_update g d d' row row' :
  groups_ok d → only_group g d d' →
  chat_groups d !! g = Some row → chat_groups d' !! g = Some row' →
  g_MaxMember row' = g_MaxMember row →
  ag_ok (mk_AGroup (g_MaxMember row) (members_of d' g)) →
  g_CurrentMember row' = Z.of_nat (size (members_of d' g)) →
  abs d' g = Some (mk_AGroup (g_MaxMember row) (members_of d' g)) ∧
  only_group g d d' ∧ groups_ok d'.
Proof.
  intros [Hok Hfk] Honly Hrow Hrow' Hmax Hag Hcnt. split.
  { rewrite (abs_row _ _ _ Hrow'), Hmax. done. }
  split; [done|]. split.
  - intros g' r' Hr'. destruct (decide (g' = g)) as [->|Hne].
    + rewrite Hrow' in Hr'. simplify_eq. by rewrite Hmax.
    + destruct (Honly g' Hne) as [H1 H2]. rewrite H2. rewrite H1 in Hr'. by apply Hok.
  - intros g' u Hu. destruct (decide (g' = g)) as [->|Hne]; [eauto|].
    destruct (Honly g' Hne) as [H1 H2]. rewrite H1. apply (Hfk g' u).
    by rewrite <- lookup_members_of, <- H2, lookup_members_of.
Qed.

Lemma group_gone g d d' :
  groups_ok d → only_group g d d' → chat_groups d' !! g = None → members_of d' g = ∅ →
  abs d' g = None ∧ only_group g d d' ∧ groups_ok d'.
Proof.
  intros [Hok Hfk] Honly Hrow Hm. split; [unfold abs; by rewrite Hrow|].
  split; [done|]. split.
  - intros g' r' Hr'. destruct (decide (g' = g)) as [->|Hne]; [congruence|].
    destruct (Honly g' Hne) as [H1 H2]. rewrite H2. rewrite H1 in Hr'. by apply Hok.
  - intros g' u Hu. rewrite <- lookup_members_of in Hu. destruct (decide (g' = g)) as [->|Hne].
    + rewrite Hm, lookup_empty in Hu. by destruct Hu.
    + destruct (Honly g' Hne) as [H1 H2]. rewrite H1. apply (Hfk g' u).
      by rewrite <- lookup_members_of, <- H2.
Qed.

(** What an operation promises: a failure of PostgreSQL with nothing done, or
    the outcome of the contract, other groups as they were. *)
Definition op_post (F : Prop) (g : uuid) (op : gop) (d : DB) (now : time) (r : result unit) (d' : DB) : Prop :=
  (F ∧ r = Err ErrInfra ∧ d' = d) ∨
  match abs d g with
  | None => r = Err ErrNotFoundGroup ∧ d' = d
  | Some ag =>
    match a_step (known_user d) now op ag with
    | Err e => r = Err e ∧ d' = d
    | Ok res => r = Ok tt ∧ abs d' g = res ∧ only_group g d d' ∧ groups_ok d'
    end
  end.

(** The outcome without its value. *)
Definition forget {A} (r : result A) : result unit :=
  match r with Ok _ => Ok tt | Err e => Err e end.

(** The service only asks for these roles ([SetRole] in service.go). *)
Definition op_valid (op : gop) : Prop :=
  match op with
  | OpSetRole _ _ role _ => role = RoleModerator ∨ role = RoleMember
  | _ => True
  end.

Section transactions.
Context (F : Prop) (g : uuid) (d : DB) (now : time).

Lemma wp_no_rows_as {A} alt (m : M World A) (Φ : result A → DB → Prop) :
  wp F m d now (λ r d', Φ (match r with
                         | Err e => Err (if decide (e = ErrNoRows) then alt else e)
                         | Ok a => Ok a end) d') →
  wp F (no_rows_as alt m) d now Φ.
Proof.
  intros Hm. unfold no_rows_as. do 2 wp_step. eapply wp_mono; [exact Hm|].
  intros [a|e] d' H; by wp_step.
Qed.

Lemma wp_withLockedGroup {A} (fn : Z * Z → M World A) (Φ : result A → DB → Prop) :
  (F → Φ (Err ErrInfra) d) →
  match chat_groups d !! g with
  | None => Φ (Err ErrNotFoundGroup) d
  | Some row => wp F (fn (g_MaxMember row, g_CurrentMember row)) d now
      (λ r d', match r with Ok a => Φ (Ok a) d' | Err e => Φ (Err e) d end)
  end →
  wp F (withLockedGroup g fn) d now Φ.
Proof.
  intros He Hfn. unfold withLockedGroup. wp_step; [by auto|]. wp_step.
  apply wp_no_rows_as. wp_step; [by auto|]. unfold LockGroup.
  destruct (chat_groups d !! g) as [row|]; simpl; done.
Qed.

Lemma wp_member u (Φ : result (option MemberTable) → DB → Prop) :
  (F → Φ (Err ErrInfra) d) → Φ (Ok (member_table d !! (g, u))) d → wp F (member g u) d now Φ.
Proof.
  intros He Hok. unfold member. do 2 wp_step. wp_step; [wp_step; by auto|].
  unfold GetMember. destruct (member_table d !! (g, u)); simpl; by wp_step.
Qed.

Lemma wp_as {A} actor perm (fn : Z * Z → string → M World A) (Φ : result A → DB → Prop) :
  (F → Φ (Err ErrInfra) d) →
  match chat_groups d !! g with
  | None => Φ (Err ErrNotFoundGroup) d
  | Some row =>
    match member_table d !! (g, actor) with
    | None => Φ (Err ErrNotFoundGroup) d
    | Some m =>
      if allowed (m_Role m) (m_Permissions m) perm
      then wp F (fn (g_MaxMember row, g_CurrentMember row) (m_Role m)) d now
             (λ r d', match r with Ok a => Φ (Ok a) d' | Err e => Φ (Err e) d end)
      else Φ (Err ErrNoPermission) d
    end
  end →
  wp F (as_ g actor perm fn) d now Φ.
Proof.
  intros He Hfn. apply wp_withLockedGroup; [done|].
  destruct (chat_groups d !! g) as [row|]; [|done].
  wp_step. apply wp_member; [done|].
  destruct (member_table d !! (g, actor)) as [m|]; [|by wp_step].
  destruct (allowed _ _ _); simpl; [done|by wp_step].
Qed.
End transactions.

Section refinement.
Context (F : Prop) (g : uuid) (d : DB) (now : time) (row : ChatGroup).
Hypothesis Hok : groups_ok d.
Hypothesis Hrow : chat_groups d !! g = Some row.

Let ag := mk_AGroup (g_MaxMember row) (members_of d g).

(** The outcome of the contract, as a postcondition of the transaction's
    body (a failed body is rolled back). *)
Definition body_post (res : result (option AGroup)) (r : result unit) (d' : DB) : Prop :=
  (F ∧ r = Err ErrInfra) ∨
  match res with
  | Err e => r = Err e
  | Ok res => r = Ok tt ∧ abs d' g = res ∧ only_group g d d' ∧ groups_ok d'
  end.

Lemma body_post_op op (r : result unit) d' :
  body_post (a_step (known_user d) now op ag) r d' →
  match r with Ok a => op_post F g op d now (Ok a) d' | Err e => op_post F g op d now (Err e) d end.
Proof.
  unfold body_post, op_post. rewrite (abs_row _ _ _ Hrow). fold ag.
  destruct (a_step (known_user d) now op ag); destruct r; naive_solver.
Qed.

Lemma count_in_range : 0 <= g_CurrentMember row <= 1000.
Proof.
  destruct (groups_ok_row _ _ _ Hok Hrow) as [(Hmax & Hsize & _) ->].
  unfold maxGroupSize in *. simpl in *. lia.
Qed.

Lemma only_group_member_count d1 n :
  only_group g d d1 → only_group g d (SetGroupMemberCount g n d1).2.
Proof.
  intros H g' Hne. destruct (H g' Hne) as [H1 H2]. simpl.
  rewrite lookup_alter_ne by done. split; [done|]. rewrite <- H2. by apply members_of_table.
Qed.

(** The two statements that add a member. *)
Lemma add_statements at_ u (ag' : AGroup) :
  a_add (known_user d) at_ u ag = Ok (Some ag') →
  ∃ d1, AddMember g u at_ d = (Ok tt, d1) ∧
    body_post (Ok (Some ag')) (Ok tt) (SetGroupMemberCount g (wrap16 (g_CurrentMember row + 1)) d1).2.
Proof.
  intros Hadd. pose proof (groups_ok_row _ _ _ Hok Hrow) as [Hag Hcnt].
  pose proof (ag_ok_add _ _ _ _ _ Hag Hadd) as Hag'. revert Hadd.
  set (d1' := with_member_table (<[(g, u) := mk_MemberTable at_ RoleMember []]> (member_table d)) d).
  unfold a_add, known_user. cbn [ag_members ag_max ag].
  rewrite lookup_members_of. destruct (member_table d !! (g, u)) eqn:Hu; [done|].
  destruct (_ >=? _) eqn:Hfull; [done|].
  destruct (users d !! u) as [usr|] eqn:Hus; [|done]. intros Hadd.
  assert (ag' = mk_AGroup (g_MaxMember row)
            (<[u := mk_MemberTable at_ RoleMember []]> (members_of d g))) as -> by congruence.
  exists d1'. split.
  { unfold AddMember, insert_member. rewrite Hu, Hrow, Hus. reflexivity. }
  right. split; [done|].
  assert (members_of (SetGroupMemberCount g (wrap16 (g_CurrentMember row + 1)) d1').2 g =
          <[u := mk_MemberTable at_ RoleMember []]> (members_of d g)) as Hm.
  { transitivity (members_of d1' g); [by apply members_of_table|].
    unfold d1'. rewrite members_of_insert. by rewrite decide_True. }
  rewrite <- Hm. rewrite <- Hm in Hag'. eapply group_update.
  - done.
  - apply only_group_member_count. intros g' Hne. split; [done|].
    unfold d1'. rewrite members_of_insert. by rewrite decide_False.
  - done.
  - simpl. rewrite lookup_alter_eq, Hrow. reflexivity.
  - done.
  - done.
  - rewrite Hm; simpl; rewrite map_size_insert_None by (by rewrite lookup_members_of).
    pose proof count_in_range. rewrite wrap16_small by lia. lia.
Qed.

(** [addLocked] implements [a_add]. *)
Lemma wp_addLocked u :
  wp F (addLocked (g_MaxMember row, g_CurrentMember row) g u) d now
     (body_post (a_add (known_user d) (pgTime now) u ag)).
Proof.
  pose proof (groups_ok_row _ _ _ Hok Hrow) as [Hag Hcnt].
  unfold addLocked. wp_step. apply wp_member; [by left|].
  destruct (a_add (known_user d) (pgTime now) u ag) as [[ag'|]|e] eqn:Hadd.
  - destruct (add_statements (pgTime now) u ag' Hadd) as (d1 & Hd1 & Hpost). revert Hadd.
    unfold a_add, ag; simpl. rewrite lookup_members_of, <- Hcnt.
    destruct (member_table d !! (g, u)); [done|]. destruct (_ >=? _); [done|]. intros _.
    do 4 wp_step; [by left|]. rewrite Hd1. cbn [fst snd]. by wp_step; [left|].
  - revert Hadd. unfold a_add. repeat case_match; done.
  - revert Hadd. unfold a_add, ag; simpl. rewrite lookup_members_of, <- Hcnt.
    destruct (member_table d !! (g, u)) eqn:Hu; [intros [= <-]; wp_step; by right|].
    destruct (_ >=? _); [intros [= <-]; wp_step; by right|].
    unfold known_user. destruct (users d !! u) eqn:Hus; [done|]. intros [= <-].
    do 4 wp_step; [by left|]. unfold AddMember, insert_member. simpl. rewrite Hu, Hrow, Hus.
    simpl. by right.
Qed.

(** The two statements that remove a member, from a state [d0] that differs
    from [d] in this group's members only. *)
Lemma remove_statements d0 u (ag' : AGroup) :
  only_group g d d0 → chat_groups d0 = chat_groups d →
  size (members_of d0 g) = size (members_of d g) → is_Some (members_of d0 g !! u) →
  ag' = mk_AGroup (g_MaxMember row) (delete u (members_of d0 g)) → ag_ok ag' →
  body_post (Ok (Some ag')) (Ok tt)
    (SetGroupMemberCount g (Z.max (wrap16 (g_CurrentMember row - 1)) 0) (DeleteMemFromGroup g u d0).2).2.
Proof.
  intros Honly Hgroups Hsize [m Hm] -> Hag'. pose proof (groups_ok_row _ _ _ Hok Hrow) as [_ Hcnt].
  right. split; [done|]. set (d1 := (DeleteMemFromGroup g u d0).2).
  assert (members_of (SetGroupMemberCount g (Z.max (wrap16 (g_CurrentMember row - 1)) 0) d1).2 g =
          delete u (members_of d0 g)) as Hmem.
  { transitivity (members_of d1 g); [by apply members_of_table|].
    unfold d1. simpl. rewrite members_of_delete. by rewrite decide_True. }
  rewrite <- Hmem. rewrite <- Hmem in Hag'. eapply group_update.
  - done.
  - apply only_group_member_count. intros g' Hne. destruct (Honly g' Hne) as [H1 H2].
    split; [done|]. unfold d1. simpl. rewrite members_of_delete. by rewrite decide_False.
  - done.
  - simpl. rewrite Hgroups, lookup_alter_eq, Hrow. reflexivity.
  - done.
  - done.
  - rewrite Hmem; simpl. pose proof count_in_range.
    pose proof (size_delete_some u (members_of d0 g) m Hm). rewrite wrap16_small by lia. lia.
Qed.

(** The statement that changes a role, from such a state. *)
Lemma set_role_statement d0 u m role perms :
  only_group g d d0 → chat_groups d0 = chat_groups d → members_of d0 g !! u = Some m →
  member_checks (mk_MemberTable (m_JoinedAt m) role perms) = true →
  ∃ d1, SetMemberRole role perms g u d0 = (Ok tt, d1) ∧
    only_group g d d1 ∧ chat_groups d1 = chat_groups d ∧ users d1 = users d0 ∧
    members_of d1 g = alter (λ m, mk_MemberTable (m_JoinedAt m) role perms) u (members_of d0 g).
Proof.
  intros Honly Hgroups Hm Hchk. unfold SetMemberRole.
  rewrite lookup_members_of in Hm. rewrite Hm. cbv zeta. rewrite Hchk. simpl.
  eexists. split; [reflexivity|]. split; [|split; [done|split; [done|]]].
  - intros g' Hne. destruct (Honly g' Hne) as [H1 H2]. split; [done|].
    rewrite members_of_insert. by rewrite decide_False.
  - rewrite members_of_insert, decide_True by done. apply map_eq. intros u'.
    destruct (decide (u' = u)) as [->|Hne].
    + by rewrite lookup_insert_eq, lookup_alter_eq, lookup_members_of, Hm.
    + by rewrite lookup_insert_ne, lookup_alter_ne by done.
Qed.

Lemma delete_statement : body_post (Ok None) (Ok tt) (DeleteGroup g d).2.
Proof.
  right. split; [done|]. apply group_gone; [done| | |].
  - intros g' Hne. simpl. split; [by rewrite lookup_delete_ne|].
    apply members_of_ext. intros u. simpl. rewrite lookup_members_of.
    destruct (member_table d !! (g', u)) eqn:Hu.
    + by apply map_lookup_filter_Some_2.
    + apply map_lookup_filter_None. by left.
  - simpl. apply lookup_delete_eq.
  - apply members_of_ext. intros u. simpl. rewrite lookup_empty.
    apply map_lookup_filter_None. right. intros m _. simpl. tauto.
Qed.

(** ** The bodies *)

Lemma member_role_unique a m t mt :
  members_of d g !! a = Some m → m_Role m = RoleAdmin →
  members_of d g !! t = Some mt → m_Role mt = RoleAdmin → a = t.
Proof.
  destruct (groups_ok_row _ _ _ Hok Hrow) as [(_ & _ & x & _ & Hx) _]. simpl in Hx.
  intros Ha Hra Ht Hrt. transitivity x; [by apply (Hx a m)|symmetry; by apply (Hx t mt)].
Qed.

Lemma admin_passes r ps perm : allowed r ps perm = true → perm = EmptyString → r = RoleAdmin.
Proof. intros H ->. by apply allowed_admin_only in H. Qed.

Lemma wp_kick_body actor target role :
  wp F (if decide (target = actor) then throw ErrKickSelf
      else t ← member g target;
           match t with
           | None => throw ErrNotMember
           | Some t =>
             if decide (m_Role t = RoleAdmin) then throw ErrCantRemoveAdmin
             else if bool_decide (m_Role t = RoleModerator) && negb (bool_decide (role = RoleAdmin))
             then throw ErrNoPermission
             else query (DeleteMemFromGroup g target) ;;
                  query (SetGroupMemberCount g (Z.max (wrap16 (g_CurrentMember row - 1)) 0))
           end) d now (body_post (a_kick actor target ag role)).
Proof.
  destruct (groups_ok_row _ _ _ Hok Hrow) as [Hag _].
  unfold a_kick, ag; cbn [ag_members ag_max]. destruct (decide (target = actor)); [wp_step; by right|].
  wp_step. apply wp_member; [by left|]. rewrite lookup_members_of.
  destruct (member_table d !! (g, target)) as [t|] eqn:Ht; [|wp_step; by right].
  destruct (decide (m_Role t = RoleAdmin)); [wp_step; by right|].
  destruct (_ && _); [wp_step; by right|]. do 2 wp_step; [by left|]. wp_step; [by left|].
  assert (members_of d g !! target = Some t) as Ht' by by rewrite lookup_members_of.
  eapply remove_statements; [done|done|done|eauto|reflexivity|].
  apply (ag_ok_remove target _ Hag). intros m Hm. simpl in Hm. congruence.
Qed.

(** Handing the group over and leaving it. *)
Lemma wp_handover u successor mu :
  members_of d g !! u = Some mu → m_Role mu = RoleAdmin →
  successor ≠ u → is_Some (members_of d g !! successor) →
  wp F (newAdmin ← (query (SetMemberRole RoleAdmin [] g successor) ;; mret successor);
      query (DeleteMemFromGroup g u) ;;
      query (SetGroupMemberCount g (Z.max (wrap16 (g_CurrentMember row - 1)) 0)) ;;
      mret (mk_Leaving newAdmin false [])) d now
    (λ r d', body_post (Ok (Some (a_remove u (a_set_role successor RoleAdmin [] ag)))) (forget r) d').
Proof.
  intros Hu Hadm Hne [ms Hms]. destruct (groups_ok_row _ _ _ Hok Hrow) as [Hag _].
  destruct (set_role_statement d successor ms RoleAdmin []) as (d1 & Hd1 & Honly & Hgr & _ & Hmem);
    [done|done|done|reflexivity|].
  do 3 wp_step; [by left|]. rewrite Hd1. cbn [fst snd]. do 3 wp_step; [by left|].
  do 2 wp_step; [by left|]. wp_step.
  eapply remove_statements; [done|done| | | |].
  - rewrite Hmem. apply size_alter.
  - rewrite Hmem, lookup_alter_ne by done. eauto.
  - rewrite Hmem. reflexivity.
  - apply ag_ok_handover; simpl; try done; [|by eauto..].
    intros m Hm. congruence.
Qed.

Lemma wp_transfer_body actor target m :
  members_of d g !! actor = Some m → m_Role m = RoleAdmin →
  wp F (if decide (target = actor) then throw ErrAlreadyAdmin
      else t ← member g target;
           match t with
           | None => throw ErrNotMember
           | Some _ => query (SetMemberRole RoleMember [] g actor) ;;
                       query (SetMemberRole RoleAdmin [] g target)
           end) d now
    (body_post (if decide (target = actor) then Err ErrAlreadyAdmin
                else match ag_members ag !! target with
                | None => Err ErrNotMember
                | Some _ => Ok (Some (a_set_role target RoleAdmin [] (a_set_role actor RoleMember [] ag)))
                end)).
Proof.
  intros Hm Hadm. destruct (groups_ok_row _ _ _ Hok Hrow) as [Hag Hcnt].
  cbn [ag_members ag]. destruct (decide (target = actor)) as [|Hne]; [wp_step; by right|].
  wp_step. apply wp_member; [by left|]. rewrite lookup_members_of.
  destruct (member_table d !! (g, target)) as [t|] eqn:Ht; [|wp_step; by right].
  destruct (set_role_statement d actor m RoleMember []) as (d1 & Hd1 & Honly1 & Hgr1 & _ & Hmem1);
    [done|done|done|reflexivity|].
  destruct (set_role_statement d1 target t RoleAdmin []) as (d2 & Hd2 & Honly2 & Hgr2 & _ & Hmem2);
    [done|done| |reflexivity|].
  { by rewrite Hmem1, lookup_alter_ne, lookup_members_of by done. }
  do 2 wp_step; [by left|]. rewrite Hd1. cbn [fst snd]. wp_step; [by left|].
  rewrite Hd2. cbn [fst snd]. right. split; [done|]. rewrite Hmem1 in Hmem2.
  assert (ag_ok (mk_AGroup (g_MaxMember row) (members_of d2 g))) as Hag2.
  { rewrite Hmem2. apply (ag_ok_transfer actor target _ Hag); [by eauto|done|].
    cbn. rewrite lookup_members_of, Ht. eauto. }
  destruct (group_update g d d2 row row) as (Habs & Hoth & Hok2); try done.
  - by rewrite Hgr2.
  - by rewrite Hmem2, !size_alter.
  - rewrite Habs, Hmem2. done.
Qed.

Lemma wp_set_role_body actor target role perms m :
  role = RoleModerator ∨ role = RoleMember →
  members_of d g !! actor = Some m → m_Role m = RoleAdmin →
  wp F (if decide (target = actor) then throw ErrSelfRole
      else t ← member g target;
           match t with
           | None => throw ErrNotMember
           | Some _ => query (SetMemberRole role (if decide (role = RoleMember) then [] else perms) g target)
           end) d now
    (body_post (if decide (target = actor) then Err ErrSelfRole
      else match ag_members ag !! target with
      | None => Err ErrNotMember
      | Some t =>
        let perms' := if decide (role = RoleMember) then [] else perms in
        if member_checks (mk_MemberTable (m_JoinedAt t) role perms')
        then Ok (Some (a_set_role target role perms' ag))
        else Err (check_violation "member_table_role_check")
      end)).
Proof.
  intros Hrole Hm Hadm. destruct (groups_ok_row _ _ _ Hok Hrow) as [Hag Hcnt].
  cbn [ag_members ag]. destruct (decide (target = actor)) as [|Hne]; [wp_step; by right|].
  wp_step. apply wp_member; [by left|]. rewrite lookup_members_of.
  destruct (member_table d !! (g, target)) as [t|] eqn:Ht; [|wp_step; by right].
  cbv zeta. set (perms' := if decide (role = RoleMember) then [] else perms).
  wp_step; [by left|].
  destruct (member_checks (mk_MemberTable (m_JoinedAt t) role perms')) eqn:Hchk.
  2: { unfold SetMemberRole. rewrite Ht. cbv zeta. rewrite Hchk. by right. }
  destruct (set_role_statement d target t role perms') as (d1 & Hd1 & Honly1 & Hgr1 & _ & Hmem1);
    [done|done|by rewrite lookup_members_of|done|].
  rewrite Hd1. cbn [fst snd]. right. split; [done|].
  assert (ag_ok (mk_AGroup (g_MaxMember row) (members_of d1 g))) as Hag1.
  { rewrite Hmem1. apply (ag_ok_set_role actor target role perms' _ Hag); [by eauto|done|].
    by destruct Hrole as [-> | ->]. }
  destruct (group_update g d d1 row row) as (Habs & Hoth & Hok2); try done.
  - by rewrite Hgr1.
  - by rewrite Hmem1, size_alter.
  - rewrite Habs, Hmem1. done.
Qed.

(** A successor is looked for before anything is written. *)
Lemma wp_leave u successor :
  wp F (Leave g u successor) d now (λ r d', op_post F g (OpLeave u successor) d now (forget r) d').
Proof.
  destruct (groups_ok_row _ _ _ Hok Hrow) as [Hag Hcnt].
  unfold Leave. apply wp_withLockedGroup; [by left|]. rewrite Hrow.
  eapply wp_mono; [|intros r d' H; pose proof (body_post_op (OpLeave u successor) (forget r) d' H) as H';
                    destruct r; exact H'].
  simpl a_step. unfold a_leave. cbn [ag_members ag].
  wp_step. apply wp_member; [by left|]. rewrite lookup_members_of.
  destruct (member_table d !! (g, u)) as [m|] eqn:Hu; [|wp_step; by right].
  assert (members_of d g !! u = Some m) as Hu' by by rewrite lookup_members_of.
  destruct (decide (m_Role m = RoleAdmin)) as [Hadm|Hadm].
  - destruct (decide (successor = uuid_nil)).
    + do 4 wp_step; [wp_step; by left|].
      rewrite (heir_agrees _ _ _ _ Hrow). fold ag. destruct (a_heir u ag) as [h|] eqn:Hh.
      * destruct (heir_other _ _ _ Hh) as [Hne Hin]. wp_step.
        change (NextAdmin g u d).2 with d. by apply (wp_handover u h m).
      * decide_errors. wp_step. change (NextAdmin g u d).2 with d. do 2 wp_step; [by left|].
        wp_step. by apply delete_statement.
    + do 2 wp_step. apply wp_member; [by left|]. rewrite lookup_members_of.
      destruct (member_table d !! (g, successor)) as [s|] eqn:Hs; [|wp_step; by right].
      destruct (decide (successor = u)) as [->|Hne]; wp_step; [by right|].
      apply (wp_handover u successor m); try done. rewrite lookup_members_of. eauto.
  - do 6 wp_step; [by left|]. do 2 wp_step; [by left|]. wp_step.
    eapply remove_statements; [done|done|done|eauto|reflexivity|].
    apply (ag_ok_remove u _ Hag). intros m' Hm'. simpl in Hm'. congruence.
Qed.
End refinement.

Section operations.
Context (F : Prop) (g : uuid) (d : DB) (now : time).

Lemma forget_unit (r : result unit) : forget r = r.
Proof. by destruct r as [[]|]. Qed.

Lemma op_post_gone op r : abs d g = None → r = Err ErrNotFoundGroup → op_post F g op d now r d.
Proof. intros Habs ->. right. by rewrite Habs. Qed.

(** An operation run as a member with a permission. *)
Lemma wp_as_op {A} actor perm (fn : Z * Z → string → M World A) op k :
  groups_ok d →
  (∀ ag, a_step (known_user d) now op ag = a_as actor perm ag (k ag)) →
  (∀ row m, chat_groups d !! g = Some row → members_of d g !! actor = Some m →
     allowed (m_Role m) (m_Permissions m) perm = true →
     wp F (fn (g_MaxMember row, g_CurrentMember row) (m_Role m)) d now
       (λ r d', body_post F g d (k (mk_AGroup (g_MaxMember row) (members_of d g)) (m_Role m)) (forget r) d')) →
  wp F (as_ g actor perm fn) d now (λ r d', op_post F g op d now (forget r) d').
Proof.
  intros Hok Hstep Hfn. apply wp_as; [by left|].
  destruct (chat_groups d !! g) as [row|] eqn:Hrow; [|apply op_post_gone; [by unfold abs; rewrite Hrow|done]].
  pose proof (λ r, body_post_op F g d now row Hrow op r d) as Hpost.
  rewrite Hstep in Hpost. unfold a_as in Hpost. cbn [ag_members] in Hpost.
  rewrite lookup_members_of in Hpost.
  destruct (member_table d !! (g, actor)) as [m|] eqn:Hm; [|apply (Hpost (Err _)); by right].
  destruct (allowed _ _ _) eqn:Hal; [|apply (Hpost (Err _)); by right].
  eapply wp_mono; [apply Hfn; [done|by rewrite lookup_members_of|done]|]. cbv beta. intros r d' H.
  pose proof (body_post_op F g d now row Hrow op (forget r) d') as Hop.
  rewrite Hstep in Hop. unfold a_as in Hop. cbn [ag_members] in Hop.
  rewrite lookup_members_of, Hm, Hal in Hop. specialize (Hop H). destruct r; exact Hop.
Qed.

Lemma wp_forget_unit op (m : M World unit) :
  wp F m d now (λ r d', op_post F g op d now (forget r) d') → wp F m d now (op_post F g op d now).
Proof. intros Hm. eapply wp_mono; [exact Hm|]. intros r d'; cbv beta; by rewrite forget_unit. Qed.

Lemma wp_forget op {A} (m : M World A) :
  wp F m d now (λ r d', op_post F g op d now (forget r) d') → wp F (m ;; mret tt) d now (op_post F g op d now).
Proof. intros Hm. wp_step. eapply wp_mono; [exact Hm|]. intros [a|e] d' H; [by wp_step|done]. Qed.

Lemma wp_Leave u successor :
  groups_ok d →
  wp F (Leave g u successor) d now (λ r d', op_post F g (OpLeave u successor) d now (forget r) d').
Proof.
  intros Hok. destruct (chat_groups d !! g) as [row|] eqn:Hrow; [by eapply wp_leave|].
  apply wp_withLockedGroup; [by left|]. rewrite Hrow. apply op_post_gone; [by unfold abs; rewrite Hrow|done].
Qed.

Lemma wp_Delete actor :
  groups_ok d → wp F (Delete g actor) d now (λ r d', op_post F g (OpDelete actor) d now (forget r) d').
Proof.
  intros Hok. eapply (wp_as_op _ _ _ _ (λ ag _, _)); [done|reflexivity|]. intros row m Hrow Hm Hal. cbv beta.
  do 2 wp_step; [by left|]. cbn [GetMemberListByID fst snd]. do 2 wp_step; [by left|]. wp_step.
  by eapply delete_statement.
Qed.

Lemma wp_run_op op :
  groups_ok d → op_valid op → wp F (run_op g op) d now (op_post F g op d now).
Proof.
  intros Hok Hvalid.
  destruct op as [u|actor target|u successor|actor target|actor target|actor target role perms|actor]; simpl.
  - apply wp_withLockedGroup; [by left|].
    destruct (chat_groups d !! g) as [row|] eqn:Hrow; [|apply op_post_gone; [by unfold abs; rewrite Hrow|done]].
    eapply wp_mono; [by apply wp_addLocked|]. intros r d'. by apply (body_post_op _ _ _ _ _ Hrow (OpJoin u)).
  - apply wp_forget_unit. eapply wp_as_op; [done|reflexivity|]. intros row m Hrow Hm _. cbv beta.
    eapply wp_mono; [by apply wp_addLocked|]. intros r d'; cbv beta; by rewrite forget_unit.
  - by apply wp_forget, wp_Leave.
  - apply wp_forget_unit. eapply wp_as_op; [done|reflexivity|]. intros row m Hrow Hm _. cbv beta.
    eapply wp_mono; [by apply wp_kick_body|]. intros r d'; cbv beta; by rewrite forget_unit.
  - apply wp_forget_unit. eapply (wp_as_op _ _ _ _ (λ ag _, _)); [done|reflexivity|].
    intros row m Hrow Hm Hal. cbv beta.
    eapply wp_mono; [eapply wp_transfer_body; [done|done|done|by eapply admin_passes]|].
    intros r d'; cbv beta; by rewrite forget_unit.
  - apply wp_forget_unit. eapply (wp_as_op _ _ _ _ (λ ag _, _)); [done|reflexivity|].
    intros row m Hrow Hm Hal. cbv beta.
    eapply wp_mono; [eapply wp_set_role_body; [done|done|done|done|by eapply admin_passes]|].
    intros r d'; cbv beta; by rewrite forget_unit.
  - by apply wp_forget, wp_Delete.
Qed.

(** What a write to a group means for the rest of the program. *)
Definition write_post {A} (r : result A) (d' : DB) : Prop :=
  match r with Ok _ => only_group g d d' ∧ groups_ok d' | Err _ => d' = d end.

Lemma op_post_write {A} op (r : result A) d' :
  groups_ok d → op_post F g op d now (forget r) d' → write_post r d'.
Proof.
  intros Hok. unfold op_post, write_post. intros [(_ & Hr & ->)|H]; [by destruct r|].
  destruct (abs d g) as [ag|]; [|by destruct r, H as [? ->]].
  destruct (a_step _ _ _ _); [destruct H as (Hr & _ & ? & ?)|destruct H as [Hr ->]]; by destruct r.
Qed.

Lemma wp_write op :
  groups_ok d → op_valid op → wp F (run_op g op) d now write_post.
Proof.
  intros Hok Hv. eapply wp_mono; [by apply wp_run_op|]. intros r d' H.
  apply (op_post_write op); [done|]. by rewrite forget_unit.
Qed.
End operations.
