(* ===== verification/Demo.v ===== *)
(** * Demo: a small concrete database

    Four users, a group of three (an admin, a moderator, a member), used by the
    witnesses and the examples. *)

From Stdlib Require Import Strings.Ascii.
From S2P Require Import Revoke Prelude GoLib Types Db Versioned Groups_Model Chat_Dedupe World.

#[local] Open Scope Z_scope.

Definition alice : uuid := 1%N.
Definition bob : uuid := 2%N.
Definition carol : uuid := 3%N.
Definition dave : uuid := 4%N.
Definition team : uuid := 100%N.

Definition demo_user (name : string) : User :=
  mk_User 0 0 (name +:+ "@example.com") None name (Some 0) EmptyString None None None EmptyString false false None None
    None None EmptyString false.

Definition demo_db : DB :=
  with_users (list_to_map [(alice, demo_user "alice"); (bob, demo_user "bob");
                           (carol, demo_user "carol"); (dave, demo_user "dave")])
  (with_chat_groups {[ team := mk_ChatGroup "team" EmptyString 4 0 0 3 "ABCDEFGH" None Public ]}
  (with_member_table
    (list_to_map [((team, alice), mk_MemberTable 10 RoleAdmin []);
                  ((team, bob), mk_MemberTable 30 RoleModerator [PermRemoveMembers]);
                  ((team, carol), mk_MemberTable 20 RoleMember [])]) empty_db)).

Definition demo_world (d : DB) : World :=
  mk_World d (@mk_cache GroupSnapshot ∅ ∅) (@mk_cache Friends_Model.Snapshot ∅ ∅) ∅ ∅ None
    (newDedupe (- hour)) (mk_revocations ∅ ∅) ∅ 1000
    [201%N; 202%N; 203%N] [[0; 1; 2; 3; 4; 5; 6; 7]] [] [].

(** A concrete uuid library: the binary digits of the number. *)
Fixpoint pos_digits (p : positive) : string :=
  match p with
  | xH => "1"
  | xO q => String "0"%char (pos_digits q)
  | xI q => String "1"%char (pos_digits q)
  end.

Fixpoint digits_pos (s : string) : option positive :=
  match s with
  | EmptyString => None
  | String c EmptyString => if Ascii.eqb c "1"%char then Some xH else None
  | String c s' =>
    if Ascii.eqb c "1"%char then xI <$> digits_pos s'
    else if Ascii.eqb c "0"%char then xO <$> digits_pos s' else None
  end.

Lemma digits_pos_digits p : digits_pos (pos_digits p) = Some p.
Proof.
  assert (∀ q, pos_digits q ≠ EmptyString) as Hne by by destruct q.
  induction p as [p IH|p IH|]; [| |reflexivity]; simpl; rewrite IH; specialize (Hne p);
    by destruct (pos_digits p).
Qed.

#[export] Instance demo_uuid : UuidLib := {|
  uuid_string u := match u with N0 => "0" | Npos p => pos_digits p end;
  uuid_parse s := if decide (s = "0") then Some N0 else Npos <$> digits_pos s;
|}.

#[export] Instance demo_uuid_laws : UuidLaws demo_uuid.
Proof.
  constructor; [|reflexivity|].
  2: { intros [|p]; simpl; [by apply not_elem_of_cons; split; [|apply not_elem_of_nil]|].
       induction p as [p IH|p IH|]; simpl; try (apply not_elem_of_cons; split; [discriminate|]); try done.
       apply not_elem_of_nil. }
  intros [|p]; [reflexivity|]. simpl.
  rewrite decide_False; [by rewrite digits_pos_digits|].
  destruct p as [q|q|]; simpl; [done| |done]. intros [= Hq]. by destruct q.
Qed.
