(* ===== verification/Groups_Props.v ===== *)
(** * Groups_Props: the theorems about group membership

    The refinement of the transactions, the well-formedness of every group in
    every reachable database, and who takes a group over. *)

From S2P Require Import Prelude GoLib Types Db Sql_Groups Groups_Model World Groups_Repo Groups_Refine Demo.

#[local] Open Scope Z_scope.

(** ** The refinement *)

(** C1. Every membership transaction of the store (join, add, leave, kick,
    transfer, set role, delete) run on the tables behaves like the abstract
    contract [a_step] on the group: the same refusals with nothing written, the
    same new members and roles, every other group untouched, the stored count
    equal to the number of members and exactly one admin afterwards; a failure
    of PostgreSQL leaves the tables as they were, and cannot be the outcome
    when no call fails. *)
Theorem membership_refines (g : uuid) (op : gop) (w : World) (r : result unit) (w' : World) :
  groups_ok (w_db w) → op_valid op → run_op g op w = (r, w') →
  op_post (w_faults w ≠ []) g op (w_db w) (w_now w) r (w_db w').
Proof.
  intros Hok Hvalid Hrun.
  destruct (wp_run_op (w_faults w ≠ []) g (w_db w) (w_now w) op Hok Hvalid w eq_refl eq_refl) as [H _].
  { unfold may_fail. destruct (w_faults w); [by right|by left]. }
  by rewrite Hrun in H.
Qed.

Lemma demo_groups_ok : groups_ok demo_db.
Proof.
  split.
  - intros g row Hrow. cbn [demo_db chat_groups with_users with_chat_groups] in Hrow.
    apply lookup_singleton_Some in Hrow as [<- <-].
    assert (members_of demo_db team = list_to_map
      [(alice, mk_MemberTable 10 RoleAdmin []); (bob, mk_MemberTable 30 RoleModerator [PermRemoveMembers]);
       (carol, mk_MemberTable 20 RoleMember [])]) as -> by (vm_compute; reflexivity).
    split; [|vm_compute; reflexivity]. split; [done|]. split; [done|]. exists alice. split; [by eexists|].
    apply (bool_decide_unpack (map_Forall (λ u m, m_Role m = RoleAdmin ↔ u = alice) _)).
    vm_compute. exact I.
  - assert (map_Forall (λ k _, is_Some (chat_groups demo_db !! k.1)) (member_table demo_db)) as H.
    { apply (bool_decide_unpack _). vm_compute. exact I. }
    intros g u [m Hm]. exact (H (g, u) m Hm).
Qed.

(** Bob, a moderator, removes carol. *)
Lemma membership_refines_witness :
  op_post (w_faults (demo_world demo_db) ≠ []) team (OpKick bob carol) demo_db 1000 (Ok tt)
    (w_db (run_op team (OpKick bob carol) (demo_world demo_db)).2).
Proof.
  apply (membership_refines team (OpKick bob carol) (demo_world demo_db) (Ok tt)
           (run_op team (OpKick bob carol) (demo_world demo_db)).2);
    [exact demo_groups_ok | exact I | vm_compute; reflexivity].
Defined.

(** ** Creating a group *)

Lemma members_of_none d g : groups_ok d → chat_groups d !! g = None → members_of d g = ∅.
Proof.
  intros [_ Hfk] Hg. apply map_eq. intros u. rewrite lookup_empty, lookup_members_of.
  destruct (member_table d !! (g, u)) eqn:Hu; [|done].
  destruct (Hfk g u) as [? ?]; [by eauto|congruence].
Qed.

(** What creating a group does: nothing, or one well-formed group more. *)
Definition create_post (g creator : uuid) (max now : Z) (d : DB) (r : result unit) (d' : DB) : Prop :=
  match r with
  | Err _ => d' = d
  | Ok _ => chat_groups d !! g = None ∧
            abs d' g = Some (mk_AGroup max {[creator := mk_MemberTable (pgTime now) RoleAdmin []]}) ∧
            only_group g d d' ∧ groups_ok d'
  end.

Lemma create_statements g creator name desc max code vis now d :
  groups_ok d → 2 <= max <= maxGroupSize →
  match CreateGroup g name desc max code vis d with
  | (Err _, d1) => True
  | (Ok _, d1) =>
    match CreateGroupLeaderRole g creator (pgTime now) d1 with
    | (Err _, _) => True
    | (Ok a, d2) => create_post g creator max now d (Ok a) d2
    end
  end.
Proof.
  intros Hok Hmax. unfold CreateGroup. destruct (group_columns_ok _ _ _); [done|].
  destruct (chat_groups d !! g) as [|] eqn:Hg; [done|].
  destruct (invite_code_taken _ _ _); [done|]. cbn iota.
  pose proof (members_of_none d g Hok Hg) as Hempty. destruct Hok as [Hok Hfk].
  unfold CreateGroupLeaderRole, insert_member. cbn [negb member_checks andb]. simpl.
  rewrite lookup_insert_eq.
  destruct (member_table d !! (g, creator)) eqn:Hc.
  { destruct (Hfk g creator) as [? ?]; [by eauto|congruence]. }
  destruct (users d !! creator) as [usr|]; [|done]. cbn [create_post chat_groups with_chat_groups with_member_table].
  match goal with |- _ ∧ abs ?x g = _ ∧ _ => set (d2 := x) end.
  assert (members_of d2 g = {[creator := mk_MemberTable (pgTime now) RoleAdmin []]}) as Hm.
  { apply members_of_ext. intros u. simpl. destruct (decide (u = creator)) as [->|Hne].
    - by rewrite lookup_insert_eq, lookup_singleton_eq.
    - rewrite lookup_insert_ne, lookup_singleton_ne by congruence.
      by rewrite <- lookup_members_of, Hempty. }
  assert (∀ g', g' ≠ g → members_of d2 g' = members_of d g') as Hother.
  { intros g' Hne. apply members_of_ext. intros u. simpl.
    rewrite lookup_insert_ne by congruence. by rewrite lookup_members_of. }
  split; [done|]. split; [|split; [|split]].
  - unfold abs. simpl. rewrite lookup_insert_eq, Hm. done.
  - intros g' Hne. split; [simpl; by rewrite lookup_insert_ne|by apply Hother].
  - intros g' row'. destruct (decide (g' = g)) as [->|Hne].
    + simpl. rewrite lookup_insert_eq. intros [= <-]. rewrite Hm. simpl.
      rewrite map_size_singleton. unfold maxGroupSize in *. split; [|done].
      split; [done|]. simpl. rewrite map_size_singleton. split; [lia|].
      exists creator. rewrite lookup_singleton_eq. split; [by eauto|].
      intros u m [<- <-]%lookup_singleton_Some. done.
    + rewrite Hother by done. simpl. rewrite lookup_insert_ne by done. apply Hok.
  - intros g' u. simpl. destruct (decide (g' = g)) as [->|Hne].
    + rewrite lookup_insert_eq. eauto.
    + rewrite !lookup_insert_ne by congruence. apply Hfk.
Qed.

Lemma wp_Create F g creator req d now :
  groups_ok d → 2 <= cr_MaxMems req <= maxGroupSize →
  wp F (Create g creator req) d now (create_post g creator (cr_MaxMems req) now d).
Proof.
  intros Hok Hmax. unfold Create. generalize 3%nat; intros n; induction n as [|n IH]; simpl Create_attempts; [by wp_step|].
  assert (∀ e, wp F (if decide (constraint e = inviteCodeConstraint)
               then Create_attempts n g creator req else throw e) d now
            (create_post g creator (cr_MaxMems req) now d)) as Hretry.
  { intros e. case_decide; [done|by wp_step]. }
  do 2 wp_step. apply wp_rand; [intros buf|]; cbv beta; do 2 wp_step; [|done].
  cbn [Groups_Invite.NewInviteCode]. do 3 wp_step; [by wp_step|]. do 2 wp_step; [by wp_step|].
  pose proof (create_statements g creator (cr_GroupName req) (cr_Description req) (cr_MaxMems req)
    (string_of (Groups_Invite.alphabet_letter <$> buf)) (cr_Visibility req) now d Hok Hmax) as Hst.
  destruct (CreateGroup g _ _ _ _ _ d) as [[[]|e] d1]; cbn [fst snd]; [|apply Hretry].
  do 3 wp_step; [by wp_step|].
  destruct (CreateGroupLeaderRole g creator (pgTime now) d1) as [[[]|e] d2]; cbn [fst snd]; [|apply Hretry].
  by wp_step.
Qed.

(** ** Statements that leave membership alone *)

(** [d'] is [d] with the row of group [g] changed, its capacity and count
    excepted, and its name and visibility too unless [card]. *)
Definition edited (g : uuid) (card : bool) (d d' : DB) : Prop :=
  member_table d' = member_table d ∧
  (∀ g', g' ≠ g → chat_groups d' !! g' = chat_groups d !! g') ∧
  match chat_groups d !! g, chat_groups d' !! g with
  | Some r, Some r' =>
    g_MaxMember r' = g_MaxMember r ∧ g_CurrentMember r' = g_CurrentMember r ∧
    (card = false → g_Name r' = g_Name r ∧ g_Visibility r' = g_Visibility r)
  | None, None => True
  | _, _ => False
  end.

Lemma edited_only_group g card d d' : edited g card d d' → only_group g d d'.
Proof. intros (Hm & Hg & _) g' Hne. split; [by apply Hg|by apply members_of_table]. Qed.

Lemma edited_groups_ok g card d d' : edited g card d d' → groups_ok d → groups_ok d'.
Proof.
  intros (Hm & Hg & Hrow) [Hok Hfk]. split.
  - intros g' row'. rewrite (members_of_table d d') by done.
    destruct (decide (g' = g)) as [->|Hne]; [|rewrite Hg by done; apply Hok].
    intros Hr'. rewrite Hr' in Hrow. destruct (chat_groups d !! g) as [r|] eqn:Hr; [|done].
    destruct Hrow as (-> & -> & _). by apply Hok.
  - intros g' u. rewrite Hm. intros Hu. destruct (Hfk g' u Hu) as [r Hr].
    destruct (decide (g' = g)) as [->|Hne]; [|rewrite Hg by done; by eauto].
    rewrite Hr in Hrow. destruct (chat_groups d' !! g); [by eauto|done].
Qed.

(** [update_group], on a state that differs from [d] in other tables only. *)
Lemma edited_update_group d d0 g card f :
  chat_groups d0 = chat_groups d → member_table d0 = member_table d →
  (∀ r, g_MaxMember (f r) = g_MaxMember r ∧ g_CurrentMember (f r) = g_CurrentMember r ∧
        (card = false → g_Name (f r) = g_Name r ∧ g_Visibility (f r) = g_Visibility r)) →
  edited g card d (update_group g f d0).
Proof.
  intros Hd0 Hm Hf. split; [done|]. unfold update_group. cbn [chat_groups with_chat_groups]. rewrite Hd0. split.
  - intros g' Hne. by rewrite lookup_alter_ne.
  - rewrite lookup_alter_eq. destruct (chat_groups d !! g) as [r|]; simpl; [apply Hf|done].
Qed.

(** The other writes of the store: the group's card, its picture, its code. *)
Inductive edit : Type :=
  | EdUpdate (actor : uuid) (name desc visibility : option string)
  | EdSetAvatar (actor : uuid) (img : list Z) (at_ : Z)
  | EdDeleteAvatar (actor : uuid)
  | EdInvite.

Definition run_edit (g : uuid) (e : edit) : M World unit :=
  match e with
  | EdUpdate actor name desc visibility => Update g actor name desc visibility ;; mret tt
  | EdSetAvatar actor img at_ => SetAvatar g actor img at_
  | EdDeleteAvatar actor => DeleteAvatar g actor
  | EdInvite => RegenerateInviteCode g ;; mret tt
  end.

Definition edit_post {A} (g : uuid) (card : bool) (d : DB) (r : result A) (d' : DB) : Prop :=
  match r with Ok _ => edited g card d d' | Err _ => d' = d end.

Lemma wp_as_edit {A} F g actor perm (fn : Z * Z → string → M World A) d now card :
  (∀ c role row, chat_groups d !! g = Some row →
     wp F (fn c role) d now (λ r d', match r with Ok _ => edited g card d d' | Err _ => True end)) →
  wp F (as_ g actor perm fn) d now (edit_post g card d).
Proof.
  intros Hfn. apply wp_as; [done|]. destruct (chat_groups d !! g) as [row|] eqn:Hrow; [|done].
  repeat case_match; try done.
  eapply wp_mono; [by eapply Hfn|]. by intros [a|e] d' H'.
Qed.

Lemma wp_Update F g actor name desc vis d now :
  wp F (Update g actor name desc vis) d now (edit_post g true d).
Proof.
  apply wp_as_edit. intros c role row Hrow. destruct (_ && _); [by wp_step|]. do 2 wp_step; [done|].
  unfold UpdateGroupInfo. rewrite Hrow. cbv zeta.
  destruct (group_columns_ok _ _ _); [done|]. cbn [fst snd]. wp_step.
  split; [done|]. cbn [chat_groups with_chat_groups]. split.
  - intros g' Hne. by rewrite lookup_insert_ne.
  - by rewrite lookup_insert_eq, Hrow.
Qed.

Lemma wp_SetAvatar F g actor img t d now :
  wp F (SetAvatar g actor img t) d now (edit_post g false d).
Proof.
  apply wp_as_edit. intros c role row Hrow. do 2 wp_step; [done|].
  unfold UpsertGroupAvatar. destruct (_ <? _); [done|]. rewrite Hrow. cbn [fst snd].
  wp_step; [done|]. by apply edited_update_group.
Qed.

Lemma wp_DeleteAvatar F g actor d now : wp F (DeleteAvatar g actor) d now (edit_post g false d).
Proof.
  apply wp_as_edit. intros c role row Hrow. do 2 wp_step; [done|].
  wp_step; [done|]. by apply edited_update_group.
Qed.

Lemma edited_refl g card d : edited g card d d.
Proof. split; [done|]. split; [done|]. by destruct (chat_groups d !! g). Qed.

Lemma wp_invite F g d now : wp F (RegenerateInviteCode g) d now (edit_post g false d).
Proof.
  unfold RegenerateInviteCode. generalize 3%nat as n.
  induction n as [|n IH]; simpl Regenerate_attempts; [by wp_step|].
  do 2 wp_step. apply wp_rand; [intros buf|]; cbv beta; do 2 wp_step; [|done].
  cbn [Groups_Invite.NewInviteCode]. do 3 wp_step; [by wp_step|].
  unfold SetInviteCode. destruct (chat_groups d !! g); cbn [fst snd]; [|wp_step; apply edited_refl].
  destruct (invite_code_taken _ _ _); cbn [fst snd].
  - case_decide; [done|by wp_step].
  - wp_step. by apply edited_update_group.
Qed.

Lemma wp_run_edit F g e d now :
  groups_ok d → wp F (run_edit g e) d now (λ r d', groups_ok d').
Proof.
  intros Hok.
  assert (∀ A (r : result A) card d', edit_post g card d r d' → groups_ok d') as Hpost.
  { intros A [a|err] card d' H; simpl in H; [by eapply edited_groups_ok|by subst]. }
  destruct e as [actor name desc vis|actor img t|actor|]; simpl.
  - wp_step. eapply wp_mono; [apply wp_Update|].
    intros [a|e] d' H%Hpost; [by wp_step|done].
  - eapply wp_mono; [apply wp_SetAvatar|]. intros r d'. apply Hpost.
  - eapply wp_mono; [apply wp_DeleteAvatar|]. intros r d'. apply Hpost.
  - wp_step. eapply wp_mono; [apply wp_invite|]. intros [a|e] d' H%Hpost; [by wp_step|done].
Qed.

(** ** Every reachable database *)

(** One request to the store, its calls failing or not. *)
Inductive gstep (d d' : DB) : Prop :=
  | step_op g op w r w' :
      op_valid op → w_db w = d → run_op g op w = (r, w') → w_db w' = d' → gstep d d'
  | step_create g creator req req' w r w' :
      validateCreate req = Ok req' → w_db w = d → Create g creator req' w = (r, w') →
      w_db w' = d' → gstep d d'
  | step_edit g e w r w' :
      w_db w = d → run_edit g e w = (r, w') → w_db w' = d' → gstep d d'.

Lemma op_post_ok F g op d now r d' : groups_ok d → op_post F g op d now r d' → groups_ok d'.
Proof.
  intros Hok [(_ & _ & ->)|H]; [done|].
  destruct (abs d g) as [ag|]; [|by destruct H as [_ ->]].
  destruct (a_step _ _ _ _); [by destruct H as (_ & _ & _ & H)|by destruct H as [_ ->]].
Qed.

(** A statement about any world holds of one whose calls may fail. *)
Lemma wp_apply {A} (m : M World A) w r w' Φ :
  wp True m (w_db w) (w_now w) Φ → m w = (r, w') → Φ r (w_db w').
Proof. intros H Hrun. destruct (H w eq_refl eq_refl) as [HΦ _]; [by left|]. by rewrite Hrun in HΦ. Qed.

(** C2. In every database reachable from one without groups, by any sequence
    of store operations with any failures, every group has between 2 and 1000
    places and no more members than places, exactly one admin, and a stored
    member count that is the number of its member rows; and every member row
    belongs to a group. *)
Theorem groups_always_ok (d0 d : DB) :
  chat_groups d0 = ∅ → member_table d0 = ∅ → reachable gstep d0 d → groups_ok d.
Proof.
  intros Hg Hm. apply reachable_invariant.
  - split; [intros g row|intros g u]; [rewrite Hg, lookup_empty|rewrite Hm, lookup_empty]; [done|by intros []].
  - intros d1 d2 Hok [g op w r w' Hv <- Hrun <- | g creator req req' w r w' Hv <- Hrun <- | g e w r w' <- Hrun <-].
    + eapply op_post_ok; [done|]. exact (wp_apply _ _ _ _ _ (wp_run_op True g _ _ op Hok Hv) Hrun).
    + apply validateCreate_ok in Hv as (Hmax & _).
      pose proof (wp_apply _ _ _ _ _ (wp_Create True g creator req' _ _ Hok Hmax) Hrun) as Hpost.
      unfold create_post in Hpost. destruct r; [by destruct Hpost as (_ & _ & _ & ?)|by rewrite Hpost].
    + exact (wp_apply _ _ _ _ _ (wp_run_edit True g e _ _ Hok) Hrun).
Qed.

Definition empty_group_db : DB := with_users (users demo_db) empty_db.

Definition demo_request : createGroupRequest := mk_createGroupRequest "team" EmptyString 4 Public.

(** Alice creates a group and bob joins it. *)
Definition demo_created : DB := w_db (Create team alice demo_request (demo_world empty_group_db)).2.
Definition demo_joined : DB := w_db (Join team bob (demo_world demo_created)).2.

Lemma groups_always_ok_witness :
  groups_ok demo_joined ∧ is_Some (member_table demo_joined !! (team, bob)).
Proof.
  split; [|vm_compute; by eexists].
  apply (groups_always_ok empty_group_db); [reflexivity|reflexivity|].
  apply (reach_step _ _ demo_created).
  - apply (reach_step _ _ empty_group_db); [apply reach_refl|].
    eapply (step_create _ _ team alice demo_request demo_request (demo_world empty_group_db));
      [reflexivity|reflexivity|apply surjective_pairing|reflexivity].
  - eapply (step_op _ _ team (OpJoin bob) (demo_world demo_created));
      [exact I|reflexivity|apply surjective_pairing|reflexivity].
Defined.

(** ** Who takes over *)

(** The heir's seniority over another member. *)
Definition senior (h v : MemberTable) : Prop :=
  (m_Role h = RoleModerator ∧ m_Role v ≠ RoleModerator) ∨
  ((m_Role h = RoleModerator ↔ m_Role v = RoleModerator) ∧ m_JoinedAt h <= m_JoinedAt v).

Lemma heir_senior u ag h :
  a_heir u ag = Some h →
  ∃ mh, ag_members ag !! h = Some mh ∧
        ∀ v mv, v ≠ u → ag_members ag !! v = Some mv → senior mh mv.
Proof.
  unfold a_heir. intros Hh. destruct (order_by _ _) as [|[h' mh] l] eqn:Ho; [done|].
  simpl in Hh. simplify_eq. exists mh.
  assert ((h, mh) ∈ map_to_list (delete u (ag_members ag))) as Hin.
  { rewrite <- (elem_of_order_by next_admin_le), Ho. constructor. }
  apply elem_of_map_to_list, lookup_delete_Some in Hin as [Hne Hm]. split; [done|].
  intros v mv Hv Hmv.
  assert (next_admin_le (h, mh) (v, mv) = true) as Hle.
  { eapply (order_by_head _ next_admin_le_total next_admin_le_trans); [done|].
    apply elem_of_map_to_list. by rewrite lookup_delete_ne. }
  revert Hle. unfold next_admin_le, senior. simpl.
  repeat case_bool_decide; simpl; intros Hle; try (left; by split); try discriminate Hle; right;
    rewrite orb_true_iff, andb_true_iff, Z.ltb_lt, Z.eqb_eq in Hle; (split; [tauto|lia]).
Qed.

(** What [Leave] reports when an admin leaves without naming a successor. *)
Lemma wp_leave_report F g u d now row m :
  groups_ok d → chat_groups d !! g = Some row → member_table d !! (g, u) = Some m → m_Role m = RoleAdmin →
  wp F (Leave g u uuid_nil) d now (λ r _,
    match r with
    | Err _ => True
    | Ok lv => lv = match a_heir u (mk_AGroup (g_MaxMember row) (members_of d g)) with
                    | Some h => mk_Leaving h false []
                    | None => mk_Leaving uuid_nil true [u]
                    end
    end).
Proof.
  intros Hok Hrow Hm Hadm. unfold Leave. apply wp_withLockedGroup; [done|]. rewrite Hrow.
  wp_step. apply wp_member; [done|]. rewrite Hm, decide_True by done.
  decide_errors. do 4 wp_step; [by wp_step|]. rewrite (heir_agrees _ _ _ _ Hrow).
  change (NextAdmin g u d).2 with d.
  destruct (a_heir _ _) as [h|]; decide_errors; wp_step.
  - do 3 wp_step; [done|]. destruct (SetMemberRole _ _ _ _ d) as [[[]|e] d1]; cbn [fst snd]; [|done].
    wp_step. do 2 wp_step; [done|]. do 2 wp_step; [done|]. by wp_step.
  - do 2 wp_step; [done|]. by wp_step.
Qed.

(** An admin who leaves without naming a successor hands the group to
    another member: a moderator if there is one, and among those in question
    the one who joined first; when nobody else is left the group is deleted.
    The leaver is gone from the group either way. *)
Theorem admin_leaves_to_senior (g u : uuid) (m : MemberTable) (w : World) (lv : Leaving) (w' : World) :
  groups_ok (w_db w) → member_table (w_db w) !! (g, u) = Some m → m_Role m = RoleAdmin →
  Leave g u uuid_nil w = (Ok lv, w') →
  member_table (w_db w') !! (g, u) = None ∧
  ((lv_Deleted lv = true ∧ chat_groups (w_db w') !! g = None ∧
    ∀ v, v ≠ u → member_table (w_db w) !! (g, v) = None) ∨
   (lv_Deleted lv = false ∧ ∃ mh mh',
      lv_NewAdmin lv ≠ u ∧
      member_table (w_db w) !! (g, lv_NewAdmin lv) = Some mh ∧
      member_table (w_db w') !! (g, lv_NewAdmin lv) = Some mh' ∧ m_Role mh' = RoleAdmin ∧
      ∀ v mv, v ≠ u → member_table (w_db w) !! (g, v) = Some mv → senior mh mv)).
Proof.
  intros Hok Hm Hadm Hrun. destruct (Hok) as [_ Hfk]. destruct (Hfk g u) as [row Hrow]; [by eauto|].
  pose proof (wp_apply _ _ _ _ _ (wp_leave_report True _ _ _ _ _ _ Hok Hrow Hm Hadm) Hrun) as Hlv.
  pose proof (wp_apply _ _ _ _ _ (wp_leave True _ _ _ _ Hok Hrow u uuid_nil) Hrun) as [(_ & [=] & _)|H].
  rewrite (abs_row _ _ _ Hrow) in H. simpl a_step in H. unfold a_leave in H. cbn [ag_members] in H.
  rewrite lookup_members_of, Hm, decide_True, decide_True in H by done. simpl in Hlv. subst lv.
  set (ag := mk_AGroup (g_MaxMember row) (members_of (w_db w) g)) in *.
  destruct (a_heir u ag) as [h|] eqn:Hh; destruct H as (_ & Habs & _ & Hok').
  - destruct (heir_senior _ _ _ Hh) as (mh & Hmh & Hsen). destruct (heir_other _ _ _ Hh) as [Hne _].
    unfold abs in Habs. destruct (chat_groups (w_db w') !! g); [|done].
    assert (members_of (w_db w') g = ag_members (a_remove u (a_set_role h RoleAdmin [] ag))) as Hm'
      by (injection Habs as _ Hinj; exact Hinj).
    cbn [ag_members ag] in Hmh, Hsen. rewrite lookup_members_of in Hmh.
    split; [rewrite <- lookup_members_of, Hm'; apply lookup_delete_eq|]. right. split; [done|].
    exists mh, (mk_MemberTable (m_JoinedAt mh) RoleAdmin []). cbn [lv_NewAdmin].
    split; [done|]. split; [done|]. split; [|split; [done|]].
    + rewrite <- lookup_members_of, Hm'. simpl.
      by rewrite lookup_delete_ne, lookup_alter_eq, lookup_members_of, Hmh by done.
    + intros v mv Hv Hmv. apply (Hsen v mv Hv). by rewrite lookup_members_of.
  - assert (chat_groups (w_db w') !! g = None) as Hgone
      by (unfold abs in Habs; by destruct (chat_groups (w_db w') !! g)).
    assert (∀ v, member_table (w_db w') !! (g, v) = None) as Hnone.
    { intros v. destruct (member_table (w_db w') !! (g, v)) eqn:E; [|done].
      destruct Hok' as [_ Hfk']. destruct (Hfk' g v) as [? ?]; [by eauto|congruence]. }
    split; [done|]. left. split; [done|]. split; [done|]. intros v Hv.
    rewrite <- lookup_members_of. apply heir_none in Hh. cbn [ag_members ag] in Hh.
    rewrite <- (lookup_delete_ne _ u v) by done. by rewrite Hh, lookup_empty.
Qed.

(** Alice leaves: bob joined after carol, but is a moderator. *)
Lemma admin_leaves_to_senior_witness :
  ∃ w', Leave team alice uuid_nil (demo_world demo_db) = (Ok (mk_Leaving bob false []), w') ∧
        member_table (w_db w') !! (team, alice) = None.
Proof.
  exists (Leave team alice uuid_nil (demo_world demo_db)).2. split; [vm_compute; reflexivity|].
  apply (admin_leaves_to_senior team alice (mk_MemberTable 10 RoleAdmin []) (demo_world demo_db)
           (mk_Leaving bob false []));
    [exact demo_groups_ok|reflexivity|reflexivity|vm_compute; reflexivity].
Defined.
