(* ===== verification/Groups_Service.v ===== *)
(** * Groups_Service: the group service (src/internal/groups/service.go)

    Validation, the permission checks on the cached snapshot, the invalidation
    after each write and the events it sends.  Errors of the cache, the hub and
    the notifier are logged by the code and dropped here. *)

From S2P Require Import Prelude GoLib Types Users_Model Db Sql_Groups Groups_Model Groups_Invite Versioned World Groups_Repo.

#[local] Open Scope Z_scope.

(** What the service needs from friends (its FriendChecker). *)
Class FriendChecker := { AreFriends : uuid → uuid → M World bool }.

(** The fields of groupService set at start-up: whether there is a hub and a
    notifier, and the hooks to run after a group is deleted. *)
Class GroupService := {
  gsv_notify : bool;
  gsv_push : bool;
  gsv_onDelete : list (uuid → M World unit);
}.


(** [escapeLike]: the replacer's three pairs are single bytes, so it maps each
    byte on its own.  92 is the backslash, 37 the percent sign, 95 the
    underscore. *)
Definition escape_byte (b : Z) : list Z :=
  if (b =? 92) || (b =? 37) || (b =? 95) then [92; b] else [b].

Definition escapeLike (q : string) : string := string_of (mbind (M := list) escape_byte (bytes_of q)).

Section service.
Context `{UuidLib} `{FriendChecker} `{GroupService}.

Definition CreateGroup_ (creatorID : uuid) (req : createGroupRequest) : M World uuid :=
  req ← lift_result (validateCreate req);
  groupID ← NewV7;
  Create groupID creatorID req ;;
  mret groupID.

Definition snapshot (groupID : uuid) : M World GroupSnapshot :=
  Load (uuid_string groupID) (Snapshot_ groupID).

Definition IsMember (groupID userID : uuid) : M World bool :=
  snap ← snapshot groupID;
  mret (slices_contains (gs_Members snap) userID).

Definition Members (groupID : uuid) : M World (list uuid) :=
  snap ← snapshot groupID;
  mret (gs_Members snap).

Definition GroupName (groupID : uuid) : M World string :=
  snap ← snapshot groupID;
  mret (gs_Name snap).

Definition check (groupID user : uuid) (perm : string) : M World unit :=
  snap ← snapshot groupID;
  let '(role, perms) := snapshot_Role snap user in
  if decide (role = EmptyString) then throw ErrNotFoundGroup
  else if negb (allowed role perms perm) then throw ErrNoPermission
  else mret tt.

Definition CanDeleteMessage (groupID actor sender : uuid) : M World bool :=
  snap ← snapshot groupID;
  let '(role, perms) := snapshot_Role snap actor in
  if decide (role = RoleAdmin) then mret true
  else if negb (allowed role perms PermDeleteMessages) then mret false
  else
    let senderRole := (snapshot_Role snap sender).1 in
    mret (negb (bool_decide (senderRole = RoleAdmin)) && negb (bool_decide (senderRole = RoleModerator))).

Definition invalidate (groupID : uuid) : M World unit :=
  _ ← try (Invalidate (T := GroupSnapshot) [uuid_string groupID]); mret tt.

Definition pushTo (to : list uuid) (event : string) (payload : Payload) : M World unit :=
  if bool_decide (to = []) || negb gsv_push then mret tt
  else _ ← try (WriteToUsers to (mk_Event event payload)); mret tt.

Definition pushMembers (groupID actor : uuid) (change : string) (user : uuid) : M World unit :=
  r ← try (Members groupID);
  match r with
  | Err _ => mret tt
  | Ok members =>
    pushTo (slices_delete (λ id, bool_decide (id = actor)) members) EventGroupUpd
      (PGroupUpdated (mk_OutGroupUpdated (uuid_string groupID) change
         (if decide (user = uuid_nil) then EmptyString else uuid_string user)))
  end.

Definition run_onDelete (groupID : uuid) : M World unit :=
  for_each gsv_onDelete (λ fn, fn groupID).

Definition JoinGroup (groupID userID : uuid) : M World unit :=
  Join groupID userID ;;
  invalidate groupID ;;
  pushMembers groupID userID "joined" userID.

Definition JoinPublic (groupID userID : uuid) : M World unit :=
  snap ← snapshot groupID;
  if negb (gs_Public snap) then throw ErrNotFoundGroup
  else JoinGroup groupID userID.

Definition LeaveGroup (groupID userID successor : uuid) : M World unit :=
  left ← Leave groupID userID successor;
  invalidate groupID ;;
  if lv_Deleted left then run_onDelete groupID
  else
    (if decide (lv_NewAdmin left = uuid_nil) then mret tt
     else pushMembers groupID userID "admin" (lv_NewAdmin left)) ;;
    pushMembers groupID userID "members" userID.

Definition GroupDetail_ (groupID viewer : uuid) : M World GroupDetail :=
  d ← Detail groupID viewer;
  if negb (gd_IsMember d) && negb (bool_decide (gd_Visibility d = Public))
  then throw ErrNotFoundGroup
  else mret d.

Definition PreviewInvite (raw : string) : M World GroupPreview :=
  code ← lift_result (NormalizeInviteCode raw);
  ByInviteCode code.

Definition JoinByInvite (userID : uuid) (raw : string) : M World uuid :=
  g ← PreviewInvite raw;
  JoinGroup (gp_ID g) userID ;;
  mret (gp_ID g).

Definition InviteCode_ (groupID viewer : uuid) : M World string :=
  ok ← IsMember groupID viewer;
  if negb ok then throw ErrNotFoundGroup
  else
    code ← InviteCode groupID;
    mret (FormatInviteCode code).

Definition RegenerateInvite (groupID userID : uuid) : M World string :=
  check groupID userID PermManageInvite ;;
  code ← RegenerateInviteCode groupID;
  mret (FormatInviteCode code).

Definition Kick_ (groupID actor target : uuid) : M World unit :=
  Kick groupID actor target ;;
  invalidate groupID ;;
  pushTo [target] EventGroupGone (PGroupRemoved (mk_OutGroupRemoved (uuid_string groupID) "kicked")) ;;
  pushMembers groupID actor "members" target.

(** The checks of [Update], and the name it stores. *)
Definition validateUpdate (req : updateGroupRequest) : result updateGroupRequest :=
  match up_GroupName req, up_Description req, up_Visibility req with
  | None, None, None => Err ErrNothingToUpdate
  | _, _, _ =>
    let name := TrimSpace <$> up_GroupName req in
    let n := from_option RuneCountInString 1 name in
    if (n =? 0) || (n >? maxGroupNameLen) then Err ErrInvalidGroupInfo
    else if from_option RuneCountInString 0 (up_Description req) >? maxDescLen then Err ErrInvalidGroupInfo
    else if negb (from_option validVisibility true (up_Visibility req)) then Err ErrInvalidGroupInfo
    else Ok (mk_updateGroupRequest name (up_Description req) (up_Visibility req))
  end.

Definition Update_ (groupID actor : uuid) (req : updateGroupRequest) : M World GroupPreview :=
  req ← lift_result (validateUpdate req);
  g ← Update groupID actor (up_GroupName req) (up_Description req) (up_Visibility req);
  invalidate groupID ;;
  pushMembers groupID actor "info" uuid_nil ;;
  mret g.

Definition TransferAdmin_ (groupID admin target : uuid) : M World unit :=
  TransferAdmin groupID admin target ;;
  invalidate groupID ;;
  pushMembers groupID admin "admin" target.

Definition SetRole_ (groupID admin target : uuid) (req : roleRequest) : M World unit :=
  if negb (bool_decide (rr_Role req = RoleModerator)) && negb (bool_decide (rr_Role req = RoleMember))
  then throw ErrBadRole
  else
    perms ← lift_result (cleanPermissions (rr_Permissions req));
    SetRole groupID admin target (rr_Role req) perms ;;
    invalidate groupID ;;
    pushMembers groupID admin "role" target.

Definition Delete_ (groupID admin : uuid) : M World unit :=
  members ← Delete groupID admin;
  invalidate groupID ;;
  run_onDelete groupID ;;
  let others := slices_delete (λ id, bool_decide (id = admin)) members in
  pushTo others EventGroupGone (PGroupRemoved (mk_OutGroupRemoved (uuid_string groupID) "deleted")).

Definition AddFriend (groupID actor target : uuid) : M World unit :=
  check groupID actor PermAddMembers ;;
  in_ ← IsMember groupID target;
  if in_ : bool then throw ErrAlreadyMember
  else
    ok ← AreFriends actor target;
    if negb ok then throw ErrNotFriend
    else
      AddMember_ groupID actor target ;;
      invalidate groupID ;;
      pushTo [target] EventGroupAdded
        (PGroupAdded (mk_OutGroupAdded (uuid_string groupID) (uuid_string actor))) ;;
      pushMembers groupID actor "joined" target ;;
      if gsv_notify
      then Notify (mk_Job KindGroupAdded [target] actor groupID uuid_nil EmptyString uuid_nil)
      else mret tt.

(** [users.ProcessAvatar] decodes and re-encodes the picture (image codecs of
    other packages): [img] is what it returned. *)
Definition SetAvatar_ (groupID actor : uuid) (img : result (list Z)) : M World (option string) :=
  img ← lift_result img;
  now ← Now;
  let at_ := now / millisecond * millisecond in
  SetAvatar groupID actor img at_ ;;
  pushMembers groupID actor "info" uuid_nil ;;
  mret (AvatarURL groupID (Some at_)).

Definition DeleteAvatar_ (groupID actor : uuid) : M World unit :=
  DeleteAvatar groupID actor ;;
  pushMembers groupID actor "info" uuid_nil.
End service.
