(* ===== verification/Groups_Service_Props.v ===== *)
(** * Groups_Service_Props: permissions and the cached snapshot

    The snapshot the service decides from says what the tables say; every
    service operation keeps it so when no call fails; and what the checks
    decide is what the roles in the tables allow. *)

From S2P Require Import Prelude GoLib Types Db Sql_Groups Groups_Model Versioned World Groups_Repo Groups_Refine Groups_Props Groups_Service Demo.

#[local] Open Scope Z_scope.

(** ** What a snapshot says *)

(** The snapshot [s] describes group [g] of [d]: its card, its members, and for
    each user the role and what it allows. *)
Definition snap_correct (d : DB) (g : uuid) (s : GroupSnapshot) : Prop :=
  ∃ row, chat_groups d !! g = Some row ∧
    gs_Name s = g_Name row ∧ gs_Public s = bool_decide (g_Visibility row = Public) ∧
    ∀ u, let '(role, perms) := snapshot_Role s u in
      match members_of d g !! u with
      | None => u ∉ gs_Members s ∧ role = EmptyString
      | Some m => u ∈ gs_Members s ∧ role ≠ EmptyString ∧
          (role = RoleAdmin ↔ m_Role m = RoleAdmin) ∧
          (role = RoleModerator ↔ m_Role m = RoleModerator) ∧
          ∀ perm, allowed role perms perm = allowed (m_Role m) (m_Permissions m) perm
      end.

Lemma members_where_lookup d g p u m :
  (u, m) ∈ members_where g p d ↔ members_of d g !! u = Some m ∧ p u m = true.
Proof. by rewrite elem_of_members_where, lookup_members_of. Qed.

Lemma NoDup_members_where g p d : NoDup (members_where g p d).*1.
Proof.
  unfold members_where. rewrite <- list_fmap_compose. apply NoDup_fmap_2_strong; [|apply NoDup_select].
  intros [[g1 u1] m1] [[g2 u2] m2] [H1 Hp1]%elem_of_select [H2 Hp2]%elem_of_select; simpl in *.
  apply andb_true_iff in Hp1 as [->%bool_decide_eq_true _], Hp2 as [->%bool_decide_eq_true _].
  intros ->. congruence.
Qed.

(** The admin the query finds is the one admin. *)
Lemma leader_found d g row :
  groups_ok d → chat_groups d !! g = Some row →
  ∃ a ma, (GetGroupLeader g d) = (Ok a, d) ∧ members_of d g !! a = Some ma ∧ m_Role ma = RoleAdmin ∧
          ∀ u m, members_of d g !! u = Some m → m_Role m = RoleAdmin ↔ u = a.
Proof.
  intros Hok Hrow. destruct (groups_ok_row _ _ _ Hok Hrow) as [(_ & _ & a & [ma Ha] & Hadm) _].
  simpl in *. assert (m_Role ma = RoleAdmin) as Hma by by apply (Hadm a ma).
  exists a, ma. split; [|done]. unfold GetGroupLeader.
  set (l := members_where g (λ _ m, bool_decide (m_Role m = RoleAdmin)) d).
  assert ((a, ma) ∈ l) as Hin.
  { apply members_where_lookup. split; [done|]. by apply bool_decide_eq_true. }
  destruct l as [|[a' ma'] l'] eqn:Hl; [by apply not_elem_of_nil in Hin|]. simpl.
  assert ((a', ma') ∈ l) as Hin' by (rewrite Hl; constructor).
  apply members_where_lookup in Hin' as [Hm' Hr']. apply bool_decide_eq_true in Hr'.
  assert (a' = a) as -> by by apply (Hadm a' ma'). done.
Qed.

Lemma mods_lookup d g u ps :
  (list_to_map ((λ um : uuid * MemberTable, (um.1, m_Permissions um.2)) <$>
     members_where g (λ _ m, bool_decide (m_Role m = RoleModerator)) d) : gmap uuid (list string)) !! u = Some ps ↔
  ∃ m, members_of d g !! u = Some m ∧ m_Role m = RoleModerator ∧ ps = m_Permissions m.
Proof.
  rewrite <- elem_of_list_to_map.
  2: { rewrite <- list_fmap_compose. exact (NoDup_members_where _ _ _). }
  rewrite list_elem_of_fmap. split.
  - intros ([u' m] & [= -> ->] & Hin). apply members_where_lookup in Hin as [Hm Hr%bool_decide_eq_true]. eauto.
  - intros (m & Hm & Hr & ->). exists (u, m). split; [done|].
    apply members_where_lookup. split; [done|]. by apply bool_decide_eq_true.
Qed.

Lemma mods_lookup_none d g u :
  (list_to_map ((λ um : uuid * MemberTable, (um.1, m_Permissions um.2)) <$>
     members_where g (λ _ m, bool_decide (m_Role m = RoleModerator)) d) : gmap uuid (list string)) !! u = None →
  ∀ m, members_of d g !! u = Some m → m_Role m ≠ RoleModerator.
Proof.
  intros Hnone m Hm Hr. destruct (mods_lookup d g u (m_Permissions m)) as [_ H].
  rewrite Hnone in H. by discriminate H; eauto.
Qed.

(** The four queries of a snapshot, run on one state of the tables. *)
Lemma snapshot_describes d g row a mods :
  groups_ok d → chat_groups d !! g = Some row → GetGroupLeader g d = (Ok a, d) →
  mods = (λ um : uuid * MemberTable, (um.1, m_Permissions um.2)) <$>
           members_where g (λ _ m, bool_decide (m_Role m = RoleModerator)) d →
  snap_correct d g
    (mk_GroupSnapshot (g_Name row) (g_MaxMember row) a (bool_decide (g_Visibility row = Public))
       (members_where g (λ _ _, true) d).*1 (list_to_map mods)).
Proof.
  intros Hok Hrow Hlead ->. exists row. do 3 (split; [done|]). intros u.
  destruct (leader_found d g row Hok Hrow) as (a' & ma & Hlead' & Ha & Hra & Hadm).
  assert (a' = a) as -> by congruence.
  assert (u ∈ (members_where g (λ _ _, true) d).*1 ↔ is_Some (members_of d g !! u)) as Hmem.
  { rewrite elem_of_member_ids. setoid_rewrite <- lookup_members_of. unfold is_Some. naive_solver. }
  unfold snapshot_Role. cbn [gs_AdminID gs_Mods gs_Members].
  destruct (decide (u = a)) as [->|Hne].
  { rewrite Ha in *. split; [by apply Hmem|]. rewrite Hra. done. }
  destruct ((list_to_map _ : gmap uuid (list string)) !! u) as [ps|] eqn:Hmods.
  { apply mods_lookup in Hmods as (m & Hm & Hr & ->). rewrite Hm in *.
    split; [by apply Hmem|]. by rewrite Hr. }
  pose proof (mods_lookup_none _ _ _ Hmods) as Hnomod.
  destruct (members_of d g !! u) as [m|] eqn:Hm.
  - specialize (Hnomod m eq_refl). assert (m_Role m ≠ RoleAdmin) as Hnoadm by (rewrite Hadm; done).
    assert (u ∈ (members_where g (λ _ _, true) d).*1) as Hin by by apply Hmem.
    rewrite (proj2 (slices_contains_true _ _) Hin). split; [done|]. split; [done|].
    split; [done|]. split; [done|]. intros perm. unfold allowed.
    by rewrite !decide_False by done.
  - assert (u ∉ (members_where g (λ _ _, true) d).*1) as Hnin by (rewrite Hmem; by intros []).
    unfold slices_contains. rewrite bool_decide_false by done. done.
Qed.

Lemma wp_Snapshot F d now g :
  groups_ok d →
  wp F (Snapshot_ g) d now (λ r d', d' = d ∧
    match r with
    | Ok s => snap_correct d g s
    | Err e => (F ∧ e = ErrInfra) ∨ (e = ErrNotFoundGroup ∧ chat_groups d !! g = None)
    end).
Proof.
  intros Hok. unfold Snapshot_. wp_step. apply wp_no_rows_as. wp_step; [by auto|].
  unfold GetGroupInfoByID. destruct (chat_groups d !! g) as [row|] eqn:Hrow; cbn [fst snd]; decide_errors.
  2: { by auto. }
  do 2 wp_step; [by auto|]. cbn [GetMemberListByID fst snd].
  do 4 wp_step; [wp_step; by auto|].
  destruct (leader_found d g row Hok Hrow) as (a & ma & Hlead & _). rewrite Hlead. cbn [fst snd].
  wp_step. do 2 wp_step; [by auto|]. cbn [ModeratorsOf fst snd]. wp_step. split; [done|].
  by apply snapshot_describes.
Qed.

(** ** Coherence of the cache *)

Section service.
Context {ulib : UuidLib} {ulaws : UuidLaws ulib} {fchk : FriendChecker} {gsv : GroupService}.

(** What the cache holds for a group describes the group, [g] excepted. *)
Definition fresh_but (skip : uuid → Prop) (w : World) : Prop :=
  ∀ g s, ¬ skip g → c_val (w_groups w) !! uuid_string g = Some s → snap_correct (w_db w) g s.

Definition coherent (w : World) : Prop :=
  groups_ok (w_db w) ∧ fresh_but (λ _, False) w.

(** A run of the group service: no write, coherent before and after. *)
Lemma snapshot_run F d g :
  hoare (λ w, w_db w = d ∧ coherent w ∧ may_fail F w) (snapshot g)
    (λ s w, (w_db w = d ∧ coherent w ∧ may_fail F w) ∧ snap_correct d g s)
    (λ e w, (w_db w = d ∧ coherent w ∧ may_fail F w) ∧
            ((F ∧ e = ErrInfra) ∨ (e = ErrNotFoundGroup ∧ chat_groups d !! g = None))).
Proof.
  unfold snapshot. apply Load_spec.
  - intros w b fs Hfs (Hd & Hc & [HF|Hf]); [|simpl in Hfs; congruence].
    split; [done|]. split; [done|]. by left.
  - intros w v (Hd & [Hok Hfr] & Hf) Hv. split; [done|]. split; [|done]. split; [done|].
    intros g' s Hskip. simpl. destruct (decide (g' = g)) as [->|Hne].
    + rewrite lookup_insert_eq. intros [= <-]. by rewrite Hd.
    + rewrite lookup_insert_ne by (intros ?%(inj uuid_string); congruence). by apply Hfr.
  - intros w v (Hd & [Hok Hfr] & Hf) Hv. rewrite <- Hd. apply (Hfr g v); [tauto|done].
  - intros w (Hd & [Hok Hfr] & Hf).
    destruct (wp_Snapshot F (w_db w) (w_now w) g Hok w eq_refl eq_refl Hf) as ([Hdb Hr] & (_ & Hg & _) & Hf').
    assert (∀ w', w_db w' = w_db w → w_groups w' = w_groups w → may_fail F w' →
              w_db w' = d ∧ coherent w' ∧ may_fail F w') as Hsame.
    { intros w' Hd' Hg' Hf''. split; [congruence|]. split; [|done]. unfold coherent, fresh_but.
      by rewrite Hd', Hg'. }
    destruct (Snapshot_ g w) as [[s|e] w']; simpl in *; rewrite <- Hd; (split; [rewrite Hd; by apply Hsame|done]).
Qed.

(** ** The operations keep the cache coherent *)

(** A world in which no call is going to fail. *)
Definition calm (w : World) : Prop := coherent w ∧ w_faults w = [].
Definition keeps {A} (m : M World A) : Prop := hoare calm m (λ _, calm) (λ _, calm).

Lemma keeps_ret {A} (a : A) : keeps (mret a).
Proof. by apply hoare_ret. Qed.
Lemma keeps_throw {A} e : keeps (throw e : M World A).
Proof. by apply hoare_throw. Qed.
Lemma keeps_lift {A} (r : result A) : keeps (lift_result r).
Proof. intros w Hw. by destruct r. Qed.
Lemma keeps_bind {A B} (m : M World A) (k : A → M World B) :
  keeps m → (∀ a, keeps (k a)) → keeps (m ≫= k).
Proof. intros Hm Hk. eapply hoare_bind; [exact Hm|exact Hk]. Qed.
Lemma keeps_try {A} (m : M World A) : keeps m → keeps (try m).
Proof. intros Hm. by apply hoare_try. Qed.
Lemma keeps_for_each {A} (l : list A) (f : A → M World unit) :
  (∀ x, x ∈ l → keeps (f x)) → keeps (for_each l f).
Proof.
  induction l as [|x l IH]; intros Hf; [apply keeps_ret|].
  apply keeps_bind; [apply Hf; constructor|]. intros _. apply IH. intros y Hy. apply Hf. by constructor.
Qed.

(** What neither writes to the tables nor to the cache. *)
Lemma keeps_frame {A} (m : M World A) :
  (∀ w, w_db (m w).2 = w_db w ∧ w_groups (m w).2 = w_groups w ∧
        (w_faults w = [] → w_faults (m w).2 = [])) → keeps m.
Proof.
  intros Hm w [Hc Hf]. destruct (Hm w) as (Hd & Hg & Hf').
  assert (calm (m w).2) as Hcalm.
  { unfold calm, coherent, fresh_but in *. rewrite Hd, Hg. auto. }
  by destruct (m w) as [[a|e] w'].
Qed.

Lemma keeps_emit e : keeps (emit e).
Proof. by apply keeps_frame. Qed.
Lemma keeps_Now : keeps Now.
Proof. by apply keeps_frame. Qed.
Lemma keeps_NewV7 : keeps NewV7.
Proof. apply keeps_frame. intros w. unfold NewV7. by destruct (w_ids w). Qed.
Lemma keeps_push targets ev : keeps (WriteToUsers targets ev).
Proof. intros w [Hc Hf]. unfold WriteToUsers, io. simpl. rewrite Hf. by split. Qed.

Lemma keeps_wp {A} (m : M World A) (Φ : DB → DB → Prop) :
  (∀ d now, groups_ok d → wp False m d now (λ _ d', Φ d d')) →
  (∀ d d', Φ d d' → groups_ok d → groups_ok d' ∧ ∀ g s, snap_correct d g s → snap_correct d' g s) →
  keeps m.
Proof.
  intros Hm HΦ w [[Hok Hfr] Hf].
  destruct (Hm (w_db w) (w_now w) Hok w eq_refl eq_refl (or_intror Hf)) as (Hd & (_ & Hg & _) & [[]|Hf']).
  destruct (HΦ _ _ Hd Hok) as [Hok' Hsn].
  assert (calm (m w).2) as Hcalm.
  { split; [|done]. split; [done|]. intros g s Hs. rewrite Hg. intros Hl. by apply Hsn, Hfr. }
  by destruct (m w) as [[a|e] w'].
Qed.

Lemma keeps_snapshot g : keeps (snapshot g).
Proof.
  intros w [Hc Hf].
  pose proof (snapshot_run False (w_db w) g w (conj eq_refl (conj Hc (or_intror Hf)))) as Hsnap.
  destruct (snapshot g w) as [[s|e] w']; destruct Hsnap as [(_ & Hc' & [[]|Hf']) _]; by split.
Qed.

Lemma snap_correct_other g d d' g' s :
  only_group g d d' → g' ≠ g → snap_correct d g' s → snap_correct d' g' s.
Proof. intros Honly Hne. destruct (Honly g' Hne) as [Hr Hms]. unfold snap_correct. by rewrite Hr, Hms. Qed.

(** A write to one group, then the invalidation of its snapshot. *)
Lemma keeps_write {A B} g (m : M World A) (k : A → M World B) :
  (∀ d now, groups_ok d → wp False m d now (λ r d',
     match r with Ok _ => only_group g d d' ∧ groups_ok d' | Err _ => d' = d end)) →
  (∀ a, keeps (k a)) → keeps (a ← m; invalidate g ;; k a).
Proof.
  intros Hm Hk w [[Hok Hfr] Hf].
  destruct (Hm (w_db w) (w_now w) Hok w eq_refl eq_refl (or_intror Hf)) as (Hd & (_ & Hg & _) & [[]|Hf']).
  rewrite bind_run. destruct (m w) as [[a|e] w1]; simpl in *.
  - destruct Hd as [Honly Hok1].
    assert (invalidate g w1 = (Ok tt, with_groups (cache_bump_all [uuid_string g] (w_groups w1)) w1)) as Hinv.
    { unfold invalidate, Invalidate, try, io. rewrite bind_run. simpl. by rewrite Hf'. }
    rewrite bind_run, Hinv. apply Hk. split; [|done]. split; [done|].
    intros g' s Hskip. simpl. destruct (decide (g' = g)) as [->|Hne].
    + by rewrite lookup_delete_eq.
    + rewrite lookup_delete_ne by (intros ?%(inj uuid_string); congruence).
      rewrite Hg. intros Hs%Hfr; [|done]. by eapply snap_correct_other.
  - split; [|done]. unfold coherent, fresh_but. by rewrite Hd, Hg.
Qed.

Lemma keeps_write_op {B} g op (k : unit → M World B) :
  op_valid op → (∀ a, keeps (k a)) → keeps (a ← run_op g op; invalidate g ;; k a).
Proof. intros Hv. apply keeps_write. intros d now Hok. by apply (wp_write False g d now op). Qed.

Lemma snap_correct_edited g d d' g' s :
  edited g false d d' → snap_correct d g' s → snap_correct d' g' s.
Proof.
  intros He (row & Hrow & Hname & Hvis & Hroles). destruct (He) as (Hm & Hg & Hr).
  assert (∃ row', chat_groups d' !! g' = Some row' ∧ g_Name row' = g_Name row ∧
                  g_Visibility row' = g_Visibility row) as (row' & Hrow' & Hn & Hv).
  { destruct (decide (g' = g)) as [->|Hne]; [|rewrite Hg by done; by eauto].
    rewrite Hrow in Hr. destruct (chat_groups d' !! g) as [row'|]; [|done].
    exists row'. split; [done|]. by apply Hr. }
  exists row'. split; [done|]. rewrite Hn, Hv. split; [done|]. split; [done|].
  by rewrite (members_of_table d d').
Qed.

Lemma keeps_edit {A} g (m : M World A) :
  (∀ d now, wp False m d now (edit_post g false d)) → keeps m.
Proof.
  intros Hm. apply (keeps_wp _ (λ d d', d' = d ∨ edited g false d d')).
  - intros d now Hok. eapply wp_mono; [apply Hm|]. intros [a|e] d' H; (by right) || by left.
  - intros d d' [->|He] Hok; [by split|]. split; [by eapply edited_groups_ok|].
    intros g' s. by apply (snap_correct_edited g).
Qed.

Lemma keeps_create g creator req :
  2 <= cr_MaxMems req <= maxGroupSize → keeps (Create g creator req).
Proof.
  intros Hmax.
  apply (keeps_wp _ (λ d d', d' = d ∨ chat_groups d !! g = None ∧ only_group g d d' ∧ groups_ok d')).
  - intros d now Hok. eapply wp_mono; [by apply wp_Create|].
    intros [a|e] d' H; [right|by left]. by destruct H as (? & _ & ? & ?).
  - intros d d' [->|(Hnone & Honly & Hok')] Hok; [by split|]. split; [done|]. intros g' s Hs.
    destruct (decide (g' = g)) as [->|Hne]; [|by eapply snap_correct_other].
    destruct Hs as (row & Hrow & _). congruence.
Qed.

Lemma keeps_read {A} (m : M World A) :
  (∀ d now, wp False m d now (λ _ d', d' = d)) → keeps m.
Proof.
  intros Hm. apply (keeps_wp _ (λ d d', d' = d)); [by intros d now _; apply Hm|].
  intros d d' -> Hok. by split.
Qed.

(** What the service's collaborators must do: the other services keep the
    groups' tables and cache as they are supposed to. *)
Context (hooks_keep : ∀ fn, fn ∈ gsv_onDelete → ∀ g, keeps (fn g)).
Context (friends_keep : ∀ a b, keeps (AreFriends a b)).

Lemma keeps_Members g : keeps (Members g).
Proof. apply keeps_bind; [apply keeps_snapshot|intros; apply keeps_ret]. Qed.
Lemma keeps_IsMember g u : keeps (IsMember g u).
Proof. apply keeps_bind; [apply keeps_snapshot|intros; apply keeps_ret]. Qed.
Lemma keeps_check g u perm : keeps (check g u perm).
Proof.
  apply keeps_bind; [apply keeps_snapshot|]. intros s. destruct (snapshot_Role s u).
  repeat case_match; auto using keeps_throw, keeps_ret.
Qed.
Lemma keeps_pushTo to event payload : keeps (pushTo to event payload).
Proof.
  unfold pushTo. destruct (_ || _); [apply keeps_ret|].
  apply keeps_bind; [apply keeps_try, keeps_push|intros; apply keeps_ret].
Qed.
Lemma keeps_pushMembers g actor change user : keeps (pushMembers g actor change user).
Proof.
  apply keeps_bind; [apply keeps_try, keeps_Members|]. intros [l|e]; [apply keeps_pushTo|apply keeps_ret].
Qed.
Lemma keeps_onDelete g : keeps (run_onDelete g).
Proof. apply keeps_for_each. intros fn Hfn. by apply hooks_keep. Qed.
Lemma keeps_JoinGroup g u : keeps (JoinGroup g u).
Proof. apply (keeps_write_op g (OpJoin u)); [done|]. intros _. apply keeps_pushMembers. Qed.
Lemma keeps_notify j : keeps (if gsv_notify then Notify j else mret tt).
Proof. destruct gsv_notify; [apply keeps_emit|apply keeps_ret]. Qed.

(** The operations of the service that reach its store. *)
Inductive sop : Type :=
  | SCreate (creator : uuid) (req : createGroupRequest)
  | SJoinPublic (g u : uuid)
  | SJoinByInvite (u : uuid) (raw : string)
  | SLeave (g u successor : uuid)
  | SRegenerateInvite (g u : uuid)
  | SKick (g actor target : uuid)
  | SUpdate (g actor : uuid) (req : updateGroupRequest)
  | STransfer (g admin target : uuid)
  | SSetRole (g admin target : uuid) (req : roleRequest)
  | SDelete (g admin : uuid)
  | SAddFriend (g actor target : uuid)
  | SSetAvatar (g actor : uuid) (img : result (list Z))
  | SDeleteAvatar (g actor : uuid)
  | SCheck (g u : uuid) (perm : string).

Definition run_sop (op : sop) : M World unit :=
  match op with
  | SCreate creator req => CreateGroup_ creator req ;; mret tt
  | SJoinPublic g u => JoinPublic g u
  | SJoinByInvite u raw => JoinByInvite u raw ;; mret tt
  | SLeave g u successor => LeaveGroup g u successor
  | SRegenerateInvite g u => RegenerateInvite g u ;; mret tt
  | SKick g actor target => Kick_ g actor target
  | SUpdate g actor req => Update_ g actor req ;; mret tt
  | STransfer g admin target => TransferAdmin_ g admin target
  | SSetRole g admin target req => SetRole_ g admin target req
  | SDelete g admin => Delete_ g admin
  | SAddFriend g actor target => AddFriend g actor target
  | SSetAvatar g actor img => SetAvatar_ g actor img ;; mret tt
  | SDeleteAvatar g actor => DeleteAvatar_ g actor
  | SCheck g u perm => check g u perm
  end.

Lemma keeps_ByInviteCode code : keeps (ByInviteCode code).
Proof.
  apply keeps_read. intros d now. unfold ByInviteCode. wp_step. apply wp_no_rows_as. wp_step; [done|].
  cbn [GetGroupByInviteCode fst snd]. destruct (one _); [|done]. cbn beta iota. by wp_step.
Qed.

Lemma keeps_run_sop op : keeps (run_sop op).
Proof.
  pose proof keeps_pushMembers. pose proof keeps_pushTo. pose proof keeps_JoinGroup.
  pose proof @keeps_ret. pose proof @keeps_throw. pose proof @keeps_lift. pose proof keeps_snapshot.
  destruct op as [creator req|g u|u raw|g u successor|g u|g actor target|g actor req|g admin target
                 |g admin target req|g admin|g actor target|g actor img|g actor|g u perm]; simpl.
  - apply keeps_bind; [|auto]. intros w Hw.
    destruct (validateCreate req) as [req'|e] eqn:Hv; unfold CreateGroup_; rewrite Hv; [|exact Hw].
    revert w Hw. change (keeps (groupID ← NewV7; Create groupID creator req' ;; mret groupID)).
    apply keeps_bind; [apply keeps_NewV7|]. intros g. apply keeps_bind; [|auto].
    apply keeps_create. by destruct (validateCreate_ok _ _ Hv).
  - apply keeps_bind; [auto|]. intros s. by destruct (negb _); auto.
  - apply keeps_bind; [|auto]. apply keeps_bind; [|intros; apply keeps_bind; auto].
    apply keeps_bind; [auto|]. intros code. apply keeps_ByInviteCode.
  - apply (keeps_write g).
    + intros d now Hok. eapply wp_mono; [by apply wp_Leave|]. intros r d'. by apply op_post_write.
    + intros lv. destruct (lv_Deleted lv); [apply keeps_onDelete|].
      apply keeps_bind; [|auto]. by case_decide; auto.
  - apply keeps_bind; [|auto]. apply keeps_bind; [apply keeps_check|]. intros _.
    apply keeps_bind; [|auto]. apply (keeps_edit g). intros d now. apply wp_invite.
  - apply (keeps_write_op g (OpKick actor target)); [done|]. intros _. by apply keeps_bind.
  - apply keeps_bind; [|auto]. apply keeps_bind; [auto|]. intros req'. apply (keeps_write g).
    + intros d now Hok. eapply wp_mono; [apply wp_Update|]. intros [a|e] d' H'; [|done].
      split; [by eapply edited_only_group|by eapply edited_groups_ok].
    + intros a. by apply keeps_bind.
  - apply (keeps_write_op g (OpTransfer admin target)); [done|]. by intros _.
  - unfold SetRole_. destruct (_ && _) eqn:Hrole; [auto|]. apply keeps_bind; [auto|]. intros perms.
    apply (keeps_write_op g (OpSetRole admin target (rr_Role req) perms)); [|by intros _].
    apply andb_false_iff in Hrole as [Hr|Hr]; apply negb_false_iff, bool_decide_eq_true in Hr; simpl; auto.
  - apply (keeps_write g); [|intros l; apply keeps_bind; [apply keeps_onDelete|auto]].
    intros d now Hok. eapply wp_mono; [by apply wp_Delete|]. intros r d'. by apply op_post_write.
  - apply keeps_bind; [apply keeps_check|]. intros _. apply keeps_bind; [apply keeps_IsMember|].
    intros []; [auto|]. apply keeps_bind; [auto|]. intros []; simpl; [|auto].
    apply (keeps_write_op g (OpAdd actor target)); [done|]. intros _. do 2 (apply keeps_bind; [auto|intros _]).
    apply keeps_notify.
  - apply keeps_bind; [|auto]. apply keeps_bind; [auto|]. intros im. apply keeps_bind; [apply keeps_Now|].
    intros now. apply keeps_bind; [|intros; by apply keeps_bind]. apply (keeps_edit g). intros d ?. apply wp_SetAvatar.
  - apply keeps_bind; [|auto]. apply (keeps_edit g). intros d ?. apply wp_DeleteAvatar.
  - apply keeps_check.
Qed.

(** ** The theorems *)

Definition run_sops (ops : list sop) (w : World) : World := foldl (λ w op, (run_sop op w).2) w ops.

(** C15. As long as no call fails, no sequence of group-service operations
    leaves in the cache a snapshot that differs from the tables: every write
    either leaves what snapshots say alone or is followed by the
    invalidation of that group's snapshot, whether the operation succeeds or
    is refused. *)
Theorem group_cache_coherent (ops : list sop) (w : World) :
  coherent w → w_faults w = [] → coherent (run_sops ops w) ∧ w_faults (run_sops ops w) = [].
Proof.
  revert w. induction ops as [|op ops IH]; intros w Hc Hf; [done|]. simpl.
  pose proof (keeps_run_sop op w (conj Hc Hf)) as Hk.
  apply IH; by destruct (run_sop op w) as [[a|e] w'], Hk.
Qed.

(** What the tables allow [u] to do in [g]. *)
Definition may (d : DB) (g u : uuid) (perm : string) : Prop :=
  ∃ m, member_table d !! (g, u) = Some m ∧ allowed (m_Role m) (m_Permissions m) perm = true.

(** The answer of [check]. *)
Definition check_answer (d : DB) (fs : list bool) (g u : uuid) (perm : string) (r : result unit) : Prop :=
  match r with
  | Ok _ => may d g u perm
  | Err e =>
    (e = ErrInfra ∧ fs ≠ []) ∨
    (e = ErrNoPermission ∧ is_Some (member_table d !! (g, u)) ∧ ¬ may d g u perm) ∨
    (e = ErrNotFoundGroup ∧ member_table d !! (g, u) = None)
  end.

Lemma check_run (g u : uuid) (perm : string) (w : World) (r : result unit) (w' : World) :
  coherent w → check g u perm w = (r, w') →
  w_db w' = w_db w ∧ check_answer (w_db w) (w_faults w) g u perm r.
Proof.
  unfold check_answer.
  intros Hc. assert (may_fail (w_faults w ≠ []) w) as Hf.
  { unfold may_fail. destruct (w_faults w); [by right|by left]. }
  pose proof (snapshot_run (w_faults w ≠ []) (w_db w) g w (conj eq_refl (conj Hc Hf))) as Hsnap.
  unfold check. rewrite bind_run. destruct (snapshot g w) as [[s|e] w1].
  - destruct Hsnap as [(Hd & _) (row & _ & _ & _ & Hroles)]. specialize (Hroles u).
    rewrite lookup_members_of in Hroles. unfold may.
    destruct (snapshot_Role s u) as [role perms].
    destruct (member_table (w_db w) !! (g, u)) as [m|].
    + destruct Hroles as (_ & Hne & _ & _ & Hallow). rewrite decide_False, Hallow by done.
      destruct (allowed _ _ _) eqn:Hal; simpl; intros [= <- <-]; split; try done; [by eauto|].
      right; left. split; [done|]. split; [by eauto|]. intros (m' & [= <-] & Hm'). congruence.
    + destruct Hroles as [_ ->]. rewrite decide_True by done. intros [= <- <-]. split; [done|]. by right; right.
  - destruct Hsnap as [(Hd & [Hok _] & _) He]. intros [= <- <-]. split; [done|].
    destruct He as [[? ->]|[-> Hnone]]; [by left|]. right; right. split; [done|].
    rewrite <- lookup_members_of, members_of_none; [apply lookup_empty|by rewrite <- Hd|done].
Qed.

(** The permission check of the service answers from the tables' roles:
    it passes only for a member whose role and permissions allow the action,
    answers that the group does not exist exactly to those who are not in it,
    and refuses permission only to members who lack it; when no call fails it
    gives one of these answers. *)
Theorem check_decides (g u : uuid) (perm : string) (w : World) (r : result unit) (w' : World) :
  coherent w → check g u perm w = (r, w') →
  w_db w' = w_db w ∧ check_answer (w_db w) (w_faults w) g u perm r.
Proof. apply check_run. Qed.

(** The role of a member in the tables. *)
Definition has_role (d : DB) (g u : uuid) (role : string) : Prop :=
  ∃ m, member_table d !! (g, u) = Some m ∧ m_Role m = role.

(** Who may delete whose message: the admin anyone's; a moderator with
    the delete_messages permission that of anyone who is neither the admin nor
    a moderator; nobody else any. *)
Theorem can_delete_message_rule (g actor sender : uuid) (w : World) (b : bool) (w' : World) :
  coherent w → CanDeleteMessage g actor sender w = (Ok b, w') →
  b = true ↔
  (has_role (w_db w) g actor RoleAdmin ∨
   has_role (w_db w) g actor RoleModerator ∧ may (w_db w) g actor PermDeleteMessages ∧
   ¬ has_role (w_db w) g sender RoleAdmin ∧ ¬ has_role (w_db w) g sender RoleModerator).
Proof.
  intros Hc. pose proof (snapshot_run True (w_db w) g w (conj eq_refl (conj Hc (or_introl I)))) as Hsnap.
  unfold CanDeleteMessage. rewrite bind_run. destruct (snapshot g w) as [[s|e] w1]; [|done].
  destruct Hsnap as [_ (row & _ & _ & _ & Hroles)].
  pose proof (Hroles actor) as Hactor. pose proof (Hroles sender) as Hsender. clear Hroles.
  rewrite lookup_members_of in Hactor, Hsender. unfold has_role, may.
  destruct (snapshot_Role s actor) as [role perms]. destruct (snapshot_Role s sender) as [srole sperms].
  cbn [fst]. destruct (member_table (w_db w) !! (g, actor)) as [m|].
  2: { destruct Hactor as [_ ->]. unfold allowed. rewrite !decide_False by done. intros [= <- _].
       split; [done|]. naive_solver. }
  destruct Hactor as (_ & _ & Hadm & Hmod & Hallow). case_decide as Hr.
  { intros [= <- _]. split; [|done]. intros _. left. exists m. split; [done|]. by apply Hadm. }
  rewrite Hallow. assert (m_Role m ≠ RoleAdmin) as Hnadm by (by rewrite <- Hadm).
  destruct (allowed _ _ _) eqn:Hal; simpl; intros [= <- _].
  2: { split; [done|]. intros [(? & [= <-] & ?)|(_ & (? & [= <-] & ?) & _)]; congruence. }
  assert (m_Role m = RoleModerator) as Hm by (apply allowed_cases in Hal as [?|[? _]]; done).
  rewrite andb_true_iff, !negb_true_iff, !bool_decide_eq_false.
  destruct (member_table (w_db w) !! (g, sender)) as [ms|].
  - destruct Hsender as (_ & _ & Hsadm & Hsmod & _). rewrite Hsadm, Hsmod. split.
    + intros [Hs1 Hs2]. right. split; [by eauto|]. split; [by eauto|]. naive_solver.
    + intros [(? & [= <-] & ?)|(_ & _ & Hs1 & Hs2)]; [done|]. split; eauto.
  - destruct Hsender as [_ ->]. split; [|done]. intros _. right. split; [by eauto|]. split; [by eauto|]. naive_solver.
Qed.

(** What follows the write leaves the tables alone. *)
Lemma untouched_wp {A} (m : M World A) :
  (∀ d now, wp True m d now (λ _ d', d' = d)) → untouched m.
Proof. intros Hm w r w' Hrun. by apply (wp_apply _ _ _ _ _ (Hm _ _) Hrun). Qed.

Lemma untouched_Snapshot g : untouched (Snapshot_ g).
Proof.
  apply untouched_bind.
  - unfold no_rows_as. apply untouched_bind; [|intros []; auto with world].
    apply untouched_try, untouched_query. intros d r d' [= _ <-]. done.
  - intros row. apply untouched_bind; [apply untouched_query; by intros d r d' [= _ <-]|]. intros l.
    apply untouched_bind.
    + apply untouched_bind; [apply untouched_try, untouched_query; by intros d r d' [= _ <-]|].
      intros []; [auto with world|]. case_decide; auto with world.
    + intros a. apply untouched_bind; [apply untouched_query; by intros d r d' [= _ <-]|].
      auto with world.
Qed.

Lemma untouched_Members g : untouched (Members g).
Proof. apply untouched_bind; [by apply untouched_Load, untouched_Snapshot|auto with world]. Qed.
Lemma untouched_pushTo to event payload : untouched (pushTo to event payload).
Proof. unfold pushTo. destruct (_ || _); auto 8 with world. Qed.
Lemma untouched_pushMembers g actor change user : untouched (pushMembers g actor change user).
Proof.
  apply untouched_bind; [apply untouched_try, untouched_Members|].
  intros [l|e]; [apply untouched_pushTo|auto with world].
Qed.
Lemma untouched_invalidate g : untouched (invalidate g).
Proof.
  apply untouched_bind; [|auto with world]. apply untouched_try, untouched_io.
  by intros w r w' [= _ <-].
Qed.

(** Removal takes effect at once: after a successful kick in which no
    call failed, the service denies the removed user membership, every check
    and every permission, although its answers come from the cache. *)
Theorem kick_revokes_access (g actor target : uuid) (w w' : World) :
  coherent w → w_faults w = [] → Kick_ g actor target w = (Ok tt, w') →
  (IsMember g target w').1 = Ok false ∧
  ∀ perm, (check g target perm w').1 = Err ErrNotFoundGroup.
Proof.
  intros Hc Hf Hrun. pose proof (keeps_run_sop (SKick g actor target) w (conj Hc Hf)) as Hk.
  simpl in Hk. rewrite Hrun in Hk. destruct Hk as [Hc' Hf']. destruct (Hc) as [Hok _].
  assert (chat_groups (w_db w') !! g ≠ None ∧ member_table (w_db w') !! (g, target) = None) as [Hg Hm].
  { apply bind_ok_inv in Hrun as ([] & w1 & Hkick & Hrest).
    pose proof (wp_apply _ _ _ _ _ (wp_run_op True g _ _ (OpKick actor target) Hok I) Hkick) as Hop.
    assert (w_db w' = w_db w1) as ->.
    { revert Hrest. apply untouched_bind; [apply untouched_invalidate|intros _].
      apply untouched_bind; [apply untouched_pushTo|intros _]. apply untouched_pushMembers. }
    destruct Hop as [(_ & [=] & _)|Hop].
    unfold abs at 1 in Hop. destruct (chat_groups (w_db w) !! g) as [row|]; [|by destruct Hop].
    cbn [a_step] in Hop. unfold a_as, a_kick in Hop.
    repeat case_match; try (by destruct Hop); simplify_eq.
    destruct Hop as (_ & Habs & _). unfold abs in Habs.
    destruct (chat_groups (w_db w1) !! g) as [row'|]; [|done]. split; [done|].
    injection Habs as _ Hms. rewrite <- lookup_members_of, Hms. apply lookup_delete_eq. }
  split.
  - pose proof (snapshot_run False (w_db w') g w' (conj eq_refl (conj Hc' (or_intror Hf')))) as Hsnap.
    unfold IsMember. rewrite bind_run. destruct (snapshot g w') as [[s|e] w2].
    + destruct Hsnap as [_ (row & _ & _ & _ & Hroles)]. specialize (Hroles target).
      destruct (snapshot_Role s target). rewrite lookup_members_of, Hm in Hroles. destruct Hroles as [Hn _].
      simpl. unfold slices_contains. by rewrite bool_decide_false.
    + destruct Hsnap as [_ [[[] _]|[_ Hnone]]]. done.
  - intros perm. destruct (check g target perm w') as [r w2] eqn:Hchk.
    destruct (check_run g target perm w' r w2 Hc' Hchk) as [_ Hr]. unfold check_answer, may in Hr.
    rewrite Hm in Hr. destruct r as [[]|e]; simpl.
    + by destruct Hr as (m & [=] & _).
    + destruct Hr as [[_ ?]|[(_ & [? [=]] & _)|[-> _]]]; done.
Qed.

(** ** What an outsider sees *)

Lemma wp_Detail F d now g viewer :
  wp F (Detail g viewer) d now (λ r d', d' = d ∧
    match r with
    | Ok det => ∃ row, chat_groups d !! g = Some row ∧ gd_Visibility det = g_Visibility row ∧
        (gd_IsMember det = false → gd_Members det = []) ∧
        (member_table d !! (g, viewer) = None → gd_IsMember det = false)
    | Err e => (F ∧ e = ErrInfra) ∨ (e = ErrNotFoundGroup ∧ chat_groups d !! g = None)
    end).
Proof.
  unfold Detail. wp_step. apply wp_no_rows_as. wp_step; [by auto|].
  unfold GetGroupInfoByID. destruct (chat_groups d !! g) as [row|] eqn:Hrow; cbn [fst snd]; decide_errors.
  2: { by auto. }
  do 2 wp_step; [by auto|]. cbn [ListGroupMembers fst snd]. wp_step. split; [done|].
  exists row. split; [done|]. cbn [gd_Visibility gd_IsMember gd_Members]. split; [done|].
  split; [by intros ->|]. intros Hnone. apply not_true_iff_false. rewrite existsb_exists.
  intros ([[u usr] m] & Hin & Hu%bool_decide_eq_true). simpl in Hu. subst u.
  apply list_elem_of_In, elem_of_order_by, list_elem_of_omap in Hin as ([u' m'] & Hin & Hrow').
  apply elem_of_members_where in Hin as [Hin _]. simpl in Hrow'.
  destruct (users d !! u') as [usr'|]; by simplify_eq.
Qed.

(** What the page of a group shows to someone who is not in it: a private
    group is reported as missing, exactly as a group that does not exist; of a
    public one everything but the list of its members. *)
Theorem group_detail_hides (g viewer : uuid) (w : World) (r : result GroupDetail) (w' : World) :
  member_table (w_db w) !! (g, viewer) = None → GroupDetail_ g viewer w = (r, w') →
  match r with
  | Ok det => (∃ row, chat_groups (w_db w) !! g = Some row ∧ g_Visibility row = Public) ∧
              gd_IsMember det = false ∧ gd_Members det = []
  | Err e => e = ErrNotFoundGroup ∨ (e = ErrInfra ∧ w_faults w ≠ [])
  end.
Proof.
  intros Hnone. destruct (wp_Detail (w_faults w ≠ []) (w_db w) (w_now w) g viewer w eq_refl eq_refl) as [[_ Hdet] _].
  { unfold may_fail. destruct (w_faults w); [by right|by left]. }
  unfold GroupDetail_. rewrite bind_run. destruct (Detail g viewer w) as [[det|e] w1]; simpl in Hdet.
  - destruct Hdet as (row & Hrow & Hvis & Hmem & Hin). specialize (Hin Hnone). rewrite Hin. simpl.
    case_bool_decide as Hv; simpl; intros [= <- <-]; [|by left].
    split; [exists row; split; congruence|]. auto.
  - intros [= <- <-]. destruct Hdet as [[? ->]|[-> _]]; [by right|by left].
Qed.
End service.

(** ** Concrete runs *)

#[local] Instance demo_friends : FriendChecker := {| AreFriends a b := mret true |}.

(** A hub, a notifier, and one hook that sends an event. *)
#[local] Instance demo_service : GroupService := {|
  gsv_notify := true;
  gsv_push := true;
  gsv_onDelete := [λ g, emit (BrokeUp g g)];
|}.

Lemma demo_hooks_keep : ∀ fn, fn ∈ gsv_onDelete → ∀ g, keeps (fn g).
Proof. intros fn ->%list_elem_of_singleton g. apply keeps_emit. Qed.

Lemma demo_friends_keep : ∀ a b, keeps (AreFriends a b).
Proof. intros a b. apply keeps_ret. Qed.

Lemma demo_coherent d : groups_ok d → coherent (demo_world d).
Proof. intros Hok. split; [done|]. intros g s _. simpl. by rewrite lookup_empty. Qed.

Lemma group_cache_coherent_witness :
  coherent (run_sops [SCheck team bob PermRemoveMembers; SKick team bob carol; SLeave team alice uuid_nil]
              (demo_world demo_db)) ∧
  c_val (w_groups (run_sops [SCheck team bob PermRemoveMembers; SKick team bob carol] (demo_world demo_db)))
    !! uuid_string team = Some (mk_GroupSnapshot "team" 4 alice true [bob; alice]
                                  {[ bob := [PermRemoveMembers] ]}).
Proof.
  split; [|vm_compute; reflexivity].
  apply (group_cache_coherent demo_hooks_keep demo_friends_keep
    [SCheck team bob PermRemoveMembers; SKick team bob carol; SLeave team alice uuid_nil] (demo_world demo_db));
    [exact (demo_coherent _ demo_groups_ok)|reflexivity].
Defined.

Lemma check_decides_witness :
  may demo_db team bob PermRemoveMembers ∧ (check team bob PermRemoveMembers (demo_world demo_db)).1 = Ok tt.
Proof.
  split; [|vm_compute; reflexivity].
  apply (check_decides team bob PermRemoveMembers (demo_world demo_db) (Ok tt)
           (check team bob PermRemoveMembers (demo_world demo_db)).2);
    [exact (demo_coherent _ demo_groups_ok)|vm_compute; reflexivity].
Defined.

(** Bob may remove members, not delete messages. *)
Lemma can_delete_message_rule_witness :
  ¬ (has_role demo_db team bob RoleAdmin ∨
     has_role demo_db team bob RoleModerator ∧ may demo_db team bob PermDeleteMessages ∧
     ¬ has_role demo_db team carol RoleAdmin ∧ ¬ has_role demo_db team carol RoleModerator).
Proof.
  intros Hrole.
  assert (false = true) as Hb; [|discriminate Hb].
  apply (can_delete_message_rule team bob carol (demo_world demo_db) false
           (CanDeleteMessage team bob carol (demo_world demo_db)).2);
    [exact (demo_coherent _ demo_groups_ok)|vm_compute; reflexivity|exact Hrole].
Defined.

Lemma kick_revokes_access_witness :
  ∃ w', Kick_ team bob carol (demo_world demo_db) = (Ok tt, w') ∧ (IsMember team carol w').1 = Ok false.
Proof.
  exists (Kick_ team bob carol (demo_world demo_db)).2. split; [vm_compute; reflexivity|].
  apply (kick_revokes_access demo_hooks_keep demo_friends_keep team bob carol (demo_world demo_db));
    [exact (demo_coherent _ demo_groups_ok)|reflexivity|vm_compute; reflexivity].
Defined.

(** Dave is not in the team, whose page is public. *)
Lemma group_detail_hides_witness :
  ∃ det w', GroupDetail_ team dave (demo_world demo_db) = (Ok det, w') ∧ gd_Members det = [] ∧
            gd_MemberCount det = 3.
Proof.
  destruct (GroupDetail_ team dave (demo_world demo_db)) as [[det|e] w'] eqn:Hrun; [|vm_compute in Hrun; discriminate Hrun].
  exists det, w'. split; [reflexivity|].
  destruct (group_detail_hides team dave (demo_world demo_db) (Ok det) w' eq_refl Hrun) as (_ & _ & Hm).
  split; [exact Hm|]. vm_compute in Hrun. injection Hrun as <- _. reflexivity.
Defined.
