(* ===== verification/Friends_Service.v ===== *)
(** * Friends_Service: friend requests, friendships and blocks
    (src/internal/friends/repo.go and service.go)

    Each repository method is one statement with its errors translated; the
    service adds the block check, the cache, the hooks and the events. *)

From S2P Require Import Prelude GoLib Types Users_Model Db Sql_Friends Friends_Model Versioned World.

#[local] Open Scope Z_scope.

(** What the service needs from users (NameLookup). *)
Class NameLookup := { GetName : uuid → M World string }.

(** Fields set at start-up: whether there is a push notifier, and the hooks
    for a friendship that ends. *)
Class FriendsService := {
  fsv_alerts : bool;
  fsv_breaks : list (uuid → uuid → M World unit);
}.

(** ** repo.go *)

Module Repo.
Definition pg_code (e : error) : string :=
  match e with ErrPg code _ => code | _ => EmptyString end.

Section snapshot.
Context `{UuidLib} `{Collation}.

Definition meta (id : uuid) (u : User) : FriendMetaData :=
  mk_FriendMetaData id (u_name u) (ShownName (u_name u) (u_display_name u)) (AvatarURLFrom id (u_avatar_at u)).

(** [snap.Incoming[v.ID] = ...] row after row. *)
Definition by_request (rows : list (uuid * (uuid * User))) : gmap uuid FriendMetaData :=
  foldl (λ m (v : uuid * (uuid * User)), <[v.1 := meta v.2.1 v.2.2]> m) ∅ rows.

Definition Snapshot_ (userID : uuid) : M World Snapshot :=
  friends ← query (ListFriends userID);
  in_ ← query (ListIncomingFriendRequests userID);
  out ← query (ListOutgoingFriendRequests userID);
  mret (mk_Snapshot ((λ f : uuid * User, meta f.1 f.2) <$> friends) (by_request in_) (by_request out)).
End snapshot.

Definition Create (reqID fromID toID : uuid) : M World unit :=
  r ← try (query (CreateFriendRequest reqID fromID toID));
  match r with
  | Ok _ => mret tt
  | Err e =>
    if decide (pg_code e = "23505") then
      st ← try (query (PairStatus fromID toID));
      match st with
      | Ok status => throw (if decide (status = "confirm") then ErrAlreadyFriends else ErrRequestExists)
      | Err _ => throw ErrRequestExists
      end
    else if decide (pg_code e = "23503") then throw ErrUnknownUser
    else if decide (pg_code e = "23514") then throw ErrSelfRequest
    else throw e
  end.

Definition notFound (m : M World uuid) : M World uuid :=
  r ← try m;
  match r with
  | Ok id => mret id
  | Err e => throw (if decide (e = ErrNoRows) then ErrNotFound else e)
  end.

Definition Accept (reqID receiverID : uuid) : M World uuid :=
  notFound (query (AcceptFriendRequest reqID receiverID)).
Definition Deny (reqID receiverID : uuid) : M World uuid :=
  notFound (query (DenyFriendRequest reqID receiverID)).
Definition Cancel (reqID senderID : uuid) : M World uuid :=
  notFound (query (CancelFriendRequest reqID senderID)).

Definition Unfriend_ (a b : uuid) : M World unit :=
  r ← try (query (Unfriend a b));
  match r with
  | Ok _ => mret tt
  | Err e => throw (if decide (e = ErrNoRows) then ErrNotFriends else e)
  end.

Definition Block (blocker blocked : uuid) (at_ : time) : M World bool :=
  r ← try (query (BlockUser blocker blocked (pgTime at_)));
  match r with
  | Ok were => mret were
  | Err e => throw (if decide (pg_code e = "23503") then ErrUnknownUser else e)
  end.

Definition Unblock (blocker blocked : uuid) : M World unit := query (UnblockUser blocker blocked).

Definition Blocked (blocker : uuid) : M World (list BlockedUser) :=
  rows ← query (ListBlocked blocker);
  mret ((λ x : uuid * string * time, mk_BlockedUser x.1.1 x.1.2 x.2) <$> rows).

Definition BlockBetween_ (a b : uuid) : M World (bool * bool) := query (BlockBetween a b).
End Repo.

(** ** service.go *)

Section service.
Context `{UuidLib} `{Collation} `{NameLookup} `{FriendsService}.

Definition WriteIntoConnection (userID : uuid) (ev : Event) : M World unit :=
  _ ← try (WriteToUsers [userID] ev); mret tt.

Definition invalidate (ids : list uuid) : M World unit :=
  _ ← try (Invalidate (T := Snapshot) (uuid_string <$> ids)); mret tt.

Definition push (to : uuid) (event : string) (reqID fromID : uuid) : M World unit :=
  WriteIntoConnection to (mk_Event event (PFriend (mk_OutFriEvent (uuid_string reqID) (uuid_string fromID)))).

Definition alert (j : Job) : M World unit := if fsv_alerts then Notify j else mret tt.

Definition broke (a b : uuid) : M World unit := for_each fsv_breaks (λ fn, fn a b).

Definition Send (fromID toID : uuid) : M World uuid :=
  if decide (fromID = toID) then throw ErrSelfRequest
  else
    n ← try (GetName toID);
    match n with
    | Err e => throw (if decide (e = ErrUserNotFound) then ErrUnknownUser else e)
    | Ok _ =>
      b ← Repo.BlockBetween_ fromID toID;
      if b.1 : bool then throw ErrYouBlocked
      else if b.2 : bool then throw ErrUnknownUser
      else
        reqID ← NewV7;
        Repo.Create reqID fromID toID ;;
        invalidate [fromID; toID] ;;
        push toID EventAddFriend reqID fromID ;;
        alert (mk_Job KindFriendRequest [toID] fromID uuid_nil uuid_nil EmptyString uuid_nil) ;;
        mret reqID
    end.

Definition Accept (me reqID : uuid) : M World unit :=
  senderID ← Repo.Accept reqID me;
  invalidate [me; senderID] ;;
  push senderID EventAccept reqID me ;;
  alert (mk_Job KindFriendAccept [senderID] me uuid_nil uuid_nil EmptyString uuid_nil).

Definition Deny (me reqID : uuid) : M World unit :=
  senderID ← Repo.Deny reqID me;
  invalidate [me; senderID] ;;
  push senderID EventDeny reqID me.

Definition Cancel (me reqID : uuid) : M World unit :=
  receiverID ← Repo.Cancel reqID me;
  invalidate [me; receiverID].

Definition tell_unfriended (me other : uuid) : M World unit :=
  WriteIntoConnection other (mk_Event EventUnfriend (PUnfriend (mk_OutUnfriendEvent (uuid_string me)))).

Definition Unfriend_ (me other : uuid) : M World unit :=
  Repo.Unfriend_ me other ;;
  invalidate [me; other] ;;
  broke me other ;;
  tell_unfriended me other.

Definition Block (me other : uuid) : M World unit :=
  if decide (me = other) then throw ErrSelfBlock
  else
    now ← Now;
    wereFriends ← Repo.Block me other now;
    invalidate [me; other] ;;
    broke me other ;;
    if wereFriends : bool then tell_unfriended me other else mret tt.

Definition Unblock (me other : uuid) : M World unit := Repo.Unblock me other.

Definition Blocked (me : uuid) : M World (list BlockedUser) := Repo.Blocked me.

(** The users a snapshot shows, besides its owner. *)
Definition shown_in (snap : Snapshot) : list uuid :=
  (fmd_UserID <$> sn_Friends snap)
  ++ ((λ kv : uuid * FriendMetaData, fmd_UserID kv.2) <$> map_to_list (sn_Incoming snap))
  ++ ((λ kv : uuid * FriendMetaData, fmd_UserID kv.2) <$> map_to_list (sn_Outgoing snap)).

Definition ForgetNames (userID : uuid) : M World unit :=
  r ← try (Repo.Snapshot_ userID);
  match r with
  | Err _ => invalidate [userID]
  | Ok snap => invalidate (userID :: shown_in snap)
  end.

Definition Relationships (me : uuid) : M World Snapshot :=
  Load (uuid_string me) (Repo.Snapshot_ me).

Definition AreFriends_ (a b : uuid) : M World bool :=
  snap ← Relationships a;
  mret (existsb (λ f, bool_decide (fmd_UserID f = b)) (sn_Friends snap)).
End service.
