(* ===== verification/Friends_Props.v ===== *)
(** * Friends_Props: the theorems about friendships and blocks *)

From S2P Require Import Prelude GoLib Types Users_Model Db Sql_Friends Friends_Model Versioned World Friends_Service Demo.

#[local] Open Scope Z_scope.

(** ** The invariant of the tables *)

(** At most one row per pair, between different existing users, pending or
    confirmed, and none between users one of whom blocked the other. *)
Record rel_ok (d : DB) : Prop := {
  rel_unique id1 r1 id2 r2 :
    user_relationships d !! id1 = Some r1 → user_relationships d !! id2 = Some r2 →
    same_pair r2 (rel_UserID r1) (rel_OtheruserID r1) = true → id1 = id2;
  rel_shape id r : user_relationships d !! id = Some r →
    rel_UserID r ≠ rel_OtheruserID r ∧ (rel_Status r = "pending" ∨ rel_Status r = "confirm") ∧
    is_Some (users d !! rel_UserID r) ∧ is_Some (users d !! rel_OtheruserID r);
  rel_unblocked id r : user_relationships d !! id = Some r →
    user_blocks d !! (rel_UserID r, rel_OtheruserID r) = None ∧
    user_blocks d !! (rel_OtheruserID r, rel_UserID r) = None;
}.

(** Removing rows, or a block, or confirming a row keeps it. *)
Lemma rel_ok_sub d d' :
  users d' = users d → user_blocks d' ⊆ user_blocks d →
  (∀ id r', user_relationships d' !! id = Some r' →
     ∃ r, user_relationships d !! id = Some r ∧ rel_UserID r' = rel_UserID r ∧
          rel_OtheruserID r' = rel_OtheruserID r ∧
          (rel_Status r' = rel_Status r ∨ rel_Status r' = "confirm")) →
  rel_ok d → rel_ok d'.
Proof.
  intros Hu Hb Hsub [Huniq Hshape Hunb]. split.
  - intros id1 r1' id2 r2' (r1 & H1 & Ha1 & Hb1 & _)%Hsub (r2 & H2 & Ha2 & Hb2 & _)%Hsub Hp.
    apply (Huniq id1 r1 id2 r2); [done|done|]. apply same_pair_iff in Hp. apply same_pair_iff.
    by rewrite <- Ha1, <- Hb1, <- Ha2, <- Hb2.
  - intros id r' (r & Hr & -> & -> & Hs)%Hsub. destruct (Hshape id r Hr) as (? & Hst & ?).
    rewrite Hu. split; [done|]. split; [|done]. destruct Hs as [->| ->]; auto.
  - intros id r' (r & Hr & -> & -> & _)%Hsub. destruct (Hunb id r Hr) as [H1 H2].
    split; [eapply lookup_weaken_None; [exact H1|done]|eapply lookup_weaken_None; [exact H2|done]].
Qed.

Lemma rel_ok_del d id : rel_ok d → rel_ok (del_rel id d).
Proof.
  apply rel_ok_sub; [done|done|]. intros id' r' Hr'. simpl in Hr'.
  apply lookup_delete_Some in Hr' as [_ Hr']. exists r'; auto.
Qed.

Lemma rel_ok_filter d (P : uuid * UserRelationship → Prop) `{∀ x, Decision (P x)} :
  rel_ok d → rel_ok (with_user_relationships (filter P (user_relationships d)) d).
Proof.
  apply rel_ok_sub; [done|done|]. intros id' r' Hr'. simpl in Hr'.
  apply map_lookup_filter_Some in Hr' as [Hr' _]. exists r'; auto.
Qed.

Lemma request_row_some id p d r :
  request_row id p d = Some r → user_relationships d !! id = Some r ∧ p r = true.
Proof. unfold request_row. destruct (_ !! _); [|done]. destruct (p _) eqn:?; [|done]. by intros [= <-]. Qed.

(** ** The statements *)

Lemma rel_ok_Accept id u d : rel_ok d → rel_ok (AcceptFriendRequest id u d).2.
Proof.
  intros Hok. unfold AcceptFriendRequest. destruct (request_row _ _ _) as [r|] eqn:Hr; [|done].
  apply request_row_some in Hr as [Hr _]. revert Hok. apply rel_ok_sub; [done|done|].
  intros id' r' Hr'. simpl in Hr'. apply lookup_insert_Some in Hr' as [[<- <-]|[_ Hr']];
    [exists r|exists r']; auto.
Qed.

Lemma rel_ok_Deny id u d : rel_ok d → rel_ok (DenyFriendRequest id u d).2.
Proof. unfold DenyFriendRequest. destruct (request_row _ _ _); [apply rel_ok_del|done]. Qed.

Lemma rel_ok_Cancel id u d : rel_ok d → rel_ok (CancelFriendRequest id u d).2.
Proof. unfold CancelFriendRequest. destruct (request_row _ _ _); [apply rel_ok_del|done]. Qed.

Lemma rel_ok_Unfriend a b d : rel_ok d → rel_ok (Unfriend a b d).2.
Proof. unfold Unfriend. destruct (select _ _) as [|[]]; [done|]. by apply rel_ok_filter. Qed.

Lemma rel_ok_Unblock a b d : rel_ok d → rel_ok (UnblockUser a b d).2.
Proof.
  apply rel_ok_sub; [done|simpl; apply delete_subseteq|]. intros id r Hr. exists r; auto.
Qed.

(** A request between users who have not blocked each other. *)
Lemma rel_ok_Create id a b d :
  rel_ok d → user_blocks d !! (a, b) = None → user_blocks d !! (b, a) = None →
  rel_ok (CreateFriendRequest id a b d).2.
Proof.
  intros Hok Hab Hba. unfold CreateFriendRequest.
  case_decide as Hne; [done|]. destruct (_ !! id) eqn:Hid; [done|].
  destruct (pair_rows a b d) as [|x l] eqn:Hrows; [|done].
  destruct (users d !! a) eqn:Hua, (users d !! b) eqn:Hub; try done.
  assert (∀ id' r, user_relationships d !! id' = Some r → same_pair r a b = false) as Hnone.
  { intros id' r Hr. apply not_true_is_false. intros Hp.
    assert ((id', r) ∈ pair_rows a b d) as Hin by by apply elem_of_pair_rows.
    rewrite Hrows in Hin. by apply not_elem_of_nil in Hin. }
  destruct Hok as [Huniq Hshape Hunb]. split; simpl.
  - intros id1 r1 id2 r2 [[<- <-]|[Hn1 H1]]%lookup_insert_Some [[<- <-]|[Hn2 H2]]%lookup_insert_Some Hp.
    + done.
    + simpl in Hp. rewrite (Hnone _ _ H2) in Hp. done.
    + specialize (Hnone _ _ H1). apply same_pair_iff in Hp. simpl in Hp.
      apply not_true_iff_false in Hnone. destruct Hnone. apply same_pair_iff.
      destruct Hp as [[-> ->]|[-> ->]]; auto.
    + by eapply Huniq.
  - intros id' r [[<- <-]|[_ Hr]]%lookup_insert_Some; simpl; [|by eapply Hshape].
    rewrite Hua, Hub. split; [done|]. split; [by left|]. by split; eexists.
  - intros id' r [[<- <-]|[_ Hr]]%lookup_insert_Some; simpl; [done|by eapply Hunb].
Qed.

Lemma rel_ok_Block a b t d : rel_ok d → rel_ok (BlockUser a b t d).2.
Proof.
  intros Hok. unfold BlockUser. case_decide; [done|].
  assert (∀ bl, bl = user_blocks d ∨ bl = <[(a, b) := t]> (user_blocks d) →
     rel_ok (with_user_blocks bl (with_user_relationships
         (filter (λ kv, same_pair kv.2 a b = false) (user_relationships d)) d))) as Hgoal.
  2: { repeat case_match; simpl; try done; apply Hgoal; auto. }
  intros bl Hbl. apply (rel_ok_filter d (λ kv, same_pair kv.2 a b = false)) in Hok as [Huniq Hshape Hunb].
  split; simpl in *; [done|done|]. intros id r Hr. specialize (Hunb id r Hr).
  apply map_lookup_filter_Some in Hr as [_ Hp]. simpl in Hp. apply not_true_iff_false in Hp.
  destruct Hbl as [->| ->]; [done|].
  rewrite !lookup_insert_ne; [done| |]; intros [= -> ->]; apply Hp, same_pair_iff; auto.
Qed.

(** ** The service keeps the invariant *)

(** The tables of this component. *)
Definition friend_tables (d : DB) : gmap uuid UserRelationship * gmap (uuid * uuid) time * gmap uuid User :=
  (user_relationships d, user_blocks d, users d).

(** Properties of the database that are properties of these tables. *)
Class OnFriendTables (I : DB → Prop) := {
  on_tables d d' : friend_tables d' = friend_tables d → I d → I d'
}.

#[export] Instance rel_ok_on_tables : OnFriendTables rel_ok.
Proof.
  constructor. intros d d' [= Hr Hb Hu]. apply rel_ok_sub; [done|by rewrite Hb|].
  intros id r. rewrite Hr. exists r. auto.
Qed.

Lemma preserves_tables {A} (I : DB → Prop) `{OnFriendTables I} (m : M World A) :
  (∀ t, preserves (λ d, friend_tables d = t) m) → preserves I m.
Proof.
  intros Hm w HI. specialize (Hm (friend_tables (w_db w)) w eq_refl).
  destruct (m w) as [[a|e] w']; by apply (on_tables _ _ Hm).
Qed.

Lemma preserves_query {A} (I : DB → Prop) (q : M DB A) :
  (∀ d, I d → I (q d).2) → preserves I (query q).
Proof.
  intros Hq w HI. destruct (query q w) as [r w'] eqn:Hrun.
  apply query_cases in Hrun as [(fs & d & Hd & ->)|(-> & fs & ->)]; [|done].
  specialize (Hq _ HI). rewrite Hd in Hq. by destruct r.
Qed.

Lemma preserves_try {A} (I : DB → Prop) (m : M World A) : preserves I m → preserves I (try m).
Proof. intros Hm. by apply hoare_try. Qed.

Lemma preserves_for_each {A} (I : DB → Prop) (l : list A) (f : A → M World unit) :
  (∀ x, x ∈ l → preserves I (f x)) → preserves I (for_each l f).
Proof.
  induction l as [|x l IH]; intros Hf; [apply preserves_untouched, untouched_ret|].
  apply preserves_bind; [apply Hf; constructor|]. intros _. apply IH. intros y Hy. apply Hf. by constructor.
Qed.

Section service.
Context {ulib : UuidLib} {ulaws : UuidLaws ulib} {coll : Collation} {names : NameLookup} {fsv : FriendsService}.

(** What the service's collaborators must do: looking a name up and the
    hooks of an ended friendship leave the friendship tables alone. *)
Context (names_keep : ∀ id t, preserves (λ d, friend_tables d = t) (GetName id)).
Context (breaks_keep : ∀ fn, fn ∈ fsv_breaks → ∀ a b t, preserves (λ d, friend_tables d = t) (fn a b)).

Lemma untouched_WriteIntoConnection u ev : untouched (WriteIntoConnection u ev).
Proof. apply untouched_bind; auto with world. Qed.
Lemma friends_untouched_invalidate ids : untouched (invalidate ids).
Proof.
  apply untouched_bind; [|auto with world]. apply untouched_try, untouched_io. by intros w r w' [= _ <-].
Qed.
Lemma untouched_alert j : untouched (alert j).
Proof. unfold alert. destruct fsv_alerts; auto with world. Qed.
#[local] Hint Resolve untouched_WriteIntoConnection friends_untouched_invalidate untouched_alert : world.

Lemma preserves_GetName I `{OnFriendTables I} id : preserves I (GetName id).
Proof. by apply (preserves_tables I). Qed.
Lemma preserves_broke I `{OnFriendTables I} a b : preserves I (broke a b).
Proof. apply preserves_for_each. intros fn Hfn. apply (preserves_tables I). intros t. by apply breaks_keep. Qed.

Lemma preserves_notFound I (m : M World uuid) : preserves I m → preserves I (Repo.notFound m).
Proof.
  intros Hm. apply preserves_bind; [by apply preserves_try|].
  intros []; apply preserves_untouched; auto with world.
Qed.

(** Everything of a request but the friends tables' own statement. *)
Ltac rest := apply preserves_untouched; unfold push, tell_unfriended; auto 10 with world.

Lemma preserves_Create from to id :
  hoare (λ w, rel_ok (w_db w) ∧ user_blocks (w_db w) !! (from, to) = None ∧
              user_blocks (w_db w) !! (to, from) = None)
    (Repo.Create id from to) (λ _ w, rel_ok (w_db w)) (λ _ w, rel_ok (w_db w)).
Proof.
  unfold Repo.Create. eapply hoare_bind with (R := λ _ w, rel_ok (w_db w)).
  - apply hoare_try. intros w (Hok & Hab & Hba). destruct (query _ w) as [r w'] eqn:Hrun.
    apply query_cases in Hrun as [(fs & d & Hd & ->)|(-> & fs & ->)]; [|done].
    pose proof (rel_ok_Create id from to (w_db w) Hok Hab Hba) as Hok'. rewrite Hd in Hok'. by destruct r.
  - intros [|e]; [rest|]. case_decide.
    + apply preserves_bind; [by apply preserves_try, preserves_query|]. intros []; rest.
    + repeat case_decide; rest.
Qed.

Lemma preserves_Send from to : preserves rel_ok (Send from to).
Proof.
  unfold Send. case_decide; [rest|]. apply preserves_bind; [apply preserves_try, preserves_GetName, _|]. intros [n|e]; [|rest].
  eapply hoare_bind with (R := λ b w, rel_ok (w_db w) ∧
    b = (bool_decide (is_Some (user_blocks (w_db w) !! (from, to))),
         bool_decide (is_Some (user_blocks (w_db w) !! (to, from))))).
  { intros w Hok. destruct (Repo.BlockBetween_ from to w) as [r w'] eqn:Hrun.
    apply query_cases in Hrun as [(fs & d & [= <- <-] & ->)|(-> & fs & ->)]; done. }
  intros [b1 b2]. simpl. destruct b1; [by apply hoare_throw; intros w []|].
  destruct b2; [by apply hoare_throw; intros w []|].
  eapply hoare_bind with (R := λ _ w, rel_ok (w_db w) ∧ user_blocks (w_db w) !! (from, to) = None ∧
              user_blocks (w_db w) !! (to, from) = None).
  { intros w [Hok Hb]. assert (∀ w', w_db w' = w_db w → rel_ok (w_db w') ∧
      user_blocks (w_db w') !! (from, to) = None ∧ user_blocks (w_db w') !! (to, from) = None) as Hsame.
    { intros w' Hw'. rewrite Hw'. split; [done|]. injection Hb as H1 H2. symmetry in H1, H2.
      apply bool_decide_eq_false in H1, H2. by rewrite !eq_None_not_Some. }
    destruct (NewV7 w) as [r w'] eqn:Hrun. pose proof (untouched_newv7 w r w' Hrun) as Hd.
    destruct r; [by apply Hsame|]. by rewrite Hd. }
  intros id. eapply hoare_bind; [apply preserves_Create|]. intros ?. rest.
Qed.

Lemma untouched_Relationships me : untouched (Relationships me ;; mret tt).
Proof.
  apply untouched_bind; [|auto with world]. apply untouched_Load; [done|]. unfold Repo.Snapshot_.
  repeat (apply untouched_bind; [apply untouched_query; by intros d r d' [= _ <-]|intros ?]).
  apply untouched_ret.
Qed.

(** The operations of the friends service. *)
Inductive fop : Type :=
  | FSend (from to : uuid)
  | FAccept (me req : uuid)
  | FDeny (me req : uuid)
  | FCancel (me req : uuid)
  | FUnfriend (me other : uuid)
  | FBlock (me other : uuid)
  | FUnblock (me other : uuid)
  | FRelationships (me : uuid).

Definition run_fop (op : fop) : M World unit :=
  match op with
  | FSend from to => Send from to ;; mret tt
  | FAccept me req => Accept me req
  | FDeny me req => Deny me req
  | FCancel me req => Cancel me req
  | FUnfriend me other => Unfriend_ me other
  | FBlock me other => Block me other
  | FUnblock me other => Unblock me other
  | FRelationships me => Relationships me ;; mret tt
  end.

Lemma preserves_fop op : preserves rel_ok (run_fop op).
Proof.
  destruct op as [from to|me req|me req|me req|me other|me other|me other|me]; simpl.
  - apply preserves_bind; [apply preserves_Send|intros; rest].
  - apply preserves_bind; [apply preserves_notFound, preserves_query, rel_ok_Accept|intros; rest].
  - apply preserves_bind; [apply preserves_notFound, preserves_query, rel_ok_Deny|intros; rest].
  - apply preserves_bind; [apply preserves_notFound, preserves_query, rel_ok_Cancel|intros; rest].
  - apply preserves_bind; [|intros _; apply preserves_bind; [rest|intros _; apply preserves_bind;
                             [apply preserves_broke, _|intros; rest]]].
    apply preserves_bind; [apply preserves_try, preserves_query, rel_ok_Unfriend|]. intros []; rest.
  - unfold Block. case_decide; [rest|]. apply preserves_bind; [rest|]. intros t.
    apply preserves_bind.
    + apply preserves_bind; [apply preserves_try, preserves_query, rel_ok_Block|]. intros []; rest.
    + intros were. apply preserves_bind; [rest|]. intros _. apply preserves_bind; [apply preserves_broke, _|].
      intros _. destruct were; rest.
  - apply preserves_query, rel_ok_Unblock.
  - apply preserves_untouched, untouched_Relationships.
Qed.

(** One request served, from a database to the next. *)
Definition fstep (d d' : DB) : Prop :=
  ∃ op w, w_db w = d ∧ w_db (run_fop op w).2 = d'.

(** C16. Whatever requests are served one after the other, and whatever fails
    in them, no two users ever have more than one friendship or request between
    them, none has one with themselves, every row is pending or confirmed, and
    there is none between two users one of whom has blocked the other. *)
Theorem friendships_well_formed (d0 d : DB) :
  user_relationships d0 = ∅ → reachable fstep d0 d → rel_ok d.
Proof.
  intros H0. apply reachable_invariant.
  - split; intros *; rewrite H0, lookup_empty; done.
  - intros d1 d2 Hok (op & w & <- & <-). specialize (preserves_fop op w Hok).
    by destruct (run_fop op w) as [[]].
Qed.

(** ** Consent *)

(** Running an operation, given what each of its statements does to [I]. *)
Lemma preserves_fop_if I `{OnFriendTables I} op :
  (∀ d id, match op with FSend from to => I d → I (CreateFriendRequest id from to d).2 | _ => True end) →
  (∀ d, match op with
        | FAccept me req => I d → I (AcceptFriendRequest req me d).2
        | FDeny me req => I d → I (DenyFriendRequest req me d).2
        | FCancel me req => I d → I (CancelFriendRequest req me d).2
        | FUnfriend me other => I d → I (Unfriend me other d).2
        | FBlock me other => ∀ t, me ≠ other → I d → I (BlockUser me other t d).2
        | FUnblock me other => I d → I (UnblockUser me other d).2
        | _ => True
        end) →
  preserves I (run_fop op).
Proof.
  intros Hsend Hstmt. destruct op as [from to|me req|me req|me req|me other|me other|me other|me]; simpl in *.
  - apply preserves_bind; [|intros; rest]. unfold Send. case_decide; [rest|].
    apply preserves_bind; [apply preserves_try, preserves_GetName, _|]. intros [n|e]; [|rest].
    apply preserves_bind; [by apply preserves_query|]. intros [b1 b2]; simpl.
    destruct b1; [rest|]. destruct b2; [rest|]. apply preserves_bind; [rest|]. intros id.
    apply preserves_bind; [|intros; rest]. unfold Repo.Create.
    apply preserves_bind; [apply preserves_try, preserves_query; intros d; apply Hsend|]. intros [|e]; [rest|].
    case_decide; [|repeat case_decide; rest].
    apply preserves_bind; [by apply preserves_try, preserves_query|]. intros []; rest.
  - apply preserves_bind; [by apply preserves_notFound, preserves_query|intros; rest].
  - apply preserves_bind; [by apply preserves_notFound, preserves_query|intros; rest].
  - apply preserves_bind; [by apply preserves_notFound, preserves_query|intros; rest].
  - apply preserves_bind; [|intros _; apply preserves_bind; [rest|intros _; apply preserves_bind;
                             [apply preserves_broke, _|intros; rest]]].
    apply preserves_bind; [by apply preserves_try, preserves_query|]. intros []; rest.
  - unfold Block. case_decide; [rest|]. apply preserves_bind; [rest|]. intros t.
    apply preserves_bind.
    + apply preserves_bind; [apply preserves_try, preserves_query; intros d Hd; by apply Hstmt|].
      intros []; rest.
    + intros were. apply preserves_bind; [rest|]. intros _. apply preserves_bind; [apply preserves_broke, _|].
      intros _. destruct were; rest.
  - by apply preserves_query.
  - apply preserves_untouched, untouched_Relationships.
Qed.

Definition not_friends (a b : uuid) (d : DB) : Prop := friends_of a d b = false.

#[local] Instance not_friends_on_tables a b : OnFriendTables (not_friends a b).
Proof. constructor. unfold not_friends, friends_of. by intros d d' [= -> _ _]. Qed.

Lemma not_friends_iff a b d :
  not_friends a b d ↔ ∀ id r, user_relationships d !! id = Some r → same_pair r a b = true → is_confirm r = false.
Proof.
  unfold not_friends. rewrite <- not_true_iff_false, friends_of_iff. split.
  - intros Hn id r Hr Hp. apply not_true_is_false. intros Hc. apply Hn. eauto.
  - intros Hall (id & r & Hr & Hc & Hp). specialize (Hall id r Hr Hp). congruence.
Qed.

(** The rows of the result are rows of [d], or new ones. *)
Lemma not_friends_sub a b d d' :
  (∀ id r, user_relationships d' !! id = Some r →
     user_relationships d !! id = Some r ∨ is_confirm r = false) →
  not_friends a b d → not_friends a b d'.
Proof. rewrite !not_friends_iff. intros Hsub Hn id r [Hr|Hr]%Hsub Hp; [by eapply Hn|done]. Qed.

(** Two users become friends in one way only: by one of them accepting
    the pending request the other sent. *)
Theorem friendship_needs_consent (a b : uuid) (op : fop) (w : World) :
  friends_of a (w_db w) b = false → friends_of a (w_db (run_fop op w).2) b = true →
  ∃ me req r, op = FAccept me req ∧ user_relationships (w_db w) !! req = Some r ∧
    rel_Status r = "pending" ∧ rel_OtheruserID r = me ∧
    ((rel_UserID r = a ∧ me = b) ∨ (rel_UserID r = b ∧ me = a)).
Proof.
  intros Hnot Hnow.
  assert (preserves (not_friends a b) (run_fop op) → False) as Hkeep.
  { intros Hp. specialize (Hp w Hnot). unfold not_friends in Hp.
    destruct (run_fop op w) as [[]]; simpl in *; congruence. }
  destruct op as [from to|me req|me req|me req|me other|me other|me other|me].
  2: { assert (not_friends a b (AcceptFriendRequest req me (w_db w)).2 → False) as Hacc.
    { intros Hq. change (run_fop (FAccept me req)) with (Accept me req) in Hnow.
      assert (hoare (λ w', w' = w) (run_fop (FAccept me req)) (λ _ w, not_friends a b (w_db w))
                (λ _ w, not_friends a b (w_db w))) as Hp.
      { unfold run_fop, Accept. eapply hoare_bind with (R := λ _ w, not_friends a b (w_db w)); [|intros u; rest].
        eapply hoare_bind with (R := λ _ w, not_friends a b (w_db w)); [|intros []; rest]. apply hoare_try. intros w0 ->.
        destruct (query _ w) as [r w'] eqn:Hrun.
        apply query_cases in Hrun as [(fs & d & Hd & ->)|(-> & fs & ->)]; [|done].
        rewrite Hd in Hq. by destruct r. }
      specialize (Hp w eq_refl). unfold not_friends in Hp. change (run_fop (FAccept me req)) with (Accept me req) in Hp.
      destruct (Accept me req w) as [[]]; simpl in *; congruence. }
    unfold AcceptFriendRequest in Hacc.
    destruct (request_row req (λ r, bool_decide (rel_OtheruserID r = me) && is_pending r) (w_db w)) as [r|] eqn:Hrow;
      [|done].
    apply request_row_some in Hrow as [Hr Hp]. apply andb_true_iff in Hp as [Hme Hpend].
    apply bool_decide_eq_true in Hme, Hpend. exists me, req, r. do 4 (split; [done|]).
    destruct (same_pair r a b) eqn:Hpair.
    { apply same_pair_iff in Hpair. rewrite <- Hme. destruct Hpair as [[? ?]|[? ?]]; auto. }
    destruct Hacc. revert Hnot. change (not_friends a b (w_db w) → not_friends a b (set_rel req
      (mk_UserRelationship (rel_UserID r) (rel_OtheruserID r) "confirm" (rel_CreatedAt r) (db_now (w_db w))) (w_db w))).
    rewrite !not_friends_iff. intros Hn id r' Hr' Hp'. simpl in Hr'.
    apply lookup_insert_Some in Hr' as [[<- <-]|[_ Hr']]; [|by eapply Hn].
    assert (same_pair r a b = true) by exact Hp'. congruence. }
  all: destruct Hkeep; apply preserves_fop_if; try done; try apply _.
  - intros d id Hn. unfold CreateFriendRequest. repeat case_match; try done. simpl.
    revert Hn. apply not_friends_sub. simpl. intros id' r [[<- <-]|[_ Hr]]%lookup_insert_Some; auto.
  - intros d. unfold DenyFriendRequest. destruct (request_row _ _ _); [|done]. apply not_friends_sub.
    simpl. intros id r0 [_ Hr]%lookup_delete_Some. auto.
  - intros d. unfold CancelFriendRequest. destruct (request_row _ _ _); [|done]. apply not_friends_sub.
    simpl. intros id r0 [_ Hr]%lookup_delete_Some. auto.
  - intros d. unfold Unfriend. destruct (select _ _) as [|[]]; [done|]. apply not_friends_sub.
    simpl. intros id r0 [Hr _]%map_lookup_filter_Some. auto.
  - intros d t Hne. unfold BlockUser. repeat case_match; try done; apply not_friends_sub;
      simpl; intros id r0 [Hr _]%map_lookup_filter_Some; auto.
Qed.

(** ** Blocking *)

(** [b] blocked [c], and there is nothing between them. *)
Definition cut (b c : uuid) (d : DB) : Prop :=
  is_Some (user_blocks d !! (b, c)) ∧ pair_rows b c d = [].

#[local] Instance cut_on_tables b c : OnFriendTables (cut b c).
Proof. constructor. unfold cut, pair_rows. by intros d d' [= -> -> _]. Qed.

Lemma BlockUser_cut me other t d were d' :
  BlockUser me other t d = (Ok were, d') →
  cut me other d' ∧ were = existsb (λ kv : uuid * UserRelationship, is_confirm kv.2) (pair_rows me other d).
Proof.
  unfold BlockUser. case_decide; [done|].
  assert (∀ bl : gmap (uuid * uuid) time, is_Some (bl !! (me, other)) →
    cut me other (with_user_blocks bl (with_user_relationships
       (filter (λ kv, same_pair kv.2 me other = false) (user_relationships d)) d))) as Hcut.
  { intros bl Hbl. split; [done|]. destruct (pair_rows _ _ _) as [|[id r] l] eqn:Hrows; [done|].
    assert ((id, r) ∈ pair_rows me other (with_user_blocks bl (with_user_relationships
       (filter (λ kv, same_pair kv.2 me other = false) (user_relationships d)) d))) as Hin
      by (rewrite Hrows; constructor).
    apply elem_of_pair_rows in Hin as [[_ Hr]%map_lookup_filter_Some Hp]. simpl in Hr. congruence. }
  repeat case_match; try done; intros [= <- <-]; (split; [apply Hcut|done]); [by eexists|..];
    rewrite ?lookup_insert_eq; by eexists.
Qed.

(** A block takes effect at once and both ways: when it succeeds, no
    friendship or request is left between the two users, and from then on,
    until it is lifted, neither can send the other a request. *)
Theorem block_cuts (me other : uuid) (w w' : World) :
  Block me other w = (Ok tt, w') →
  cut me other (w_db w') ∧
  ∀ w2 from to, friend_tables (w_db w2) = friend_tables (w_db w') →
    (from, to) = (me, other) ∨ (from, to) = (other, me) →
    is_ok (Send from to w2).1 = false ∧ friend_tables (w_db (Send from to w2).2) = friend_tables (w_db w').
Proof.
  intros Hrun.
  assert (hoare (λ _, True) (Block me other) (λ _ w, cut me other (w_db w)) (λ _ _, True)) as Hblock.
  { unfold Block. case_decide; [by apply hoare_throw|].
    eapply hoare_bind with (R := λ _ _, True); [by intros w0 _|]. intros t.
    eapply hoare_bind with (R := λ _ w, cut me other (w_db w)).
    - eapply hoare_bind with (R := λ r w, match r with Ok _ => cut me other (w_db w) | Err _ => True end).
      + apply hoare_try. intros w0 _. destruct (query _ w0) as [r w1] eqn:Hq.
        apply query_cases in Hq as [(fs & d & Hd & ->)|(-> & fs & ->)]; [|done].
        destruct r; [|done]. by apply BlockUser_cut in Hd as [? _].
      + intros [b|e]; [by apply hoare_ret|by apply hoare_throw].
    - intros were. eapply (hoare_conseq _ (λ w, cut me other (w_db w)) _ (λ _ w, cut me other (w_db w)) _
                            (λ _ w, cut me other (w_db w))); [|done|done|done].
      apply preserves_bind; [rest|]. intros _. apply preserves_bind; [apply preserves_broke, _|].
      intros _. destruct were; rest. }
  specialize (Hblock w I). rewrite Hrun in Hblock. split; [done|].
  intros w2 from to Htab Hdir.
  assert (hoare (λ w, friend_tables (w_db w) = friend_tables (w_db w')) (Send from to) (λ _ _, False)
                (λ _ w, friend_tables (w_db w) = friend_tables (w_db w'))) as Hsend.
  2: { specialize (Hsend w2 Htab). by destruct (Send from to w2) as [[]]. }
  unfold Send. case_decide; [by apply hoare_throw|].
  eapply hoare_bind with (R := λ _ w, friend_tables (w_db w) = friend_tables (w_db w')).
  { apply (preserves_try (λ d, friend_tables d = friend_tables (w_db w'))), names_keep. }
  intros [n|e]; [|by apply hoare_throw].
  eapply hoare_bind with (R := λ b w, friend_tables (w_db w) = friend_tables (w_db w') ∧
    (b.1 = true ∨ b.2 = true)).
  - intros w3 Hw3. destruct (Repo.BlockBetween_ from to w3) as [r w4] eqn:Hq.
    apply query_cases in Hq as [(fs & d & [= <- <-] & ->)|(-> & fs & ->)]; [|done].
    split; [done|]. injection Hw3 as _ Hb _. destruct Hblock as [Hbl _]. rewrite <- Hb in Hbl. simpl.
    rewrite !bool_decide_eq_true. destruct Hdir as [[= -> ->]|[= -> ->]]; auto.
  - intros [b1 b2]. simpl. destruct b1; [by apply hoare_throw; intros w3 []|].
    destruct b2; [by apply hoare_throw; intros w3 []|]. by intros w3 [_ [|]].
Qed.

(** ** The cached snapshot *)

(** The snapshot [s] lists the friends and the requests of [u]. *)
Definition shows (d : DB) (u : uuid) (s : Snapshot) : Prop :=
  (∀ v, v ∈ fmd_UserID <$> sn_Friends s ↔ friends_of u d v = true ∧ is_Some (users d !! v)) ∧
  (∀ id v, fmd_UserID <$> sn_Incoming s !! id = Some v ↔
     ∃ r, user_relationships d !! id = Some r ∧ rel_OtheruserID r = u ∧ is_pending r = true ∧ rel_UserID r = v) ∧
  (∀ id v, fmd_UserID <$> sn_Outgoing s !! id = Some v ↔
     ∃ r, user_relationships d !! id = Some r ∧ rel_UserID r = u ∧ is_pending r = true ∧ rel_OtheruserID r = v).

Lemma by_request_lookup (rows : list (uuid * (uuid * User))) id v :
  (∀ x y, x ∈ rows → y ∈ rows → x.1 = y.1 → x.2.1 = y.2.1) →
  fmd_UserID <$> Repo.by_request rows !! id = Some v ↔ ∃ usr, (id, (v, usr)) ∈ rows.
Proof.
  unfold Repo.by_request. revert v.
  induction rows as [|[k [v' u']] rows IH] using rev_ind; intros v Hfun; simpl.
  { rewrite lookup_empty. split; [done|]. intros [usr Hin]. by apply not_elem_of_nil in Hin. }
  assert (∀ x y, x ∈ rows → y ∈ rows → x.1 = y.1 → x.2.1 = y.2.1) as Hfun2.
  { intros x y Hx Hy. apply Hfun; apply elem_of_app; by left. }
  rewrite foldl_app. simpl. setoid_rewrite elem_of_app. setoid_rewrite list_elem_of_singleton.
  destruct (decide (id = k)) as [->|Hne].
  - rewrite lookup_insert_eq. simpl. split; [intros [= <-]; exists u'; by right|].
    intros [usr Hin]. f_equal.
    apply (Hfun (k, (v', u')) (k, (v, usr))); rewrite ?elem_of_app, ?list_elem_of_singleton; auto.
  - rewrite lookup_insert_ne by done. rewrite (IH v Hfun2). split; intros [usr Hin]; exists usr; [by left|].
    by destruct Hin as [?|[= -> _ _]].
Qed.

(** The rows of a request list. *)
Lemma request_rows d (p : uuid → UserRelationship → bool) (le : uuid * UserRelationship → uuid * UserRelationship → bool)
    (f : UserRelationship → uuid) id v :
  (∀ id r, user_relationships d !! id = Some r → is_Some (users d !! f r)) →
  fmd_UserID <$> Repo.by_request
    (omap (λ kv : uuid * UserRelationship, join_user (f kv.2) (λ u, (kv.1, (f kv.2, u))) d)
       (order_by le (select p (user_relationships d)))) !! id = Some v ↔
  ∃ r, user_relationships d !! id = Some r ∧ p id r = true ∧ f r = v.
Proof.
  intros Husers.
  assert (∀ x, x ∈ omap (λ kv : uuid * UserRelationship, join_user (f kv.2) (λ u, (kv.1, (f kv.2, u))) d)
       (order_by le (select p (user_relationships d))) ↔
       ∃ r, user_relationships d !! x.1 = Some r ∧ p x.1 r = true ∧ x.2.1 = f r ∧ users d !! f r = Some x.2.2) as Hin.
  { intros [k [w u]]. rewrite list_elem_of_omap. unfold join_user. split.
    - intros ([k' r] & Hr & Hj). apply elem_of_order_by, elem_of_select in Hr as [Hr Hp]. simpl in Hj.
      apply fmap_Some in Hj as (u' & Hu & [= -> -> ->]). eauto.
    - intros (r & Hr & Hp & Hw & Hu). simpl in *. subst w. exists (k, r).
      rewrite elem_of_order_by, elem_of_select. simpl. by rewrite Hu. }
  rewrite by_request_lookup.
  - setoid_rewrite Hin. simpl. split.
    + intros (usr & r & Hr & Hp & -> & _). eauto.
    + intros (r & Hr & Hp & <-). destruct (Husers id r Hr) as [usr Hu]. eauto 10.
  - intros x y (r1 & H1 & _ & -> & _)%Hin (r2 & H2 & _ & -> & _)%Hin Hxy. congruence.
Qed.

Lemma friends_wp_Snapshot F d now u :
  rel_ok d →
  wp F (Repo.Snapshot_ u) d now (λ r d', d' = d ∧
    match r with Ok s => shows d u s | Err e => F ∧ e = ErrInfra end).
Proof.
  intros [_ Hshape _]. unfold Repo.Snapshot_.
  do 2 wp_step; [by auto|]. cbn [ListFriends fst snd]. do 2 wp_step; [by auto|].
  cbn [ListIncomingFriendRequests fst snd]. do 2 wp_step; [by auto|].
  cbn [ListOutgoingFriendRequests fst snd]. wp_step. split; [done|]. split; [|split].
  - intros v. cbn [sn_Friends]. rewrite <- list_fmap_compose, list_elem_of_fmap. split.
    + intros ([v' usr] & -> & Hin). apply elem_of_order_by, elem_of_select in Hin as [Hu Hf]. eauto.
    + intros [Hf [usr Hu]]. exists (v, usr). split; [done|]. by apply elem_of_order_by, elem_of_select.
  - intros id v. cbn [sn_Incoming]. rewrite request_rows by (intros ?? H; by destruct (Hshape _ _ H) as (? & ? & ? & ?)).
    setoid_rewrite andb_true_iff. setoid_rewrite bool_decide_eq_true. naive_solver.
  - intros id v. cbn [sn_Outgoing]. rewrite request_rows by (intros ?? H; by destruct (Hshape _ _ H) as (? & ? & ? & ?)).
    setoid_rewrite andb_true_iff. setoid_rewrite bool_decide_eq_true. naive_solver.
Qed.

(** What the cache holds for a user is what the tables say. *)
Definition coherent (w : World) : Prop :=
  rel_ok (w_db w) ∧
  ∀ u s, c_val (w_friends w) !! uuid_string u = Some s → shows (w_db w) u s.

Lemma relationships_run F d u :
  hoare (λ w, w_db w = d ∧ coherent w ∧ may_fail F w) (Relationships u)
    (λ s w, (w_db w = d ∧ coherent w ∧ may_fail F w) ∧ shows d u s)
    (λ e w, (w_db w = d ∧ coherent w ∧ may_fail F w) ∧ F ∧ e = ErrInfra).
Proof.
  unfold Relationships. apply (Load_spec (uuid_string u) (Repo.Snapshot_ u) _ _ (λ e, F ∧ e = ErrInfra)).
  - intros w b fs Hfs (Hd & Hc & [HF|Hf]); [|simpl in Hfs; congruence].
    split; [done|]. split; [done|]. by left.
  - intros w v (Hd & [Hok Hfr] & Hf) Hv. split; [done|]. split; [|done]. split; [done|].
    intros u' s. simpl. destruct (decide (u' = u)) as [->|Hne].
    + rewrite lookup_insert_eq. intros [= <-]. by rewrite Hd.
    + rewrite lookup_insert_ne by (intros ?%(inj uuid_string); congruence). by apply Hfr.
  - intros w v (Hd & [Hok Hfr] & Hf) Hv. rewrite <- Hd. apply (Hfr u v Hv).
  - intros w (Hd & [Hok Hfr] & Hf).
    destruct (friends_wp_Snapshot F (w_db w) (w_now w) u Hok w eq_refl eq_refl Hf) as ([Hdb Hr] & (_ & _ & Hg) & Hf').
    assert (∀ w', w_db w' = w_db w → w_friends w' = w_friends w → may_fail F w' →
              w_db w' = d ∧ coherent w' ∧ may_fail F w') as Hsame.
    { intros w' Hd' Hg' Hf''. split; [congruence|]. split; [|done]. unfold coherent. by rewrite Hd', Hg'. }
    destruct (Repo.Snapshot_ u w) as [[s|e] w']; simpl in *; rewrite <- Hd; (split; [rewrite Hd; by apply Hsame|done]).
Qed.

(** ** The operations keep the cache coherent *)

(** [d'] differs from [d] between [a] and [b] only. *)
Definition only_pair (a b : uuid) (d d' : DB) : Prop :=
  users d' = users d ∧
  ∀ id r, same_pair r a b = false → user_relationships d' !! id = Some r ↔ user_relationships d !! id = Some r.

Lemma shows_other a b d d' u s :
  only_pair a b d d' → u ≠ a → u ≠ b → shows d u s → shows d' u s.
Proof.
  intros [Hu Hrel] Ha Hb (Hf & Hi & Ho).
  assert (∀ r v, same_pair r u v = true → same_pair r a b = false) as Hother.
  { intros r v Hp%same_pair_iff. apply not_true_is_false. intros Hp'%same_pair_iff. naive_solver. }
  split; [|split].
  - intros v. rewrite Hf, Hu, !friends_of_iff.
    assert ((∃ id r, user_relationships d !! id = Some r ∧ is_confirm r = true ∧ same_pair r u v = true) ↔
            ∃ id r, user_relationships d' !! id = Some r ∧ is_confirm r = true ∧ same_pair r u v = true) as ->; [|done].
    split; intros (id & r & Hr & Hc & Hp); exists id, r; (split; [|done]); by apply (Hrel id r (Hother r v Hp)).
  - intros id v. rewrite Hi. split; intros (r & Hr & H1 & H2 & H3); exists r; (split; [|done]);
      apply (Hrel id r); try done; apply (Hother r v), same_pair_iff; auto.
  - intros id v. rewrite Ho. split; intros (r & Hr & H1 & H2 & H3); exists r; (split; [|done]);
      apply (Hrel id r); try done; apply (Hother r v), same_pair_iff; auto.
Qed.

(** The outcome of a statement about the pair. *)
Definition pair_post {A} (p : A → uuid * uuid) (d : DB) (r : result A) (d' : DB) : Prop :=
  match r with Ok a => only_pair (p a).1 (p a).2 d d' ∧ rel_ok d' | Err _ => d' = d end.

Lemma only_pair_del id r a b d :
  user_relationships d !! id = Some r → same_pair r a b = true → only_pair a b d (del_rel id d).
Proof.
  intros Hr Hp. split; [done|]. intros id' r' Hp'. simpl. rewrite lookup_delete_Some.
  split; [by intros []|]. intros Hr'. split; [|done]. intros <-. congruence.
Qed.

Lemma only_pair_set id r0 r a b d :
  user_relationships d !! id = r0 → (∀ r, r0 = Some r → same_pair r a b = true) → same_pair r a b = true →
  only_pair a b d (set_rel id r d).
Proof.
  intros Hr Hp0 Hp. split; [done|]. intros id' r' Hp'. simpl. destruct (decide (id' = id)) as [->|Hne].
  - rewrite lookup_insert_eq. split; [congruence|]. intros Hr'. rewrite Hr' in Hr. subst r0.
    specialize (Hp0 r' eq_refl). congruence.
  - by rewrite lookup_insert_ne.
Qed.

Lemma wp_notFound F d now (q : M DB uuid) p :
  pair_post p d (q d).1 (q d).2 → wp F (Repo.notFound (query q)) d now (pair_post p d).
Proof.
  intros Hq. unfold Repo.notFound. do 3 wp_step; [by wp_step|].
  destruct (q d) as [[a|e] d']; simpl in *; by wp_step.
Qed.

Lemma pair_post_Accept d req me :
  rel_ok d → pair_post (λ s, (me, s)) d (AcceptFriendRequest req me d).1 (AcceptFriendRequest req me d).2.
Proof.
  intros Hok. pose proof (rel_ok_Accept req me d Hok) as Hok'. revert Hok'.
  unfold AcceptFriendRequest. destruct (request_row _ _ _) as [r|] eqn:Hrow; [|done].
  apply request_row_some in Hrow as [Hr [Hme%bool_decide_eq_true _]%andb_true_iff].
  cbn [fst snd pair_post]. split; [|done]. eapply only_pair_set; [exact Hr| |].
  - intros r' [= <-]. apply same_pair_iff. auto.
  - apply same_pair_iff. auto.
Qed.

Lemma pair_post_Deny d req me :
  rel_ok d → pair_post (λ s, (me, s)) d (DenyFriendRequest req me d).1 (DenyFriendRequest req me d).2.
Proof.
  intros Hok. unfold DenyFriendRequest. destruct (request_row _ _ _) as [r|] eqn:Hrow; [|done].
  apply request_row_some in Hrow as [Hr [Hme%bool_decide_eq_true _]%andb_true_iff].
  split; [|by apply rel_ok_del]. eapply only_pair_del; [exact Hr|]. apply same_pair_iff. simpl. auto.
Qed.

Lemma pair_post_Cancel d req me :
  rel_ok d → pair_post (λ s, (me, s)) d (CancelFriendRequest req me d).1 (CancelFriendRequest req me d).2.
Proof.
  intros Hok. unfold CancelFriendRequest. destruct (request_row _ _ _) as [r|] eqn:Hrow; [|done].
  apply request_row_some in Hrow as [Hr [Hme%bool_decide_eq_true _]%andb_true_iff].
  split; [|by apply rel_ok_del]. eapply only_pair_del; [exact Hr|]. apply same_pair_iff. simpl. auto.
Qed.

Lemma wp_Unfriend F d now a b :
  rel_ok d → wp F (Repo.Unfriend_ a b) d now (pair_post (λ _, (a, b)) d).
Proof.
  intros Hok. pose proof (rel_ok_Unfriend a b d Hok) as Hok'. unfold Repo.Unfriend_.
  do 3 wp_step; [by wp_step|]. revert Hok'. unfold Unfriend. destruct (select _ _) as [|[id r] l]; cbn [fst snd].
  { decide_errors. intros _. by wp_step. }
  intros Hok'. wp_step. split; [|done]. split; [done|]. intros id' r' Hp. simpl.
  rewrite map_lookup_filter_Some. simpl in *. rewrite Hp, andb_false_r. tauto.
Qed.

Lemma wp_Block F d now a b t :
  rel_ok d → wp F (Repo.Block a b t) d now (pair_post (λ _, (a, b)) d).
Proof.
  intros Hok. pose proof (rel_ok_Block a b (pgTime t) d Hok) as Hok'. unfold Repo.Block.
  do 3 wp_step; [by wp_step|]. revert Hok'. unfold BlockUser. case_decide; [intros _; cbn [fst snd]; by wp_step|].
  repeat case_match; simplify_eq/=; cbn [fst snd]; intros Hok'; wp_step; try done;
    (split; [|done]); (split; [done|]); intros id' r' Hp; simpl; rewrite map_lookup_filter_Some; simpl; tauto.
Qed.

Lemma friends_wp_Create F d now id a b :
  rel_ok d → user_blocks d !! (a, b) = None → user_blocks d !! (b, a) = None →
  wp F (Repo.Create id a b) d now (pair_post (λ _, (a, b)) d).
Proof.
  intros Hok Hab Hba. pose proof (rel_ok_Create id a b d Hok Hab Hba) as Hok'. unfold Repo.Create.
  assert (∀ e, wp F (if decide (Repo.pg_code e = "23505")
              then st ← try (query (PairStatus a b));
                   match st with
                   | Ok status => throw (if decide (status = "confirm") then ErrAlreadyFriends else ErrRequestExists)
                   | Err _ => throw ErrRequestExists
                   end
              else if decide (Repo.pg_code e = "23503") then throw ErrUnknownUser
              else if decide (Repo.pg_code e = "23514") then throw ErrSelfRequest else throw e)
            d now (pair_post (λ _ : unit, (a, b)) d)) as Herr.
  { intros e. repeat case_decide; try by wp_step. do 3 wp_step; [by wp_step|].
    cbn [PairStatus fst snd]. destruct (one _); by wp_step. }
  do 3 wp_step; [by wp_step|]. revert Hok'. unfold CreateFriendRequest.
  case_decide as Hne; [intros _; cbn [fst snd]; apply Herr|]. destruct (_ !! id) eqn:Hid; [intros _; cbn [fst snd]; apply Herr|].
  destruct (pair_rows a b d); [|intros _; cbn [fst snd]; apply Herr].
  destruct (users d !! a), (users d !! b); intros Hok'; cbn [fst snd]; try apply Herr. wp_step.
  split; [|done]. eapply only_pair_set; [exact Hid|done|]. apply same_pair_iff. auto.
Qed.

Definition calm (w : World) : Prop := coherent w ∧ w_faults w = [].
Definition keeps {A} (m : M World A) : Prop := hoare calm m (λ _, calm) (λ _, calm).

Lemma friends_keeps_bind {A B} (m : M World A) (k : A → M World B) :
  keeps m → (∀ a, keeps (k a)) → keeps (m ≫= k).
Proof. intros Hm Hk. eapply hoare_bind; [exact Hm|exact Hk]. Qed.

Lemma friends_keeps_frame {A} (m : M World A) :
  (∀ w, w_db (m w).2 = w_db w ∧ w_friends (m w).2 = w_friends w ∧
        (w_faults w = [] → w_faults (m w).2 = [])) → keeps m.
Proof.
  intros Hm w [Hc Hf]. destruct (Hm w) as (Hd & Hg & Hf').
  assert (calm (m w).2) as Hcalm.
  { unfold calm, coherent in *. rewrite Hd, Hg. auto. }
  by destruct (m w) as [[a|e] w'].
Qed.

Lemma friends_keeps_ret {A} (a : A) : keeps (mret a).
Proof. by apply friends_keeps_frame. Qed.
Lemma friends_keeps_throw {A} e : keeps (throw e : M World A).
Proof. by apply friends_keeps_frame. Qed.
Lemma keeps_Conn u ev : keeps (WriteIntoConnection u ev).
Proof.
  apply friends_keeps_frame. intros w. unfold WriteIntoConnection, try, WriteToUsers, io. rewrite bind_run. simpl.
  by destruct (w_faults w) as [|[] fs] eqn:E; simpl; rewrite ?E.
Qed.
Lemma keeps_alert j : keeps (alert j).
Proof. unfold alert. by destruct fsv_alerts; apply friends_keeps_frame. Qed.

(** A statement about a pair, then the invalidation of both snapshots. *)
Lemma friends_keeps_write {A B} (m : M World A) (p : A → uuid * uuid) (ids : A → list uuid) (k : A → M World B) :
  (∀ d now, rel_ok d → wp False m d now (pair_post p d)) →
  (∀ a, ids a = [(p a).1; (p a).2]) → (∀ a, keeps (k a)) → keeps (a ← m; invalidate (ids a) ;; k a).
Proof.
  intros Hm Hids Hk w [[Hok Hfr] Hf].
  destruct (Hm (w_db w) (w_now w) Hok w eq_refl eq_refl (or_intror Hf)) as (Hd & (_ & _ & Hg) & [[]|Hf']).
  rewrite bind_run. destruct (m w) as [[a|e] w1]; simpl in *.
  - destruct Hd as [Honly Hok1]. rewrite Hids.
    set (i1 := (p a).1) in *. set (i2 := (p a).2) in *.
    assert (invalidate [i1; i2] w1 =
      (Ok tt, with_friends (cache_bump_all [uuid_string i1; uuid_string i2] (w_friends w1)) w1)) as Hinv.
    { unfold invalidate, Invalidate, try, io. rewrite bind_run. simpl. by rewrite Hf'. }
    rewrite bind_run, Hinv. apply Hk. split; [|done]. split; [done|].
    intros u s. simpl. rewrite !lookup_delete_Some, Hg. intros (H2 & H1 & Hs).
    apply (shows_other i1 i2 (w_db w)); [done|by intros ->|by intros ->|by apply Hfr].
  - split; [|done]. unfold coherent. by rewrite Hd, Hg.
Qed.

Context (names_calm : ∀ id, keeps (GetName id)).
Context (breaks_calm : ∀ fn, fn ∈ fsv_breaks → ∀ a b, keeps (fn a b)).

Lemma keeps_broke a b : keeps (broke a b).
Proof.
  unfold broke. revert breaks_calm. generalize fsv_breaks as l. induction l as [|fn l IH]; intros Hl; [apply friends_keeps_ret|].
  apply friends_keeps_bind; [apply Hl; constructor|]. intros _. apply IH. intros f Hf. apply Hl. by constructor.
Qed.

Lemma keeps_Send from to : keeps (Send from to).
Proof.
  unfold Send. case_decide; [apply friends_keeps_throw|].
  apply friends_keeps_bind; [by apply hoare_try, names_calm|]. intros [n|e]; [|apply friends_keeps_throw].
  eapply hoare_bind with (R := λ b w, calm w ∧
    b = (bool_decide (is_Some (user_blocks (w_db w) !! (from, to))),
         bool_decide (is_Some (user_blocks (w_db w) !! (to, from))))).
  { intros w [Hc Hf]. unfold Repo.BlockBetween_, query, io. simpl. rewrite Hf. simpl. by destruct w. }
  intros [b1 b2]. simpl. destruct b1; [by apply hoare_throw; intros w []|].
  destruct b2; [by apply hoare_throw; intros w []|].
  intros w [Hc Hb]. injection Hb as H1 H2. symmetry in H1, H2. apply bool_decide_eq_false in H1, H2.
  apply eq_None_not_Some in H1, H2. rewrite bind_run. unfold NewV7.
  destruct (w_ids w) as [|id ids]; [done|].
  assert (keeps (x ← (λ w0, if decide (user_blocks (w_db w0) !! (from, to) = None ∧
                                        user_blocks (w_db w0) !! (to, from) = None)
                            then Repo.Create id from to w0 else (Err ErrInfra, w0));
                 invalidate [from; to] ;; push to EventAddFriend id from ;;
                 alert (mk_Job KindFriendRequest [to] from uuid_nil uuid_nil EmptyString uuid_nil) ;; mret id)) as Hk.
  { apply (friends_keeps_write _ (λ _, (from, to)) (λ _, [from; to])); [|done|].
    - intros d now Hok w0 <- <- Hf0. case_decide as Hbl; [|by split].
      by apply (friends_wp_Create False (w_db w0) (w_now w0) id from to Hok (proj1 Hbl) (proj2 Hbl)).
    - intros _. apply friends_keeps_bind; [apply keeps_Conn|]. intros _.
      apply friends_keeps_bind; [apply keeps_alert|]. intros _. apply friends_keeps_ret. }
  specialize (Hk (with_ids ids w)). rewrite bind_run in Hk. simpl in Hk. rewrite decide_True in Hk by done.
  rewrite bind_run. by apply Hk.
Qed.

(** As long as no call fails, no sequence of requests to the friends
    service leaves in the cache a list of friends or of requests that differs
    from the tables, whether the requests succeed or are refused. *)
Theorem friends_cache_coherent (ops : list fop) (w : World) :
  coherent w → w_faults w = [] →
  let w' := foldl (λ w op, (run_fop op w).2) w ops in coherent w' ∧ w_faults w' = [].
Proof.
  assert (∀ op, keeps (run_fop op)) as Hops.
  { pose proof keeps_Conn. pose proof keeps_alert. pose proof keeps_broke. pose proof @friends_keeps_ret.
    intros [from to|me req|me req|me req|me other|me other|me other|me]; simpl.
    - apply friends_keeps_bind; [apply keeps_Send|auto].
    - apply (friends_keeps_write _ (λ s, (me, s)) (λ s, [me; s])); [|done|intros s; apply friends_keeps_bind; [apply keeps_Conn|auto]].
      intros d now Hok. by apply wp_notFound, pair_post_Accept.
    - apply (friends_keeps_write _ (λ s, (me, s)) (λ s, [me; s])); [|done|intros s; apply keeps_Conn].
      intros d now Hok. by apply wp_notFound, pair_post_Deny.
    - unfold Cancel. intros w0 Hw.
      pose proof (friends_keeps_write (Repo.Cancel req me) (λ s, (me, s)) (λ s, [me; s]) (λ _, mret tt)) as Hk.
      specialize (Hk ltac:(intros d now Hok; by apply wp_notFound, pair_post_Cancel) ltac:(done) (λ _, friends_keeps_ret tt) w0 Hw).
      rewrite bind_run in *. destruct (Repo.Cancel req me w0) as [[s|e] w1]; [|done].
      rewrite bind_run in Hk. by destruct (invalidate [me; s] w1) as [[[]|e] w2].
    - apply (friends_keeps_write _ (λ _, (me, other)) (λ _, [me; other])); [|done|intros _; apply friends_keeps_bind; [auto|intros; apply keeps_Conn]].
      intros d now Hok. by apply wp_Unfriend.
    - unfold Block. case_decide; [apply friends_keeps_throw|]. apply friends_keeps_bind; [by apply friends_keeps_frame|]. intros t.
      apply (friends_keeps_write _ (λ _, (me, other)) (λ _, [me; other])); [|done|].
      + intros d now Hok. by apply wp_Block.
      + intros were. apply friends_keeps_bind; [auto|]. intros _. destruct were; [apply keeps_Conn|auto].
    - intros w0 [[Hok Hfr] Hf]. unfold Unblock, Repo.Unblock, query, io. simpl. rewrite Hf. simpl.
      split; [|done]. split; [by apply rel_ok_Unblock|]. exact Hfr.
    - intros w0 [Hc Hf].
      pose proof (relationships_run False (w_db w0) me w0 (conj eq_refl (conj Hc (or_intror Hf)))) as Hrel.
      rewrite bind_run. destruct (Relationships me w0) as [[s|e] w1];
        destruct Hrel as [(_ & Hc' & [[]|Hf']) _]; by split. }
  revert w. induction ops as [|op ops IH]; intros w Hc Hf; [done|]. simpl.
  pose proof (Hops op w (conj Hc Hf)) as Hk. apply IH; by destruct (run_fop op w) as [[a|e] w'], Hk.
Qed.

(** What AreFriends answers. *)
Lemma AreFriends_outcome (a b : uuid) (w : World) (r : result bool) (w' : World) :
  coherent w → AreFriends_ a b w = (r, w') →
  w_db w' = w_db w ∧
  match r with
  | Ok v => v = friends_of a (w_db w) b ∧ v = friends_of b (w_db w) a
  | Err e => e = ErrInfra ∧ w_faults w ≠ []
  end.
Proof.
  intros Hc. assert (may_fail (w_faults w ≠ []) w) as Hf.
  { unfold may_fail. destruct (w_faults w); [by right|by left]. }
  pose proof (relationships_run (w_faults w ≠ []) (w_db w) a w (conj eq_refl (conj Hc Hf))) as Hrel.
  unfold AreFriends_. rewrite bind_run. destruct (Relationships a w) as [[s|e] w1].
  - destruct Hrel as [(Hd & _) (Hfr & _)]. intros [= <- <-]. split; [done|].
    assert (existsb (λ f, bool_decide (fmd_UserID f = b)) (sn_Friends s) = friends_of a (w_db w) b) as ->.
    { apply eq_true_iff_eq. rewrite existsb_exists. destruct Hc as [[_ Hshape _] _].
      assert (friends_of a (w_db w) b = true ↔ b ∈ fmd_UserID <$> sn_Friends s) as ->.
      { rewrite Hfr. split; [|by intros []]. intros Hab. split; [done|].
        apply friends_of_iff in Hab as (id & r & Hr & _ & Hp%same_pair_iff).
        destruct (Hshape id r Hr) as (_ & _ & Hu1 & Hu2). destruct Hp as [[? ?]|[? ?]]; by subst. }
      rewrite list_elem_of_fmap. setoid_rewrite <- list_elem_of_In. setoid_rewrite bool_decide_eq_true.
      naive_solver. }
    split; [done|]. apply eq_true_iff_eq. rewrite !friends_of_iff. by setoid_rewrite (same_pair_sym _ a b).
  - destruct Hrel as [(Hd & _) [? ->]]. by intros [= <- <-].
Qed.

(** Asking whether two users are friends gives, from the cache, the
    answer of the tables, the same whichever of the two is asked about, and
    can only fail when a call fails. *)
Theorem are_friends_agrees (a b : uuid) (w : World) (r : result bool) (w' : World) :
  coherent w → AreFriends_ a b w = (r, w') →
  w_db w' = w_db w ∧
  match r with
  | Ok v => v = friends_of a (w_db w) b ∧ v = friends_of b (w_db w) a
  | Err e => e = ErrInfra ∧ w_faults w ≠ []
  end.
Proof. apply AreFriends_outcome. Qed.
End service.

(** ** A block between the check and the request

    [Send] reads the block list in one statement and inserts the request in
    another, in no transaction. *)

(** A block does not stop a request already being sent: when the block is
    committed after the request's block check and before its insertion, the
    pending request is created between users one of whom has blocked the other,
    and accepting it makes them friends. *)
Theorem block_can_race_send :
  ∃ d1 d2 d3 req,
    BlockBetween bob alice demo_db = (Ok (false, false), demo_db) ∧
    BlockUser alice bob 50 demo_db = (Ok false, d1) ∧
    CreateFriendRequest req bob alice d1 = (Ok tt, d2) ∧
    is_Some (user_blocks d2 !! (alice, bob)) ∧ pair_rows alice bob d2 ≠ [] ∧
    AcceptFriendRequest req alice d2 = (Ok bob, d3) ∧ friends_of alice d3 bob = true.
Proof.
  exists (BlockUser alice bob 50 demo_db).2,
    (CreateFriendRequest 301%N bob alice (BlockUser alice bob 50 demo_db).2).2,
    (AcceptFriendRequest 301%N alice (CreateFriendRequest 301%N bob alice (BlockUser alice bob 50 demo_db).2).2).2, 301%N.
  repeat split; try (vm_compute; reflexivity).
  - vm_compute. by eexists.
  - vm_compute. discriminate.
Qed.

(** ** Concrete runs *)

#[local] Instance demo_collation : Collation := {| name_le a b := true |}.

(** Names are looked up in the table; one hook tells the calls. *)
#[local] Instance demo_names : NameLookup := {|
  GetName id := r ← try (query (λ d, (match users d !! id with Some u => Ok (u_name u) | None => Err ErrNoRows end, d)));
                match r with
                | Ok n => mret n
                | Err e => throw (if decide (e = ErrNoRows) then ErrUserNotFound else e)
                end
|}.
#[local] Instance demo_fsv : FriendsService := {|
  fsv_alerts := true;
  fsv_breaks := [λ a b, emit (BrokeUp a b)];
|}.

Lemma demo_names_untouched id : untouched (GetName id).
Proof.
  apply untouched_bind; [apply untouched_try, untouched_query; by intros d r d' [= _ <-]|].
  intros []; auto with world.
Qed.

Lemma demo_names_keep id t : preserves (λ d, friend_tables d = t) (GetName id).
Proof. apply preserves_untouched, demo_names_untouched. Qed.

Lemma demo_breaks_keep fn : fn ∈ fsv_breaks → ∀ a b t, preserves (λ d, friend_tables d = t) (fn a b).
Proof. intros ->%list_elem_of_singleton a b t. apply preserves_untouched, untouched_emit. Qed.

Lemma demo_names_calm id : keeps (GetName id).
Proof.
  apply friends_keeps_frame. intros w. simpl. unfold try, query, io. rewrite bind_run. simpl.
  destruct (w_faults w) as [|[] fs] eqn:E; simpl; rewrite ?E; repeat case_match; simpl; rewrite ?E; done.
Qed.

Lemma demo_breaks_calm fn : fn ∈ fsv_breaks → ∀ a b, keeps (fn a b).
Proof. intros ->%list_elem_of_singleton a b. by apply friends_keeps_frame. Qed.

(** Dave asks bob, and bob accepts. *)
Definition demo_asked : World := (run_fop (FSend dave bob) (demo_world demo_db)).2.
Definition demo_friends : World := (run_fop (FAccept bob 201%N) demo_asked).2.

Lemma friendships_well_formed_witness :
  rel_ok (w_db demo_friends) ∧ friends_of bob (w_db demo_friends) dave = true.
Proof.
  split; [|vm_compute; reflexivity].
  apply (friendships_well_formed demo_names_keep demo_breaks_keep demo_db); [reflexivity|].
  apply (reach_step _ _ (w_db demo_asked)); [apply (reach_step _ _ demo_db); [apply reach_refl|]|].
  - exists (FSend dave bob), (demo_world demo_db). split; reflexivity.
  - exists (FAccept bob 201%N), demo_asked. split; reflexivity.
Defined.

Lemma friendship_needs_consent_witness :
  ∃ r, user_relationships (w_db demo_asked) !! 201%N = Some r ∧ rel_UserID r = dave.
Proof.
  destruct (friendship_needs_consent demo_names_keep demo_breaks_keep bob dave (FAccept bob 201%N) demo_asked)
    as (me & req & r & [= <- <-] & Hr & _ & Hme & Hsides); [vm_compute; reflexivity|vm_compute; reflexivity|].
  exists r. split; [exact Hr|]. destruct Hsides as [[Hu _]|[Hu _]]; [|exact Hu].
  vm_compute in Hr. injection Hr as <-. discriminate Hu.
Defined.

(** Bob blocks dave, whose requests are refused from then on. *)
Lemma block_cuts_witness :
  ∃ w', Block bob dave demo_friends = (Ok tt, w') ∧ cut bob dave (w_db w') ∧ is_ok (Send dave bob w').1 = false.
Proof.
  exists (Block bob dave demo_friends).2.
  assert (Block bob dave demo_friends = (Ok tt, (Block bob dave demo_friends).2)) as Hrun by (vm_compute; reflexivity).
  destruct (block_cuts demo_names_keep demo_breaks_keep bob dave demo_friends
              (Block bob dave demo_friends).2 Hrun) as [Hcut Hsend].
  split; [exact Hrun|]. split; [exact Hcut|].
  apply (Hsend (Block bob dave demo_friends).2 dave bob); [reflexivity|right; reflexivity].
Defined.

Lemma demo_rel_ok : rel_ok demo_db.
Proof. split; intros *; simpl; rewrite lookup_empty; done. Qed.

Lemma friends_demo_coherent : coherent (demo_world demo_db).
Proof. split; [exact demo_rel_ok|]. intros u s. simpl. by rewrite lookup_empty. Qed.

Definition demo_requests : list fop := [FSend dave bob; FRelationships bob; FAccept bob 201%N; FRelationships dave].

Lemma friends_cache_coherent_witness :
  coherent (foldl (λ w op, (run_fop op w).2) (demo_world demo_db) demo_requests).
Proof.
  exact (proj1 (friends_cache_coherent demo_names_calm demo_breaks_calm demo_requests (demo_world demo_db)
                  friends_demo_coherent eq_refl)).
Defined.

Lemma are_friends_agrees_witness :
  ∃ w', AreFriends_ dave bob (demo_world demo_db) = (Ok false, w') ∧ friends_of bob demo_db dave = false.
Proof.
  exists (AreFriends_ dave bob (demo_world demo_db)).2. split; [vm_compute; reflexivity|].
  destruct (are_friends_agrees dave bob (demo_world demo_db) (Ok false)
              (AreFriends_ dave bob (demo_world demo_db)).2 friends_demo_coherent) as (_ & _ & Hb);
    [vm_compute; reflexivity|]. symmetry. exact Hb.
Defined.
