(* ===== verification/Sql_Chat.v ===== *)
(** * Sql_Chat: the message statements (src/internal/database/chat.sql.go,
    reactions.sql.go, AllBannedUsers of admin.sql.go)

    Messages, reactions and read markers, with the constraints of src/sql/schema
    007, 015, 017, 025, 026, 028, 045, 047 and 048.  A row of [message] comes
    with its key: [(id, m)].  Counts are not narrowed to int32. *)

From S2P Require Import Prelude GoLib Types Db.

#[local] Open Scope Z_scope.

(** ** Orders *)

(** ORDER BY created_at DESC *)
Definition newest {A} (at_ : A → time) (x y : A) : bool := at_ y <=? at_ x.

(** (a.created_at, a.id) < (b.created_at, b.id) *)
Definition row_lt (a b : time * uuid) : bool := (a.1 <? b.1) || ((a.1 =? b.1) && (a.2 <? b.2)%N).
Definition row_le (a b : time * uuid) : bool := (a.1 <? b.1) || ((a.1 =? b.1) && (a.2 <=? b.2)%N).

(** ORDER BY created_at DESC, id DESC *)
Definition newest_id {A} (key : A → time * uuid) (x y : A) : bool := row_le (key y) (key x).

Definition pm_key (r : uuid * Message) : time * uuid := (pm_CreatedAt r.2, r.1).
Definition gm_key (r : uuid * Groupmessage) : time * uuid := (gm_CreatedAt r.2, r.1).

(** ** Selections *)

(** ((from_id = a AND to_id = b) OR (from_id = b AND to_id = a)); comparing
    with NULL is not true. *)
Definition between (a b : uuid) (m : Message) : bool :=
  (bool_decide (pm_FromID m = Some a) && bool_decide (pm_ToID m = Some b)) ||
  (bool_decide (pm_FromID m = Some b) && bool_decide (pm_ToID m = Some a)).

Definition in_group (g : uuid) (m : Groupmessage) : bool := bool_decide (gm_GroupID m = Some g).

(** created_at >= (SELECT joined_at FROM member_table WHERE ...): not true when
    the viewer is not a member. *)
Definition since_joined (g viewer : uuid) (d : DB) (m : Groupmessage) : bool :=
  match member_table d !! (g, viewer) with
  | Some mt => m_JoinedAt mt <=? gm_CreatedAt m
  | None => false
  end.

Definition set_message (id : uuid) (m : Message) (d : DB) : DB := with_message (<[id := m]> (message d)) d.
Definition set_groupmessage (id : uuid) (m : Groupmessage) (d : DB) : DB :=
  with_groupmessage (<[id := m]> (groupmessage d)) d.

Definition content_ok (c : option string) : bool := from_option (varchar_ok 500) true c.

(** A nullable foreign key: NULL, or the id of a row ([self] when the row may
    refer to itself). *)
Definition fk_ok {A} (t : gmap uuid A) (o : option uuid) : bool :=
  from_option (λ id, bool_decide (is_Some (t !! id))) true o.

(** ** chat.sql.go *)

Definition AddLastSeenMessage (chatID : string) (messageID seenID : uuid) : M DB unit := λ d,
  match seen_messages d !! (chatID, seenID) with
  | Some old =>
    match message d !! messageID, message d !! old with
    | Some new, Some cur =>
      if pm_CreatedAt cur <=? pm_CreatedAt new
      then (Ok tt, with_seen_messages (<[(chatID, seenID) := messageID]> (seen_messages d)) d)
      else (Ok tt, d)
    | _, _ => (Ok tt, d)
    end
  | None =>
    match message d !! messageID, users d !! seenID with
    | Some _, Some _ => (Ok tt, with_seen_messages (<[(chatID, seenID) := messageID]> (seen_messages d)) d)
    | None, _ => (Err (foreign_key_violation "seen_messages_message_id_fkey"), d)
    | _, None => (Err (foreign_key_violation "seen_messages_seen_id_fkey"), d)
    end
  end.

Definition AddMessagePrivate (id : uuid) (content : option string) (parentid fromID toID : option uuid)
    (createdAt : time) (forwarded : bool) : M DB unit := λ d,
  if negb (content_ok content) then (Err string_too_long, d)
  else match message d !! id with
  | Some _ => (Err (unique_violation "message_pkey"), d)
  | None =>
    let m := mk_Message content parentid fromID toID None createdAt None forwarded in
    if negb (fk_ok (<[id := m]> (message d)) parentid) then (Err (foreign_key_violation "message_parentid_fkey"), d)
    else if negb (fk_ok (users d) fromID) then (Err (foreign_key_violation "message_from_id_fkey"), d)
    else if negb (fk_ok (users d) toID) then (Err (foreign_key_violation "message_to_id_fkey"), d)
    else (Ok tt, set_message id m d)
  end.

Definition AddMessagePublic (id : uuid) (content : option string) (groupID fromID parentID : option uuid)
    (createdAt : time) (forwarded : bool) : M DB unit := λ d,
  if negb (content_ok content) then (Err string_too_long, d)
  else match groupmessage d !! id with
  | Some _ => (Err (unique_violation "groupmessage_pkey"), d)
  | None =>
    let searchable := match groupID ≫= (λ g, chat_groups d !! g) with
                      | Some c => g_CurrentMember c <=? 50
                      | None => false
                      end in
    let m := mk_Groupmessage content groupID fromID parentID createdAt None None searchable forwarded in
    if negb (fk_ok (chat_groups d) groupID) then (Err (foreign_key_violation "groupmessage_group_id_fkey"), d)
    else if negb (fk_ok (users d) fromID) then (Err (foreign_key_violation "groupmessage_from_id_fkey"), d)
    else if negb (fk_ok (<[id := m]> (groupmessage d)) parentID)
    then (Err (foreign_key_violation "groupmessage_parent_id_fkey"), d)
    else (Ok tt, set_groupmessage id m d)
  end.

(** DELETE FROM ..._reactions WHERE message_id IN (...) *)
Definition drop_reactions (id : uuid) (m : gmap (uuid * uuid) Reaction) : gmap (uuid * uuid) Reaction :=
  filter (λ kv, kv.1.1 ≠ id) m.

Definition DeleteGroupMessage (at_ : time) (id : uuid) : M DB Z := λ d,
  match groupmessage d !! id with
  | Some m =>
    match gm_DeletedAt m with
    | Some _ => (Ok 0, d)
    | None =>
      let m' := mk_Groupmessage None (gm_GroupID m) (gm_FromID m) (gm_ParentID m) (gm_CreatedAt m)
                  (Some at_) (gm_EditedAt m) (gm_Searchable m) (gm_Forwarded m) in
      (Ok 1, with_group_message_reactions (drop_reactions id (group_message_reactions d)) (set_groupmessage id m' d))
    end
  | None => (Ok 0, d)
  end.

Definition DeletePrivateMessage (at_ : time) (id : uuid) : M DB Z := λ d,
  match message d !! id with
  | Some m =>
    match pm_DeletedAt m with
    | Some _ => (Ok 0, d)
    | None =>
      let m' := mk_Message None (pm_Parentid m) (pm_FromID m) (pm_ToID m) (Some at_) (pm_CreatedAt m)
                  (pm_EditedAt m) (pm_Forwarded m) in
      (Ok 1, with_message_reactions (drop_reactions id (message_reactions d)) (set_message id m' d))
    end
  | None => (Ok 0, d)
  end.

Definition EditGroupMessage (content : option string) (at_ : time) (id : uuid) : M DB Z := λ d,
  match groupmessage d !! id with
  | Some m =>
    if bool_decide (is_Some (gm_DeletedAt m)) then (Ok 0, d)
    else if negb (content_ok content) then (Err string_too_long, d)
    else (Ok 1, set_groupmessage id (mk_Groupmessage content (gm_GroupID m) (gm_FromID m) (gm_ParentID m)
                  (gm_CreatedAt m) (gm_DeletedAt m) (Some at_) (gm_Searchable m) (gm_Forwarded m)) d)
  | None => (Ok 0, d)
  end.

Definition EditPrivateMessage (content : option string) (at_ : time) (id : uuid) : M DB Z := λ d,
  match message d !! id with
  | Some m =>
    if bool_decide (is_Some (pm_DeletedAt m)) then (Ok 0, d)
    else if negb (content_ok content) then (Err string_too_long, d)
    else (Ok 1, set_message id (mk_Message content (pm_Parentid m) (pm_FromID m) (pm_ToID m) (pm_DeletedAt m)
                  (pm_CreatedAt m) (Some at_) (pm_Forwarded m)) d)
  | None => (Ok 0, d)
  end.

Definition GetGroupMessagesBefore (groupID : uuid) (beforeTime : time) (beforeID viewer : uuid) (lim : Z) :
    M DB (list (uuid * Groupmessage)) := λ d,
  (Ok (limit lim (order_by (newest_id gm_key)
        (select (λ id m, in_group groupID m && row_lt (gm_key (id, m)) (beforeTime, beforeID) &&
                         since_joined groupID viewer d m) (groupmessage d)))), d).

Definition GetPrivateMessagesBefore (a b : uuid) (beforeTime : time) (beforeID : uuid) (lim : Z) :
    M DB (list (uuid * Message)) := λ d,
  (Ok (limit lim (order_by (newest_id pm_key)
        (select (λ id m, between a b m && row_lt (pm_key (id, m)) (beforeTime, beforeID)) (message d)))), d).

(** ORDER BY created_at ASC *)
Definition GetPrivateMessagesSince (a b : uuid) (since : time) (lim : Z) : M DB (list (uuid * Message)) := λ d,
  (Ok (limit lim (order_by (λ x y, pm_CreatedAt x.2 <=? pm_CreatedAt y.2)
        (select (λ _ m, between a b m && (since <? pm_CreatedAt m)) (message d)))), d).

Definition GetRecentGroupMessages (groupID viewer : uuid) (lim : Z) : M DB (list (uuid * Groupmessage)) := λ d,
  (Ok (limit lim (order_by (newest (λ r, gm_CreatedAt r.2))
        (select (λ _ m, in_group groupID m && since_joined groupID viewer d m) (groupmessage d)))), d).

Definition GetRecentPrivateMessages (a b : uuid) (lim : Z) : M DB (list (uuid * Message)) := λ d,
  (Ok (limit lim (order_by (newest (λ r, pm_CreatedAt r.2)) (select (λ _ m, between a b m) (message d)))), d).

Definition GroupJoinedAt (groupID memberID : uuid) : M DB time := λ d,
  match member_table d !! (groupID, memberID) with
  | Some m => (Ok (m_JoinedAt m), d)
  | None => (Err ErrNoRows, d)
  end.

Definition GroupMessageContent (id : uuid) : M DB (option string * option time) := λ d,
  match groupmessage d !! id with
  | Some m => (Ok (gm_Content m, gm_DeletedAt m), d)
  | None => (Err ErrNoRows, d)
  end.

Definition GroupMessageCursor (id groupID : uuid) : M DB time := λ d,
  match groupmessage d !! id with
  | Some m => if in_group groupID m then (Ok (gm_CreatedAt m), d) else (Err ErrNoRows, d)
  | None => (Err ErrNoRows, d)
  end.

Definition GroupMessageInGroup (id groupID : uuid) : M DB bool := λ d,
  (Ok (from_option (in_group groupID) false (groupmessage d !! id)), d).

(** The four-way join: a marker, its message, its user, who is still a member. *)
Definition GroupReadBy (groupID sender : uuid) (msgAt : time) (msgID : uuid) :
    M DB (list (uuid * User * time)) := λ d,
  let joined (r : (uuid * uuid) * GroupRead) : option (uuid * User * time) :=
    rm ← groupmessage d !! gr_MessageID r.2;
    u ← users d !! r.1.2;
    _ ← member_table d !! r.1;
    if row_le (msgAt, msgID) (gm_key (gr_MessageID r.2, rm)) then Some (r.1.2, u, gr_UpdatedAt r.2) else None in
  (Ok (order_by (λ x y, x.2 <=? y.2)
        (omap joined (select (λ k _, bool_decide (k.1 = groupID) && negb (bool_decide (k.2 = sender)))
                        (group_reads d)))), d).

Definition MarkGroupRead (groupID userID messageID : uuid) : M DB Z := λ d,
  let put := with_group_reads (<[(groupID, userID) := mk_GroupRead messageID (db_now d)]> (group_reads d)) d in
  match group_reads d !! (groupID, userID) with
  | Some old =>
    match groupmessage d !! messageID, groupmessage d !! gr_MessageID old with
    | Some new, Some cur => if gm_CreatedAt cur <=? gm_CreatedAt new then (Ok 1, put) else (Ok 0, d)
    | _, _ => (Ok 0, d)
    end
  | None =>
    match chat_groups d !! groupID, users d !! userID, groupmessage d !! messageID with
    | Some _, Some _, Some _ => (Ok 1, put)
    | None, _, _ => (Err (foreign_key_violation "group_reads_group_id_fkey"), d)
    | _, None, _ => (Err (foreign_key_violation "group_reads_user_id_fkey"), d)
    | _, _, None => (Err (foreign_key_violation "group_reads_message_id_fkey"), d)
    end
  end.

Definition PrivateMessageContent (id : uuid) : M DB (option string * option time) := λ d,
  match message d !! id with
  | Some m => (Ok (pm_Content m, pm_DeletedAt m), d)
  | None => (Err ErrNoRows, d)
  end.

Definition PrivateMessageCursor (id a b : uuid) : M DB time := λ d,
  match message d !! id with
  | Some m => if between a b m then (Ok (pm_CreatedAt m), d) else (Err ErrNoRows, d)
  | None => (Err ErrNoRows, d)
  end.

Definition PrivateMessageInChat (id a b : uuid) : M DB bool := λ d,
  (Ok (from_option (between a b) false (message d !! id)), d).

(** The subselect gives no row when the message does not exist, and then no
    comparison with it is true. *)
Definition RecentGroupSenders (groupID msgID : uuid) : M DB (list uuid) := λ d,
  let upto := match groupmessage d !! msgID with
              | Some m => select (λ id g, in_group groupID g && row_le (gm_key (id, g)) (gm_key (msgID, m)))
                            (groupmessage d)
              | None => []
              end in
  (Ok (remove_dups (omap (λ r : uuid * Groupmessage, gm_FromID r.2) (limit 50 (order_by (newest_id gm_key) upto)))), d).

(** ** The chat list *)

(** The greater of two texts is the one the other is not greater than: text is
    compared byte by byte (COLLATE "C"), on the canonical form of the ids. *)
Definition chat_key `{UuidLib} (a b : uuid) : string :=
  let x := uuid_string a in let y := uuid_string b in
  if string_gt x y then (y +:+ "_" +:+ x)%string else (x +:+ "_" +:+ y)%string.

(** CASE WHEN from_id = me THEN to_id ELSE from_id END *)
Definition other_of (me : uuid) (m : Message) : option uuid :=
  if bool_decide (pm_FromID m = Some me) then pm_ToID m else pm_FromID m.

Record ListPrivateConversationsRow := mk_ListPrivateConversationsRow {
  lp_OtherID : uuid;
  lp_Other : User;
  lp_LastID : uuid;
  lp_Last : Message;
  lp_Unread : Z;
}.

Definition my_messages (me : uuid) (d : DB) : list (uuid * Message) :=
  select (λ _ m, bool_decide (pm_FromID m = Some me) || bool_decide (pm_ToID m = Some me)) (message d).

(** The messages from [other] to [me] after [me]'s read marker. *)
Definition unread_from `{UuidLib} (me other : uuid) (d : DB) : list (uuid * Message) :=
  let marker := seen_messages d !! (chat_key me other, me) ≫= (λ id, pm_CreatedAt <$> message d !! id) in
  select (λ _ x, bool_decide (pm_FromID x = Some other) && bool_decide (pm_ToID x = Some me) &&
                 bool_decide (pm_DeletedAt x = None) && from_option (λ t, t <? pm_CreatedAt x) true marker)
    (message d).

(** DISTINCT ON (other_id) ... ORDER BY other_id, created_at DESC, id DESC keeps
    the newest message of each conversation. *)
Definition ListPrivateConversations `{UuidLib} (me : uuid) : M DB (list ListPrivateConversationsRow) := λ d,
  let mine := my_messages me d in
  let row (other : uuid) : option ListPrivateConversationsRow :=
    u ← users d !! other;
    match order_by (newest_id pm_key) (List.filter (λ r : uuid * Message, bool_decide (other_of me r.2 = Some other)) mine) with
    | l :: _ => Some (mk_ListPrivateConversationsRow other u l.1 l.2 (Z.of_nat (length (unread_from me other d))))
    | [] => None
    end in
  (Ok (order_by (newest_id (λ r, (pm_CreatedAt (lp_Last r), lp_LastID r)))
        (omap row (remove_dups (omap (λ r : uuid * Message, other_of me r.2) mine)))), d).

Record ListGroupConversationsRow := mk_ListGroupConversationsRow {
  lg_GroupID : uuid;
  lg_Group : ChatGroup;
  lg_Last : option (uuid * Groupmessage);   (* LEFT JOIN LATERAL *)
  lg_Unread : Z;
}.

(** The messages of others after the caller's read marker, or since joining. *)
Definition unread_in (me g : uuid) (joined : time) (d : DB) : list (uuid * Groupmessage) :=
  let since := from_option (λ t, t) joined
    (group_reads d !! (g, me) ≫= (λ r, gm_CreatedAt <$> groupmessage d !! gr_MessageID r)) in
  select (λ _ x, in_group g x && bool_decide (gm_DeletedAt x = None) &&
                 negb (bool_decide (gm_FromID x = Some me)) && (since <? gm_CreatedAt x)) (groupmessage d).

(** The order of [lower(g.name)] is the database's ([name_lower_le]). *)
Class LowerCollation := { name_lower_le : string → string → bool }.

Definition last_key_le `{LowerCollation} (x y : ListGroupConversationsRow) : bool :=
  let name_le := name_lower_le (g_Name (lg_Group x)) (g_Name (lg_Group y)) in
  match lg_Last x, lg_Last y with
  | Some a, Some b => (gm_CreatedAt b.2 <? gm_CreatedAt a.2) || ((gm_CreatedAt b.2 =? gm_CreatedAt a.2) && name_le)
  | Some _, None => true
  | None, Some _ => false
  | None, None => name_le
  end.

Definition ListGroupConversations `{LowerCollation} (me : uuid) : M DB (list ListGroupConversationsRow) := λ d,
  let row (k : (uuid * uuid) * MemberTable) : option ListGroupConversationsRow :=
    g ← chat_groups d !! k.1.1;
    let mine := select (λ _ m, in_group k.1.1 m && (m_JoinedAt k.2 <=? gm_CreatedAt m)) (groupmessage d) in
    Some (mk_ListGroupConversationsRow k.1.1 g (head (order_by (newest_id gm_key) mine))
            (Z.of_nat (length (unread_in me k.1.1 (m_JoinedAt k.2) d)))) in
  (Ok (order_by last_key_le (omap row (select (λ k _, bool_decide (k.2 = me)) (member_table d)))), d).

(** ** reactions.sql.go *)

Definition emoji_ok (e : string) : bool :=
  let n := Z.of_nat (length (bytes_of e)) in (1 <=? n) && (n <=? 64).

Definition SetGroupReaction (messageID userID : uuid) (emoji : string) : M DB unit := λ d,
  if negb (emoji_ok emoji) then (Err (check_violation "group_message_reactions_emoji_check"), d)
  else match groupmessage d !! messageID, users d !! userID with
  | Some _, Some _ =>
    (Ok tt, with_group_message_reactions
              (<[(messageID, userID) := mk_Reaction emoji (db_now d)]> (group_message_reactions d)) d)
  | None, _ => (Err (foreign_key_violation "group_message_reactions_message_id_fkey"), d)
  | _, None => (Err (foreign_key_violation "group_message_reactions_user_id_fkey"), d)
  end.

Definition SetPrivateReaction (messageID userID : uuid) (emoji : string) : M DB unit := λ d,
  if negb (emoji_ok emoji) then (Err (check_violation "message_reactions_emoji_check"), d)
  else match message d !! messageID, users d !! userID with
  | Some _, Some _ =>
    (Ok tt, with_message_reactions (<[(messageID, userID) := mk_Reaction emoji (db_now d)]> (message_reactions d)) d)
  | None, _ => (Err (foreign_key_violation "message_reactions_message_id_fkey"), d)
  | _, None => (Err (foreign_key_violation "message_reactions_user_id_fkey"), d)
  end.

Definition DeleteGroupReaction (messageID userID : uuid) : M DB Z := λ d,
  match group_message_reactions d !! (messageID, userID) with
  | Some _ => (Ok 1, with_group_message_reactions (delete (messageID, userID) (group_message_reactions d)) d)
  | None => (Ok 0, d)
  end.

Definition DeletePrivateReaction (messageID userID : uuid) : M DB Z := λ d,
  match message_reactions d !! (messageID, userID) with
  | Some _ => (Ok 1, with_message_reactions (delete (messageID, userID) (message_reactions d)) d)
  | None => (Ok 0, d)
  end.

Definition GroupMessageGroup (id : uuid) : M DB (option uuid * option uuid * time) := λ d,
  match groupmessage d !! id with
  | Some m =>
    if bool_decide (gm_DeletedAt m = None) then (Ok (gm_GroupID m, gm_FromID m, gm_CreatedAt m), d)
    else (Err ErrNoRows, d)
  | None => (Err ErrNoRows, d)
  end.

Definition PrivateMessageParticipants (id : uuid) : M DB (option uuid * option uuid * time) := λ d,
  match message d !! id with
  | Some m =>
    if bool_decide (pm_DeletedAt m = None) then (Ok (pm_FromID m, pm_ToID m, pm_CreatedAt m), d)
    else (Err ErrNoRows, d)
  | None => (Err ErrNoRows, d)
  end.

Record ReactionSummaryRow := mk_ReactionSummaryRow {
  rs_MessageID : uuid;
  rs_Emoji : string;
  rs_N : Z;
  rs_Mine : bool;
  rs_FirstAt : time;
}.

(** GROUP BY message_id, emoji, with count, bool_or and min per group. *)
Definition summary_row (me : uuid) (rows : list ((uuid * uuid) * Reaction)) (k : uuid * string) : ReactionSummaryRow :=
  let grp := List.filter (λ r : (uuid * uuid) * Reaction, bool_decide ((r.1.1, r_Emoji r.2) = k)) rows in
  mk_ReactionSummaryRow k.1 k.2 (Z.of_nat (length grp))
    (existsb (λ r : (uuid * uuid) * Reaction, bool_decide (r.1.2 = me)) grp)
    (match grp with
     | r :: rest => foldl (λ t x, Z.min t (r_CreatedAt x.2)) (r_CreatedAt r.2) rest
     | [] => 0
     end).

Definition reaction_summary (me : uuid) (ids : list uuid) (t : gmap (uuid * uuid) Reaction) : list ReactionSummaryRow :=
  let rows := select (λ k _, bool_decide (k.1 ∈ ids)) t in
  let keys := remove_dups ((λ r : (uuid * uuid) * Reaction, (r.1.1, r_Emoji r.2)) <$> rows) in
  order_by (λ x y, (rs_MessageID x <? rs_MessageID y)%N ||
                   (bool_decide (rs_MessageID x = rs_MessageID y) && (rs_FirstAt x <=? rs_FirstAt y)))
    (summary_row me rows <$> keys).

Definition GroupReactionSummary (me : uuid) (ids : list uuid) : M DB (list ReactionSummaryRow) := λ d,
  (Ok (reaction_summary me ids (group_message_reactions d)), d).

Definition PrivateReactionSummary (me : uuid) (ids : list uuid) : M DB (list ReactionSummaryRow) := λ d,
  (Ok (reaction_summary me ids (message_reactions d)), d).

(** user_id, the user, emoji, created_at; oldest first. *)
Definition reactors (messageID : uuid) (t : gmap (uuid * uuid) Reaction) (us : gmap uuid User) :
    list (uuid * User * Reaction) :=
  let joined (r : (uuid * uuid) * Reaction) : option (uuid * User * Reaction) :=
    (λ u, (r.1.2, u, r.2)) <$> us !! r.1.2 in
  order_by (λ x y, r_CreatedAt x.2 <=? r_CreatedAt y.2)
    (omap joined (select (λ k _, bool_decide (k.1 = messageID)) t)).

Definition GroupReactors (messageID : uuid) : M DB (list (uuid * User * Reaction)) := λ d,
  (Ok (reactors messageID (group_message_reactions d) (users d)), d).

Definition PrivateReactors (messageID : uuid) : M DB (list (uuid * User * Reaction)) := λ d,
  (Ok (reactors messageID (message_reactions d) (users d)), d).

(** ** admin.sql.go *)

Definition AllBannedUsers : M DB (list uuid) := λ d,
  (Ok (fst <$> select (λ _ u, bool_decide (is_Some (u_banned_at u))) (users d)), d).

(** ** Facts about the orders and the reads *)

(** The row comparison as a proposition. *)
Lemma row_le_iff a b : row_le a b = true ↔ a.1 < b.1 ∨ (a.1 = b.1 ∧ (a.2 <= b.2)%N).
Proof. unfold row_le. rewrite orb_true_iff, andb_true_iff, Z.ltb_lt, Z.eqb_eq, N.leb_le. done. Qed.

Lemma row_lt_iff a b : row_lt a b = true ↔ a.1 < b.1 ∨ (a.1 = b.1 ∧ (a.2 < b.2)%N).
Proof. unfold row_lt. rewrite orb_true_iff, andb_true_iff, Z.ltb_lt, Z.eqb_eq, N.ltb_lt. done. Qed.

Lemma row_le_total a b : row_le a b = true ∨ row_le b a = true.
Proof. rewrite !row_le_iff. lia. Qed.

Lemma row_le_trans a b c : row_le a b = true → row_le b c = true → row_le a c = true.
Proof. rewrite !row_le_iff. lia. Qed.

Lemma row_le_antisym a b : row_le a b = true → row_le b a = true → a = b.
Proof. rewrite !row_le_iff. destruct a, b; simpl. intros; f_equal; lia. Qed.

Lemma row_lt_not_le a b : row_lt a b = negb (row_le b a).
Proof. apply eq_true_iff_eq. rewrite negb_true_iff, <- not_true_iff_false, row_lt_iff, row_le_iff. lia. Qed.

Lemma between_sym a b m : between a b m = between b a m.
Proof. unfold between. destruct (bool_decide _), (bool_decide _), (bool_decide _), (bool_decide _); done. Qed.

Lemma between_iff a b m :
  between a b m = true ↔
  (pm_FromID m = Some a ∧ pm_ToID m = Some b) ∨ (pm_FromID m = Some b ∧ pm_ToID m = Some a).
Proof. unfold between. rewrite orb_true_iff, !andb_true_iff, !bool_decide_eq_true. done. Qed.

(** What an insert did: the row, or nothing. *)
Lemma AddMessagePrivate_cases id c p f t at_ fwd d r d' :
  AddMessagePrivate id c p f t at_ fwd d = (r, d') →
  match r with
  | Ok _ => message d !! id = None ∧ d' = set_message id (mk_Message c p f t None at_ None fwd) d
  | Err _ => d' = d
  end.
Proof.
  unfold AddMessagePrivate. cbv zeta. destruct (content_ok c); cbn [negb]; [|by intros [= <- <-]].
  destruct (message d !! id); [by intros [= <- <-]|].
  do 3 (destruct (fk_ok _ _); cbn [negb]; [|by intros [= <- <-]]). by intros [= <- <-].
Qed.

Lemma AddMessagePublic_cases id c g f p at_ fwd d r d' :
  AddMessagePublic id c g f p at_ fwd d = (r, d') →
  match r with
  | Ok _ => groupmessage d !! id = None ∧
            ∃ searchable, d' = set_groupmessage id (mk_Groupmessage c g f p at_ None None searchable fwd) d
  | Err _ => d' = d
  end.
Proof.
  unfold AddMessagePublic. cbv zeta. destruct (content_ok c); cbn [negb]; [|by intros [= <- <-]].
  destruct (groupmessage d !! id); [by intros [= <- <-]|].
  do 3 (destruct (fk_ok _ _); cbn [negb]; [|by intros [= <- <-]]). intros [= <- <-]. eauto.
Qed.

Lemma EditPrivateMessage_cases c at_ id d r d' :
  EditPrivateMessage (Some c) at_ id d = (r, d') →
  (d' = d ∧ (r = Ok 0 ∨ ∃ e, r = Err e)) ∨
  ∃ m, message d !! id = Some m ∧ pm_DeletedAt m = None ∧ r = Ok 1 ∧
    d' = set_message id (mk_Message (Some c) (pm_Parentid m) (pm_FromID m) (pm_ToID m) None (pm_CreatedAt m)
                           (Some at_) (pm_Forwarded m)) d.
Proof.
  unfold EditPrivateMessage. destruct (message d !! id) as [m|]; [|intros [= <- <-]; by auto].
  case_bool_decide as Hd; [intros [= <- <-]; by auto|].
  destruct (content_ok _); cbn [negb]; [|intros [= <- <-]; by eauto].
  assert (pm_DeletedAt m = None) as Hn by (destruct (pm_DeletedAt m); [by destruct Hd|done]).
  rewrite Hn. intros [= <- <-]. right. by exists m.
Qed.

Lemma EditGroupMessage_cases c at_ id d r d' :
  EditGroupMessage (Some c) at_ id d = (r, d') →
  (d' = d ∧ (r = Ok 0 ∨ ∃ e, r = Err e)) ∨
  ∃ m, groupmessage d !! id = Some m ∧ gm_DeletedAt m = None ∧ r = Ok 1 ∧
    d' = set_groupmessage id (mk_Groupmessage (Some c) (gm_GroupID m) (gm_FromID m) (gm_ParentID m) (gm_CreatedAt m)
                                None (Some at_) (gm_Searchable m) (gm_Forwarded m)) d.
Proof.
  unfold EditGroupMessage. destruct (groupmessage d !! id) as [m|]; [|intros [= <- <-]; by auto].
  case_bool_decide as Hd; [intros [= <- <-]; by auto|].
  destruct (content_ok _); cbn [negb]; [|intros [= <- <-]; by eauto].
  assert (gm_DeletedAt m = None) as Hn by (destruct (gm_DeletedAt m); [by destruct Hd|done]).
  rewrite Hn. intros [= <- <-]. right. by exists m.
Qed.

Lemma DeletePrivateMessage_cases at_ id d r d' :
  DeletePrivateMessage at_ id d = (r, d') →
  (d' = d ∧ (r = Ok 0 ∨ ∃ e, r = Err e)) ∨
  ∃ m, message d !! id = Some m ∧ pm_DeletedAt m = None ∧ r = Ok 1 ∧
    d' = with_message_reactions (drop_reactions id (message_reactions d))
           (set_message id (mk_Message None (pm_Parentid m) (pm_FromID m) (pm_ToID m) (Some at_) (pm_CreatedAt m)
                              (pm_EditedAt m) (pm_Forwarded m)) d).
Proof.
  unfold DeletePrivateMessage. destruct (message d !! id) as [m|]; [|intros [= <- <-]; by auto].
  destruct (pm_DeletedAt m) eqn:Hd; intros [= <- <-]; [by auto|right]. by exists m.
Qed.

Lemma DeleteGroupMessage_cases at_ id d r d' :
  DeleteGroupMessage at_ id d = (r, d') →
  (d' = d ∧ (r = Ok 0 ∨ ∃ e, r = Err e)) ∨
  ∃ m, groupmessage d !! id = Some m ∧ gm_DeletedAt m = None ∧ r = Ok 1 ∧
    d' = with_group_message_reactions (drop_reactions id (group_message_reactions d))
           (set_groupmessage id (mk_Groupmessage None (gm_GroupID m) (gm_FromID m) (gm_ParentID m) (gm_CreatedAt m)
                                   (Some at_) (gm_EditedAt m) (gm_Searchable m) (gm_Forwarded m)) d).
Proof.
  unfold DeleteGroupMessage. destruct (groupmessage d !! id) as [m|]; [|intros [= <- <-]; by auto].
  destruct (gm_DeletedAt m) eqn:Hd; intros [= <- <-]; [by auto|right]. by exists m.
Qed.
