(* ===== verification/Sql_Users.v ===== *)
(** * Sql_Users: the statements on accounts and profiles

    users.sql.go, and of admin.sql.go the two statements sessions use.  The id of a
    new row (gen_random_uuid) is an argument.  SearchNameSiml needs the trigram
    similarity of pg_trgm and is not modelled; DeleteUser (every row) is not used. *)

From S2P Require Import Prelude GoLib Db Sql_Friends.

#[local] Open Scope Z_scope.

(** CHECK (name ~ '^[a-z0-9_.]{3,25}$') *)
Definition name_byte (b : Z) : bool := in_range 97 122 b || in_range 48 57 b || (b =? 95) || (b =? 46).
Definition name_format (s : string) : bool :=
  forallb name_byte (bytes_of s) && in_range 3 25 (Z.of_nat (length (bytes_of s))).

(** Rows other than [id] with that name, or that address. *)
Definition name_taken (id : uuid) (name : string) (d : DB) : bool :=
  bool_decide (select (λ k u, negb (bool_decide (k = id)) && bool_decide (u_name u = name)) (users d) ≠ []).
Definition email_taken (id : uuid) (email : string) (d : DB) : bool :=
  bool_decide (select (λ k u, negb (bool_decide (k = id)) && bool_decide (u_email u = email)) (users d) ≠ []).

(** What the constraints say of the row [u] at [id]: lengths, the check, then the
    unique indexes in the order they were made. *)
Definition user_columns_ok (id : uuid) (u : User) (d : DB) : option error :=
  if negb (varchar_ok 25 (u_name u) && varchar_ok 125 (u_email u) && varchar_ok 50 (u_display_name u) &&
           varchar_ok 150 (u_bio u)) then Some string_too_long
  else if negb (name_format (u_name u)) then Some (check_violation "users_name_format")
  else if email_taken id (u_email u) d then Some (unique_violation "users_email_key")
  else if name_taken id (u_name u) d then Some (unique_violation "users_name_key")
  else None.

Definition put_user (id : uuid) (u : User) (d : DB) : DB := with_users (<[id := u]> (users d)) d.

Definition insert_user (id : uuid) (u : User) : M DB (uuid * User) := λ d,
  match users d !! id with
  | Some _ => (Err (unique_violation "users_pkey"), d)
  | None =>
    match user_columns_ok id u d with
    | Some e => (Err e, d)
    | None => (Ok (id, u), put_user id u d)
    end
  end.

(** UPDATE users SET ... WHERE id = $1: the row it wrote, if there is one. *)
Definition update_user (id : uuid) (f : User → User) : M DB (option User) := λ d,
  match users d !! id with
  | Some u =>
    match user_columns_ok id (f u) d with
    | Some e => (Err e, d)
    | None => (Ok (Some (f u)), put_user id (f u) d)
    end
  | None => (Ok None, d)
  end.

Definition exec_update (id : uuid) (f : DB → User → User) : M DB unit := λ d,
  (_ ← update_user id (f d); mret tt) d.

(** ... RETURNING * *)
Definition one_row {A} (m : M DB (option A)) : M DB A :=
  r ← m; match r with Some x => mret x | None => throw ErrNoRows end.

(** ** Columns *)

Definition new_user (name displayName email : string) (password : option string) (verified : option time) (now : time) :
    User :=
  mk_User now now email password name verified EmptyString None None None EmptyString false false None None None None
    displayName false.

Definition set_password (p : option string) (now : time) (u : User) : User :=
  mk_User (u_created_at u) now (u_email u) p (u_name u) (u_email_verified_at u) (u_bio u) (u_name_changed_at u)
    (u_avatar_at u) (u_location_id u) (u_location_country u) (u_discoverable u) (u_is_admin u) (u_banned_at u)
    (u_banned_until u) (u_ban_reason u) (u_last_seen_at u) (u_display_name u) (u_hide_last_seen u).
Definition set_email (e : string) (verified : option time) (now : time) (u : User) : User :=
  mk_User (u_created_at u) now e (u_password u) (u_name u) verified (u_bio u) (u_name_changed_at u)
    (u_avatar_at u) (u_location_id u) (u_location_country u) (u_discoverable u) (u_is_admin u) (u_banned_at u)
    (u_banned_until u) (u_ban_reason u) (u_last_seen_at u) (u_display_name u) (u_hide_last_seen u).
Definition set_name (name : string) (now : time) (u : User) : User :=
  mk_User (u_created_at u) now (u_email u) (u_password u) name (u_email_verified_at u) (u_bio u) (Some now)
    (u_avatar_at u) (u_location_id u) (u_location_country u) (u_discoverable u) (u_is_admin u) (u_banned_at u)
    (u_banned_until u) (u_ban_reason u) (u_last_seen_at u) (u_display_name u) (u_hide_last_seen u).
Definition set_bio (bio : string) (now : time) (u : User) : User :=
  mk_User (u_created_at u) now (u_email u) (u_password u) (u_name u) (u_email_verified_at u) bio (u_name_changed_at u)
    (u_avatar_at u) (u_location_id u) (u_location_country u) (u_discoverable u) (u_is_admin u) (u_banned_at u)
    (u_banned_until u) (u_ban_reason u) (u_last_seen_at u) (u_display_name u) (u_hide_last_seen u).
Definition set_display_name (name : string) (now : time) (u : User) : User :=
  mk_User (u_created_at u) now (u_email u) (u_password u) (u_name u) (u_email_verified_at u) (u_bio u)
    (u_name_changed_at u) (u_avatar_at u) (u_location_id u) (u_location_country u) (u_discoverable u) (u_is_admin u)
    (u_banned_at u) (u_banned_until u) (u_ban_reason u) (u_last_seen_at u) name (u_hide_last_seen u).
Definition set_location (place : option string) (country : string) (now : time) (u : User) : User :=
  mk_User (u_created_at u) now (u_email u) (u_password u) (u_name u) (u_email_verified_at u) (u_bio u)
    (u_name_changed_at u) (u_avatar_at u) place country (u_discoverable u) (u_is_admin u) (u_banned_at u)
    (u_banned_until u) (u_ban_reason u) (u_last_seen_at u) (u_display_name u) (u_hide_last_seen u).
Definition set_flags (discoverable hide : bool) (now : time) (u : User) : User :=
  mk_User (u_created_at u) now (u_email u) (u_password u) (u_name u) (u_email_verified_at u) (u_bio u)
    (u_name_changed_at u) (u_avatar_at u) (u_location_id u) (u_location_country u) discoverable (u_is_admin u)
    (u_banned_at u) (u_banned_until u) (u_ban_reason u) (u_last_seen_at u) (u_display_name u) hide.
Definition set_times (avatar seen : option time) (u : User) : User :=
  mk_User (u_created_at u) (u_updated_at u) (u_email u) (u_password u) (u_name u) (u_email_verified_at u) (u_bio u)
    (u_name_changed_at u) avatar (u_location_id u) (u_location_country u) (u_discoverable u) (u_is_admin u)
    (u_banned_at u) (u_banned_until u) (u_ban_reason u) seen (u_display_name u) (u_hide_last_seen u).

(** ** users.sql.go *)

Definition AddInterests (userID : uuid) (ids : list string) : M DB unit := λ d,
  match users d !! userID with
  | None => if decide (ids = []) then (Ok tt, d) else (Err (foreign_key_violation "user_interests_user_id_fkey"), d)
  | Some _ => (Ok tt, with_user_interests (user_interests d ∪ list_to_set ((λ i, (userID, i)) <$> ids)) d)
  end.

Definition AreFriendsSQL (a b : uuid) : M DB bool := λ d,
  (Ok (bool_decide (select (λ _ r, is_confirm r && same_pair r a b) (user_relationships d) ≠ [])), d).

Definition CreateUser (id : uuid) (name email : string) (password : option string) (displayName : string) :
    M DB (uuid * User) := λ d,
  insert_user id (new_user name displayName email password None (db_now d)) d.

Definition avatar_gone (id : uuid) (d : DB) : DB := with_user_avatars (delete id (user_avatars d)) d.

(** The deletion and the update are one statement. *)
Definition DeleteAvatar (userID : uuid) : M DB unit := λ d,
  match exec_update userID (λ _ u, set_times None (u_last_seen_at u) u) d with
  | (Ok _, d') => (Ok tt, avatar_gone userID d')
  | (Err e, d') => (Err e, d')
  end.

Definition blocked_pair (a b : uuid) (d : DB) : bool :=
  bool_decide (is_Some (user_blocks d !! (a, b))) || bool_decide (is_Some (user_blocks d !! (b, a))).

Definition GetAvatar (id viewer : uuid) : M DB (list Z * time) := λ d,
  (match user_avatars d !! id with
   | Some a => if blocked_pair id viewer d then Err ErrNoRows else Ok a
   | None => Err ErrNoRows
   end, d).

Definition GetDisplayName (id : uuid) : M DB string := λ d,
  (match users d !! id with
   | Some u => Ok (if decide (u_display_name u = EmptyString) then u_name u else u_display_name u)
   | None => Err ErrNoRows
   end, d).

(** text is ordered byte by byte under the C collation ids are sorted alike in. *)
Definition GetInterests (userID : uuid) : M DB (list string) := λ d,
  (Ok (order_by (λ a b, negb (string_gt a b)) (snd <$> List.filter (λ p, bool_decide (p.1 = userID)) (elements (user_interests d)))), d).

Definition GetPublicProfile (id viewer : uuid) : M DB User := λ d,
  (match users d !! id with
   | Some u => if bool_decide (is_Some (u_banned_at u)) || blocked_pair id viewer d then Err ErrNoRows else Ok u
   | None => Err ErrNoRows
   end, d).

Definition GetUserInfoByEmail (email : string) : M DB (uuid * User) := λ d,
  (one (select (λ _ u, bool_decide (u_email u = email)) (users d)), d).

Definition GetUserInfoByID (id : uuid) : M DB User := λ d,
  (match users d !! id with Some u => Ok u | None => Err ErrNoRows end, d).

Definition PresenceOf (ids : list uuid) : M DB (list (uuid * (option time * bool))) := λ d,
  (Ok ((λ r : uuid * User, (r.1, (u_last_seen_at r.2, u_hide_last_seen r.2))) <$>
         select (λ k _, bool_decide (k ∈ ids)) (users d)), d).

Definition RemoveOtherInterests (userID : uuid) (keep : list string) : M DB unit := λ d,
  (Ok tt, with_user_interests (filter (λ p, p.1 ≠ userID ∨ p.2 ∈ keep) (user_interests d)) d).

Definition RenameUser (name : string) (now : time) (id : uuid) (cutoff : time) : M DB User := λ d,
  match users d !! id with
  | Some u =>
    if match u_name_changed_at u with Some t => t <? cutoff | None => true end
    then one_row (update_user id (set_name name now)) d
    else (Err ErrNoRows, d)
  | None => (Err ErrNoRows, d)
  end.

(** octet_length(image) <= 262144 *)
Definition SetAvatar (at_ : time) (userID : uuid) (image : list Z) : M DB unit := λ d,
  if Z.of_nat (length image) >? 262144 then (Err (check_violation "user_avatars_image_check"), d)
  else match users d !! userID with
  | None => (Err (foreign_key_violation "user_avatars_user_id_fkey"), d)
  | Some _ =>
    match exec_update userID (λ _ u, set_times (Some at_) (u_last_seen_at u) u) d with
    | (Ok _, d') => (Ok tt, with_user_avatars (<[userID := (image, at_)]> (user_avatars d')) d')
    | (Err e, d') => (Err e, d')
    end
  end.

Definition SetBio (bio : string) (id : uuid) : M DB User := λ d,
  one_row (update_user id (set_bio bio (db_now d))) d.

Definition SetDiscoverable (on : bool) (id : uuid) : M DB unit :=
  exec_update id (λ d u, set_flags on (u_hide_last_seen u) (db_now d) u).

Definition SetDisplayName (name : string) (id : uuid) : M DB unit :=
  exec_update id (λ d, set_display_name name (db_now d)).

Definition SetHideLastSeen (hide : bool) (id : uuid) : M DB unit :=
  exec_update id (λ d u, set_flags (u_discoverable u) hide (db_now d) u).

Definition SetLocation (place : option string) (country : string) (id : uuid) : M DB unit :=
  exec_update id (λ d, set_location place country (db_now d)).

Definition UpdatePassword (password : option string) (id : uuid) : M DB unit :=
  exec_update id (λ d, set_password password (db_now d)).

(** ** admin.sql.go *)

Definition TouchLastSeen (now : time) (id : uuid) : M DB unit :=
  exec_update id (λ _ u, set_times (u_avatar_at u) (Some now) u).

Record UserBanRow := mk_UserBanRow { ub_BannedAt : option time; ub_BannedUntil : option time; ub_IsAdmin : bool }.

Definition UserBan (id : uuid) : M DB UserBanRow := λ d,
  (match users d !! id with
   | Some u => Ok (mk_UserBanRow (u_banned_at u) (u_banned_until u) (u_is_admin u))
   | None => Err ErrNoRows
   end, d).
