(* ===== verification/Sql_Accounts.v ===== *)
(** * Sql_Accounts: the statements on sessions, codes and sign-in methods

    accounts.sql.go and refreshTokens.sql.go, and of push.sql.go the one that forgets
    a user's phones, with the constraints of src/sql/schema. *)

From S2P Require Import Prelude GoLib Db Groups_Model Sql_Groups Sql_Users.

#[local] Open Scope Z_scope.

(** ** refreshTokens.sql.go *)

Definition CreateARefreshToken (token : string) (userID : uuid) (expireAt : time) : M DB RefreshToken := λ d,
  if negb (varchar_ok 255 token) then (Err string_too_long, d)
  else match refresh_tokens d !! token with
  | Some _ => (Err (unique_violation "refresh_tokens_pkey"), d)
  | None =>
    match users d !! userID with
    | None => (Err (foreign_key_violation "refresh_tokens_user_id_fkey"), d)
    | Some _ =>
      let row := mk_RefreshToken (db_now d) (db_now d) userID expireAt None in
      (Ok row, with_refresh_tokens (<[token := row]> (refresh_tokens d)) d)
    end
  end.

Definition rt_live (r : RefreshToken) : bool := bool_decide (rt_RevokedAt r = None).

Definition revoked_row (now : time) (r : RefreshToken) : RefreshToken :=
  mk_RefreshToken (rt_CreatedAt r) now (rt_UserID r) (rt_ExpireAt r) (Some now).

Definition DeleteStaleRefreshTokens (now revokedBefore : time) : M DB Z := λ d,
  let stale (r : RefreshToken) := (rt_ExpireAt r <? now) ||
                                  match rt_RevokedAt r with Some t => t <? revokedBefore | None => false end in
  let keep := filter (λ kv : string * RefreshToken, stale kv.2 = false) (refresh_tokens d) in
  (Ok (Z.of_nat (size (refresh_tokens d)) - Z.of_nat (size keep)), with_refresh_tokens keep d).

Definition GetRefreshToken (token : string) : M DB RefreshToken := λ d,
  (match refresh_tokens d !! token with
   | Some r => if rt_live r then Ok r else Err ErrNoRows
   | None => Err ErrNoRows
   end, d).

Definition RevokeAllUserRefreshTokens (userID : uuid) : M DB unit := modify (λ d,
  with_refresh_tokens ((λ r, if bool_decide (rt_UserID r = userID) && rt_live r then revoked_row (db_now d) r else r) <$>
                         refresh_tokens d) d).

Definition RevokeRefreshToken (token : string) : M DB unit := modify (λ d,
  with_refresh_tokens (alter (λ r, if rt_live r then revoked_row (db_now d) r else r) token (refresh_tokens d)) d).

(** ** accounts.sql.go: email codes *)

(** attempts is an int; the code deletes a row long before it could overflow. *)
Definition BumpEmailCodeAttempts (userID : uuid) (purpose : string) : M DB Z := λ d,
  match email_codes d !! ((userID, purpose) : uuid * string) with
  | Some c =>
    let n := ec_Attempts c + 1 in
    (Ok n, with_email_codes (<[(userID, purpose) := mk_EmailCode (ec_CodeHash c) n (ec_ExpiresAt c) (ec_CreatedAt c)
                                                      (ec_NewEmail c)]> (email_codes d)) d)
  | None => (Err ErrNoRows, d)
  end.

Definition DeleteEmailCode (userID : uuid) (purpose : string) : M DB unit := modify (λ d,
  with_email_codes (delete ((userID, purpose) : uuid * string) (email_codes d)) d).

Definition DeleteExpiredEmailCodes (now : time) : M DB Z := λ d,
  let keep := filter (λ kv : (uuid * string) * EmailCode, now <= ec_ExpiresAt kv.2) (email_codes d) in
  (Ok (Z.of_nat (size (email_codes d)) - Z.of_nat (size keep)), with_email_codes keep d).

Definition GetEmailCode (userID : uuid) (purpose : string) : M DB EmailCode := λ d,
  (match email_codes d !! ((userID, purpose) : uuid * string) with Some c => Ok c | None => Err ErrNoRows end, d).

Definition code_purposes : list string := ["verify_email"; "reset_password"; "admin_login"; "change_email"].

Definition put_code (userID : uuid) (purpose : string) (c : EmailCode) : M DB unit := λ d,
  if negb (bool_decide (purpose ∈ code_purposes)) then (Err (check_violation "email_codes_purpose_check"), d)
  else match users d !! userID with
  | None => (Err (foreign_key_violation "email_codes_user_id_fkey"), d)
  | Some _ => (Ok tt, with_email_codes (<[(userID, purpose) := c]> (email_codes d)) d)
  end.

(** ON CONFLICT DO UPDATE leaves new_email as it was. *)
Definition UpsertEmailCode (userID : uuid) (purpose codeHash : string) (expiresAt createdAt : time) : M DB unit := λ d,
  let old := email_codes d !! ((userID, purpose) : uuid * string) in
  put_code userID purpose (mk_EmailCode codeHash 0 expiresAt createdAt (c ← old; ec_NewEmail c)) d.

Definition UpsertEmailChangeCode (userID : uuid) (codeHash : string) (expiresAt createdAt : time) (newEmail : option string) :
    M DB unit :=
  put_code userID "change_email" (mk_EmailCode codeHash 0 expiresAt createdAt newEmail).

(** ** accounts.sql.go: accounts *)

Definition ChangeEmail (email : string) (id : uuid) : M DB unit :=
  exec_update id (λ d, set_email email (Some (db_now d)) (db_now d)).

Definition CreateIdentity (provider subject : string) (userID : uuid) (email : string) : M DB unit := λ d,
  match user_identities d !! ((provider, subject) : string * string) with
  | Some _ => (Err (unique_violation "user_identities_pkey"), d)
  | None =>
    match users d !! userID with
    | None => (Err (foreign_key_violation "user_identities_user_id_fkey"), d)
    | Some _ => (Ok tt, with_user_identities (<[(provider, subject) := mk_UserIdentity userID email (db_now d)]>
                                               (user_identities d)) d)
    end
  end.

Definition CreateUserVerifiedNoPassword (id : uuid) (name email displayName : string) : M DB (uuid * User) := λ d,
  insert_user id (new_user name displayName email None (Some (db_now d)) (db_now d)) d.

Definition GetIdentity (provider subject : string) : M DB UserIdentity := λ d,
  (match user_identities d !! ((provider, subject) : string * string) with Some i => Ok i | None => Err ErrNoRows end, d).

Definition MarkEmailVerified (id : uuid) : M DB unit :=
  exec_update id (λ d u, set_email (u_email u) (Some (default (db_now d) (u_email_verified_at u))) (db_now d) u).

Definition SetPasswordHash (id : uuid) (password : option string) : M DB unit :=
  exec_update id (λ d, set_password password (db_now d)).

(** ** accounts.sql.go: deleting an account *)

Definition FriendIDsOf (userID : uuid) : M DB (list uuid) := λ d,
  (Ok ((λ r : uuid * UserRelationship, if decide (rel_UserID r.2 = userID) then rel_OtheruserID r.2 else rel_UserID r.2) <$>
         select (λ _ r, bool_decide (rel_UserID r = userID) || bool_decide (rel_OtheruserID r = userID))
           (user_relationships d)), d).

Definition groups_where (memberID : uuid) (p : MemberTable → bool) (d : DB) : list uuid :=
  (λ kv : uuid * uuid * MemberTable, kv.1.1) <$> select (λ k m, bool_decide (k.2 = memberID) && p m) (member_table d).

Definition GroupsOfUser (memberID : uuid) : M DB (list uuid) := λ d, (Ok (groups_where memberID (λ _, true) d), d).

Definition GroupsLedBy (memberID : uuid) : M DB (list uuid) := λ d,
  (Ok (groups_where memberID (λ m, bool_decide (m_Role m = RoleAdmin)) d), d).

(** ORDER BY (role = 'moderator') DESC, joined_at, member_id *)
Definition EarliestOtherMember (groupID memberID : uuid) : M DB uuid := λ d,
  (one (fst <$> order_by next_admin_le (members_where groupID (λ u _, negb (bool_decide (u = memberID))) d)), d).

Definition PromoteToLeader (groupID memberID : uuid) : M DB unit := modify (λ d,
  with_member_table (alter (λ m, mk_MemberTable (m_JoinedAt m) RoleAdmin []) ((groupID, memberID) : uuid * uuid) (member_table d)) d).

(** The count is a bigint, stored in a smallint column. *)
Definition RecountGroupMembers (groupID : uuid) : M DB unit := λ d,
  let n := Z.of_nat (length (members_where groupID (λ _ _, true) d)) in
  if negb (n <=? 32767) then (Err (ErrPg "22003" EmptyString), d)
  else (Ok tt, update_group groupID (λ g, mk_ChatGroup (g_Name g) (g_Description g) (g_MaxMember g) (g_CreatedAt g)
                                       (db_now d) n (g_InviteCode g) (g_AvatarAt g) (g_Visibility g)) d).

Definition no_user (id : uuid) (o : option uuid) : option uuid := if decide (o = Some id) then None else o.

Definition message_without (id : uuid) (m : Message) : Message :=
  mk_Message (pm_Content m) (pm_Parentid m) (no_user id (pm_FromID m)) (no_user id (pm_ToID m)) (pm_DeletedAt m)
    (pm_CreatedAt m) (pm_EditedAt m) (pm_Forwarded m).
Definition groupmessage_without (id : uuid) (m : Groupmessage) : Groupmessage :=
  mk_Groupmessage (gm_Content m) (gm_GroupID m) (no_user id (gm_FromID m)) (gm_ParentID m) (gm_CreatedAt m)
    (gm_DeletedAt m) (gm_EditedAt m) (gm_Searchable m) (gm_Forwarded m).
Definition call_without (id : uuid) (c : Call) : Call :=
  mk_Call (no_user id (call_CallerID c)) (no_user id (call_CalleeID c)) (call_State c) (call_EndReason c)
    (call_StartedAt c) (call_AnsweredAt c) (call_EndedAt c).
Definition medium_without (id : uuid) (m : Medium) : Medium :=
  mk_Medium (no_user id (md_OwnerID m)) (md_Kind m) (md_ContentType m) (md_Size m) (md_Status m) (md_ChatType m)
    (md_ChatID m) (md_MessageID m) (md_CreatedAt m) (md_ExpiresAt m) (md_DeliveredAt m) (md_LastAccessAt m)
    (md_DeletedAt m) (md_DurationMs m) (md_Width m) (md_Height m) (md_HasThumbnail m) (md_FileName m) (md_Waveform m).
Definition action_without (id : uuid) (a : AdminAction) : AdminAction :=
  mk_AdminAction (no_user id (aa_AdminID a)) (aa_Action a) (aa_TargetUser a) (aa_TargetGroup a) (aa_Detail a) (aa_At a).
Definition report_without (id : uuid) (r : Report) : Report :=
  mk_Report (no_user id (rp_ReporterID r)) (rp_ReportedID r) (rp_Reason r) (rp_Note r) (rp_Status r)
    (no_user id (rp_ResolvedBy r)) (rp_ResolvedAt r) (rp_Resolution r) (rp_CreatedAt r).

(** DELETE FROM users, with what the schema cascades to (ON DELETE CASCADE) and
    what it sets to NULL: the senders of messages, the sides of calls, the owners of
    media, the reporters, the admins of past actions. *)
Definition DeleteUserByID (id : uuid) : M DB unit := modify (λ d,
  with_users (delete id (users d))
  (with_member_table (filter (λ kv, kv.1.2 ≠ id) (member_table d))
  (with_message (message_without id <$> message d)
  (with_groupmessage (groupmessage_without id <$> groupmessage d)
  (with_message_reactions (filter (λ kv, kv.1.2 ≠ id) (message_reactions d))
  (with_group_message_reactions (filter (λ kv, kv.1.2 ≠ id) (group_message_reactions d))
  (with_group_reads (filter (λ kv, kv.1.2 ≠ id) (group_reads d))
  (with_seen_messages (filter (λ kv, kv.1.2 ≠ id) (seen_messages d))
  (with_user_relationships (filter (λ kv, rel_UserID kv.2 ≠ id ∧ rel_OtheruserID kv.2 ≠ id) (user_relationships d))
  (with_user_blocks (filter (λ kv, kv.1.1 ≠ id ∧ kv.1.2 ≠ id) (user_blocks d))
  (with_calls (call_without id <$> calls d)
  (with_refresh_tokens (filter (λ kv, rt_UserID kv.2 ≠ id) (refresh_tokens d))
  (with_email_codes (filter (λ kv, kv.1.1 ≠ id) (email_codes d))
  (with_user_identities (filter (λ kv, ui_UserID kv.2 ≠ id) (user_identities d))
  (with_user_devices (filter (λ kv, ud_UserID kv.2 ≠ id) (user_devices d))
  (with_user_avatars (delete id (user_avatars d))
  (with_user_interests (filter (λ p, p.1 ≠ id) (user_interests d))
  (with_media (medium_without id <$> media d)
  (with_media_downloads (filter (λ p, p.2 ≠ id) (media_downloads d))
  (with_notification_prefs (delete id (notification_prefs d))
  (with_chat_mutes (filter (λ kv, kv.1.1.1 ≠ id) (chat_mutes d))
  (with_admin_actions (action_without id <$> admin_actions d)
  (with_reports (report_without id <$> filter (λ kv, rp_ReportedID kv.2 ≠ id) (reports d))
  (with_report_messages (filter (λ kv, rp_ReportedID <$> reports d !! kv.1.1 ≠ Some id) (report_messages d)) d)))))))))))))))))))))))).

(** ** push.sql.go *)

Definition DeleteUserDevices (userID : uuid) : M DB unit := modify (λ d,
  with_user_devices (filter (λ kv, ud_UserID kv.2 ≠ userID) (user_devices d)) d).
