(* ===== verification/Sql_Media.v ===== *)
(** * Sql_Media: the statements on uploads (src/internal/database/media.sql.go)

    With the constraints of src/sql/schema 035, 036, 040 and 046. *)

From S2P Require Import Prelude GoLib Db.

#[local] Open Scope Z_scope.

(** ** Constraints *)

Definition media_kinds : list string := ["image"; "video"; "file"; "voice"].
Definition chat_types : list string := ["private"; "public"].

(** CHECK (x BETWEEN lo AND hi), true of NULL. *)
Definition between_ok (lo hi : Z) (o : option Z) : bool := from_option (in_range lo hi) true o.

(** The constraint a row of media breaks, if any. *)
Definition media_columns_ok (m : Medium) (d : DB) : option error :=
  if negb (slices_contains media_kinds (md_Kind m)) then Some (check_violation "media_kind_check")
  else if md_Size m <=? 0 then Some (check_violation "media_size_check")
  else if negb (slices_contains chat_types (default "private" (md_ChatType m))) then Some (check_violation "media_chat_type_check")
  else if negb (between_ok 1 600000 (md_DurationMs m)) then Some (check_violation "media_duration_ms_check")
  else if negb (between_ok 1 8192 (md_Width m)) then Some (check_violation "media_width_check")
  else if negb (between_ok 1 8192 (md_Height m)) then Some (check_violation "media_height_check")
  else if negb (from_option (varchar_ok 200) true (md_FileName m)) then Some (check_violation "media_file_name_check")
  else if negb (from_option (λ w, Z.of_nat (length w) <=? 128) true (md_Waveform m)) then Some (check_violation "media_waveform_check")
  else if negb (from_option (λ u, bool_decide (is_Some (users d !! u))) true (md_OwnerID m))
  then Some (foreign_key_violation "media_owner_id_fkey")
  else None.

Definition put_medium (id : uuid) (m : Medium) (d : DB) : DB := with_media (<[id := m]> (media d)) d.

(** ** Rows *)

Definition live (m : Medium) : bool := bool_decide (md_DeletedAt m = None).
Definition owned (owner : uuid) (m : Medium) : bool := bool_decide (md_OwnerID m = Some owner).

(** UPDATE media SET ... WHERE ...; the columns set satisfy their constraints. *)
Definition update_media (p : uuid → Medium → bool) (f : Medium → Medium) (d : DB) : DB :=
  with_media (map_imap (λ k m, Some (if p k m then f m else m)) (media d)) d.
#[global] Arguments update_media : simpl never.

Definition set_attached (chatType : string) (chatID messageID : uuid) (m : Medium) : Medium :=
  mk_Medium (md_OwnerID m) (md_Kind m) (md_ContentType m) (md_Size m) "ready" (Some chatType) (Some chatID) (Some messageID)
    (md_CreatedAt m) (md_ExpiresAt m) (md_DeliveredAt m) (md_LastAccessAt m) (md_DeletedAt m) (md_DurationMs m) (md_Width m)
    (md_Height m) (md_HasThumbnail m) (md_FileName m) (md_Waveform m).
Definition set_media_times (expires : time) (delivered : option time) (access : time) (deleted : option time) (m : Medium) : Medium :=
  mk_Medium (md_OwnerID m) (md_Kind m) (md_ContentType m) (md_Size m) (md_Status m) (md_ChatType m) (md_ChatID m) (md_MessageID m)
    (md_CreatedAt m) expires delivered access deleted (md_DurationMs m) (md_Width m) (md_Height m) (md_HasThumbnail m)
    (md_FileName m) (md_Waveform m).
Definition set_thumbnail (m : Medium) : Medium :=
  mk_Medium (md_OwnerID m) (md_Kind m) (md_ContentType m) (md_Size m) (md_Status m) (md_ChatType m) (md_ChatID m) (md_MessageID m)
    (md_CreatedAt m) (md_ExpiresAt m) (md_DeliveredAt m) (md_LastAccessAt m) (md_DeletedAt m) (md_DurationMs m) (md_Width m)
    (md_Height m) true (md_FileName m) (md_Waveform m).

(** sum(size) *)
Definition sum_sizes (l : list (uuid * Medium)) : Z := foldr (λ e n, md_Size e.2 + n) 0 l.

(** ** Statements *)

(** :execrows *)
Definition AttachMedia (chatType : string) (chatID messageID id owner : uuid) : M DB Z := λ d,
  match media d !! id with
  | Some m =>
    if owned owner m && bool_decide (md_Status m = "pending") && live m
    then let m' := set_attached chatType chatID messageID m in
         match media_columns_ok m' d with
         | Some e => (Err e, d)
         | None => (Ok 1, put_medium id m' d)
         end
    else (Ok 0, d)
  | None => (Ok 0, d)
  end.

Definition CountMediaDownloads (id : uuid) : M DB Z := λ d,
  (Ok (Z.of_nat (size (filter (λ k : uuid * uuid, k.1 = id) (media_downloads d)))), d).

Record CreateMediaParams := mk_CreateMediaParams {
  cmp_ID : uuid;
  cmp_OwnerID : uuid;
  cmp_Kind : string;
  cmp_ContentType : string;
  cmp_Size : Z;
  cmp_Now : time;
  cmp_ExpiresAt : time;
  cmp_DurationMs : option Z;
  cmp_Width : option Z;
  cmp_Height : option Z;
  cmp_FileName : option string;
  cmp_Waveform : option (list Z);
}.

Definition new_medium (a : CreateMediaParams) : Medium :=
  mk_Medium (Some (cmp_OwnerID a)) (cmp_Kind a) (cmp_ContentType a) (cmp_Size a) "pending" None None None (cmp_Now a)
    (cmp_ExpiresAt a) None (cmp_Now a) None (cmp_DurationMs a) (cmp_Width a) (cmp_Height a) false (cmp_FileName a) (cmp_Waveform a).

Definition CreateMedia (a : CreateMediaParams) : M DB unit := λ d,
  match media d !! cmp_ID a with
  | Some _ => (Err (unique_violation "media_pkey"), d)
  | None =>
    match media_columns_ok (new_medium a) d with
    | Some e => (Err e, d)
    | None => (Ok tt, put_medium (cmp_ID a) (new_medium a) d)
    end
  end.

Definition ExpireMediaOfGroup (now : time) (groupID : uuid) : M DB unit := modify (update_media
  (λ _ m, bool_decide (md_ChatType m = Some "public") && bool_decide (md_ChatID m = Some groupID) && live m)
  (λ m, set_media_times now (md_DeliveredAt m) (md_LastAccessAt m) (md_DeletedAt m) m)).

Definition ExpireMediaOfMessage (now : time) (messageID : uuid) : M DB unit := modify (update_media
  (λ _ m, bool_decide (md_MessageID m = Some messageID) && live m)
  (λ m, set_media_times now (md_DeliveredAt m) (md_LastAccessAt m) (md_DeletedAt m) m)).

Definition GetMedia (id : uuid) : M DB Medium := λ d,
  (match media d !! id with Some m => Ok m | None => Err ErrNoRows end, d).

(** A member sees what was sent since they joined; [None] of the message's time is a
    message that is gone, and then it is the upload's. *)
Definition GroupMediaVisible (messageID : option uuid) (uploadedAt : time) (groupID viewer : uuid) : M DB bool := λ d,
  (Ok (match member_table d !! (groupID, viewer) with
       | Some mt => m_JoinedAt mt <=? from_option gm_CreatedAt uploadedAt (messageID ≫= λ id, groupmessage d !! id)
       | None => false
       end), d).

(** ORDER BY last_access_at, created_at LIMIT 500 *)
Definition lru_le (a b : uuid * Medium) : bool :=
  (md_LastAccessAt a.2 <? md_LastAccessAt b.2) ||
  ((md_LastAccessAt a.2 =? md_LastAccessAt b.2) && (md_CreatedAt a.2 <=? md_CreatedAt b.2)).
Definition LeastRecentlyUsedMedia : M DB (list (uuid * Z)) := λ d,
  (Ok ((λ e : uuid * Medium, (e.1, md_Size e.2)) <$> limit 500 (order_by lru_le (select (λ _ m, live m) (media d)))), d).

Definition MarkMediaDeleted (now : time) (ids : list uuid) : M DB unit := modify (update_media
  (λ k _, slices_contains ids k)
  (λ m, set_media_times (md_ExpiresAt m) (md_DeliveredAt m) (md_LastAccessAt m) (Some now) m)).

Definition MarkMediaDelivered (now : time) (id : uuid) : M DB unit := modify (update_media
  (λ k m, bool_decide (k = id) && bool_decide (md_DeliveredAt m = None))
  (λ m, set_media_times (md_ExpiresAt m) (Some now) (md_LastAccessAt m) (md_DeletedAt m) m)).

Definition MediaCreatedSince (owner : uuid) (since : time) : M DB Z := λ d,
  (Ok (Z.of_nat (length (select (λ _ m, owned owner m && (since <? md_CreatedAt m)) (media d)))), d).

(** ORDER BY created_at, id *)
Definition media_le (a b : uuid * Medium) : bool :=
  (md_CreatedAt a.2 <? md_CreatedAt b.2) || ((md_CreatedAt a.2 =? md_CreatedAt b.2) && N.leb a.1 b.1).
Definition MediaForMessages (ids : list uuid) : M DB (list (uuid * Medium)) := λ d,
  (Ok (order_by media_le (select (λ _ m, match md_MessageID m with Some id => slices_contains ids id | None => false end)
                            (media d))), d).

Definition MediaStoredBytes : M DB Z := λ d, (Ok (sum_sizes (select (λ _ m, live m) (media d))), d).

(** What the next cleanup is to remove. *)
Definition due (deliveredBefore now pendingBefore : time) (m : Medium) : bool :=
  live m &&
  (from_option (λ t, t <? deliveredBefore) false (md_DeliveredAt m) || (md_ExpiresAt m <? now) ||
   bool_decide (md_OwnerID m = None) || (bool_decide (md_Status m = "pending") && (md_CreatedAt m <? pendingBefore))).
Definition MediaToDelete (deliveredBefore now pendingBefore : time) : M DB (list uuid) := λ d,
  (Ok (fst <$> limit 500 (select (λ _ m, due deliveredBefore now pendingBefore m) (media d))), d).

Definition MediaUploadedSince (owner : uuid) (since : time) : M DB Z := λ d,
  (Ok (sum_sizes (select (λ _ m, owned owner m && (since <=? md_CreatedAt m)) (media d))), d).

(** The insertion and the update are one statement. *)
Definition RecordMediaDownload (id userID : uuid) (now : time) : M DB unit := λ d,
  if decide ((id, userID) ∈ media_downloads d) then
    (Ok tt, update_media (λ k _, bool_decide (k = id))
              (λ m, set_media_times (md_ExpiresAt m) (md_DeliveredAt m) now (md_DeletedAt m) m) d)
  else match media d !! id, users d !! userID with
  | None, _ => (Err (foreign_key_violation "media_downloads_media_id_fkey"), d)
  | _, None => (Err (foreign_key_violation "media_downloads_user_id_fkey"), d)
  | Some _, Some _ =>
    (Ok tt, update_media (λ k _, bool_decide (k = id))
              (λ m, set_media_times (md_ExpiresAt m) (md_DeliveredAt m) now (md_DeletedAt m) m)
              (with_media_downloads ({[ (id, userID) ]} ∪ media_downloads d) d))
  end.

(** :execrows *)
Definition SetThumbnail (id owner : uuid) : M DB Z := λ d,
  match media d !! id with
  | Some m =>
    if owned owner m && bool_decide (md_Kind m = "video") && live m && negb (md_HasThumbnail m)
    then (Ok 1, put_medium id (set_thumbnail m) d)
    else (Ok 0, d)
  | None => (Ok 0, d)
  end.

Definition ThumbnailsOf (ids : list uuid) : M DB (list uuid) := λ d,
  (Ok (fst <$> select (λ k m, slices_contains ids k && md_HasThumbnail m) (media d)), d).
