(* ===== verification/Sql_Push.v ===== *)
(** * Sql_Push: the statements on devices, preferences and mutes (src/internal/database/push.sql.go)

    With the constraints of src/sql/schema/034_push.sql; [DeleteUserDevices] is in
    Sql_Accounts. *)

From S2P Require Import Prelude GoLib Db Sql_Media.

#[local] Open Scope Z_scope.

Definition DeleteDeadTokens (tokens : list string) : M DB unit := modify (λ d,
  with_user_devices (filter (λ kv, kv.1 ∉ tokens) (user_devices d)) d).

Definition DeleteDevice (token : string) (userID : uuid) : M DB unit := modify (λ d,
  with_user_devices (filter (λ kv, ¬ (kv.1 = token ∧ ud_UserID kv.2 = userID)) (user_devices d)) d).

Definition DeleteMute (userID : uuid) (chatType : string) (chatID : uuid) : M DB unit := modify (λ d,
  with_chat_mutes (delete (userID, chatType, chatID) (chat_mutes d)) d).

Definition GetNotificationPrefs (userID : uuid) : M DB NotificationPref := λ d,
  (match notification_prefs d !! userID with Some p => Ok p | None => Err ErrNoRows end, d).

(** until IS NULL OR until > now *)
Definition still_muted (now : time) (until : option time) : bool := from_option (λ t, now <? t) true until.

(** ORDER BY chat_type, chat_id *)
Definition mute_le (a b : (uuid * string * uuid) * option time) : bool :=
  string_gt b.1.1.2 a.1.1.2 || (bool_decide (b.1.1.2 = a.1.1.2) && N.leb a.1.2 b.1.2).
Definition ListMutes (userID : uuid) (now : time) : M DB (list (string * uuid * option time)) := λ d,
  (Ok ((λ e : (uuid * string * uuid) * option time, (e.1.1.2, e.1.2, e.2)) <$>
         order_by mute_le (select (λ k u, bool_decide (k.1.1 = userID) && still_muted now u) (chat_mutes d))), d).

(** The CASE on the kind, with the defaults of a user without preferences. *)
Definition wants (kind : string) (p : option NotificationPref) : bool :=
  if decide (kind = "private") then from_option np_Private true p
  else if decide (kind = "public") then from_option np_Groups true p
  else if decide (kind = "friends") then from_option np_Friends true p
  else if decide (kind = "reactions") then from_option np_Reactions true p
  else bool_decide (kind = "calls").

(** Whether the chat is muted. *)
Definition muted (d : DB) (userID : uuid) (chatType : string) (chatID : uuid) (now : time) : bool :=
  from_option (still_muted now) false (chat_mutes d !! (userID, chatType, chatID)).

Definition PushTargets (ids : list uuid) (kind chatType : string) (chatID : uuid) (now : time) : M DB (list (uuid * string)) := λ d,
  (Ok ((λ e : string * UserDevice, (ud_UserID e.2, e.1)) <$>
         select (λ _ dev, slices_contains ids (ud_UserID dev) && wants kind (notification_prefs d !! ud_UserID dev) &&
                          negb (muted d (ud_UserID dev) chatType chatID now)) (user_devices d)), d).

Definition SetMute (userID : uuid) (chatType : string) (chatID : uuid) (until : option time) : M DB unit := λ d,
  if negb (slices_contains chat_types chatType) then (Err (check_violation "chat_mutes_chat_type_check"), d)
  else match users d !! userID with
  | None => (Err (foreign_key_violation "chat_mutes_user_id_fkey"), d)
  | Some _ => (Ok tt, with_chat_mutes (<[(userID, chatType, chatID) := until]> (chat_mutes d)) d)
  end.

Definition SetNotificationPrefs (userID : uuid) (p : NotificationPref) : M DB unit := λ d,
  match users d !! userID with
  | None => (Err (foreign_key_violation "notification_prefs_user_id_fkey"), d)
  | Some _ => (Ok tt, with_notification_prefs (<[userID := p]> (notification_prefs d)) d)
  end.

(** A token that is known moves to the user. *)
Definition UpsertDevice (token : string) (userID : uuid) (platform : string) : M DB unit := λ d,
  if negb (in_range 1 4096 (RuneCountInString token)) then (Err (check_violation "user_devices_token_check"), d)
  else match users d !! userID with
  | None => (Err (foreign_key_violation "user_devices_user_id_fkey"), d)
  | Some _ =>
    let created := from_option ud_CreatedAt (db_now d) (user_devices d !! token) in
    (Ok tt, with_user_devices (<[token := mk_UserDevice userID platform created (db_now d)]> (user_devices d)) d)
  end.
