(* ===== verification/Sql_Admin.v ===== *)
(** * Sql_Admin: the statements behind the admin pages and reports
    (src/internal/database/admin.sql.go, reports.sql.go)

    With the constraints of src/sql/schema 037 and 039.  [UserBan] and [TouchLastSeen] are
    in Sql_Users, [AllBannedUsers] in Sql_Chat. *)

From S2P Require Import Prelude GoLib Db Sql_Groups Sql_Users Sql_Media Groups_Model.

#[local] Open Scope Z_scope.

(** PostgreSQL's ILIKE, lower, and the collation of ORDER BY. *)
Class PgText := {
  ilike : string → string → bool;
  pg_lower : string → string;
  pg_le : string → string → bool;
}.

(** ** Users *)

Definition set_ban (since until : option time) (reason : option string) (now : time) (u : User) : User :=
  mk_User (u_created_at u) now (u_email u) (u_password u) (u_name u) (u_email_verified_at u) (u_bio u) (u_name_changed_at u)
    (u_avatar_at u) (u_location_id u) (u_location_country u) (u_discoverable u) (u_is_admin u) since until reason
    (u_last_seen_at u) (u_display_name u) (u_hide_last_seen u).
Definition set_admin (on : bool) (now : time) (u : User) : User :=
  mk_User (u_created_at u) now (u_email u) (u_password u) (u_name u) (u_email_verified_at u) (u_bio u) (u_name_changed_at u)
    (u_avatar_at u) (u_location_id u) (u_location_country u) (u_discoverable u) on (u_banned_at u) (u_banned_until u)
    (u_ban_reason u) (u_last_seen_at u) (u_display_name u) (u_hide_last_seen u).

(** :execrows *)
Definition BanUser (now : time) (until : option time) (reason : string) (id : uuid) : M DB Z := λ d,
  match users d !! id with
  | Some u => if u_is_admin u then (Ok 0, d)
              else (Ok 1, with_users (<[id := set_ban (Some now) until (Some reason) now u]> (users d)) d)
  | None => (Ok 0, d)
  end.

(** :execrows *)
Definition UnbanUser (id : uuid) : M DB Z := λ d,
  match users d !! id with
  | Some u => if decide (u_banned_at u = None) then (Ok 0, d)
              else (Ok 1, with_users (<[id := set_ban None None None (db_now d) u]> (users d)) d)
  | None => (Ok 0, d)
  end.

Definition ban_expired (now : time) (u : User) : bool :=
  bool_decide (is_Some (u_banned_at u)) && from_option (λ t, t <? now) false (u_banned_until u).
Definition ExpiredBans (now : time) : M DB (list uuid) := λ d,
  (Ok (fst <$> select (λ _ u, ban_expired now u) (users d)), d).

Definition SetAdminByEmail `{PgText} (on : bool) (email : string) : M DB (uuid * string) := λ d,
  match select (λ _ u, bool_decide (u_email u = pg_lower email)) (users d) with
  | (id, u) :: _ => (Ok (id, u_name u), with_users (<[id := set_admin on (db_now d) u]> (users d)) d)
  | [] => (Err ErrNoRows, d)
  end.

Definition ListAdmins `{PgText} : M DB (list (uuid * User)) := λ d,
  (Ok (order_by (λ a b : uuid * User, pg_le (u_name a.2) (u_name b.2)) (select (λ _ u, u_is_admin u) (users d))), d).

Definition AdminGetUser (id : uuid) : M DB User := λ d,
  (match users d !! id with Some u => Ok u | None => Err ErrNoRows end, d).

Definition count {K V} `{Countable K} (p : K → V → bool) (t : gmap K V) : Z := Z.of_nat (length (select p t)).

Record AdminOverviewRow := mk_AdminOverviewRow {
  ao_Users : Z;
  ao_Verified : Z;
  ao_Signups24h : Z;
  ao_Signups7d : Z;
  ao_Active7d : Z;
  ao_Banned : Z;
  ao_Messages24h : Z;
  ao_Groups : Z;
  ao_MediaBytes : Z;
}.

Definition AdminOverview (dayAgo weekAgo : time) : M DB AdminOverviewRow := λ d,
  (Ok (mk_AdminOverviewRow
    (count (λ _ _, true) (users d))
    (count (λ _ u, bool_decide (is_Some (u_email_verified_at u))) (users d))
    (count (λ _ u, dayAgo <? u_created_at u) (users d))
    (count (λ _ u, weekAgo <? u_created_at u) (users d))
    (count (λ _ u, from_option (λ t, weekAgo <? t) false (u_last_seen_at u)) (users d))
    (count (λ _ u, bool_decide (is_Some (u_banned_at u))) (users d))
    (count (λ _ m, dayAgo <? pm_CreatedAt m) (message d) + count (λ _ m, dayAgo <? gm_CreatedAt m) (groupmessage d))
    (count (λ _ _, true) (chat_groups d))
    (sum_sizes (select (λ _ m, live m) (media d)))), d).

Record UserStats := mk_UserStats { st_MessagesSent : Z; st_Friends : Z; st_Groups : Z; st_Devices : Z }.

Definition AdminUserStats (id : uuid) : M DB UserStats := λ d,
  (Ok (mk_UserStats
    (count (λ _ m, bool_decide (pm_FromID m = Some id)) (message d) + count (λ _ m, bool_decide (gm_FromID m = Some id)) (groupmessage d))
    (count (λ _ r, bool_decide (rel_Status r = "confirm") && (bool_decide (rel_UserID r = id) || bool_decide (rel_OtheruserID r = id)))
       (user_relationships d))
    (count (λ k _, bool_decide (k.2 = id)) (member_table d))
    (count (λ _ dev, bool_decide (ud_UserID dev = id)) (user_devices d))), d).

(** ORDER BY created_at DESC LIMIT lim OFFSET off *)
Definition newest_page {A} (created : A → time) (lim off : Z) (l : list A) : list A :=
  limit lim (drop (Z.to_nat off) (order_by (λ a b, created b <=? created a) l)).

Definition contains_text `{PgText} (s q : string) : bool := ilike s ("%" +:+ q +:+ "%").

Definition AdminSearchUsers `{PgText} (q : string) (off lim : Z) : M DB (list (uuid * User)) := λ d,
  (Ok (newest_page (λ r, u_created_at r.2) lim off
         (select (λ _ u, bool_decide (q = EmptyString) || contains_text (u_name u) q || contains_text (u_email u) q) (users d))), d).

Record AdminGroupRow := mk_AdminGroupRow { ag_ID : uuid; ag_Row : ChatGroup; ag_Leader : string; ag_Messages7d : Z }.

Definition AdminSearchGroups `{PgText} (weekAgo : time) (q : string) (off lim : Z) : M DB (list AdminGroupRow) := λ d,
  (Ok ((λ r : uuid * ChatGroup,
        mk_AdminGroupRow r.1 r.2
          (match members_where r.1 (λ _ m, bool_decide (m_Role m = RoleAdmin)) d with
           | (u, _) :: _ => from_option u_name EmptyString (users d !! u)
           | [] => EmptyString
           end)
          (count (λ _ m, bool_decide (gm_GroupID m = Some r.1) && (weekAgo <? gm_CreatedAt m)) (groupmessage d))) <$>
       newest_page (λ r, g_CreatedAt r.2) lim off
         (select (λ _ g, bool_decide (q = EmptyString) || contains_text (g_Name g) q) (chat_groups d))), d).

(** ** Groups of a user *)

Record GroupMembershipsOfRow := mk_GroupMembershipsOfRow { mo_GroupID : uuid; mo_Role : string; mo_CurrentMember : Z }.

Definition GroupMembershipsOf (memberID : uuid) : M DB (list GroupMembershipsOfRow) := λ d,
  (Ok (omap (λ kv : uuid * uuid * MemberTable,
         (λ g, mk_GroupMembershipsOfRow kv.1.1 (m_Role kv.2) (g_CurrentMember g)) <$> chat_groups d !! kv.1.1)
       (select (λ k _, bool_decide (k.2 = memberID)) (member_table d))), d).

(** ** The audit log *)

Definition LogAdminAction (id : uuid) (a : AdminAction) : M DB unit := λ d,
  match admin_actions d !! id with
  | Some _ => (Err (unique_violation "admin_actions_pkey"), d)
  | None =>
    if negb (from_option (λ u, bool_decide (is_Some (users d !! u))) true (aa_AdminID a))
    then (Err (foreign_key_violation "admin_actions_admin_id_fkey"), d)
    else (Ok tt, with_admin_actions (<[id := a]> (admin_actions d)) d)
  end.

(** The action and its admin's name; ORDER BY at DESC *)
Definition ListAdminActions (lim : Z) : M DB (list (uuid * AdminAction * string)) := λ d,
  (Ok ((λ e : uuid * AdminAction, (e.1, e.2, from_option u_name "cli/system" (aa_AdminID e.2 ≫= λ u, users d !! u))) <$>
         newest_page (λ e : uuid * AdminAction, aa_At e.2) lim 0 (select (λ _ _, true) (admin_actions d))), d).

(** ** Reports *)

Definition report_reasons : list string :=
  ["spam"; "harassment"; "hate"; "violence"; "sexual"; "impersonation"; "scam"; "other"].

Definition CountOpenReports : M DB Z := λ d, (Ok (count (λ _ r, bool_decide (rp_Status r = "open")) (reports d)), d).

(** A report goes with the messages attached to it. *)
Definition DeleteOldClosedReports (before : time) : M DB Z := λ d,
  let old (r : Report) := negb (bool_decide (rp_Status r = "open")) && from_option (λ t, t <? before) false (rp_ResolvedAt r) in
  (Ok (count (λ _ r, old r) (reports d)),
   with_reports (filter (λ kv, old kv.2 = false) (reports d))
     (with_report_messages (filter (λ kv, from_option old false (reports d !! kv.1.1) = false) (report_messages d)) d)).

Definition GetReport (id : uuid) : M DB (Report * string * string) := λ d,
  (match reports d !! id with
   | Some r => Ok (r, from_option u_name EmptyString (users d !! rp_ReportedID r),
                   from_option u_name "(deleted)" (rp_ReporterID r ≫= λ u, users d !! u))
   | None => Err ErrNoRows
   end, d).

Definition PrivateEvidence (ids : list uuid) (reporter reported : uuid) : M DB (list (uuid * Message)) := λ d,
  (Ok (select (λ k m, slices_contains ids k && bool_decide (pm_DeletedAt m = None) &&
         ((bool_decide (pm_FromID m = Some reporter) && bool_decide (pm_ToID m = Some reported)) ||
          (bool_decide (pm_FromID m = Some reported) && bool_decide (pm_ToID m = Some reporter)))) (message d)), d).

Definition GroupEvidence (reporter : uuid) (ids : list uuid) : M DB (list (uuid * Groupmessage)) := λ d,
  (Ok (select (λ k m, slices_contains ids k && bool_decide (gm_DeletedAt m = None) &&
         match gm_GroupID m ≫= λ g, member_table d !! (g, reporter) with
         | Some mt => m_JoinedAt mt <=? gm_CreatedAt m
         | None => false
         end) (groupmessage d)), d).

(** :execrows *)
Definition ResolveReport (status : string) (adminID : option uuid) (now : time) (resolution : string) (id : uuid) : M DB Z := λ d,
  match reports d !! id with
  | Some r =>
    if negb (bool_decide (rp_Status r = "open")) then (Ok 0, d)
    else if negb (slices_contains ["open"; "resolved"; "dismissed"] status) then (Err (check_violation "reports_status_check"), d)
    else if negb (from_option (λ u, bool_decide (is_Some (users d !! u))) true adminID)
    then (Err (foreign_key_violation "reports_resolved_by_fkey"), d)
    else (Ok 1, with_reports (<[id := mk_Report (rp_ReporterID r) (rp_ReportedID r) (rp_Reason r) (rp_Note r) status adminID
                                   (Some now) resolution (rp_CreatedAt r)]> (reports d)) d)
  | None => (Ok 0, d)
  end.

(** The open report of one user about another. *)
Definition open_report (reporter reported : uuid) (r : Report) : bool :=
  bool_decide (rp_ReporterID r = Some reporter) && bool_decide (rp_ReportedID r = reported) && bool_decide (rp_Status r = "open").

(** The constraint a new report breaks, if any. *)
Definition report_columns_ok (id reporter reported : uuid) (reason note : string) (d : DB) : option error :=
  if negb (slices_contains report_reasons reason) then Some (check_violation "reports_reason_check")
  else if RuneCountInString note >? 4000 then Some (check_violation "reports_note_check")
  else None.

Definition UpsertOpenReport (id reporter reported : uuid) (reason note : string) (now : time) : M DB uuid := λ d,
  match report_columns_ok id reporter reported reason note d with
  | Some e => (Err e, d)
  | None =>
    match select (λ _ r, open_report reporter reported r) (reports d) with
    | (k, r) :: _ =>
      (Ok k, with_reports (<[k := mk_Report (rp_ReporterID r) (rp_ReportedID r) reason note (rp_Status r) (rp_ResolvedBy r)
                               (rp_ResolvedAt r) (rp_Resolution r) now]> (reports d)) d)
    | [] =>
      match reports d !! id, users d !! reporter, users d !! reported with
      | Some _, _, _ => (Err (unique_violation "reports_pkey"), d)
      | None, None, _ => (Err (foreign_key_violation "reports_reporter_id_fkey"), d)
      | None, Some _, None => (Err (foreign_key_violation "reports_reported_id_fkey"), d)
      | None, Some _, Some _ =>
        (Ok id, with_reports (<[id := mk_Report (Some reporter) reported reason note "open" None None EmptyString now]> (reports d)) d)
      end
    end
  end.

(** ON CONFLICT DO NOTHING *)
Definition AddReportMessage (reportID messageID : uuid) (m : ReportMessage) : M DB unit := λ d,
  if negb (slices_contains chat_types (rpm_ChatType m)) then (Err (check_violation "report_messages_chat_type_check"), d)
  else match report_messages d !! (reportID, messageID), reports d !! reportID with
  | Some _, _ => (Ok tt, d)
  | None, None => (Err (foreign_key_violation "report_messages_report_id_fkey"), d)
  | None, Some _ => (Ok tt, with_report_messages (<[(reportID, messageID) := m]> (report_messages d)) d)
  end.

(** ORDER BY sent_at *)
Definition ReportMessages (reportID : uuid) : M DB (list (uuid * ReportMessage)) := λ d,
  (Ok ((λ e : uuid * uuid * ReportMessage, (e.1.2, e.2)) <$>
         order_by (λ a b : uuid * uuid * ReportMessage, rpm_SentAt a.2 <=? rpm_SentAt b.2)
           (select (λ k _, bool_decide (k.1 = reportID)) (report_messages d))), d).

Record ListReportsRow := mk_ListReportsRow {
  lr_ID : uuid;
  lr_Report : Report;
  lr_ReportedName : string;
  lr_ReporterName : string;
  lr_Evidence : Z;
  lr_ReportsAgainst : Z;
}.

Definition ListReports (status : string) (off lim : Z) : M DB (list ListReportsRow) := λ d,
  (Ok ((λ e : uuid * Report, mk_ListReportsRow e.1 e.2
        (from_option u_name EmptyString (users d !! rp_ReportedID e.2))
        (from_option u_name "(deleted)" (rp_ReporterID e.2 ≫= λ u, users d !! u))
        (count (λ k _, bool_decide (k.1 = e.1)) (report_messages d))
        (count (λ _ r, bool_decide (rp_ReportedID r = rp_ReportedID e.2)) (reports d))) <$>
       newest_page (λ e, rp_CreatedAt e.2) lim off
         (select (λ _ r, bool_decide (status = EmptyString) || bool_decide (rp_Status r = status)) (reports d))), d).
