(* ===== verification/Sql_Search.v ===== *)
(** * Sql_Search: the statements that find messages, groups and people
    (src/internal/database/chat.sql.go, groups.sql.go, users.sql.go, discover.sql.go)

    LIKE, lower and pg_trgm are PostgreSQL's: parameters, with what the documentation says
    of LIKE as a law. *)

From S2P Require Import Prelude GoLib Db Sql_Groups Sql_Friends Sql_Users Sql_Chat Sql_Admin Groups_Model.

#[local] Open Scope Z_scope.

(** [like s p] is [s LIKE p ESCAPE '\']; [similar] is pg_trgm's operator %, and
    [similarity] the bits of the real it is decided by (reals that are not negative are
    ordered as their bits). *)
Class PgSearch := {
  like : string → string → bool;
  similar : string → string → bool;
  similarity : string → string → N;
}.

(** What LIKE matches (9.7.1 of the manual), on bytes: 37 is %, any text; 95 is _, any one
    character; 92 escapes what follows; anything else stands for itself. *)
Inductive like_matches : list Z → list Z → Prop :=
  | lm_end : like_matches [] []
  | lm_any a s p : like_matches s p → like_matches (a ++ s) (37 :: p)
  | lm_one a s p : RuneCountInString (string_of a) = 1 → like_matches s p → like_matches (a ++ s) (95 :: p)
  | lm_escaped c s p : like_matches s p → like_matches (c :: s) (92 :: c :: p)
  | lm_char c s p : c ∉ [37; 95; 92] → like_matches s p → like_matches (c :: s) (c :: p).

Class PgSearchLaws {pgs : PgSearch} := {
  like_documented s p : like s p = true ↔ like_matches (bytes_of s) (bytes_of p);
}.
Arguments PgSearchLaws : clear implicits.

(** [lower(s) LIKE '%' || q || '%' ESCAPE '\'] *)
Definition lower_like `{PgText} `{PgSearch} (s q : string) : bool := like (pg_lower s) ("%" +:+ q +:+ "%").

(** ** Messages *)

(** The filters both searches share: not deleted, the text, the cursor, the lower bound. *)
Definition search_row `{PgText} `{PgSearch} (q : string) (before : time * uuid) (after : option time)
    (id : uuid) (content : option string) (deleted : option time) (created : time) : bool :=
  bool_decide (deleted = None) && from_option (λ s, lower_like s q) false content &&
  row_lt (created, id) before && from_option (λ a, a <=? created) true after.

Record SearchParams := mk_SearchParams {
  sp_Me : uuid;
  sp_Q : string;
  sp_Chat : option uuid;        (* WithUser, InGroup *)
  sp_BeforeAt : time;
  sp_BeforeID : uuid;
  sp_AfterAt : option time;
  sp_Lim : Z;
}.

Definition private_match `{PgText} `{PgSearch} (a : SearchParams) (id : uuid) (m : Message) : bool :=
  let me := sp_Me a in
  (bool_decide (pm_FromID m = Some me) || bool_decide (pm_ToID m = Some me)) &&
  search_row (sp_Q a) (sp_BeforeAt a, sp_BeforeID a) (sp_AfterAt a) id (pm_Content m) (pm_DeletedAt m) (pm_CreatedAt m) &&
  from_option (λ u, (bool_decide (pm_FromID m = Some me) && bool_decide (pm_ToID m = Some u)) ||
                    (bool_decide (pm_ToID m = Some me) && bool_decide (pm_FromID m = Some u))) true (sp_Chat a).

(** ORDER BY created_at DESC, id DESC *)
Definition SearchPrivateMessages `{PgText} `{PgSearch} (a : SearchParams) : M DB (list (uuid * Message)) := λ d,
  (Ok (limit (sp_Lim a) (order_by (newest_id pm_key) (select (private_match a) (message d)))), d).

Definition group_match `{PgText} `{PgSearch} (a : SearchParams) (d : DB) (id : uuid) (m : Groupmessage) : bool :=
  match gm_GroupID m ≫= λ g, member_table d !! (g, sp_Me a) with
  | Some mt =>
    gm_Searchable m &&
    search_row (sp_Q a) (sp_BeforeAt a, sp_BeforeID a) (sp_AfterAt a) id (gm_Content m) (gm_DeletedAt m) (gm_CreatedAt m) &&
    (m_JoinedAt mt <=? gm_CreatedAt m) &&
    from_option (λ g, bool_decide (gm_GroupID m = Some g)) true (sp_Chat a)
  | None => false
  end.

Definition SearchGroupMessages `{PgText} `{PgSearch} (a : SearchParams) : M DB (list (uuid * Groupmessage)) := λ d,
  (Ok (limit (sp_Lim a) (order_by (newest_id gm_key) (select (group_match a d) (groupmessage d)))), d).

(** ** Groups *)

(** ORDER BY (the name starts with q) DESC, current_member DESC, id; LIMIT 20 *)
Definition public_group_le `{PgText} `{PgSearch} (q : string) (a b : uuid * ChatGroup) : bool :=
  let starts (g : ChatGroup) := like (pg_lower (g_Name g)) (q +:+ "%") in
  if Bool.eqb (starts a.2) (starts b.2)
  then (g_CurrentMember b.2 <? g_CurrentMember a.2) || ((g_CurrentMember b.2 =? g_CurrentMember a.2) && (a.1 <=? b.1)%N)
  else starts a.2.

(** The groups, and whether the viewer is in each. *)
Definition SearchPublicGroups `{PgText} `{PgSearch} (viewer : uuid) (q : string) : M DB (list (uuid * ChatGroup * bool)) := λ d,
  (Ok ((λ e : uuid * ChatGroup, (e, bool_decide (is_Some (member_table d !! (e.1, viewer))))) <$>
         limit 20 (order_by (public_group_le q)
           (select (λ _ g, bool_decide (g_Visibility g = Public) && lower_like (g_Name g) q) (chat_groups d)))), d).

(** ORDER BY lower(g.name) *)
Definition ListGroupsForUser `{PgText} (memberID : uuid) : M DB (list (uuid * ChatGroup * MemberTable)) := λ d,
  (Ok (order_by (λ a b : uuid * ChatGroup * MemberTable, pg_le (pg_lower (g_Name a.1.2)) (pg_lower (g_Name b.1.2)))
        (omap (λ e : (uuid * uuid) * MemberTable, g ← chat_groups d !! e.1.1; Some (e.1.1, g, e.2))
          (select (λ k _, bool_decide (k.2 = memberID)) (member_table d)))), d).

(** ** People *)

Definition SearchNameSiml `{PgText} `{PgSearch} (q : string) (me : uuid) : M DB (list (uuid * User)) := λ d,
  let score (u : User) := N.max (similarity (u_name u) q) (similarity (u_display_name u) q) in
  (Ok (limit 20 (order_by (λ a b : uuid * User,
         if (score a.2 =? score b.2)%N then pg_le (u_name a.2) (u_name b.2) else (score b.2 <? score a.2)%N)
       (select (λ k u, (similar (u_name u) q || similar (u_display_name u) q) && bool_decide (u_banned_at u = None) &&
                       negb (blocked_pair k me d)) (users d)))), d).

(** *** Suggestions *)

Section discover.
Context `{PgText}.

(** The other side of a row, if [u] is one. *)
Definition other_end (u : uuid) (r : UserRelationship) : option uuid :=
  if decide (rel_UserID r = u) then Some (rel_OtheruserID r)
  else if decide (rel_OtheruserID r = u) then Some (rel_UserID r) else None.

(** [connected], [my_friends] *)
Definition connected (u : uuid) (d : DB) : list uuid :=
  omap (λ e : uuid * UserRelationship, other_end u e.2) (map_to_list (user_relationships d)).
Definition confirmed (u : uuid) (d : DB) : list uuid :=
  omap (λ e : uuid * UserRelationship, other_end u e.2) (select (λ _ r, is_confirm r) (user_relationships d)).

(** [mutual]: how often [u] is a friend of a friend. *)
Definition mutual (me u : uuid) (d : DB) : Z :=
  Z.of_nat (length (List.filter (λ v, bool_decide (v = u)) (mbind (M := list) (λ f, confirmed f d) (confirmed me d)))).

(** [shared]: ORDER BY interest_id *)
Definition shared (me u : uuid) (d : DB) : list string :=
  if decide (u = me) then []
  else order_by pg_le (snd <$> List.filter (λ e : uuid * string, bool_decide (e.1 = u) && bool_decide ((me, e.2) ∈ user_interests d))
                                 (elements (user_interests d))).

Record DiscoverSuggestionsRow := mk_DiscoverSuggestionsRow {
  ds_ID : uuid;
  ds_User : User;
  ds_MutualFriends : Z;
  ds_SharedInterests : list string;
  ds_SamePlace : option bool;     (* None is NULL *)
  ds_Score : Z;
}.

(** [u.location_id IS NOT NULL AND u.location_id = me.location_id], with three truth
    values. *)
Definition same_place (me u : User) : option bool :=
  match u_location_id u, u_location_id me with
  | None, _ => Some false
  | Some _, None => None
  | Some a, Some b => Some (bool_decide (a = b))
  end.
Definition same_country (me u : User) : bool :=
  negb (bool_decide (u_location_country u = EmptyString)) && bool_decide (u_location_country u = u_location_country me).

Definition scored (me : uuid) (m : User) (d : DB) (e : uuid * User) : DiscoverSuggestionsRow :=
  let n := mutual me e.1 d in let s := shared me e.1 d in let place := same_place m e.2 in
  mk_DiscoverSuggestionsRow e.1 e.2 n s place
    (3 * n + 2 * Z.of_nat (length s) + (if default false place then 3 else if same_country m e.2 then 1 else 0)).

(** Who may be suggested at all. *)
Definition suggestible (me : uuid) (d : DB) (id : uuid) (u : User) : bool :=
  u_discoverable u && bool_decide (u_banned_at u = None) && negb (bool_decide (id = me)) &&
  negb (bool_decide (id ∈ connected me d)) && negb (blocked_pair id me d).

Definition in_common (m : User) (r : DiscoverSuggestionsRow) : bool :=
  (0 <? ds_MutualFriends r) || negb (bool_decide (ds_SharedInterests r = [])) || default false (ds_SamePlace r) ||
  same_country m (ds_User r).

(** ORDER BY score DESC, id *)
Definition score_le (a b : DiscoverSuggestionsRow) : bool :=
  (ds_Score b <? ds_Score a) || ((ds_Score a =? ds_Score b) && (ds_ID a <=? ds_ID b)%N).

Definition suggested (me : uuid) (m : User) (d : DB) : list DiscoverSuggestionsRow :=
  order_by score_le (List.filter (in_common m) (scored me m d <$> select (suggestible me d) (users d))).

(** pgx cannot scan NULL into a bool. *)
Definition ErrScanNull : error := ErrNew "pgx" "cannot scan NULL into *bool".

Definition DiscoverSuggestions (off lim : Z) (me : uuid) : M DB (list DiscoverSuggestionsRow) := λ d,
  match users d !! me with
  | None => (Ok [], d)
  | Some m =>
    let rows := limit lim (drop (Z.to_nat off) (suggested me m d)) in
    (if decide (Forall (λ r, is_Some (ds_SamePlace r)) rows) then Ok rows else Err ErrScanNull, d)
  end.
End discover.
