(* ===== verification/Users_Repo.v ===== *)
(** * Users_Repo: the users repository and the name cache
    (src/internal/users/repo.go, store.go)

    SearchByName is left out with its statement. *)

From S2P Require Import Prelude GoLib Types Catalog Users_Model Db Sql_Users World.

#[local] Open Scope Z_scope.

(** ** store.go: user:{id}:handle *)

Module NameStore.
Definition Name (id : uuid) : M World (option string) := io (get (λ w, w_names w !! id)).

(** One pipelined command; nothing is sent for no users. *)
Definition SetNames (users : list (uuid * string)) : M World unit :=
  if decide (users = []) then mret tt
  else io (modify (λ w, with_names (foldl (λ m (u : uuid * string), <[u.1 := u.2]> m) (w_names w) users) w)).

Definition Forget (id : uuid) : M World unit := io (modify (λ w, with_names (delete id (w_names w)) w)).
End NameStore.

(** ** repo.go *)

Section repo.
Context `{UuidLib}.

(** [toUser], at the time it is called. *)
Definition toUser (now : time) (id : uuid) (u : User) : Account :=
  mk_Account id (u_name u) (ShownName (u_name u) (u_display_name u)) (u_created_at u) (u_updated_at u) (u_email u)
    (bool_decide (is_Some (u_email_verified_at u))) (u_bio u)
    (match u_name_changed_at u with
     | Some t => let next := t + RenameEvery in if now <? next then Some next else None
     | None => None
     end)
    (AvatarURLFrom id (u_avatar_at u)) (PlaceOf (default EmptyString (u_location_id u))) None
    (u_discoverable u) (u_hide_last_seen u) (u_is_admin u).

(** The hash of an account without a password is the empty text. *)
Definition hash_of (u : User) : string := default EmptyString (u_password u).

(** [pgtype.Text{String: s, Valid: s != ""}] *)
Definition optText (s : string) : option string := if decide (s = EmptyString) then None else Some s.

(** [if errors.Is(err, pgx.ErrNoRows) { return ErrUserNotFound }] *)
Definition orNotFound {A} (m : M World A) : M World A :=
  r ← try m;
  match r with
  | Ok a => mret a
  | Err e => throw (if decide (e = ErrNoRows) then ErrUserNotFound else e)
  end.

(** [var pgErr *pgconn.PgError; errors.As(err, &pgErr) && pgErr.Code == "23505"]: the
    constraint. *)
Definition unique_broken (e : error) : option string :=
  match e with ErrPg code constr => if decide (code = "23505") then Some constr else None | _ => None end.

Definition Create_ (input : CreateUserInput) : M World Account :=
  id ← NewV7;
  r ← try (query (CreateUser id (ci_Name input) (ci_Email input) (optText (ci_Password input)) (ci_DisplayName input)));
  match r with
  | Err e =>
    throw (match unique_broken e with
           | Some c => if decide (c = "users_name_key") then ErrDuplicateName else ErrDuplicateEmail
           | None => e
           end)
  | Ok row => now ← Now; mret (toUser now row.1 row.2)
  end.

Definition GetUserByEmail (email : string) : M World (Account * string) :=
  r ← orNotFound (query (GetUserInfoByEmail email));
  now ← Now;
  mret (toUser now r.1 r.2, hash_of r.2).

Definition GetUserByID (id : uuid) : M World (Account * string) :=
  u ← orNotFound (query (GetUserInfoByID id));
  now ← Now;
  mret (toUser now id u, hash_of u).

Definition UpdateUserPassword (userID : uuid) (password : string) : M World Account :=
  query (UpdatePassword (Some password) userID) ;;
  r ← GetUserByID userID;
  mret r.1.

Definition Rename_ (id : uuid) (name : string) (now cutoff : time) : M World Account :=
  r ← try (query (RenameUser name (pgTime now) id (pgTime cutoff)));
  match r with
  | Ok u => t ← Now; mret (toUser t id u)
  | Err e =>
    if bool_decide (is_Some (unique_broken e)) then throw ErrDuplicateName
    else if decide (e = ErrNoRows) then
      cur ← GetUserByID id;
      throw (RenameTooSoonError (default (now + RenameEvery) (ac_NameChangeAvailableAt cur.1)))
    else throw e
  end.

Definition SetBio_ (id : uuid) (bio : string) : M World Account :=
  u ← orNotFound (query (SetBio bio id));
  now ← Now;
  mret (toUser now id u).

Definition Interests_ (id : uuid) : M World (list string) := query (GetInterests id).

Definition PublicProfile (id viewer : uuid) : M World Profile :=
  u ← orNotFound (query (GetPublicProfile id viewer));
  let out (place : option Place) (interests : list string) :=
    mk_Profile id (u_name u) (ShownName (u_name u) (u_display_name u)) (u_bio u) (AvatarURLFrom id (u_avatar_at u))
      place interests in
  visible ← (if u_discoverable u || bool_decide (id = viewer) then mret true else query (AreFriendsSQL id viewer));
  if (visible : bool) then
    interests ← Interests_ id;
    mret (out (PlaceOf (default EmptyString (u_location_id u))) interests)
  else mret (out None []).

Definition SetAvatar_ (id : uuid) (image : list Z) (at_ : time) : M World unit :=
  query (SetAvatar (pgTime at_) id image).

Definition DeleteAvatar_ (id : uuid) : M World unit := query (DeleteAvatar id).

Definition Avatar_ (id viewer : uuid) : M World (list Z * time) := orNotFound (query (GetAvatar id viewer)).

Definition SetLocation_ (id : uuid) (place country : string) : M World unit :=
  query (SetLocation (optText place) country id).

Definition SetDiscoverable_ (id : uuid) (on : bool) : M World unit := query (SetDiscoverable on id).

(** Two statements, each idempotent. *)
Definition SetInterests (id : uuid) (ids : list string) : M World unit :=
  query (RemoveOtherInterests id ids) ;;
  if decide (ids = []) then mret tt else query (AddInterests id ids).

Definition SetDisplayName_ (id : uuid) (name : string) : M World unit := query (SetDisplayName name id).

Definition DisplayName_ (id : uuid) : M World string := orNotFound (query (GetDisplayName id)).
End repo.
