(* ===== verification/Users_Service.v ===== *)
(** * Users_Service: accounts, profiles and names (src/internal/users/service.go)

    The repository it is given ends every session with [RevokeAllRefreshTokens]
    (src/internal/app/cleanup.go, Sessions); the picture codecs are a class.
    SearchUser is left out with its statement. *)

From S2P Require Import Prelude GoLib Types Catalog Users_Model Db World Secure Users_Repo.

#[local] Open Scope Z_scope.

(** [RevokeAllRefreshTokens] of the repository the services are given. *)
Class SessionEnder := { RevokeAllRefreshTokens : uuid → M World unit }.

(** avatar.go *)
Definition avatarSize : Z := 256.
Definition maxAvatarPixels : Z := 40000000.
Definition avatarQuality : Z := 85.

(** The centre square of a picture. *)
Definition centre_square (b : Z * Z * Z * Z) : Z * Z * Z * Z :=
  let '(minX, minY, maxX, maxY) := b in
  let dx := maxX - minX in
  let dy := maxY - minY in
  let side := Z.min dx dy in
  let x := minX + Z.quot (dx - side) 2 in
  let y := minY + Z.quot (dy - side) 2 in
  (x, y, x + side, y + side).

Definition ProcessAvatar `{ImageLib} (raw : list Z) : result (list Z) :=
  match DecodeConfig raw with
  | None => Err ErrBadImage
  | Some (format, width, height) =>
    if negb (bool_decide (format ∈ ["jpeg"; "png"; "webp"])) then Err ErrBadImage
    else if (width <=? 0) || (height <=? 0) || (width * height >? maxAvatarPixels) then Err ErrImageTooLarge
    else match DecodeImage raw with
    | None => Err ErrBadImage
    | Some src => JpegEncode (ScaleOnWhite avatarSize avatarSize src (centre_square (Bounds src))) avatarQuality
    end
  end.

(** [if err := validate(x); err != nil { return err }] *)
Definition reject {S} (o : option error) : M S unit := match o with Some e => throw e | None => mret tt end.

Section service.
Context `{UuidLib} `{GoLower} `{MailParse} `{Argon} `{SessionEnder}.

(** Hooks for a changed name or picture (OnRename). *)
Variable onRename : list (uuid → M World unit).

Definition profileChanged (id : uuid) : M World unit := for_each onRename (λ fn, fn id).

(** [if err := s.store.SetNames(...); err != nil { log }] *)
Definition cache_name (id : uuid) (name : string) : M World unit := _ ← try (NameStore.SetNames [(id, name)]); mret tt.

Definition Register (name email password : string) : M World Account :=
  let name := NormalizeUsername name in
  let email := ToLower (TrimSpace email) in
  reject (validateRegister name email password) ;;
  hash ← HashPassword password;
  user ← Create_ (mk_CreateUserInput name name email hash);
  cache_name (ac_ID user) (ac_Name user) ;;
  mret user.

Definition UpdatePassword_ (userID : uuid) (oldPassword newPassword : string) : M World Account :=
  reject (ValidatePassword newPassword) ;;
  r ← GetUserByID userID;
  let hash := r.2 in
  if decide (hash = EmptyString) then throw ErrNoPassword
  else
    ok ← lift_result (CheckPassword oldPassword hash);
    if negb ok then throw ErrPassNotMatch
    else
      newHash ← HashPassword newPassword;
      user ← UpdateUserPassword userID newHash;
      RevokeAllRefreshTokens userID ;;
      mret user.

Definition with_interests (ids : list string) (u : Account) : Account :=
  mk_Account (ac_ID u) (ac_Name u) (ac_DisplayName u) (ac_CreatedAt u) (ac_UpdatedAt u) (ac_Email u) (ac_Verified u)
    (ac_Bio u) (ac_NameChangeAvailableAt u) (ac_AvatarURL u) (ac_Location u) (Some ids) (ac_Discoverable u)
    (ac_HideLastSeen u) (ac_IsAdmin u).

Definition Me (userID : uuid) : M World Account :=
  r ← GetUserByID userID;
  ids ← Interests_ userID;
  mret (with_interests ids r.1).

Definition GetName (userID : uuid) : M World string :=
  r ← try (NameStore.Name userID);
  match r with
  | Ok (Some name) => mret name
  | _ =>
    u ← GetUserByID userID;
    cache_name (ac_ID u.1) (ac_Name u.1) ;;
    mret (ac_Name u.1)
  end.

(** The checked request: [name], [country] and [interests] as the code's locals. *)
Record checked := mk_checked {
  ck_DisplayName : option string;
  ck_Bio : option string;
  ck_name : option string;
  ck_country : string;
  ck_interests : list string;
}.

(** Keeps the first of equal ids. *)
Fixpoint dedup_ids (seen : gset string) (ids : list string) : list string :=
  match ids with
  | [] => []
  | id :: ids => if decide (id ∈ seen) then dedup_ids seen ids else id :: dedup_ids ({[id]} ∪ seen) ids
  end.

Definition check_display (req : UpdateProfileRequest) : result (option string) :=
  match up_DisplayName req with
  | None => Ok None
  | Some d => let d := TrimSpace d in match ValidateDisplayName d with Some e => Err e | None => Ok (Some d) end
  end.

Definition check_bio (req : UpdateProfileRequest) : result (option string) :=
  match up_Bio req with
  | None => Ok None
  | Some b => let b := TrimSpace b in if RuneCountInString b >? maxBioLen then Err ErrBioTooLong else Ok (Some b)
  end.

Definition check_name (req : UpdateProfileRequest) : result (option string) :=
  match up_Name req with
  | None => Ok None
  | Some n => let n := NormalizeUsername n in match ValidateName n with Some e => Err e | None => Ok (Some n) end
  end.

Definition check_place (req : UpdateProfileRequest) : result string :=
  match up_Location req with
  | None => Ok EmptyString
  | Some l => if decide (l = EmptyString) then Ok EmptyString
              else match LookupPlace l with Some p => Ok (pl_Country p) | None => Err ErrBadPlace end
  end.

Definition check_interests (req : UpdateProfileRequest) : result (list string) :=
  match up_Interests req with
  | None => Ok []
  | Some ids =>
    if existsb (λ id, negb (ValidInterest id)) ids then Err ErrBadInterests
    else let interests := dedup_ids ∅ ids in
         if Z.of_nat (length interests) >? MaxInterests then Err ErrBadInterests else Ok interests
  end.

(** Everything is checked before anything is changed. *)
Definition check_profile (req : UpdateProfileRequest) : M World checked :=
  match req with
  | mk_UpdateProfileRequest None None None None None None => throw ErrInvalidInput
  | _ =>
    display ← lift_result (check_display req);
    bio ← lift_result (check_bio req);
    name ← lift_result (check_name req);
    country ← lift_result (check_place req);
    interests ← lift_result (check_interests req);
    mret (mk_checked display bio name country interests)
  end.

(** [if x != nil { ... }] *)
Definition when_given {A} (o : option A) (f : A → M World unit) : M World unit :=
  match o with Some a => f a | None => mret tt end.

Definition change_name (me : uuid) (name : string) : M World unit :=
  cur ← GetUserByID me;
  if decide (name = ac_Name cur.1) then mret tt
  else
    now ← Now;
    _ ← Rename_ me name now (now - RenameEvery);
    cache_name me name ;;
    profileChanged me.

Definition UpdateProfile (me : uuid) (req : UpdateProfileRequest) : M World Account :=
  c ← check_profile req;
  when_given (ck_name c) (change_name me) ;;
  when_given (ck_DisplayName c) (λ d, SetDisplayName_ me d ;; profileChanged me) ;;
  when_given (ck_Bio c) (λ b, _ ← SetBio_ me b; mret tt) ;;
  when_given (up_Location req) (λ l, SetLocation_ me l (ck_country c)) ;;
  when_given (up_Interests req) (λ _, SetInterests me (ck_interests c)) ;;
  when_given (up_Discoverable req) (SetDiscoverable_ me) ;;
  Me me.

Definition Profile_ (viewer id : uuid) : M World Profile := PublicProfile id viewer.

Definition SetMyAvatar `{ImageLib} (me : uuid) (raw : list Z) : M World Account :=
  img ← lift_result (ProcessAvatar raw);
  now ← Now;
  SetAvatar_ me img (now / millisecond * millisecond) ;;
  profileChanged me ;;
  Me me.

Definition DeleteMyAvatar (me : uuid) : M World unit := DeleteAvatar_ me ;; profileChanged me.

Definition Avatar (viewer id : uuid) : M World (list Z * time) := Avatar_ id viewer.

Definition LogoutAll (me : uuid) : M World unit := RevokeAllRefreshTokens me.

Definition DisplayName (id : uuid) : M World string := DisplayName_ id.
End service.
