(* ===== verification/Users_Props.v ===== *)
(** * Users_Props: the theorems about profiles *)

From S2P Require Import Prelude GoLib Types Catalog Users_Model Db Sql_Friends Sql_Users World Moves Friends_Model Versioned Friends_Service Friends_Props Secure Users_Repo Users_Service Demo.

#[local] Open Scope Z_scope.

(** ** The constraints of the users table *)

(** Every row satisfies them. *)
Definition users_ok (d : DB) : Prop := ∀ id u, users d !! id = Some u → user_columns_ok id u d = None.

Lemma taken_false (f : User → string) id x d :
  bool_decide (select (λ k u, negb (bool_decide (k = id)) && bool_decide (f u = x)) (users d) ≠ []) = false ↔
  ∀ k u, users d !! k = Some u → k ≠ id → f u ≠ x.
Proof.
  rewrite bool_decide_eq_false. split.
  - intros H k u Hk Hne Hx. apply H. intros E. eapply (not_elem_of_nil (k, u)). rewrite <- E. apply elem_of_select. simpl.
    rewrite bool_decide_false, bool_decide_true; done.
  - intros H E. destruct (select _ _) as [|[k u] l] eqn:Hs; [done|].
    assert ((k, u) ∈ select (λ k u, negb (bool_decide (k = id)) && bool_decide (f u = x)) (users d)) as Hin
      by (rewrite Hs; apply list_elem_of_here).
    apply elem_of_select in Hin as [Hk Hp]. apply andb_true_iff in Hp as [Hne Hx].
    apply negb_true_iff, bool_decide_eq_false in Hne. apply bool_decide_eq_true in Hx. by eapply H.
Qed.

(** A row's own columns, without the others'. *)
Definition columns_fit (u : User) : bool :=
  varchar_ok 25 (u_name u) && varchar_ok 125 (u_email u) && varchar_ok 50 (u_display_name u) &&
  varchar_ok 150 (u_bio u) && name_format (u_name u).

Lemma columns_ok_iff id u d :
  user_columns_ok id u d = None ↔
  columns_fit u = true ∧ (∀ k v, users d !! k = Some v → k ≠ id → u_email v ≠ u_email u ∧ u_name v ≠ u_name u).
Proof.
  unfold user_columns_ok, columns_fit. destruct (varchar_ok 25 (u_name u) && _ && _ && _) eqn:Hv; simpl.
  2: { split; [done|]. by intros [? _]. }
  destruct (name_format (u_name u)); simpl; [|by split; [|intros [? _]]].
  destruct (email_taken id (u_email u) d) eqn:He; simpl.
  { split; [done|]. intros [_ H]. assert (email_taken id (u_email u) d = false); [|congruence].
    apply (taken_false u_email). intros k v Hk Hne. by destruct (H k v Hk Hne). }
  destruct (name_taken id (u_name u) d) eqn:Hn; simpl.
  { split; [done|]. intros [_ H]. assert (name_taken id (u_name u) d = false); [|congruence].
    apply (taken_false u_name). intros k v Hk Hne. by destruct (H k v Hk Hne). }
  split; [|done]. intros _. split; [done|]. intros k v Hk Hne.
  split; [by eapply (taken_false u_email) in He|by eapply (taken_false u_name) in Hn].
Qed.

Lemma users_ok_put id u d : users_ok d → user_columns_ok id u d = None → users_ok (put_user id u d).
Proof.
  intros Hok [Hfit Huniq]%columns_ok_iff k v. unfold put_user; simpl. intros [[<- <-]|[Hne Hk]]%lookup_insert_Some; apply columns_ok_iff.
  - split; [done|]. intros j w. simpl. intros [[<- _]|[_ Hj]]%lookup_insert_Some Hji; [done|by apply (Huniq j)].
  - destruct (proj1 (columns_ok_iff _ _ _) (Hok k v Hk)) as [Hf Hu]. split; [done|]. intros j w. simpl.
    intros [[<- <-]|[_ Hj]]%lookup_insert_Some Hjk; [|by apply (Hu j)].
    destruct (Huniq k v Hk) as [H1 H2]; [congruence|]. split; congruence.
Qed.

(** A change that touches neither the address nor the name. *)
Lemma columns_keep id u v d :
  users_ok d → users d !! id = Some u → columns_fit v = true → u_email v = u_email u → u_name v = u_name u →
  user_columns_ok id v d = None.
Proof.
  intros Hok Hu Hf He Hn. apply columns_ok_iff. split; [done|]. rewrite He, Hn.
  by apply columns_ok_iff, Hok.
Qed.

(** ** Requests *)

(** The errors of PATCH /api/users/me. *)
Definition documented (e : error) : Prop :=
  e ∈ [ErrInvalidInput; ErrBadDisplayName; ErrBioTooLong; ErrBadPlace; ErrBadInterests; ErrDuplicateName; ErrInfra] ∨
  ∃ t, e = RenameTooSoonError t.

Definition good (me : uuid) (d : DB) : Prop := users_ok d ∧ is_Some (users d !! me).

Definition safe {A} (me : uuid) (m : M World A) : Prop :=
  hoare (λ w, good me (w_db w)) m (λ _ w, good me (w_db w)) (λ e w, documented e ∧ good me (w_db w)).

Lemma infra_documented : documented ErrInfra.
Proof. left. by do 6 apply list_elem_of_further; apply list_elem_of_here. Qed.

Section safe.
Context (me : uuid).

Lemma safe_bind {A B} (m : M World A) (k : A → M World B) : safe me m → (∀ a, safe me (k a)) → safe me (m ≫= k).
Proof. intros Hm Hk. eapply hoare_bind; [exact Hm|exact Hk]. Qed.

Lemma safe_ret {A} (a : A) : safe me (mret a).
Proof. by apply hoare_ret. Qed.

Lemma safe_throw {A} e : documented e → safe me (throw e : M World A).
Proof. intros He. by apply hoare_throw. Qed.

(** A statement whose outcome is known. *)
Lemma safe_query {A} (q : M DB A) :
  (∀ d, good me d → good me (q d).2 ∧ match (q d).1 with Ok _ => True | Err e => documented e end) → safe me (query q).
Proof.
  intros Hq w Hg. destruct (query q w) as [r w'] eqn:Hrun. apply query_cases in Hrun as [(fs & d & Hd & ->)|(-> & fs & ->)].
  - specialize (Hq _ Hg). rewrite Hd in Hq. simpl in *. destruct r; naive_solver.
  - simpl. split; [apply infra_documented|done].
Qed.

Lemma safe_untouched {A} (m : M World A) :
  untouched m → (∀ w e w', m w = (Err e, w') → documented e) → safe me m.
Proof.
  intros Hu He w Hg. destruct (m w) as [[a|e] w'] eqn:Hrun; rewrite (Hu _ _ _ Hrun); [done|]. by split; [eapply He|].
Qed.

Lemma good_put u d : good me d → user_columns_ok me u d = None → good me (put_user me u d).
Proof. intros [Hok _] Hc. split; [by apply users_ok_put|]. simpl. rewrite lookup_insert_eq. eauto. Qed.

(** UPDATE of the caller's row that cannot break a constraint. *)
Lemma safe_exec_update f :
  (∀ d u, good me d → users d !! me = Some u → user_columns_ok me (f d u) d = None) → safe me (query (exec_update me f)).
Proof.
  intros Hf. apply safe_query. intros d Hg. unfold exec_update, update_user. rewrite bind_run.
  destruct Hg as [Hok [u Hu]]. rewrite Hu. rewrite (Hf d u) by done. simpl. split; [|done].
  apply good_put; [by split|]. by apply Hf.
Qed.
End safe.

(** A statement that only reads and cannot fail. *)
Lemma safe_reads {A} me (q : M DB A) : read_only q → (∀ d, good me d → is_ok (q d).1 = true) → safe me (query q).
Proof.
  intros Hr Hok. apply safe_query. intros d Hg. specialize (Hok d Hg). destruct (q d) as [r d'] eqn:E.
  apply Hr in E as ->. simpl in *. split; [done|]. by destruct r.
Qed.

Section profile.
Context {ulib : UuidLib} {coll : Collation} {lower : GoLower}.

Lemma safe_now me : safe me Now.
Proof. apply safe_untouched; [apply untouched_now|]. by intros w e w'. Qed.

Lemma safe_by_id me : safe me (GetUserByID me).
Proof.
  unfold GetUserByID. apply safe_bind; [|intros u; apply safe_bind; [apply safe_now|intros now; apply safe_ret]].
  unfold orNotFound. intros w Hg. rewrite bind_run, try_run.
  destruct (query (GetUserInfoByID me) w) as [r w'] eqn:Hrun. simpl.
  apply query_cases in Hrun as [(fs & d & Hd & ->)|(-> & fs & ->)].
  - unfold GetUserInfoByID in Hd. destruct Hg as [Hok [u Hu]]. rewrite Hu in Hd. injection Hd as <- <-. by split.
  - simpl. by split; [apply infra_documented|].
Qed.

Lemma safe_interests me : safe me (Interests_ me).
Proof. apply safe_reads; [by intros d r d' [= _ <-]|done]. Qed.

Lemma untouched_cache_name u n : untouched (cache_name u n).
Proof.
  unfold cache_name, NameStore.SetNames. apply untouched_bind; [|intros ?; apply untouched_ret]. apply untouched_try.
  case_decide; [apply untouched_ret|]. apply untouched_io. by intros w r w' [= _ <-].
Qed.

Lemma untouched_forget_names u : untouched (ForgetNames u).
Proof.
  unfold ForgetNames. apply untouched_bind.
  - apply untouched_try. unfold Repo.Snapshot_.
    repeat (apply untouched_bind; [apply untouched_query; by intros d r d' [= _ <-]|intros ?]). apply untouched_ret.
  - intros [|]; apply friends_untouched_invalidate.
Qed.

Lemma safe_quiet me (m : M World unit) : untouched m → (∀ w, is_ok (m w).1 = true) → safe me m.
Proof. intros Hu Hok. apply safe_untouched; [done|]. intros w e w' Hrun. specialize (Hok w). by rewrite Hrun in Hok. Qed.

Lemma safe_cache_name me u n : safe me (cache_name u n).
Proof. apply safe_quiet; [apply untouched_cache_name|]. intros w. unfold cache_name. by rewrite bind_run, try_run. Qed.

Lemma forget_names_ok u w : is_ok (ForgetNames u w).1 = true.
Proof.
  unfold ForgetNames, invalidate. rewrite bind_run, try_run. cbn [fst snd].
  destruct (Repo.Snapshot_ u w).1; rewrite bind_run, try_run; done.
Qed.

(** The hook app.go registers. *)
Lemma safe_changed me : safe me (profileChanged [ForgetNames] me).
Proof.
  unfold profileChanged. simpl. apply safe_bind; [|intros; apply safe_ret].
  apply safe_quiet; [apply untouched_forget_names|intros w; apply forget_names_ok].
Qed.

(** ** What the statements get fits their columns *)

Lemma fit_parts u : columns_fit u = true ↔
  varchar_ok 25 (u_name u) = true ∧ varchar_ok 125 (u_email u) = true ∧ varchar_ok 50 (u_display_name u) = true ∧
  varchar_ok 150 (u_bio u) = true ∧ name_format (u_name u) = true.
Proof. unfold columns_fit. rewrite !andb_true_iff. tauto. Qed.

Lemma good_fit me d u : good me d → users d !! me = Some u → columns_fit u = true.
Proof. intros [Hok _] Hu. by apply (columns_ok_iff me u d), Hok. Qed.

(** The username rule and the CHECK are the same, and short. *)
Lemma username_fits n : usernamePattern n = true → varchar_ok 25 n = true ∧ name_format n = true.
Proof.
  intros H. assert (name_format n = true) as Hf by exact H. split; [|done].
  unfold usernamePattern, byte_length, in_range in H. apply andb_true_iff in H as [_ H].
  apply andb_true_iff in H as [_ H%Z.leb_le]. unfold varchar_ok, RuneCountInString, runes. rewrite length_fmap.
  apply Z.leb_le. pose proof (runes_fuel_length (length (bytes_of n)) (bytes_of n)). unfold runes_raw. lia.
Qed.

Lemma safe_rename me n now cutoff : usernamePattern n = true → safe me (Rename_ me n now cutoff).
Proof.
  intros Hn. unfold Rename_. eapply hoare_bind with (R := λ r w, good me (w_db w) ∧
    match r with Ok _ => True | Err e => e ∈ [ErrInfra; ErrNoRows; unique_violation "users_name_key"] end).
  - apply hoare_try. intros w Hg. destruct (query _ w) as [r w'] eqn:Hrun.
    apply query_cases in Hrun as [(fs & d & Hd & ->)|(-> & fs & ->)]; [|simpl; split; [done|set_solver]].
    unfold RenameUser in Hd. pose proof Hg as [Hok [u Hu]]. rewrite Hu in Hd. match type of Hd with (if ?b then _ else _) = _ => destruct b end.
    2: { injection Hd as <- <-. simpl. split; [done|set_solver]. }
    unfold one_row in Hd. rewrite bind_run in Hd. unfold update_user in Hd. rewrite Hu in Hd.
    destruct (user_columns_ok me (set_name n (pgTime now) u) (w_db w)) as [e|] eqn:Hc.
    + injection Hd as <- <-. simpl. split; [done|].
      pose proof (good_fit _ _ _ Hg Hu) as (_ & He & Hd & Hb & _)%fit_parts. destruct (username_fits n Hn) as [H25 Hf].
      assert (email_taken me (u_email u) (w_db w) = false) as Het.
      { apply (taken_false u_email). intros k v Hk Hne. by apply (proj2 (proj1 (columns_ok_iff _ _ _) (Hok _ _ Hu)) k v Hk Hne). }
      unfold user_columns_ok in Hc. simpl in Hc. rewrite H25, He, Hd, Hb, Hf, Het in Hc. simpl in Hc.
      destruct (name_taken _ _ _); [|done]. injection Hc as <-. set_solver.
    + injection Hd as <- <-. simpl. split; [by apply good_put|done].
  - intros [u|e].
    + intros w [Hg _]. by apply (safe_bind me Now _ (safe_now me)); [intros; apply safe_ret|].
    + intros w [Hg He]. revert w Hg. rewrite !elem_of_cons, elem_of_nil in He. destruct He as [He|[He|[He|[]]]]; subst e.
      * apply safe_throw, infra_documented.
      * apply (safe_bind me (GetUserByID me)); [apply safe_by_id|]. intros [cur h]. apply safe_throw. right. by eexists.
      * apply safe_throw. left. set_solver.
Qed.
(** What the checks let through. *)
Record fits (c : checked) : Prop := {
  fit_name n : ck_name c = Some n → usernamePattern n = true;
  fit_display d : ck_DisplayName c = Some d → varchar_ok 50 d = true;
  fit_bio b : ck_Bio c = Some b → varchar_ok 150 b = true;
}.

Lemma check_profile_run req w :
  match check_profile req w with
  | (Ok c, w') => w' = w ∧ fits c
  | (Err e, w') => w' = w ∧ documented e
  end.
Proof.
  assert (∀ e, e ∈ [ErrInvalidInput; ErrBadDisplayName; ErrBioTooLong; ErrBadPlace; ErrBadInterests] → documented e) as Hdoc
    by (intros e He; left; set_solver).
  assert (check_profile req w = (Err ErrInvalidInput, w) ∨
    check_profile req w = (display ← lift_result (check_display req); bio ← lift_result (check_bio req);
      name ← lift_result (check_name req); country ← lift_result (check_place req);
      interests ← lift_result (check_interests req); mret (mk_checked display bio name country interests)) w) as [-> | ->]
    by (destruct req as [[] [] [] [] [] []]; auto).
  { split; [done|]. apply Hdoc. set_solver. }
  rewrite !bind_run. unfold lift_result.
  destruct (check_display req) as [di|e] eqn:Hd; simpl; [rewrite bind_run; destruct (check_bio req) as [bi|e] eqn:Hb; simpl;
    [rewrite bind_run; destruct (check_name req) as [na|e] eqn:Hn; simpl; [rewrite bind_run; destruct (check_place req) as [co|e] eqn:Hp; simpl;
    [rewrite bind_run; destruct (check_interests req) as [it|e] eqn:Hi; simpl|]|]|]|].
  - split; [done|]. split; simpl.
    + unfold check_name in Hn. destruct (up_Name req); simplify_eq; [|done].
      unfold ValidateName in Hn. destruct (usernamePattern _) eqn:Hpat; simplify_eq/=. by intros n' [= <-].
    + unfold check_display in Hd. destruct (up_DisplayName req); simplify_eq; [|done].
      destruct (ValidateDisplayName _) eqn:Hv; simplify_eq. intros d' [= <-].
      unfold ValidateDisplayName, maxDisplayNameLen in Hv. unfold varchar_ok. destruct (_ || _) eqn:Hlen; [done|].
      apply orb_false_iff in Hlen as [_ Hlen]. apply Z.leb_le. lia.
    + unfold check_bio, maxBioLen in Hb. destruct (up_Bio req); simplify_eq; [|done].
      destruct (_ >? _) eqn:Hlen; simplify_eq. intros b' [= <-]. unfold varchar_ok. apply Z.leb_le. lia.
  - split; [done|]. apply Hdoc. unfold check_interests in Hi. destruct (up_Interests req); [|done].
    destruct (existsb _ _); [injection Hi as <-; set_solver|]. simpl in Hi. destruct (_ >? _); [|done]. injection Hi as <-. set_solver.
  - split; [done|]. apply Hdoc. unfold check_place in Hp. destruct (up_Location req) as [l|]; [|done].
    destruct (decide (l = EmptyString)); [done|]. destruct (LookupPlace l); [done|]. injection Hp as <-. set_solver.
  - split; [done|]. apply Hdoc. unfold check_name, ValidateName in Hn. repeat case_match; simplify_eq; set_solver.
  - split; [done|]. apply Hdoc. unfold check_bio in Hb. repeat case_match; simplify_eq; set_solver.
  - split; [done|]. apply Hdoc. unfold check_display, ValidateDisplayName in Hd. repeat case_match; simplify_eq; set_solver.
Qed.

Lemma safe_change_name me n : usernamePattern n = true → safe me (change_name [ForgetNames] me n).
Proof.
  intros Hn. unfold change_name. apply safe_bind; [apply safe_by_id|]. intros cur. case_decide; [apply safe_ret|].
  apply safe_bind; [apply safe_now|]. intros now. apply safe_bind; [by apply safe_rename|]. intros _.
  apply safe_bind; [apply safe_cache_name|]. intros _. apply safe_changed.
Qed.

(** The other columns a request can change. *)
Lemma safe_columns me (f : DB → User → User) :
  (∀ d u, columns_fit u = true → columns_fit (f d u) = true ∧ u_email (f d u) = u_email u ∧ u_name (f d u) = u_name u) →
  safe me (query (exec_update me f)).
Proof.
  intros Hf. apply safe_exec_update. intros d u Hg Hu. destruct (Hf d u) as (Hfit & He & Hn); [by eapply good_fit|].
  eapply columns_keep; [apply Hg|exact Hu|done..].
Qed.

Lemma safe_display me n : varchar_ok 50 n = true → safe me (SetDisplayName_ me n).
Proof. intros Hn. apply safe_columns. intros d u (?&?&?&?&?)%fit_parts. by rewrite fit_parts. Qed.

Lemma safe_location me l c : safe me (SetLocation_ me l c).
Proof. apply safe_columns. intros d u Hfit. by rewrite fit_parts in *. Qed.

Lemma safe_discoverable me on : safe me (SetDiscoverable_ me on).
Proof. apply safe_columns. intros d u Hfit. by rewrite fit_parts in *. Qed.

Lemma safe_set_bio me b : varchar_ok 150 b = true → safe me (SetBio_ me b).
Proof.
  intros Hb. unfold SetBio_. apply safe_bind; [|intros u; apply safe_bind; [apply safe_now|intros; apply safe_ret]].
  unfold orNotFound. intros w Hg. rewrite bind_run, try_run.
  destruct (query (SetBio b me) w) as [r w'] eqn:Hrun. simpl.
  apply query_cases in Hrun as [(fs & d & Hd & ->)|(-> & fs & ->)]; [|simpl; by split; [apply infra_documented|]].
  destruct (proj2 Hg) as [u Hu]. unfold SetBio, one_row in Hd. rewrite bind_run in Hd. unfold update_user in Hd. rewrite Hu in Hd.
  pose proof (proj1 (fit_parts u) (good_fit _ _ _ Hg Hu)) as (H1 & H2 & H3 & _ & H5).
  assert (user_columns_ok me (set_bio b (db_now (w_db w)) u) (w_db w) = None) as Hc
    by (eapply columns_keep; [apply Hg|exact Hu|by apply fit_parts|done..]).
  rewrite Hc in Hd. injection Hd as <- <-. simpl. by apply good_put.
Qed.

Lemma safe_set_interests me ids : safe me (SetInterests me ids).
Proof.
  unfold SetInterests. apply safe_bind; [by apply safe_query|]. intros _. case_decide; [apply safe_ret|].
  apply safe_query. intros d [Hok [u Hu]]. unfold AddInterests. rewrite Hu. simpl. split; [|done]. split; [done|by exists u].
Qed.

Lemma safe_when_given {A} me (o : option A) (f : A → M World unit) :
  (∀ a, o = Some a → safe me (f a)) → safe me (when_given o f).
Proof. intros Hf. destruct o as [a|]; [by apply Hf|apply safe_ret]. Qed.

Lemma safe_me me : safe me (Me me).
Proof.
  unfold Me. apply safe_bind; [apply safe_by_id|]. intros r. apply safe_bind; [apply safe_interests|]. intros ids. apply safe_ret.
Qed.

(** PATCH /api/users/me answers an account in good standing with the account or with
    one of the errors the handler documents, never with a broken constraint: the checks
    let through only what the columns take, a taken username is reported as such, and
    whatever happens every row still satisfies the constraints of the table. *)
Theorem profile_errors_documented me req w r w' :
  UpdateProfile [ForgetNames] me req w = (r, w') →
  users_ok (w_db w) → is_Some (users (w_db w) !! me) →
  users_ok (w_db w') ∧ is_Some (users (w_db w') !! me) ∧
  match r with Ok _ => True | Err e => documented e end.
Proof.
  intros Hrun Hok Hme.
  assert (safe me (UpdateProfile [ForgetNames] me req)) as Hsafe.
  { unfold UpdateProfile. intros w0 Hg. rewrite bind_run. pose proof (check_profile_run req w0) as Hc.
    destruct (check_profile req w0) as [[c|e] w1]; destruct Hc as [-> Hc]; [|by split]. revert w0 Hg.
    change (safe me (when_given (ck_name c) (change_name [ForgetNames] me) ;;
      when_given (ck_DisplayName c) (λ d, SetDisplayName_ me d ;; profileChanged [ForgetNames] me) ;;
      when_given (ck_Bio c) (λ b, _ ← SetBio_ me b; mret tt) ;;
      when_given (up_Location req) (λ l, SetLocation_ me l (ck_country c)) ;;
      when_given (up_Interests req) (λ _, SetInterests me (ck_interests c)) ;;
      when_given (up_Discoverable req) (SetDiscoverable_ me) ;; Me me)).
    repeat (apply safe_bind; [apply safe_when_given; intros a Ha|intros []]); last apply safe_me.
    - by apply safe_change_name, (fit_name c).
    - apply safe_bind; [by apply safe_display, (fit_display c)|intros []; apply safe_changed].
    - apply safe_bind; [by apply safe_set_bio, (fit_bio c)|intros ?; apply safe_ret].
    - apply safe_location.
    - apply safe_set_interests.
    - apply safe_discoverable. }
  specialize (Hsafe w (conj Hok Hme)). rewrite Hrun in Hsafe. destruct r; unfold good in Hsafe; tauto.
Qed.
End profile.
