(* ===== verification/Push.v ===== *)
(** * Push: notifications for phones (src/internal/push/push.go)

    [Notify] of the other services ends in [dispatch]; the queue hands each job to
    [Handle], which asks the hub who is connected and the tables who wants to know.
    Google's answer to each message is the class [PushSender]. *)

From S2P Require Import Prelude GoLib Types Users_Model Db Sql_Friends Sql_Accounts Sql_Push Groups_Model Friends_Model World Groups_Service Users_Service.

#[local] Open Scope Z_scope.

Definition CallRingTTL : duration := 45 * second.
Definition maxPreview : Z := 120.

Definition ErrDeadToken : error := ErrNew "push" "device token is no longer valid".
Definition ErrBadMute : error := ErrNew "push" ("type must be " +:+ quoted "private" +:+ " or " +:+ quoted "public" +:+ ", id a uuid, until a future RFC3339 time or null")%string.
Definition ErrBadDevice : error := ErrNew "push" ("token is required (at most 4096 characters); platform is " +:+ quoted "android" +:+ ", " +:+ quoted "ios" +:+ " or " +:+ quoted "web")%string.

(** ** The dispatcher *)

(** [string([]rune(s)[:n])] *)
Definition first_runes (n : nat) (s : string) : string :=
  string_of (mjoin ((λ c : Z * list Z, if (c.1 =? rune_error) && (length c.2 =? 1)%nat then [0xEF; 0xBF; 0xBD] else c.2)
               <$> take n (runes_raw s))).

Definition ellipsis : string := string_of [0xE2; 0x80; 0xA6].

Definition short_preview (s : string) : string :=
  if RuneCountInString s >? maxPreview then first_runes (Z.to_nat (maxPreview - 1)) s +:+ ellipsis else s.

(** What [Dispatcher.Notify] queues. *)
Definition dispatch (j : Job) : option Job :=
  if decide (job_To j = []) then None
  else Some (mk_Job (job_Kind j) (job_To j) (job_From j) (job_Group j) (job_MsgID j) (short_preview (job_Preview j)) (job_CallID j)).

(** ** The service *)

(** Whether there is a Sender, and what it answers, given what was sent before. *)
Class PushSender := {
  send_on : bool;
  send_reply : list effect → PushMessage → option error;
}.

(** The names shown in notifications (app/cleanup.go, pushNames). *)
Class PushNames := {
  pn_GetName : uuid → M World string;
  pn_GroupName : uuid → M World string;
}.

Definition prefKind (kind : string) : string :=
  if slices_contains [KindFriendRequest; KindFriendAccept] kind then "friends"
  else if decide (kind = KindReaction) then "reactions"
  else if decide (kind = KindGroupAdded) then KindGroup
  else if slices_contains [KindCall; KindMissedCall] kind then "calls"
  else kind.

(** The chat a mute applies to, as the recipient sees it. *)
Definition mute_chat (j : Job) : string * uuid :=
  if decide (job_Group j = uuid_nil) then ("private", job_From j) else ("public", job_Group j).

Section service.
Context {ulib : UuidLib} {sender : PushSender} {names : PushNames} {online : HubOnline}.

Definition Send (m : PushMessage) : M World unit := λ w,
  let w' := with_log (w_log w ++ [Phoned m]) w in
  match send_reply (w_log w) m with Some e => (Err e, w') | None => (Ok tt, w') end.

(** The title, the body, the tag, and the data of a kind. *)
Definition contents (j : Job) (from group : string) : PushMessage :=
  let data := [("type", job_Kind j); ("from_id", uuid_string (job_From j))] ++
              (if decide (job_MsgID j = uuid_nil) then [] else [("msg_id", uuid_string (job_MsgID j))]) ++
              (if decide (job_Group j = uuid_nil) then [] else [("group_id", uuid_string (job_Group j))]) in
  let show title body tag := mk_PushMessage EmptyString title body tag data false 0 in
  let kind := job_Kind j in
  if decide (kind = KindPrivate) then show from (job_Preview j) ("dm:" +:+ uuid_string (job_From j))
  else if decide (kind = KindGroup) then show group (from +:+ ": " +:+ job_Preview j) ("group:" +:+ uuid_string (job_Group j))
  else if decide (kind = KindFriendRequest) then show "Friend request" (from +:+ " sent you a friend request") "friends"
  else if decide (kind = KindFriendAccept) then show "Friend request accepted" (from +:+ " accepted your friend request") "friends"
  else if decide (kind = KindGroupAdded) then show group (from +:+ " added you to the group") ("group:" +:+ uuid_string (job_Group j))
  else if decide (kind = KindCall) then
    mk_PushMessage EmptyString EmptyString EmptyString EmptyString
      (data ++ [("call_id", uuid_string (job_CallID j)); ("from_name", from)]) true CallRingTTL
  else if decide (kind = KindMissedCall) then
    mk_PushMessage EmptyString "Missed call" from ("call:" +:+ uuid_string (job_From j))
      (data ++ [("call_id", uuid_string (job_CallID j))]) false 0
  else if decide (kind = KindReaction) then
    show (if decide (group = EmptyString) then from else from +:+ " in " +:+ group)
      ("reacted " +:+ job_Preview j +:+ " to your message") ("reaction:" +:+ uuid_string (job_MsgID j))
  else show EmptyString EmptyString EmptyString.

Definition render (j : Job) : M World PushMessage :=
  from ← pn_GetName (job_From j);
  group ← (if decide (job_Group j = uuid_nil) then mret EmptyString else pn_GroupName (job_Group j));
  mret (contents j from group).

(** The users to tell: not the sender, and not who is connected. *)
Fixpoint offline (from : uuid) (ids : list uuid) : M World (list uuid) :=
  match ids with
  | [] => mret []
  | id :: ids =>
    if decide (id = from) then offline from ids
    else
      on ← hub_Online id;
      rest ← offline from ids;
      mret (if on : bool then rest else id :: rest)
  end.

Definition for_device (token : string) (m : PushMessage) : PushMessage :=
  mk_PushMessage token (pn_Title m) (pn_Body m) (pn_Tag m) (pn_Data m) (pn_DataOnly m) (pn_TTL m).

(** Sends to each device; the tokens that are dead. *)
Fixpoint send_all (msg : PushMessage) (targets : list (uuid * string)) : M World (list string) :=
  match targets with
  | [] => mret []
  | (_, token) :: targets =>
    r ← try (Send (for_device token msg));
    rest ← send_all msg targets;
    mret (match r with
          | Err e => if decide (e = ErrDeadToken) then token :: rest else rest
          | Ok _ => rest
          end)
  end.

Definition Handle (j : Job) : M World unit :=
  if negb send_on then mret tt
  else
    to ← offline (job_From j) (job_To j);
    if decide (to = []) then mret tt
    else
      let '(chatType, chatID) := mute_chat j in
      now ← nowUTC;
      targets ← query (PushTargets to (prefKind (job_Kind j)) chatType chatID now);
      if decide (targets = []) then mret tt
      else
        msg ← render j;
        dead ← send_all msg targets;
        if decide (dead = []) then mret tt
        else _ ← try (query (DeleteDeadTokens dead)); mret tt.

(** ** Settings *)

Definition all_on : NotificationPref := mk_NotificationPref true true true true.

Definition Prefs (user : uuid) : M World NotificationPref :=
  r ← try (query (GetNotificationPrefs user));
  match r with
  | Ok p => mret p
  | Err e => if decide (e = ErrNoRows) then mret all_on else throw e
  end.

Definition SetPrefs (user : uuid) (p : NotificationPref) : M World unit := query (SetNotificationPrefs user p).

Record Mute := mk_Mute { mute_Type : string; mute_ID : uuid; mute_Until : option time }.

Definition Mute_ (user : uuid) (m : Mute) : M World unit :=
  now ← Now;
  if negb (slices_contains ["private"; "public"] (mute_Type m)) || bool_decide (mute_ID m = uuid_nil) ||
     from_option (λ t, t <=? now) false (mute_Until m)
  then throw ErrBadMute
  else query (SetMute user (mute_Type m) (mute_ID m) (pgTime <$> mute_Until m)).

Definition Unmute (user : uuid) (chatType : string) (id : uuid) : M World unit := query (DeleteMute user chatType id).

Definition Mutes (user : uuid) : M World (list Mute) :=
  now ← nowUTC;
  rows ← query (ListMutes user now);
  mret ((λ r : string * uuid * option time, mk_Mute r.1.1 r.1.2 r.2) <$> rows).

Definition RegisterDevice (user : uuid) (token platform : string) : M World unit :=
  let platform := if decide (platform = EmptyString) then "android" else platform in
  if bool_decide (token = EmptyString) || (byte_length token >? 4096) || negb (slices_contains ["android"; "ios"; "web"] platform)
  then throw ErrBadDevice
  else query (UpsertDevice token user platform).

Definition RemoveDevice (user : uuid) (token : string) : M World unit := query (DeleteDevice token user).
End service.

(** The names of app/cleanup.go: the display name, and the group service's. *)
#[export] Instance app_names {ulib : UuidLib} : PushNames := {| pn_GetName := Users_Service.DisplayName; pn_GroupName := Groups_Service.GroupName |}.
