(* ===== verification/Presence.v ===== *)
(** * Presence: who is online (src/internal/presence/presence.go)

    The handlers Friends and SetHidden, and the goroutine the hub starts for every
    first device that comes and last device that goes.  It takes [s.mu] once and
    announces outside it; an announcement is one action.  The hub is the one of
    Ws_Hub, in the same state, so the goroutines of both interleave.  [ServeSocket] is what
    a request that opens a socket does to the world, when they do not. *)

From stdpp Require Import gmap.
From S2P Require Import Prelude GoLib Threads Types Ws_Hub Db Friends_Model World Moves Sql_Groups Sql_Friends Sql_Users Friends_Service.

#[local] Open Scope Z_scope.

Definition OfflineGrace : duration := 5 * second.

Record Entry := mk_Entry {
  en_UserID : uuid;
  en_Online : bool;
  en_LastSeenAt : option time;
  en_Hidden : bool;
}.

Definition lastSeen (t : option time) (online : bool) : option time := if online then None else t.

Section presence.
Context {ulib : UuidLib} {coll : Collation}.

(** A row of PresenceOf, by user. *)
Definition row_of (id : uuid) (rows : list (uuid * (option time * bool))) : option (option time * bool) :=
  snd <$> List.find (λ r, bool_decide (r.1 = id)) rows.
Definition hides (id : uuid) (rows : list (uuid * (option time * bool))) : bool :=
  match row_of id rows with Some (_, hide) => hide | None => false end.

(** [broadcast]; [on] is what hub.Online answers. *)
Definition broadcast (on : uuid → bool) (userID : uuid) : M World unit :=
  snap ← Relationships userID;
  let online := List.filter on (fmd_UserID <$> sn_Friends snap) in
  if decide (online = []) then mret tt
  else
    rows ← query (PresenceOf (online ++ [userID]));
    match row_of userID rows with
    | None => mret tt
    | Some (seen, hide) =>
      let online_now := if hide then false else on userID in
      let ev := mk_OutPresenceEvent (uuid_string userID) online_now (if hide then None else lastSeen seen online_now) hide in
      let to := List.filter (λ id, negb (hides id rows)) online in
      if decide (to = []) then mret tt
      else WriteToUsers to (mk_Event EventPresence (PPresence ev))
    end.

(** [Friends] *)
Definition Friends (on : uuid → bool) (me : uuid) : M World (bool * list Entry) :=
  snap ← Relationships me;
  rows ← query (PresenceOf (me :: (fmd_UserID <$> sn_Friends snap)));
  let hideMine := hides me rows in
  mret (hideMine,
    sn_Friends snap ≫= λ f,
      match row_of (fmd_UserID f) rows with
      | None => []
      | Some (seen, hide) =>
        let hidden := hideMine || hide in
        let online := if hidden then false else on (fmd_UserID f) in
        [mk_Entry (fmd_UserID f) online (if hidden then None else lastSeen seen online) hidden]
      end).

(** [SetHidden]; a failure to tell the friends is logged. *)
Definition SetHidden (on : uuid → bool) (me : uuid) (hide : bool) : M World unit :=
  query (SetHideLastSeen hide me) ;;
  _ ← try (broadcast on me);
  mret tt.

(** ** The announcements *)

(** [pending], the timers that are set (for whom each is), and the next timer. *)
Record Service := mk_Service { sv_pending : gmap uuid nat; sv_timers : gmap nat uuid; sv_next : nat }.

Definition NewService : Service := mk_Service ∅ ∅ 0.

(** The process: the rest of the world, the hub, the service, and the announcements
    made so far: of whom, and whether the hub had them online. *)
Record PresWorld := mk_PresWorld {
  ps_world : World;
  ps_hub : Hub;
  ps_svc : Service;
  ps_announced : list (uuid * bool);
}.

Definition with_svc (x : Service) (s : PresWorld) : PresWorld := mk_PresWorld (ps_world s) (ps_hub s) x (ps_announced s).
Definition with_hub (x : Hub) (s : PresWorld) : PresWorld := mk_PresWorld (ps_world s) x (ps_svc s) (ps_announced s).

(** What was last announced of a user. *)
Definition said (u : uuid) (s : PresWorld) : bool :=
  match last (List.filter (λ a : uuid * bool, bool_decide (a.1 = u)) (ps_announced s)) with
  | Some (_, online) => online
  | None => false
  end.

(** The first half of [Changed]: the clock and TouchLastSeen; a failure is logged. *)
Definition note_seen (userID : uuid) : M World (result unit) := t ← nowUTC; try (query (TouchLastSeen t userID)).
Definition touch (userID : uuid) (s : PresWorld) : unit * PresWorld :=
  (tt, mk_PresWorld (note_seen userID (ps_world s)).2 (ps_hub s) (ps_svc s) (ps_announced s)).

(** Under [s.mu], someone came: whether they were awaited; the timer is stopped. *)
Definition came (userID : uuid) (s : PresWorld) : bool * PresWorld :=
  let svc := ps_svc s in
  match sv_pending svc !! userID with
  | Some t =>
    (true, with_svc (mk_Service (delete userID (sv_pending svc)) (delete t (sv_timers svc)) (sv_next svc)) s)
  | None => (false, s)
  end.

(** Under [s.mu], someone went: [time.AfterFunc(s.grace, ...)] unless they are awaited. *)
Definition went (userID : uuid) (s : PresWorld) : unit * PresWorld :=
  let svc := ps_svc s in
  match sv_pending svc !! userID with
  | Some _ => (tt, s)
  | None =>
    (tt, with_svc (mk_Service (<[userID := sv_next svc]> (sv_pending svc)) (<[sv_next svc := userID]> (sv_timers svc))
                     (S (sv_next svc))) s)
  end.

(** The timer's function, under [s.mu]. *)
Definition grace_over (userID : uuid) (s : PresWorld) : unit * PresWorld :=
  let svc := ps_svc s in
  (tt, with_svc (mk_Service (delete userID (sv_pending svc)) (sv_timers svc) (sv_next svc)) s).

(** [announce]; a failure is logged. *)
Definition announce (userID : uuid) (s : PresWorld) : unit * PresWorld :=
  let on u := Online u (ps_hub s) in
  (tt, mk_PresWorld (try (broadcast on userID) (ps_world s)).2 (ps_hub s) (ps_svc s)
         (ps_announced s ++ [(userID, on userID)])).

(** [Changed] *)
Definition Changed (userID : uuid) (online : bool) : prog PresWorld unit :=
  atomically (touch userID) ;;
  if online then
    waiting ← atomically (came userID);
    if waiting : bool then mret tt else atomically (announce userID)
  else atomically (went userID).

Definition grace_timer (userID : uuid) : prog PresWorld unit :=
  atomically (grace_over userID) ;; atomically (announce userID).

(** What [Changed] does to the world, run with nothing in between, when a user came;
    [awaited] is whose timer is set. *)
Definition arrived (on awaited : uuid → bool) (userID : uuid) : M World unit :=
  _ ← note_seen userID;
  if awaited userID then mret tt else _ ← try (broadcast on userID); mret tt.

Lemma Changed_arrived u s :
  ps_world (run (Changed u true) s).2 =
  (arrived (λ v, Online v (ps_hub s)) (λ v, bool_decide (is_Some (sv_pending (ps_svc s) !! v))) u (ps_world s)).2.
Proof.
  unfold Changed, arrived, came. simpl. unfold note_seen, nowUTC. rewrite !bind_run. unfold Now, get, mret, M_ret. cbn [fst snd].
  rewrite try_run. simpl. destruct (sv_pending (ps_svc s) !! u) as [t|] eqn:E; simpl.
  - reflexivity.
  - by rewrite bind_run, try_run.
Qed.

(** What opening a socket does, once the upgrader has accepted the request: the hub gets the
    client and, if it is the first of its user, tells the service.  The connection's own
    goroutines are those of Ws_Client, and what the calls do is in Calls. *)
Definition ServeSocket (on awaited : uuid → bool) (userID : uuid) : M World unit :=
  emit (Registered userID) ;;
  if on userID then mret tt else arrived (λ v, bool_decide (v = userID) || on v) awaited userID.

(** A timer that fires. *)
Inductive rings : PresWorld → prog PresWorld unit → PresWorld → Prop :=
  | rings_timer s t u : sv_timers (ps_svc s) !! t = Some u →
      rings s (grace_timer u)
        (with_svc (mk_Service (sv_pending (ps_svc s)) (delete t (sv_timers (ps_svc s))) (sv_next (ps_svc s))) s).

(** ** The hub's notices, handled in turn

    A change of the hub, then what it started for presence, before the hub changes
    again. *)

Definition hub_op (f : Hub → Hub) (s : PresWorld) : PresWorld :=
  let h := f (ps_hub s) in
  fold_left (λ s t, match t with TPresence u online => (run (Changed u online) s).2 | _ => s end)
    (drop (length (hb_told (ps_hub s))) (hb_told h)) (with_hub h s).

(** Run, a client from Register, to the end. *)
Definition register_all (p : nat) (h : Hub) : Hub :=
  let r := register p h in
  match hb_heap h !! p with
  | Some c => if r.1 then tell (TPresence (cl_UserID c) true) r.2 else r.2
  | None => r.2
  end.
Definition disconnect_all (u : uuid) (h : Hub) : Hub :=
  let r := disconnect_locked u h in if r.1 then tell (TPresence u false) r.2 else r.2.

Inductive calm_step : PresWorld → PresWorld → Prop :=
  | calm_new s u id : calm_step s (with_hub (NewClient u id (ps_hub s)).2 s)
  | calm_register s p : (∃ c, hb_heap (ps_hub s) !! p = Some c ∧ cl_closed c = false) → (∀ u, p ∉ devices u (ps_hub s)) → calm_step s (hub_op (register_all p) s)
  | calm_remove s p : calm_step s (hub_op (λ h, (remove p h).2) s)
  | calm_disconnect s u : calm_step s (hub_op (disconnect_all u) s)
  | calm_ring s p s' : rings s p s' → calm_step s (run p s').2
  | calm_world s w : calm_step s (mk_PresWorld w (ps_hub s) (ps_svc s) (ps_announced s)).

(** ** The hub's notices, each a goroutine *)

Definition started (l : list told) : list (prog PresWorld unit) :=
  l ≫= λ t, match t with TPresence u online => [Changed u online] | _ => [] end.

Definition hub_change (f : Hub → Hub) (s : PresWorld) (ts : list (prog PresWorld unit)) : PresWorld * list (prog PresWorld unit) :=
  let h := f (ps_hub s) in
  (with_hub h s, ts ++ started (drop (length (hb_told (ps_hub s))) (hb_told h))).

Inductive pres_step : PresWorld * list (prog PresWorld unit) → PresWorld * list (prog PresWorld unit) → Prop :=
  | pres_new s ts u id : pres_step (s, ts) (hub_change (λ h, (NewClient u id h).2) s ts)
  | pres_register s ts p : (∃ c, hb_heap (ps_hub s) !! p = Some c ∧ cl_closed c = false) → (∀ u, p ∉ devices u (ps_hub s)) →
      pres_step (s, ts) (hub_change (register_all p) s ts)
  | pres_remove s ts p : pres_step (s, ts) (hub_change (λ h, (remove p h).2) s ts)
  | pres_disconnect s ts u : pres_step (s, ts) (hub_change (disconnect_all u) s ts)
  | pres_run s ts1 p ts2 p' s' : next p s = Some (p', s') → pres_step (s, ts1 ++ p :: ts2) (s', ts1 ++ p' :: ts2)
  | pres_ring s ts p s' : rings s p s' → pres_step (s, ts) (s', ts ++ [p]).
End presence.
