(* ===== verification/Sessions.v ===== *)
(** * Sessions: ending sessions, and what a deleted account leaves in the caches
    (src/internal/app/cleanup.go), and who may call the API
    (src/internal/platform/httpx/middleware.go, src/internal/app/wsauth.go)

    The wrapper around the users repository that app.go hands to the services, and the
    check every authenticated request passes. *)

From S2P Require Import Prelude GoLib Types Users_Model Groups_Model Friends_Model Versioned Revoke Db Sql_Accounts World Secure Users_Repo Users_Service.

#[local] Open Scope Z_scope.

(** ** Configuration (internal/config) *)

Class AuthConfig := {
  cfg_JWTSecret : string;
  cfg_AccessTokenTTL : duration;
  cfg_RefreshTokenTTL : duration;
  cfg_GoogleClientIDs : list string;
}.

Definition DefaultAccessTTL : duration := 15 * minute.
Definition DefaultRefreshTTL : duration := 30 * 24 * hour.

Definition accessTTL `{AuthConfig} : duration :=
  if cfg_AccessTokenTTL <=? 0 then DefaultAccessTTL else cfg_AccessTokenTTL.
Definition refreshTTL `{AuthConfig} : duration :=
  if cfg_RefreshTokenTTL <=? 0 then DefaultRefreshTTL else cfg_RefreshTokenTTL.

(** [revoke.New(rdb, accessTTL)] *)
#[export] Instance world_revocations `{AuthConfig} : HasRevocations World :=
  {| revocations_of := w_revocations; set_revocations := with_revocations; revoke_clock := w_now;
     revoke_keep := accessTTL |}.

Section sessions.
Context `{AuthConfig}.

(** [hub.Disconnect] *)
Definition Disconnect (userID : uuid) : M World unit := emit (Closed userID).

(** [push.Service.ForgetDevices] *)
Definition ForgetDevices (userID : uuid) : M World unit := query (DeleteUserDevices userID).

Definition EndSessions (userID : uuid) : M World unit :=
  query (RevokeAllUserRefreshTokens userID) ;;
  RevokeAll userID ;;
  Disconnect userID ;;
  ForgetDevices userID.

#[export] Instance sessionEnder : SessionEnder := {| RevokeAllRefreshTokens := EndSessions |}.

(** [cacheCleaner.AccountDeleted]; every error is logged. *)
Definition AccountDeleted `{UuidLib} (userID : uuid) (friendIDs groupIDs : list uuid) : M World unit :=
  _ ← try (RevokeAll userID);
  _ ← try (Invalidate (T := Snapshot) (uuid_string <$> userID :: friendIDs));
  _ ← (if decide (groupIDs = []) then mret (Ok tt) else try (Invalidate (T := GroupSnapshot) (uuid_string <$> groupIDs)));
  _ ← try (NameStore.Forget userID);
  Disconnect userID.

(** ** Who is calling *)

(** [httpx.Authenticate]: the caller, or None for 401.  [h] is the Authorization
    header; a revocation check that fails lets the request through. *)
Definition Authenticate `{UuidLib} `{JwtLib} (h : string) : M World (option uuid) :=
  now ← Now;
  match GetBearerToken h with
  | Err _ => mret None
  | Ok token =>
    match ValidateJWTIssued token cfg_JWTSecret now with
    | Err _ => mret None
    | Ok (userID, issued) =>
      gone ← try (Revoked userID (default zero_time issued));
      mret (match gone with Ok true => None | _ => Some userID end)
    end
  end.
End sessions.
