(* ===== verification/Auth_Session.v ===== *)
(** * Auth_Session: sessions (src/internal/auth/auth_repo.go, auth_service.go)

    Signing in with a password, refreshing, signing out, and [issue], through which
    every new session goes. *)

From S2P Require Import Prelude GoLib Sha256 Types Users_Model Db Sql_Users Sql_Accounts World Secure Users_Repo Users_Service Sessions.

#[local] Open Scope Z_scope.

Definition ErrNotAuthorized : error := ErrNew "auth" "not found matching token".
Definition ErrSuspended : error := ErrNew "auth" "account suspended".
Definition ErrInvalidCredentials : error := ErrNew "auth" "invalid credentials".
Definition ErrEmailNotVerified : error := ErrNew "auth" "email not verified".

(** ** auth_repo.go *)

(** What the database stores instead of the refresh token. *)
Definition hashToken (token : string) : string := hex_of (Sum256 (bytes_of token)).

(** The row, as [convertToDomainModel] keeps it. *)
Definition RevokeToken (token : string) : M World unit := query (RevokeRefreshToken (hashToken token)).

Definition GetRefreshToken_ (token : string) : M World RefreshToken :=
  r ← try (query (GetRefreshToken (hashToken token)));
  match r with
  | Ok row => mret row
  | Err e => throw (if decide (e = ErrNoRows) then ErrNotAuthorized else e)
  end.

Definition CreateRefreshToken (token : string) (userID : uuid) (expiresAt : time) : M World unit :=
  _ ← query (CreateARefreshToken (hashToken token) userID (pgTime expiresAt)); mret tt.

(** Whether the account is banned now; None for a ban without end. *)
Definition Suspension (userID : uuid) : M World (bool * option time) :=
  r ← try (query (UserBan userID));
  match r with
  | Ok b => mret (if bool_decide (is_Some (ub_BannedAt b)) then (true, ub_BannedUntil b) else (false, None))
  | Err e => throw (if decide (e = ErrNoRows) then ErrNotAuthorized else e)
  end.

Definition TouchLastSeen_ (userID : uuid) (now : time) : M World unit := query (TouchLastSeen (pgTime now) userID).

(** ** auth_service.go *)

Section service.
Context `{UuidLib} `{JwtLib} `{AuthConfig}.

Definition issue (userID : uuid) : M World (string * string) :=
  s ← Suspension userID;
  if (s : bool * option time).1 then throw ErrSuspended
  else
    now ← Now;
    _ ← try (TouchLastSeen_ userID now);
    accessToken ← MakeJWT userID cfg_JWTSecret accessTTL;
    refreshToken ← MakeRefreshToken;
    now ← Now;
    CreateRefreshToken refreshToken userID (now + refreshTTL) ;;
    mret (accessToken, refreshToken).

Definition Login `{Argon} (email password : string) : M World (string * string * Account) :=
  r ← try (GetUserByEmail email);
  match r with
  | Err e => throw (if decide (e = ErrUserNotFound) then ErrInvalidCredentials else e)
  | Ok (dbUser, hashPassword) =>
    if decide (hashPassword = EmptyString) then throw ErrInvalidCredentials
    else
      valid ← lift_result (CheckPassword password hashPassword);
      if negb valid then throw ErrInvalidCredentials
      else if negb (ac_Verified dbUser) then throw ErrEmailNotVerified
      else
        t ← issue (ac_ID dbUser);
        mret (t.1, t.2, dbUser)
  end.

Definition Revoke (token : string) : M World unit := RevokeToken token.

Definition Refresh (token : string) : M World (string * string) :=
  rt ← GetRefreshToken_ token;
  now ← Now;
  if rt_ExpireAt rt <? now then throw ErrNotAuthorized
  else RevokeToken token ;; issue (rt_UserID rt).
End service.
