(* ===== verification/Auth_Accounts.v ===== *)
(** * Auth_Accounts: registration, codes, Google sign-in, deletion, changing the address
    (src/internal/auth/account_repo.go, accounts.go, google.go)

    The mail provider is [io] on the log of what was sent; Google's token library is a
    class. *)

From S2P Require Import Prelude GoLib Sha256 Types Users_Model Db Sql_Groups Sql_Users Sql_Accounts World Secure Users_Repo Users_Service Sessions Auth_Session.

#[local] Open Scope Z_scope.

Definition ErrInvalidCode : error := ErrNew "auth" "invalid or expired code".
Definition ErrMailUnavailable : error := ErrNew "auth" "could not send email, try again shortly".
Definition ErrInvalidGoogle : error := ErrNew "auth" "invalid Google sign-in".
Definition ErrGoogleUnavailable : error := ErrNew "auth" "Google sign-in is not configured".
Definition ErrReauthRequired : error := ErrNew "auth" "confirm with your password or a fresh Google sign-in".
Definition ErrSameEmail : error := ErrNew "auth" "that is already your email address".
Definition ErrCodeTooSoon : error := ErrNew "auth" "a code was just sent; wait a minute before asking for another".
Definition ErrEmailTaken : error := ErrNew "auth" "that email address now belongs to another account".

Definition purposeVerify : string := "verify_email".
Definition purposeReset : string := "reset_password".
Definition purposeAdmin : string := "admin_login".
Definition purposeEmail : string := "change_email".

Definition AdminSessionTTL : duration := 30 * minute.
Definition codeTTL : duration := 2 * minute.
Definition codeMaxAttempts : Z := 5.
Definition codeResendGap : duration := minute.
Definition signupTokenTTL : duration := 15 * minute.
Definition signupAudience : string := "chirpy-google-signup".

Record Session := mk_Session { se_AccessToken : string; se_RefreshToken : string; se_User : Account }.
Record GoogleResult := mk_GoogleResult { gr_Session : option Session; gr_SignupToken : string }.
Record GoogleClaims := mk_GoogleClaims { gc_Subject : string; gc_Email : string; gc_EmailVerified : bool }.

(** ** account_repo.go *)

Record storedCode := mk_storedCode { sc_Hash : string; sc_NewEmail : string; sc_ExpiresAt : time; sc_CreatedAt : time }.

Definition GetCode (userID : uuid) (purpose : string) : M World storedCode :=
  c ← query (GetEmailCode userID purpose);
  mret (mk_storedCode (ec_CodeHash c) (default EmptyString (ec_NewEmail c)) (ec_ExpiresAt c) (ec_CreatedAt c)).

Definition PutCode (userID : uuid) (purpose hash : string) (created expires : time) : M World unit :=
  query (UpsertEmailCode userID purpose hash (pgTime expires) (pgTime created)).

Definition BumpAttempts (userID : uuid) (purpose : string) : M World Z := query (BumpEmailCodeAttempts userID purpose).

Definition DeleteCode (userID : uuid) (purpose : string) : M World unit := query (DeleteEmailCode userID purpose).

Definition PutEmailChange (userID : uuid) (hash newEmail : string) (created expires : time) : M World unit :=
  query (UpsertEmailChangeCode userID hash (pgTime expires) (pgTime created) (Some newEmail)).

Definition ChangeEmail_ (userID : uuid) (email : string) : M World unit :=
  r ← try (query (ChangeEmail email userID));
  match r with
  | Ok _ => mret tt
  | Err e => throw (if bool_decide (is_Some (unique_broken e)) then ErrDuplicateEmail else e)
  end.

Definition MarkVerified (userID : uuid) : M World unit := query (MarkEmailVerified userID).

Definition SetPassword (userID : uuid) (hash : string) : M World unit := query (SetPasswordHash userID (optText hash)).

Definition Identity (provider subject : string) : M World uuid :=
  i ← query (GetIdentity provider subject); mret (ui_UserID i).

Definition LinkIdentity (provider subject : string) (userID : uuid) (email : string) : M World unit :=
  query (CreateIdentity provider subject userID email).

Definition CreateGoogleUser (name email subject : string) : M World Account :=
  r ← try (BeginFunc (
    id ← NewV7;
    u ← query (CreateUserVerifiedNoPassword id name email name);
    query (CreateIdentity "google" subject u.1 email) ;;
    mret (mk_Account u.1 (u_name u.2) EmptyString (u_created_at u.2) (u_updated_at u.2) (u_email u.2) true EmptyString
            None None None None false false false)));
  match r with
  | Ok out => mret out
  | Err e =>
    throw (match unique_broken e with
           | Some c => if decide (c = "users_name_key") then ErrDuplicateName
                       else if decide (c = "user_identities_pkey") then ErrInvalidGoogle
                       else ErrDuplicateEmail
           | None => e
           end)
  end.

(** One of the groups the account leads: to the next admin, or deleted. *)
Definition hand_over (userID g : uuid) : M World unit :=
  _ ← query (LockGroup g);
  next ← try (query (EarliestOtherMember g userID));
  match next with
  | Ok next => query (PromoteToLeader g next)
  | Err e => if decide (e = ErrNoRows) then query (DeleteGroup g) else throw e
  end.

Definition DeleteUser (userID : uuid) : M World (list uuid * list uuid) :=
  BeginFunc (
    friends ← query (FriendIDsOf userID);
    groups ← query (GroupsOfUser userID);
    led ← query (GroupsLedBy userID);
    for_each led (hand_over userID) ;;
    query (DeleteUserByID userID) ;;
    for_each groups (λ g, query (RecountGroupMembers g)) ;;
    mret (friends, groups)).

(** ** google.go *)

Record IdPayload := mk_IdPayload { ip_Subject : string; ip_email : option string; ip_email_verified : option bool }.

(** google.golang.org/api/idtoken: checks the signature, the issuer, the expiry and
    the audience. *)
Class IdToken := { idtoken_Validate : string → string → result IdPayload }.

Fixpoint Verify `{IdToken} (token : string) (audiences : list string) (lastErr : error) : M World GoogleClaims :=
  match audiences with
  | [] => throw lastErr
  | aud :: rest =>
    r ← try (io (lift_result (idtoken_Validate token aud)));
    match r with
    | Err e => Verify token rest e
    | Ok p => mret (mk_GoogleClaims (ip_Subject p) (default EmptyString (ip_email p)) (default false (ip_email_verified p)))
    end
  end.

(** ** accounts.go: codes *)

(** [rand.Int(rand.Reader, max)]: numbers of as many bits as [max - 1] until one is
    less than [max]; each attempt reads one buffer. *)
Fixpoint below (max : Z) (bufs : list (list Z)) : option (Z * list (list Z)) :=
  match bufs with
  | [] => None
  | buf :: rest =>
    let bits := (Z.log2 (max - 1) + 1) mod 8 in
    let mask := if bits =? 0 then 255 else 2 ^ bits - 1 in
    let n := be_value (match buf with b :: bs => Z.land b mask :: bs | [] => [] end) in
    if n <? max then Some (n, rest) else below max rest
  end.

Definition rand_Int (max : Z) : M World Z := λ w,
  match below max (w_rand w) with
  | Some (n, rest) => (Ok n, with_rand rest w)
  | None => (Err ErrInfra, with_rand [] w)
  end.

(** [fmt.Sprintf("%06d", n)] of a number below a million. *)
Definition newCode : M World string :=
  n ← rand_Int 1000000; mret (string_of (digits 6 n)).

Definition bound (purpose newEmail : string) : string :=
  if decide (newEmail = EmptyString) then purpose else (purpose +:+ "|" +:+ newEmail)%string.

Definition normEmail `{GoLower} (e : string) : string := ToLower (TrimSpace e).

(** ** Email bodies *)

Definition htmlEscape (s : string) : string :=
  replace_bytes [(38, "&amp;"); (60, "&lt;"); (62, "&gt;"); (34, "&quot;"); (39, "&#39;")] s.

Definition br (s : string) : string := replace_bytes [(10, "<br>")] s.

Definition dq : string := String (Ascii.ascii_of_nat 34) EmptyString.

Definition code_words (purpose : string) : string * string :=
  if decide (purpose = purposeReset) then ("reset your password", "Your Chirpy password reset code")
  else if decide (purpose = purposeAdmin) then ("sign in to the Chirpy admin page", "Your Chirpy admin sign-in code")
  else if decide (purpose = purposeEmail) then ("use this address for your Chirpy account", "Confirm your new Chirpy email")
  else ("confirm your email", "Your Chirpy verification code").

Definition codeEmail (u : Account) (purpose code : string) : Mail :=
  let what := (code_words purpose).1 in
  let minutes := pretty (codeTTL / minute) in
  mk_Mail (ac_Email u) (code_words purpose).2
    ("Hi " +:+ ac_Name u +:+ "," +:+ nl +:+ nl +:+ "Your code to " +:+ what +:+ " is " +:+ code +:+ "." +:+ nl +:+
     "It expires in " +:+ minutes +:+ " minutes." +:+ nl +:+ nl +:+
     "If you didn't ask for this, you can ignore this email." +:+ nl)%string
    ("<p>Hi " +:+ htmlEscape (ac_Name u) +:+ ",</p><p>Your code to " +:+ what +:+ " is</p><p style=" +:+ dq +:+
     "font-size:28px;font-weight:bold;letter-spacing:4px" +:+ dq +:+ ">" +:+ code +:+ "</p><p>It expires in " +:+
     minutes +:+ " minutes. If you didn't ask for this, you can ignore this email.</p>")%string.

Definition notice (to subject text : string) : Mail :=
  mk_Mail to subject text ("<p>" +:+ br (htmlEscape text) +:+ "</p>")%string.

Definition alreadyRegisteredEmail (u : Account) : Mail :=
  notice (ac_Email u) "Someone tried to sign up with your email"
    ("Hi " +:+ ac_Name u +:+ "," +:+ nl +:+ nl +:+
     "Someone tried to create a new Chirpy account with this email address, which already has an account. If it was you, sign in instead or reset your password. If not, you can ignore this email."
     +:+ nl)%string.

Definition emailInUseNotice (u : Account) : Mail :=
  notice (ac_Email u) "Someone tried to use your email on Chirpy"
    ("Hi " +:+ ac_Name u +:+ "," +:+ nl +:+ nl +:+
     "Someone tried to move another Chirpy account to this email address, which already has an account (yours). Nothing was changed. If you didn't expect this, you can ignore this email."
     +:+ nl)%string.

Definition maskEmail (e : string) : string :=
  match LastIndexByte e 64 with
  | None => "***"
  | Some at_ =>
    let keep := Nat.min 2 at_ in
    (string_of (take keep (bytes_of e)) +:+ "***" +:+ string_of (drop at_ (bytes_of e)))%string
  end.

Definition emailChangedNotice (u : Account) (old now : string) : Mail :=
  notice old "Your Chirpy email address was changed"
    ("Hi " +:+ ac_Name u +:+ "," +:+ nl +:+ nl +:+ "The email address of your Chirpy account was changed from " +:+ old
     +:+ " to " +:+ maskEmail now +:+ ", and you were signed out on your other devices." +:+ nl +:+ nl +:+
     "If you didn't do this, write to support@ponypigeon.com right away." +:+ nl)%string.

Definition send (m : Mail) : M World unit :=
  r ← try (io (emit (Mailed m)));
  match r with Ok _ => mret tt | Err _ => throw ErrMailUnavailable end.

(** ** accounts.go: the service *)

(** [u.Email, u.Verified = email, verified] *)
Definition with_email (email : string) (verified : bool) (u : Account) : Account :=
  mk_Account (ac_ID u) (ac_Name u) (ac_DisplayName u) (ac_CreatedAt u) (ac_UpdatedAt u) email verified
    (ac_Bio u) (ac_NameChangeAvailableAt u) (ac_AvatarURL u) (ac_Location u) (ac_Interests u) (ac_Discoverable u)
    (ac_HideLastSeen u) (ac_IsAdmin u).

Section service.
Context `{UuidLib} `{GoLower} `{MailParse} `{Argon} `{JwtLib} `{IdToken} `{AuthConfig} `{SessionEnder}.

Definition hashCode (userID : uuid) (purpose code : string) : string :=
  hex_of (hmac_sha256 (bytes_of cfg_JWTSecret)
            (bytes_of (uuid_string userID +:+ "|" +:+ purpose +:+ "|" +:+ code)%string)).

(** Whether a code for this was stored less than codeResendGap ago; a failed read
    counts as no. *)
Definition sent_lately (userID : uuid) (purpose : string) : M World bool :=
  c ← try (GetCode userID purpose);
  now ← Now;
  mret (match c with Ok c => now - sc_CreatedAt c <? codeResendGap | Err _ => false end).

Definition sendCode (u : Account) (purpose : string) : M World unit :=
  lately ← sent_lately (ac_ID u) purpose;
  if (lately : bool) then mret tt
  else
    code ← newCode;
    now ← Now;
    PutCode (ac_ID u) purpose (hashCode (ac_ID u) purpose code) now (now + codeTTL) ;;
    send (codeEmail u purpose code).

Definition checkCodeFor (userID : uuid) (purpose code : string) : M World storedCode :=
  c ← try (GetCode userID purpose);
  now ← Now;
  match c with
  | Err _ => throw ErrInvalidCode
  | Ok c =>
    if sc_ExpiresAt c <? now then throw ErrInvalidCode
    else if negb (bool_decide (sc_Hash c = hashCode userID (bound purpose (sc_NewEmail c)) (TrimSpace code))) then
      n ← try (BumpAttempts userID purpose);
      _ ← match n with
          | Ok n => if codeMaxAttempts <=? n then try (DeleteCode userID purpose) else mret (Ok tt)
          | Err _ => mret (Ok tt)
          end;
      throw ErrInvalidCode
    else DeleteCode userID purpose ;; mret c
  end.

Definition checkCode (userID : uuid) (purpose code : string) : M World unit :=
  _ ← checkCodeFor userID purpose code; mret tt.

Definition session (u : Account) : M World Session :=
  t ← issue (ac_ID u);
  mret (mk_Session t.1 t.2 u).

(** Registration and verification *)

Definition Register_ (name email password : string) : M World unit :=
  r ← try (Users_Service.Register name email password);
  match r with
  | Ok u => sendCode u purposeVerify
  | Err e =>
    if decide (e = ErrDuplicateEmail) then
      existing ← GetUserByEmail (normEmail email);
      if ac_Verified existing.1 then send (alreadyRegisteredEmail existing.1)
      else sendCode existing.1 purposeVerify
    else throw e
  end.

Definition ResendVerification (email : string) : M World unit :=
  r ← try (GetUserByEmail (normEmail email));
  match r with
  | Ok (u, _) => if ac_Verified u then mret tt else sendCode u purposeVerify
  | Err e => if decide (e = ErrUserNotFound) then mret tt else throw e
  end.

(** [if errors.Is(err, users.ErrUserNotFound) { return alt }] *)
Definition user_or (alt : error) (email : string) : M World Account :=
  r ← try (GetUserByEmail (normEmail email));
  match r with
  | Ok (u, _) => mret u
  | Err e => throw (if decide (e = ErrUserNotFound) then alt else e)
  end.

Definition VerifyEmail (email code : string) : M World Session :=
  u ← user_or ErrInvalidCode email;
  checkCode (ac_ID u) purposeVerify code ;;
  MarkVerified (ac_ID u) ;;
  session (with_email (ac_Email u) true u).

(** Password reset *)

Definition RequestPasswordReset (email : string) : M World unit :=
  r ← try (GetUserByEmail (normEmail email));
  match r with
  | Ok (u, _) => sendCode u purposeReset
  | Err e => if decide (e = ErrUserNotFound) then mret tt else throw e
  end.

Definition ResetPassword (email code newPassword : string) : M World unit :=
  reject (ValidatePassword newPassword) ;;
  u ← user_or ErrInvalidCode email;
  checkCode (ac_ID u) purposeReset code ;;
  hash ← HashPassword newPassword;
  SetPassword (ac_ID u) hash ;;
  MarkVerified (ac_ID u) ;;
  RevokeAllRefreshTokens (ac_ID u).

(** Google *)

(** [NewGoogleVerifier] gives nil without audiences. *)
Definition google_configured : bool := negb (bool_decide (cfg_GoogleClientIDs = [])).

Definition google_Verify (idToken : string) : M World GoogleClaims :=
  Verify idToken cfg_GoogleClientIDs (ErrNew "auth" "no audience configured").

(** An account of this address, not yet linked: a squatter's password and sessions go. *)
Definition link_account (u : Account) (subject email : string) : M World Session :=
  u' ← (if ac_Verified u then mret u
        else
          SetPassword (ac_ID u) EmptyString ;;
          RevokeAllRefreshTokens (ac_ID u) ;;
          MarkVerified (ac_ID u) ;;
          mret (with_email (ac_Email u) true u));
  LinkIdentity "google" subject (ac_ID u') email ;;
  session u'.

Definition signup_token (subject email : string) : M World string :=
  now ← Now;
  let unix (t : time) := Some (t / second * second) in
  lift_result (jwt_sign cfg_JWTSecret
    (mk_Claims None (Some subject) (Some signupAudience) (Some email) (unix (now + signupTokenTTL)) (unix now))).

Definition Google (idToken : string) : M World GoogleResult :=
  if negb google_configured then throw ErrGoogleUnavailable
  else
    c ← try (google_Verify idToken);
    match c with
    | Err _ => throw ErrInvalidGoogle
    | Ok c =>
      if negb (gc_EmailVerified c) || bool_decide (gc_Subject c = EmptyString) || bool_decide (gc_Email c = EmptyString)
      then throw ErrInvalidGoogle
      else
        let email := normEmail (gc_Email c) in
        linked ← try (Identity "google" (gc_Subject c));
        match linked with
        | Ok id =>
          r ← GetUserByID id;
          sess ← session r.1;
          mret (mk_GoogleResult (Some sess) EmptyString)
        | Err _ =>
          r ← try (GetUserByEmail email);
          match r with
          | Ok (u, _) =>
            sess ← link_account u (gc_Subject c) email;
            mret (mk_GoogleResult (Some sess) EmptyString)
          | Err e =>
            if decide (e = ErrUserNotFound) then
              tok ← signup_token (gc_Subject c) email;
              mret (mk_GoogleResult None tok)
            else throw e
          end
        end
    end.

Definition signup_options : ParserOptions := mk_ParserOptions (Some ["HS256"]) None (Some signupAudience).

Definition CompleteGoogleSignup (signupToken name : string) : M World Session :=
  now ← Now;
  match jwt_parse signupToken (λ _, Ok cfg_JWTSecret) signup_options now with
  | Err _ => throw ErrInvalidGoogle
  | Ok claims =>
    let sub := default EmptyString (cl_sub claims) in
    let email := default EmptyString (cl_email claims) in
    if bool_decide (sub = EmptyString) || bool_decide (email = EmptyString) then throw ErrInvalidGoogle
    else
      let name := NormalizeUsername name in
      reject (ValidateName name) ;;
      r ← try (CreateGoogleUser name email sub);
      match r with
      | Ok u => session u
      | Err e => throw (if decide (e = ErrDuplicateEmail) then ErrInvalidGoogle else e)
      end
  end.

(** Deletion *)

Definition reauth (userID : uuid) (password googleIDToken : string) : M World unit :=
  r ← GetUserByID userID;
  let hash := r.2 in
  if bool_decide (hash ≠ EmptyString) && bool_decide (password ≠ EmptyString) then
    match CheckPassword password hash with
    | Ok true => mret tt
    | _ => throw ErrReauthRequired
    end
  else if decide (googleIDToken = EmptyString) then throw ErrReauthRequired
  else if negb google_configured then throw ErrGoogleUnavailable
  else
    c ← try (google_Verify googleIDToken);
    match c with
    | Err _ => throw ErrReauthRequired
    | Ok c =>
      id ← try (Identity "google" (gc_Subject c));
      match id with
      | Ok id => if decide (id = userID) then mret tt else throw ErrReauthRequired
      | Err _ => throw ErrReauthRequired
      end
    end.

Definition DeleteAccount (userID : uuid) (password googleIDToken : string) : M World unit :=
  reauth userID password googleIDToken ;;
  r ← DeleteUser userID;
  AccountDeleted userID r.1 r.2.

(** Changing the address *)

Definition StartEmailChange (userID : uuid) (newEmail password googleIDToken : string) : M World unit :=
  let email := normEmail newEmail in
  reject (ValidateEmail email) ;;
  reauth userID password googleIDToken ;;
  u ← GetUserByID userID;
  if decide (email = ac_Email u.1) then throw ErrSameEmail
  else
    lately ← sent_lately userID purposeEmail;
    if (lately : bool) then throw ErrCodeTooSoon
    else
      other ← try (GetUserByEmail email);
      match other with
      | Ok (other, _) =>
        now ← Now;
        _ ← try (PutEmailChange userID EmptyString email now now);
        send (emailInUseNotice other)
      | Err e =>
        if decide (e = ErrUserNotFound) then
          code ← newCode;
          now ← Now;
          PutEmailChange userID (hashCode userID (bound purposeEmail email) code) email now (now + codeTTL) ;;
          send (codeEmail (with_email email (ac_Verified u.1) u.1) purposeEmail code)
        else throw e
      end.

(** [time.Sleep] *)
Definition Sleep (d : duration) : M World unit := modify (λ w, with_now (w_now w + d) w).

Definition ConfirmEmailChange (userID : uuid) (code : string) : M World Session :=
  c ← checkCodeFor userID purposeEmail code;
  if decide (sc_NewEmail c = EmptyString) then throw ErrInvalidCode
  else
    u ← GetUserByID userID;
    let old := ac_Email u.1 in
    r ← try (ChangeEmail_ userID (sc_NewEmail c));
    match r with
    | Err e => throw (if decide (e = ErrDuplicateEmail) then ErrEmailTaken else e)
    | Ok _ =>
      RevokeAllRefreshTokens userID ;;
      Sleep (2 * millisecond) ;;
      _ ← try (send (emailChangedNotice u.1 old (sc_NewEmail c)));
      session (with_email (sc_NewEmail c) true u.1)
    end.

(** The admin page *)

Definition AdminStart (email password : string) : M World unit :=
  r ← try (GetUserByEmail (ToLower (TrimSpace email)));
  match r with
  | Err e => throw (if decide (e = ErrUserNotFound) then ErrInvalidCredentials else e)
  | Ok (u, hash) =>
    if decide (hash = EmptyString) then throw ErrInvalidCredentials
    else match CheckPassword password hash with
         | Ok true => if ac_IsAdmin u then sendCode u purposeAdmin else throw ErrInvalidCredentials
         | _ => throw ErrInvalidCredentials
         end
  end.

Definition AdminVerify (email code : string) : M World string :=
  r ← try (GetUserByEmail (ToLower (TrimSpace email)));
  match r with
  | Err _ => throw ErrInvalidCode
  | Ok (u, _) =>
    if negb (ac_IsAdmin u) then throw ErrInvalidCode
    else
      checkCode (ac_ID u) purposeAdmin code ;;
      MakeAdminJWT (ac_ID u) cfg_JWTSecret AdminSessionTTL
  end.
End service.
