(* ===== verification/Auth_Rules.v ===== *)
(** * Auth_Rules: sessions, refresh tokens, codes and signing out

    Every request to accounts and sessions, what it can do to the table of refresh
    tokens, and what follows: who gets a session proved who they are, a token is good for
    one refresh, a code for five guesses, and what signs out everywhere ends every session. *)

From S2P Require Import Prelude GoLib Sha256 Types Users_Model Groups_Model Friends_Model Versioned Revoke Db Sql_Groups Sql_Users Sql_Accounts World.
From S2P Require Import Moves Secure Users_Repo Users_Service Sessions Auth_Session Auth_Accounts.

#[local] Open Scope Z_scope.

(** ** The requests (auth/auth_handler.go, account_handler.go, users/handler.go) *)

Inductive Request : Type :=
  | ReqLogin (email password : string)
  | ReqRefresh (token : string)
  | ReqRevoke (token : string)
  | ReqRegister (name email password : string)
  | ReqResendVerification (email : string)
  | ReqVerifyEmail (email code : string)
  | ReqPasswordReset (email : string)
  | ReqResetPassword (email code newPassword : string)
  | ReqGoogle (idToken : string)
  | ReqGoogleSignup (signupToken name : string)
  | ReqDeleteAccount (userID : uuid) (password googleIDToken : string)
  | ReqStartEmailChange (userID : uuid) (newEmail password googleIDToken : string)
  | ReqConfirmEmailChange (userID : uuid) (code : string)
  | ReqAdminStart (email password : string)
  | ReqAdminVerify (email code : string)
  | ReqUpdatePassword (userID : uuid) (oldPassword newPassword : string)
  | ReqLogoutAll (userID : uuid).

Create HintDb tokens.

Section requests.
Context {ulib : UuidLib} {lower : GoLower} {mparse : MailParse} {argon : Argon} {jwt : JwtLib} {idtok : IdToken}
  {cfg : AuthConfig}.

(** The answer, as far as it holds a refresh token. *)
Definition no_session {A} (m : M World A) : M World (option string) := _ ← m; mret None.

Definition serve (r : Request) : M World (option string) :=
  match r with
  | ReqLogin e p => s ← Login e p; mret (Some s.1.2)
  | ReqRefresh t => s ← Refresh t; mret (Some s.2)
  | ReqRevoke t => no_session (Revoke t)
  | ReqRegister n e p => no_session (Register_ n e p)
  | ReqResendVerification e => no_session (ResendVerification e)
  | ReqVerifyEmail e c => s ← VerifyEmail e c; mret (Some (se_RefreshToken s))
  | ReqPasswordReset e => no_session (RequestPasswordReset e)
  | ReqResetPassword e c p => no_session (ResetPassword e c p)
  | ReqGoogle t => g ← Google t; mret (se_RefreshToken <$> gr_Session g)
  | ReqGoogleSignup t n => s ← CompleteGoogleSignup t n; mret (Some (se_RefreshToken s))
  | ReqDeleteAccount u p g => no_session (DeleteAccount u p g)
  | ReqStartEmailChange u e p g => no_session (StartEmailChange u e p g)
  | ReqConfirmEmailChange u c => s ← ConfirmEmailChange u c; mret (Some (se_RefreshToken s))
  | ReqAdminStart e p => no_session (AdminStart e p)
  | ReqAdminVerify e c => no_session (AdminVerify e c)
  | ReqUpdatePassword u o n => no_session (UpdatePassword_ u o n)
  | ReqLogoutAll u => no_session (LogoutAll u)
  end.

Fixpoint serve_all (rs : list Request) (w : World) : World :=
  match rs with [] => w | r :: rs => serve_all rs (serve r w).2 end.

(** ** What a request does to the tokens *)

(** The rows are those of before, live only if they were, or of tokens just drawn. *)
Record tokens_move (w w' : World) : Prop := {
  tm_rand : w_rand w' `suffix_of` w_rand w;
  tm_rows h r' : refresh_tokens (w_db w') !! h = Some r' →
    (∃ r, refresh_tokens (w_db w) !! h = Some r ∧ rt_UserID r' = rt_UserID r ∧ (rt_live r' = true → rt_live r = true)) ∨
    ∃ buf, buf ∈ w_rand w ∧ h = hashToken (hex_of buf);
}.

#[export] Instance tokens_move_preorder : PreOrder tokens_move.
Proof.
  split.
  - intros w. split; [exists []; reflexivity|]. intros h r' H. left. eauto.
  - intros w1 w2 w3 [Hr1 Ht1] [Hr2 Ht2]. split; [by etrans|]. intros h r' H.
    destruct (Ht2 h r' H) as [(r & Hr & Hu & Hl)|(buf & Hb & ->)].
    + destruct (Ht1 h r Hr) as [(r0 & Hr0 & Hu0 & Hl0)|Hnew]; [left; exists r0|by right].
      split; [done|]. split; [congruence|auto].
    + right. exists buf. split; [|done]. destruct Hr1 as [pre ->]. apply elem_of_app. by right.
Qed.

Lemma tokens_move_same w w' :
  w_rand w' `suffix_of` w_rand w → refresh_tokens (w_db w') = refresh_tokens (w_db w) → tokens_move w w'.
Proof. intros Hr Ht. split; [done|]. intros h r'. rewrite Ht. left. eauto. Qed.

#[export] Instance tokens_move_blind : Blind tokens_move.
Proof. split; intros w x; by apply tokens_move_same. Qed.

Lemma tokens_move_back w w' : tokens_move w w' → tokens_move w (with_db (w_db w) w').
Proof. intros [Hr _]. by apply tokens_move_same. Qed.

(** A statement under which tokens only fade. *)
Definition fades (q : DB → DB) : Prop := ∀ d h r', refresh_tokens (q d) !! h = Some r' →
  ∃ r, refresh_tokens d !! h = Some r ∧ rt_UserID r' = rt_UserID r ∧ (rt_live r' = true → rt_live r = true).

Lemma moves_fades {A} (q : M DB A) : fades (λ d, (q d).2) → moves tokens_move (query q).
Proof. intros Hq. apply (moves_query _). intros w. split; [reflexivity|]. intros h r' H. left. by apply Hq. Qed.

Lemma fades_same (f : DB → DB) : (∀ d, refresh_tokens (f d) = refresh_tokens d) → fades f.
Proof. intros Hf d h r'. rewrite Hf. eauto. Qed.

Lemma fades_RevokeAll u : fades (λ d, (RevokeAllUserRefreshTokens u d).2).
Proof.
  intros d h r'. simpl. rewrite lookup_fmap. destruct (refresh_tokens d !! h) as [r|]; [|done]. simpl. intros [= <-].
  exists r. split; [done|]. by destruct (_ && _).
Qed.

Lemma fades_Revoke h0 : fades (λ d, (RevokeRefreshToken h0 d).2).
Proof.
  intros d h r'. simpl. intros H. destruct (decide (h = h0)) as [->|Hne].
  - rewrite lookup_alter_eq in H. destruct (refresh_tokens d !! h0) as [r|]; [|done]. simpl in H. injection H as <-.
    exists r. split; [done|]. destruct (rt_live r) eqn:E; split; [done|done|done|congruence].
  - rewrite lookup_alter_ne in H by done. eauto.
Qed.

Lemma fades_DeleteUser u : fades (λ d, (DeleteUserByID u d).2).
Proof. intros d h r'. simpl. intros [H _]%map_lookup_filter_Some. eauto. Qed.
#[local] Hint Resolve fades_RevokeAll fades_Revoke fades_DeleteUser : tokens.

(** *** The statements *)

Lemma same_exec_update id f d : refresh_tokens (exec_update id f d).2 = refresh_tokens d.
Proof. unfold exec_update, update_user, M_bind, mbind. repeat case_match; simplify_eq; reflexivity. Qed.

Lemma same_insert_user id u d : refresh_tokens (insert_user id u d).2 = refresh_tokens d.
Proof. unfold insert_user. repeat case_match; reflexivity. Qed.

Lemma same_put_code u p c d : refresh_tokens (put_code u p c d).2 = refresh_tokens d.
Proof. unfold put_code. repeat case_match; reflexivity. Qed.
(** The calls, one by one. *)
Ltac same_stmt :=
  apply moves_fades, fades_same; intros d;
  first [ apply same_exec_update | apply same_insert_user | apply same_put_code
        | match goal with |- refresh_tokens (?q _).2 = _ => let h := get_head q in unfold h end;
          try unfold one, one_row, M_bind, mbind, mret, M_ret, throw, modify; repeat case_match; simplify_eq; reflexivity ].

Lemma moves_suffix {A} (m : M World A) :
  (∀ w, w_rand (m w).2 `suffix_of` w_rand w ∧ w_db (m w).2 = w_db w) → moves tokens_move m.
Proof. intros H w. destruct (H w) as [? Hd]. apply tokens_move_same; [done|]. by rewrite Hd. Qed.

Lemma moves_rand : moves tokens_move rand_Read.
Proof.
  apply moves_suffix. intros w. unfold rand_Read. destruct (w_rand w) as [|b l] eqn:E; simpl; rewrite ?E; split; try done.
  by exists [b].
Qed.

Lemma below_suffix max l n rest : below max l = Some (n, rest) → rest `suffix_of` l.
Proof.
  revert n rest. induction l as [|b l IH]; intros n rest; cbn [below]; [done|]. cbv zeta. intros H. case_match.
  - simplify_eq. by exists [b].
  - apply suffix_cons_r. by eapply IH.
Qed.

Lemma moves_rand_Int max : moves tokens_move (rand_Int max).
Proof.
  apply moves_suffix. intros w. unfold rand_Int. destruct (below max (w_rand w)) as [[n rest]|] eqn:E; simpl.
  - split; [by eapply below_suffix|done].
  - split; [apply suffix_nil|done].
Qed.

Lemma moves_frame (f : World → World) :
  (∀ w, w_rand (f w) = w_rand w ∧ w_db (f w) = w_db w) → moves tokens_move (modify f).
Proof. intros H. apply moves_suffix. intros w. simpl. destruct (H w) as [-> ->]. done. Qed.
Lemma moves_new_session u e access :
  moves tokens_move (
    refreshToken ← MakeRefreshToken; now ← Now;
    CreateRefreshToken refreshToken u (now + e) ;; mret (access : string, refreshToken)).
Proof.
  intros w. unfold MakeRefreshToken. rewrite !bind_run, try_run. unfold rand_Read.
  destruct (w_rand w) as [|buf rest] eqn:E; [done|]. cbn -[query io hex_of].
  unfold CreateRefreshToken, mbind, M_bind, Now, get, mret, M_ret.
  match goal with |- context [query ?q ?w1] => destruct (query q w1) as [r w'] eqn:Hq end.
  assert (tokens_move w w'); [|by destruct r].
  apply query_cases in Hq as [(fs & d & Hd & ->)|(-> & fs & ->)]; simpl in *.
  2: { apply tokens_move_same; simpl; [rewrite E; by exists [buf]|done]. }
  split; simpl; [rewrite E; by exists [buf]|]. intros h r' H. unfold CreateARefreshToken in Hd.
  assert (refresh_tokens d = refresh_tokens (w_db w) ∨
          ∃ row, refresh_tokens d = <[hashToken (hex_of buf) := row]> (refresh_tokens (w_db w))) as [Hsame|(row & Hnew)].
  { repeat case_match; simplify_eq; simpl; eauto. }
  - rewrite Hsame in H. left. eauto.
  - rewrite Hnew in H. apply lookup_insert_Some in H as [[<- <-]|[_ H]]; [right|left; eauto].
    exists buf. split; [rewrite E; apply list_elem_of_here|done].
Qed.

(** Goes through a program. *)
Ltac walk :=
  repeat match goal with
  | |- ∀ _, moves _ _ => intros ?
  | |- moves _ (mbind _ MakeRefreshToken) => apply moves_new_session
  | |- moves _ (mbind _ _) => apply (moves_bind _)
  | |- moves _ (try _) => apply moves_try
  | |- moves _ (mret _) => apply (moves_ret _)
  | |- moves _ (throw _) => apply (moves_throw _)
  | |- moves _ (lift_result _) => apply (moves_lift _)
  | |- moves _ (get _) => apply (moves_get _)
  | |- moves _ Now => apply (moves_get _)
  | |- moves _ (let _ := _ in _) => cbv zeta
  | |- moves _ (match ?x with _ => _ end) => destruct x
  | |- moves _ _ => solve [eauto 3 with tokens]
  end.

Lemma moves_issue u : moves tokens_move (issue u).
Proof. unfold issue, Suspension, MakeJWT, TouchLastSeen_, TouchLastSeen. walk; same_stmt. Qed.
#[local] Hint Resolve moves_issue : tokens.

(** *** The services *)

Lemma moves_end_sessions u : moves tokens_move (RevokeAllRefreshTokens u).
Proof.
  unfold RevokeAllRefreshTokens, sessionEnder, EndSessions, RevokeAll, set_recent, Disconnect, ForgetDevices. walk.
  - apply moves_fades. auto with tokens.
  - apply (moves_io _). by apply moves_frame.
  - by apply moves_frame.
  - apply (moves_emit _).
  - same_stmt.
Qed.
#[local] Hint Resolve moves_end_sessions moves_rand moves_rand_Int : tokens.

Lemma moves_by_email e : moves tokens_move (GetUserByEmail e).
Proof. unfold GetUserByEmail, orNotFound. walk. same_stmt. Qed.
Lemma moves_by_id u : moves tokens_move (GetUserByID u).
Proof. unfold GetUserByID, orNotFound. walk. same_stmt. Qed.
Lemma moves_send m : moves tokens_move (send m).
Proof. unfold send. walk. apply (moves_io _), (moves_emit _). Qed.
Lemma moves_sent_lately u p : moves tokens_move (sent_lately u p).
Proof. unfold sent_lately, GetCode. walk. same_stmt. Qed.
#[local] Hint Resolve moves_by_email moves_by_id moves_send moves_sent_lately : tokens.

Lemma moves_sendCode u p : moves tokens_move (sendCode u p).
Proof. unfold sendCode, newCode, PutCode, UpsertEmailCode. walk. same_stmt. Qed.
Lemma moves_checkCodeFor u p c : moves tokens_move (checkCodeFor u p c).
Proof. unfold checkCodeFor, GetCode, BumpAttempts, DeleteCode. walk; same_stmt. Qed.
Lemma moves_hash p : moves tokens_move (HashPassword p).
Proof. unfold HashPassword. walk. Qed.
Lemma moves_reject o : moves tokens_move (reject o).
Proof. unfold reject. walk. Qed.
#[local] Hint Resolve moves_sendCode moves_checkCodeFor moves_hash moves_reject : tokens.

Lemma moves_register n e p : moves tokens_move (Users_Service.Register n e p).
Proof.
  unfold Users_Service.Register, Create_, cache_name, NameStore.SetNames, CreateUser. walk; try apply (moves_NewV7 _).
  - same_stmt.
  - apply (moves_io _). by apply moves_frame.
Qed.

Lemma moves_verify tok l e : moves tokens_move (Verify tok l e).
Proof.
  revert e. induction l as [|aud l IH]; intros e; cbn [Verify]; walk.
  apply (moves_io _), (moves_lift _).
Qed.

Lemma moves_identity p su : moves tokens_move (Identity p su).
Proof. unfold Identity. walk. same_stmt. Qed.

Lemma moves_set_password u h : moves tokens_move (SetPassword u h).
Proof. unfold SetPassword, SetPasswordHash. same_stmt. Qed.
Lemma moves_mark_verified u : moves tokens_move (MarkVerified u).
Proof. unfold MarkVerified, MarkEmailVerified. same_stmt. Qed.
#[local] Hint Resolve moves_register moves_verify moves_identity moves_set_password moves_mark_verified : tokens.

Lemma moves_reauth u p g : moves tokens_move (reauth u p g).
Proof. unfold reauth, google_Verify. walk. Qed.

Lemma moves_create_google n e su : moves tokens_move (CreateGoogleUser n e su).
Proof.
  unfold CreateGoogleUser, CreateUserVerifiedNoPassword. walk.
  apply (moves_BeginFunc _); [apply tokens_move_back|]. walk; try apply (moves_NewV7 _); same_stmt.
Qed.

Lemma moves_delete_user u : moves tokens_move (DeleteUser u).
Proof.
  unfold DeleteUser. apply (moves_BeginFunc _); [apply tokens_move_back|]. walk; try same_stmt.
  - apply (moves_for_each _). intros g. unfold hand_over. walk; same_stmt.
  - apply moves_fades. auto with tokens.
  - apply (moves_for_each _). intros g. same_stmt.
Qed.

Lemma moves_deleted u fs gs : moves tokens_move (AccountDeleted u fs gs).
Proof.
  unfold AccountDeleted, RevokeAll, set_recent, Invalidate, NameStore.Forget, Disconnect. walk; try apply (moves_emit _);
    try apply (moves_io _); by apply moves_frame.
Qed.
#[local] Hint Resolve moves_reauth moves_create_google moves_delete_user moves_deleted : tokens.

Lemma moves_serve r : moves tokens_move (serve r).
Proof.
  destruct r; cbn [serve]; unfold no_session.
  - unfold Login. walk.
  - unfold Refresh, GetRefreshToken_, RevokeToken. walk; [same_stmt|apply moves_fades; auto with tokens].
  - unfold Revoke, RevokeToken. walk. apply moves_fades. auto with tokens.
  - unfold Register_. walk.
  - unfold ResendVerification. walk.
  - unfold VerifyEmail, user_or, checkCode, session. walk.
  - unfold RequestPasswordReset. walk.
  - unfold ResetPassword, user_or, checkCode. walk.
  - unfold Google, google_Verify, link_account, signup_token, LinkIdentity, session. walk. all: same_stmt.
  - unfold CompleteGoogleSignup, session. walk.
  - unfold DeleteAccount. walk.
  - unfold StartEmailChange, PutEmailChange, UpsertEmailChangeCode, newCode. walk; same_stmt.
  - unfold ConfirmEmailChange, ChangeEmail_, ChangeEmail, Sleep, session. walk; [same_stmt|by apply moves_frame].
  - unfold AdminStart. walk.
  - unfold AdminVerify, checkCode, MakeAdminJWT. walk.
  - unfold UpdatePassword_, UpdateUserPassword, UpdatePassword. walk. same_stmt.
  - unfold LogoutAll. walk.
Qed.

Lemma serve_all_moves rs w : tokens_move w (serve_all rs w).
Proof.
  revert w. induction rs as [|r rs IH]; intros w; [reflexivity|]. simpl. etrans; [apply moves_serve|apply IH].
Qed.

(** ** A refresh token is good once *)

Definition dead (t : string) (w : World) : Prop :=
  ∀ r, refresh_tokens (w_db w) !! hashToken t = Some r → rt_live r = false.

Definition not_drawn (t : string) (w : World) : Prop :=
  ∀ buf, buf ∈ w_rand w → hashToken (hex_of buf) ≠ hashToken t.

Lemma not_drawn_moves t w w' : tokens_move w w' → not_drawn t w → not_drawn t w'.
Proof. intros [[pre Hr] _] Hnd buf Hb. apply Hnd. rewrite Hr. apply elem_of_app. by right. Qed.

Lemma dead_moves t w w' : tokens_move w w' → not_drawn t w → dead t w → dead t w' ∧ not_drawn t w'.
Proof.
  intros [[pre Hr] Ht] Hnd Hd. split.
  - intros r' H. destruct (Ht _ _ H) as [(r & Hr0 & _ & Hl)|(buf & Hb & E)].
    + apply Hd in Hr0. destruct (rt_live r'); [|reflexivity]. rewrite <- Hr0. symmetry. by apply Hl.
    + by destruct (Hnd _ Hb).
  - eapply not_drawn_moves; [by split; [exists pre|]|done].
Qed.

Lemma dead_refused t w : dead t w → (Refresh t w).1 = Err ErrNotAuthorized ∨ (Refresh t w).1 = Err ErrInfra.
Proof.
  intros Hd. unfold Refresh, GetRefreshToken_. rewrite !bind_run, try_run.
  destruct (query (GetRefreshToken (hashToken t)) w) as [r w1] eqn:Hq. simpl.
  apply query_cases in Hq as [(fs & d & Hd' & ->)|(-> & fs & ->)]; [|by right]. left.
  unfold GetRefreshToken in Hd'. specialize (Hd).
  destruct (refresh_tokens (w_db w) !! hashToken t) as [row|] eqn:E; [rewrite (Hd _ E) in Hd'|]; by injection Hd' as <- _.
Qed.

Lemma revoke_kills t w w' : RevokeToken t w = (Ok tt, w') → dead t w'.
Proof.
  intros (fs & d & [= <-] & ->)%query_ok r. simpl. rewrite lookup_alter_eq.
  destruct (refresh_tokens (w_db w) !! hashToken t) as [row|]; [|done]. simpl. intros [= <-].
  by destruct (rt_live row) eqn:E.
Qed.

(** C20. A refresh token works once: once it was traded for a new pair, or given back
    by signing out, no request to accounts and sessions, in any number and whatever
    fails, makes it work again (the random generator apart, should it produce the same
    token). *)
Theorem refresh_token_works_once t w a w' rs :
  Refresh t w = (Ok a, w') ∨ Revoke t w = (Ok tt, w') →
  not_drawn t w →
  (Refresh t (serve_all rs w')).1 = Err ErrNotAuthorized ∨ (Refresh t (serve_all rs w')).1 = Err ErrInfra.
Proof.
  intros Hrun Hnd. apply dead_refused.
  assert (dead t w' ∧ not_drawn t w') as [Hd Hn]; [|by eapply dead_moves; [apply serve_all_moves|..]].
  assert (moves tokens_move (RevokeToken t)) as Hrev by (apply moves_fades; auto with tokens).
  destruct Hrun as [Hrun|Hrun]; [|split; [by eapply revoke_kills|eapply not_drawn_moves; [by eapply moves_at|done]]].
  unfold Refresh, Now in Hrun. run_inv. case_match; [done|]. run_inv.
  assert (moves tokens_move (GetRefreshToken_ t)) as Hget by (unfold GetRefreshToken_; walk; same_stmt).
  eapply dead_moves; [by eapply (moves_at _ _ _ _ _ (moves_issue _))| |].
  - eapply not_drawn_moves; [by eapply (moves_at _ _ _ _ _ Hrev)|]. by eapply not_drawn_moves; [eapply (moves_at _ _ _ _ _ Hget)|].
  - match goal with H : RevokeToken t _ = (Ok ?u, _) |- _ => destruct u; exact (revoke_kills _ _ _ H) end.
Qed.
End requests.

(** * Who gets a session, and what ends it

    The theorems on passwords, codes and sign-in methods. *)

(** ** What a successful call did *)

Lemma orNotFound_ok {A} (m : M World A) w a w' : orNotFound m w = (Ok a, w') → m w = (Ok a, w').
Proof.
  unfold orNotFound. rewrite bind_run, try_run. destruct (m w) as [[x|e] w1]; simpl; [by intros [= <- <-]|done].
Qed.

Section rules.
Context {ulib : UuidLib} {lower : GoLower} {mparse : MailParse} {argon : Argon} {jwt : JwtLib} {idtok : IdToken}
  {cfg : AuthConfig}.

Lemma by_email_ok e w a h w' :
  GetUserByEmail e w = (Ok (a, h), w') →
  ∃ u row fs, users (w_db w) !! u = Some row ∧ u_email row = e ∧ a = toUser (w_now w) u row ∧ h = hash_of row ∧
    w' = with_faults fs w.
Proof.
  unfold GetUserByEmail, Now. intros H. run_inv. apply orNotFound_ok, read_ok in Hrun as (Hq & fs & ->).
  2: { unfold GetUserInfoByEmail. intros d r d' [= _ <-]. done. }
  destruct a0 as [u row]. unfold GetUserInfoByEmail, one in Hq; simpl in Hq. case_match eqn:E; [done|]. injection Hq as ->.
  assert ((u, row) ∈ select (λ _ u, bool_decide (u_email u = e)) (users (w_db w))) as Hin
    by (rewrite E; apply list_elem_of_here).
  apply elem_of_select in Hin as [Hu He]. apply bool_decide_eq_true in He. exists u, row, fs. done.
Qed.

Lemma by_id_ok u w a h w' :
  GetUserByID u w = (Ok (a, h), w') →
  ∃ row fs, users (w_db w) !! u = Some row ∧ a = toUser (w_now w) u row ∧ h = hash_of row ∧ w' = with_faults fs w.
Proof.
  unfold GetUserByID, Now. intros H. run_inv. apply orNotFound_ok, read_ok in Hrun as (Hq & fs & ->).
  2: { unfold GetUserInfoByID. intros d r d' [= _ <-]. done. }
  unfold GetUserInfoByID in Hq; simpl in Hq. case_match eqn:E; [|done]. injection Hq as ->. by exists a0, fs.
Qed.

(** The code of that account and purpose, unexpired, is the one given. *)
Definition code_right (u : uuid) (purpose code : string) (now : time) (c : EmailCode) : Prop :=
  now <= ec_ExpiresAt c ∧
  ec_CodeHash c = hashCode u (bound purpose (default EmptyString (ec_NewEmail c))) (TrimSpace code).

Lemma code_ok u p code w sc w' :
  checkCodeFor u p code w = (Ok sc, w') →
  ∃ c fs, email_codes (w_db w) !! ((u, p) : uuid * string) = Some c ∧ code_right u p code (w_now w) c ∧
    sc_NewEmail sc = default EmptyString (ec_NewEmail c) ∧
    w' = with_db (with_email_codes (delete ((u, p) : uuid * string) (email_codes (w_db w))) (w_db w)) (with_faults fs w).
Proof.
  unfold checkCodeFor, Now. intros H. run_inv. apply try_ok in Hrun. case_match; [|run_inv].
  unfold GetCode in Hrun. run_inv. apply read_ok in Hrun0 as (Hq & fs & ->).
  2: { unfold GetEmailCode. intros d r d' [= _ <-]. done. }
  unfold GetEmailCode in Hq; simpl in Hq.
  destruct (email_codes (w_db w) !! ((u, p) : uuid * string)) as [c|] eqn:E; [|done]. injection Hq as ->. simpl in *.
  destruct (ec_ExpiresAt a1 <? w_now w) eqn:Hexp; [done|]. case_bool_decide as Hh; simpl in H; [|run_inv].
  run_inv. unfold DeleteCode in Hrun. apply query_ok in Hrun as (fs' & d & [= <- <-] & ->).
  exists a1, fs'. split; [done|]. split; [|split; [done|]]; [|by destruct w].
  split; [apply Z.ltb_ge in Hexp; lia|done].
Qed.

Lemma touch_run u now w r w' :
  TouchLastSeen_ u now w = (r, w') →
  w_now w' = w_now w ∧ ∀ row, users (w_db w) !! u = Some row →
    ∃ row', users (w_db w') !! u = Some row' ∧ u_banned_at row' = u_banned_at row.
Proof.
  intros [(fs & d & Hq & ->)|(_ & fs & ->)]%query_cases; (split; [done|]); intros row Hrow; simpl; [|by exists row].
  unfold TouchLastSeen, exec_update, update_user in Hq. rewrite bind_run, Hrow in Hq.
  destruct (user_columns_ok _ _ _); injection Hq as _ <-; [by exists row|]. simpl. rewrite lookup_insert_eq. by eexists.
Qed.

Lemma suspension_ok u w a w' :
  Suspension u w = (Ok a, w') →
  ∃ row fs, users (w_db w) !! u = Some row ∧ a.1 = bool_decide (is_Some (u_banned_at row)) ∧ w' = with_faults fs w.
Proof.
  unfold Suspension. intros H. run_inv. apply try_ok in Hrun. destruct a0 as [b|e]; [|run_inv].
  apply read_ok in Hrun as (Hq & fs & ->); [|unfold UserBan; by intros d r d' [= _ <-]].
  unfold UserBan in Hq; simpl in Hq. destruct (users (w_db w) !! u) as [row|] eqn:E; [|done]. injection Hq as <-.
  run_inv. exists row, fs. split; [done|]. split; [by case_bool_decide|done].
Qed.

Lemma new_token_ok w tok w' : MakeRefreshToken w = (Ok tok, w') → ∃ rest, w' = with_rand rest w.
Proof.
  unfold MakeRefreshToken. intros H. run_inv. apply try_ok in Hrun. destruct a as [k|e]; [|run_inv].
  unfold rand_Read in Hrun. destruct (w_rand w) as [|b rest]; [done|]. run_inv. eauto.
Qed.

Lemma create_token_ok tok u e w x w' :
  CreateRefreshToken tok u e w = (Ok x, w') →
  users (w_db w') = users (w_db w) ∧
  ∃ r, refresh_tokens (w_db w') !! hashToken tok = Some r ∧ rt_UserID r = u ∧ rt_live r = true ∧
       rt_ExpireAt r = pgTime e.
Proof.
  unfold CreateRefreshToken. intros H. run_inv. apply query_ok in Hrun as (fs & d & Hq & ->).
  unfold CreateARefreshToken in Hq. repeat case_match; simplify_eq/=. split; [done|].
  eexists. rewrite lookup_insert_eq. by split_and!.
Qed.

(** A session goes to an account that is not banned, with a live token of it. *)
Lemma issue_ok u w t w' :
  issue u w = (Ok t, w') →
  ∃ row, users (w_db w') !! u = Some row ∧ u_banned_at row = None ∧
    ∃ r, refresh_tokens (w_db w') !! hashToken t.2 = Some r ∧ rt_UserID r = u ∧ rt_live r = true ∧
         rt_ExpireAt r = pgTime (w_now w + refreshTTL).
Proof.
  unfold issue, Now, MakeJWT. intros H. run_inv. apply suspension_ok in Hrun as (row & fs & Hrow & Hban & ->).
  rewrite Hban in H. case_bool_decide as Hb; [by run_inv|]. run_inv. unfold Now in *. run_inv.
  apply try_ok, touch_run in Hrun0 as [Hnow Hkeep]. apply new_token_ok in Hrun2 as (rest & ->).
  apply create_token_ok in Hrun4 as (Hu & r & Hr & Hru & Hl & He). simpl in *.
  destruct (Hkeep row Hrow) as (row' & Hrow' & Hb'). exists row'. rewrite Hu. split; [done|].
  split; [rewrite Hb'; by destruct (u_banned_at row); [destruct Hb; eauto|]|].
  exists r. rewrite <- Hnow. by split_and!.
Qed.
(** ** Every session is earned *)

(** What a request has to show to get a session of [u]. *)
Definition proved (r : Request) (u : uuid) (w : World) : Prop :=
  match r with
  | ReqLogin email password => ∃ row h,
      users (w_db w) !! u = Some row ∧ u_email row = email ∧ u_password row = Some h ∧ h ≠ EmptyString ∧
      ComparePasswordAndHash password h = Ok true ∧ is_Some (u_email_verified_at row)
  | ReqRefresh token => ∃ row,
      refresh_tokens (w_db w) !! hashToken token = Some row ∧ rt_UserID row = u ∧ rt_live row = true ∧
      w_now w <= rt_ExpireAt row
  | ReqVerifyEmail email code => ∃ row c,
      users (w_db w) !! u = Some row ∧ u_email row = normEmail email ∧
      email_codes (w_db w) !! ((u, purposeVerify) : uuid * string) = Some c ∧ code_right u purposeVerify code (w_now w) c
  | ReqGoogle idToken => ∃ aud p email,
      aud ∈ cfg_GoogleClientIDs ∧ idtoken_Validate idToken aud = Ok p ∧ ip_email_verified p = Some true ∧
      ip_email p = Some email ∧ email ≠ EmptyString ∧ ip_Subject p ≠ EmptyString ∧
      ((∃ i, user_identities (w_db w) !! (("google", ip_Subject p) : string * string) = Some i ∧ ui_UserID i = u) ∨
       ∃ row, users (w_db w) !! u = Some row ∧ u_email row = normEmail email)
  | ReqGoogleSignup signupToken name => ∃ c,
      jwt_parse signupToken (λ _, Ok cfg_JWTSecret) signup_options (w_now w) = Ok c ∧
      (∃ sub, cl_sub c = Some sub ∧ sub ≠ EmptyString) ∧ (∃ email, cl_email c = Some email ∧ email ≠ EmptyString) ∧
      ValidateName (NormalizeUsername name) = None ∧ users (w_db w) !! u = None
  | ReqConfirmEmailChange v code => v = u ∧ ∃ c,
      email_codes (w_db w) !! ((u, purposeEmail) : uuid * string) = Some c ∧ code_right u purposeEmail code (w_now w) c
  | _ => False
  end.

(** The account a session is for is not banned, and its refresh token is in the table. *)
Definition opened (u : uuid) (tok : string) (w : World) : Prop :=
  (∃ row, users (w_db w) !! u = Some row ∧ u_banned_at row = None) ∧
  ∃ r, refresh_tokens (w_db w) !! hashToken tok = Some r ∧ rt_UserID r = u ∧ rt_live r = true.

Lemma issue_opens u w t w' : issue u w = (Ok t, w') → opened u t.2 w'.
Proof. intros (row & Hr & Hb & r & Ht & Hu & Hl & _)%issue_ok. split; eauto. Qed.

Lemma session_opens u w s w' : session u w = (Ok s, w') → opened (ac_ID u) (se_RefreshToken s) w'.
Proof. unfold session. intros H. run_inv. by eapply issue_opens. Qed.

Lemma hash_of_set row : hash_of row ≠ EmptyString → ∃ h, u_password row = Some h ∧ h = hash_of row.
Proof. unfold hash_of. destruct (u_password row); [eauto|done]. Qed.

Lemma login_proved e p w s w' :
  Login e p w = (Ok s, w') → ∃ u, proved (ReqLogin e p) u w ∧ opened u s.1.2 w'.
Proof.
  unfold Login, CheckPassword. intros H. run_inv. apply try_ok in Hrun. destruct a as [[a h]|er]; [|run_inv].
  apply by_email_ok in Hrun as (u & row & fs & Hu & He & -> & -> & ->).
  case_decide as Hh; [run_inv|]. run_inv.
  match goal with H : _ = Ok ?v |- _ => rename v into valid, H into Hc end.
  destruct valid; simpl in H; [|run_inv]. case_bool_decide as Hv; simpl in H; [|run_inv]. run_inv.
  exists u. split; [|by eapply issue_opens].
  destruct (hash_of_set row Hh) as (h & Hp & ->). exists row, (hash_of row). by split_and!.
Qed.

Lemma get_token_ok t w row w' :
  GetRefreshToken_ t w = (Ok row, w') →
  refresh_tokens (w_db w) !! hashToken t = Some row ∧ rt_live row = true ∧ ∃ fs, w' = with_faults fs w.
Proof.
  unfold GetRefreshToken_. intros H. run_inv. untry Ht. destruct a as [row'|er]; run_inv.
  apply read_ok in Ht as (Hq & fs & ->); [|unfold GetRefreshToken; by intros d r d' [= _ <-]].
  unfold GetRefreshToken in Hq; simpl in Hq. destruct (refresh_tokens (w_db w) !! hashToken t) as [r|] eqn:E; [|done].
  destruct (rt_live r) eqn:Hl; [|done]. injection Hq as ->. eauto.
Qed.

Lemma refresh_proved t w s w' :
  Refresh t w = (Ok s, w') → ∃ u, proved (ReqRefresh t) u w ∧ opened u s.2 w'.
Proof.
  unfold Refresh, Now. intros H. run_inv. apply get_token_ok in Hrun as (Hr & Hl & fs & ->). simpl in *.
  destruct (rt_ExpireAt a <? w_now w) eqn:Hx; run_inv.
  exists (rt_UserID a). split; [|by eapply issue_opens]. exists a. apply Z.ltb_ge in Hx. by split_and!.
Qed.

Lemma user_or_ok alt e w a w' :
  user_or alt e w = (Ok a, w') →
  ∃ u row fs, users (w_db w) !! u = Some row ∧ u_email row = normEmail e ∧ a = toUser (w_now w) u row ∧
    w' = with_faults fs w.
Proof.
  unfold user_or. intros H. run_inv. apply try_ok in Hrun. destruct a0 as [[u h]|er]; [|run_inv]. run_inv.
  apply by_email_ok in Hrun as (u' & row & fs & Hu & He & -> & _ & ->). eauto 10.
Qed.

Lemma verify_proved e c w s w' :
  VerifyEmail e c w = (Ok s, w') → ∃ u, proved (ReqVerifyEmail e c) u w ∧ opened u (se_RefreshToken s) w'.
Proof.
  unfold VerifyEmail, checkCode. intros H. run_inv. apply user_or_ok in Hrun as (u & row & fs & Hu & He & -> & ->).
  run_of checkCodeFor Hcode. apply code_ok in Hcode as (cd & fs' & Hc & Hright & _ & ->). exists u. split; [|by apply session_opens in H].
  exists row, cd. by split_and!.
Qed.

Lemma verify_google_ok tok l e w c w' :
  Verify tok l e w = (Ok c, w') →
  ∃ aud p fs, aud ∈ l ∧ idtoken_Validate tok aud = Ok p ∧ gc_Subject c = ip_Subject p ∧
    gc_Email c = default EmptyString (ip_email p) ∧ gc_EmailVerified c = default false (ip_email_verified p) ∧
    w' = with_faults fs w.
Proof.
  revert e w. induction l as [|aud l IH]; intros e w H; cbn [Verify] in H; [run_inv|]. run_inv. untry Ht.
  assert (∃ fs, s = with_faults fs w ∧ ∀ p, a = Ok p → idtoken_Validate tok aud = Ok p) as (fs & -> & Hp).
  { apply io_cases in Ht as [(fs & [= <- <-])|(-> & fs & ->)]; exists fs; split; done. }
  destruct a as [p|er]; run_inv.
  - exists aud, p, fs. split; [apply list_elem_of_here|]. by split_and!; [apply Hp|..].
  - apply IH in H as (aud' & p & fs' & Hin & Hv & Hs & He & Hev & ->). exists aud', p, fs'.
    split; [by apply list_elem_of_further|]. done.
Qed.

Lemma identity_ok p su w u w' :
  Identity p su w = (Ok u, w') →
  ∃ i fs, user_identities (w_db w) !! ((p, su) : string * string) = Some i ∧ ui_UserID i = u ∧ w' = with_faults fs w.
Proof.
  unfold Identity. intros H. run_inv. apply read_ok in Hrun as (Hq & fs & ->); [|unfold GetIdentity; by intros d r d' [= _ <-]].
  unfold GetIdentity in Hq; simpl in Hq. destruct (user_identities (w_db w) !! ((p, su) : string * string)) as [i|] eqn:E; [|done].
  injection Hq as ->. by exists a, fs.
Qed.

(** A read that failed left the database alone. *)
Lemma identity_any p su w r w' : Identity p su w = (r, w') → ∃ fs, w' = with_faults fs w.
Proof.
  unfold Identity. rewrite bind_run. destruct (query (GetIdentity p su) w) as [r0 w0] eqn:Hq.
  assert (∃ fs, w0 = with_faults fs w) as (fs & ->); [|destruct r0; intros [= _ <-]; by exists fs].
  apply query_cases in Hq as [(fs & d & [= _ <-] & ->)|(_ & fs & ->)]; by exists fs.
Qed.

Lemma link_opens u su e w s w' : link_account u su e w = (Ok s, w') → opened (ac_ID u) (se_RefreshToken s) w'.
Proof.
  unfold link_account. intros H. run_inv. destruct (ac_Verified u); run_inv; by apply session_opens in H.
Qed.

Lemma google_proved t w g tok w' :
  Google t w = (Ok g, w') → se_RefreshToken <$> gr_Session g = Some tok →
  ∃ u, proved (ReqGoogle t) u w ∧ opened u tok w'.
Proof.
  unfold Google, google_Verify. intros H Hg. destruct (negb google_configured); run_inv. untry Hv.
  destruct a as [c|er]; run_inv.
  apply verify_google_ok in Hv as (aud & p & fs & Haud & Hval & Hsub & Hem & Hver & ->).
  destruct (negb (gc_EmailVerified c)) eqn:Hn; simpl in H; [run_inv|].
  case_bool_decide as Hs; simpl in H; [run_inv|]. case_bool_decide as He; simpl in H; [run_inv|]. run_inv. untry Hid.
  assert (∀ u, ((∃ i, user_identities (w_db w) !! (("google", ip_Subject p) : string * string) = Some i ∧ ui_UserID i = u) ∨
                ∃ row, users (w_db w) !! u = Some row ∧ u_email row = normEmail (gc_Email c)) →
          proved (ReqGoogle t) u w) as Hproved.
  { intros u Hu. apply negb_false_iff in Hn. rewrite Hver in Hn. rewrite Hem in He. rewrite Hem in Hu. rewrite Hsub in Hs.
    destruct (ip_email_verified p) as [[]|] eqn:E1; try done. destruct (ip_email p) as [em|] eqn:E2; [|done].
    exists aud, p, em. by split_and!. }
  destruct a as [u|er].
  - apply identity_ok in Hid as (i & fs' & Hi & Hui & ->). run_inv. destruct a as [a h].
    run_of GetUserByID Hu. apply by_id_ok in Hu as (row & fs2 & Hrow & -> & _ & ->). simpl in *.
    exists (ui_UserID i). split; [apply Hproved; left; rewrite <- Hsub; eauto|]. run_of session Hses. by apply session_opens in Hses.
  - apply identity_any in Hid as (fs' & ->). run_inv. untry Hu. destruct a as [[a h]|e]; [|case_decide; run_inv; done].
    apply by_email_ok in Hu as (u & row & fs2 & Hu & Heq & -> & _ & ->). run_inv.
    exists u. split; [apply Hproved; right; eauto|]. run_of link_account Hl. by apply link_opens in Hl.
Qed.

Lemma insert_user_ok id u d r d' :
  insert_user id u d = (Ok r, d') → users d !! id = None ∧ r = (id, u) ∧ user_columns_ok id u d = None ∧ d' = put_user id u d.
Proof. unfold insert_user. repeat case_match; intros [= <- <-]; done. Qed.

Lemma create_google_ok n e su w a w' :
  CreateGoogleUser n e su w = (Ok a, w') → users (w_db w) !! ac_ID a = None.
Proof.
  unfold CreateGoogleUser. intros H. run_inv. untry Ht. destruct a0 as [out|er]; run_inv.
  apply BeginFunc_ok in Ht as (fs & fs' & w2 & Ht & ->). run_inv.
  apply query_ok in Hrun0 as (fs2 & d & (Hnone & -> & _ & ->)%insert_user_ok & ->).
  run_of (NewV7) Hid. unfold NewV7 in Hid. simpl in *. destruct (w_ids w); [done|]. injection Hid as -> <-. exact Hnone.
Qed.

Lemma signup_proved t n w s w' :
  CompleteGoogleSignup t n w = (Ok s, w') → ∃ u, proved (ReqGoogleSignup t n) u w ∧ opened u (se_RefreshToken s) w'.
Proof.
  unfold CompleteGoogleSignup, Now. intros H. run_inv. rename s0 into w.
  destruct (jwt_parse t (λ _, Ok cfg_JWTSecret) signup_options (w_now w)) as [c|er] eqn:Ep; [|run_inv].
  case_bool_decide as Hs; simpl in H; [run_inv|]. case_bool_decide as He; simpl in H; [run_inv|]. run_inv. untry Ht.
  unfold reject in Hrun. destruct (ValidateName (NormalizeUsername n)) eqn:Hn; run_inv.
  destruct a0 as [u|er]; [|case_decide; run_inv].
  exists (ac_ID u). split; [|by apply session_opens in H]. exists c. split; [done|].
  destruct (cl_sub c) as [sub|]; [|done]. destruct (cl_email c) as [em|]; [|done].
  split; [eauto|]. split; [eauto|]. split; [done|]. by eapply create_google_ok.
Qed.

Lemma confirm_proved u c w s w' :
  ConfirmEmailChange u c w = (Ok s, w') →
  proved (ReqConfirmEmailChange u c) u w ∧ opened u (se_RefreshToken s) w'.
Proof.
  unfold ConfirmEmailChange. intros H. run_inv. apply code_ok in Hrun as (cd & fs & Hc & Hr & _ & ->).
  case_decide; run_inv. run_of GetUserByID Hu.
  match type of Hu with _ = (Ok ?r, _) => destruct r as [ac h] end. apply by_id_ok in Hu as (row & fs2 & Hrow & -> & _ & ->).
  untry Ht. outcome Ht; [|case_decide; run_inv]. run_inv. split; [|by apply session_opens in H].
  split; [done|]. eauto.
Qed.

(** C5. A session is earned: a request to accounts and sessions that hands out a
    refresh token has shown the password of a verified account, a live and unexpired
    refresh token, the unexpired code that account was sent, a Google token for one of
    this server's audiences with a verified address that is linked to the account or
    is its address, or a signed sign-up token for a new account; the account is not
    banned, and the token is in the table, live, for that account. *)
Theorem sessions_are_earned r w tok w' :
  serve r w = (Ok (Some tok), w') → ∃ u, proved r u w ∧ opened u tok w'.
Proof.
  destruct r; cbn [serve]; unfold no_session; intros H; run_inv.
  - by eapply login_proved.
  - by eapply refresh_proved.
  - by eapply verify_proved.
  - by eapply google_proved.
  - by eapply signup_proved.
  - exists userID. by eapply confirm_proved.
Qed.
(** ** Guessing a code *)

(** The codes after a guess that nothing interrupts, and whether it was accepted. *)
Definition guess_code (u : uuid) (p g : string) (now : time) (codes : gmap (uuid * string) EmailCode) :
    bool * gmap (uuid * string) EmailCode :=
  match codes !! ((u, p) : uuid * string) with
  | None => (false, codes)
  | Some c =>
    if ec_ExpiresAt c <? now then (false, codes)
    else if bool_decide (ec_CodeHash c = hashCode u (bound p (default EmptyString (ec_NewEmail c))) (TrimSpace g))
    then (true, delete ((u, p) : uuid * string) codes)
    else if codeMaxAttempts <=? ec_Attempts c + 1 then (false, delete ((u, p) : uuid * string) codes)
    else (false, <[(u, p) := mk_EmailCode (ec_CodeHash c) (ec_Attempts c + 1) (ec_ExpiresAt c) (ec_CreatedAt c)
                               (ec_NewEmail c)]> codes)
  end.

Lemma checkCode_calm u p g w :
  w_faults w = [] →
  checkCode u p g w =
    ((if (guess_code u p g (w_now w) (email_codes (w_db w))).1 then Ok tt else Err ErrInvalidCode),
     with_db (with_email_codes (guess_code u p g (w_now w) (email_codes (w_db w))).2 (w_db w)) w).
Proof.
  intros Hf. assert (with_db (with_email_codes (email_codes (w_db w)) (w_db w)) w = w) as Hsame
    by (destruct w as [d]; by destruct d).
  unfold checkCode, checkCodeFor, GetCode, BumpAttempts, DeleteCode, Now, mbind, M_bind, try, get, mret, M_ret, throw.
  rewrite query_calm by done. unfold guess_code, GetEmailCode. cbn [fst snd].
  destruct (email_codes (w_db w) !! ((u, p) : uuid * string)) as [c|] eqn:E; cbn -[query]; rewrite with_db_same; [|by rewrite Hsame].
  destruct (ec_ExpiresAt c <? w_now w); cbn -[query]; [by rewrite Hsame|].
  case_bool_decide; cbn -[query codeMaxAttempts].
  - by rewrite query_calm by done.
  - rewrite query_calm by done. unfold BumpEmailCodeAttempts. rewrite E. cbn -[codeMaxAttempts query].
    destruct (codeMaxAttempts <=? ec_Attempts c + 1); cbn [fst snd]; [|done].
    rewrite query_calm by done. cbn. unfold with_db, with_email_codes; cbn. by rewrite delete_insert_eq.
Qed.

Fixpoint guesses (u : uuid) (p : string) (gs : list string) (w : World) : list bool :=
  match gs with
  | [] => []
  | g :: gs => let r := checkCode u p g w in is_ok r.1 :: guesses u p gs r.2
  end.

Lemma guesses_gone u p gs w i :
  w_faults w = [] → email_codes (w_db w) !! ((u, p) : uuid * string) = None → guesses u p gs w !! i ≠ Some true.
Proof.
  revert w i. induction gs as [|g gs IH]; intros w i Hf Hc; [done|]. simpl. rewrite checkCode_calm by done. cbn [fst snd].
  unfold guess_code. rewrite Hc. destruct i as [|i]; [done|]. simpl. apply IH; done.
Qed.
Lemma with_codes_lookup codes w k :
  email_codes (w_db (with_db (with_email_codes codes (w_db w)) w)) !! (k : uuid * string) = codes !! k.
Proof. done. Qed.

(** C19. A code survives few guesses: while nothing fails, of any number of guesses at
    the code of an account and purpose at most one is accepted, only the right code
    before it expires is, and only among the first five (fewer when wrong guesses were
    made before). *)
Theorem code_guesses_bounded u p gs w c i :
  w_faults w = [] → email_codes (w_db w) !! ((u, p) : uuid * string) = Some c → 0 <= ec_Attempts c < codeMaxAttempts →
  guesses u p gs w !! i = Some true →
  Z.of_nat i < codeMaxAttempts - ec_Attempts c ∧
  (∃ g, gs !! i = Some g ∧ code_right u p g (w_now w) c) ∧
  ∀ j, guesses u p gs w !! j = Some true → j = i.
Proof.
  revert w c i. induction gs as [|g gs IH]; intros w c i Hf Hc Ha; [done|]. cbn [guesses].
  rewrite checkCode_calm by done. cbn [fst snd]. unfold guess_code. rewrite Hc.
  destruct (ec_ExpiresAt c <? w_now w) eqn:Hx; cbn [fst snd is_ok].
  - destruct i as [|i]; [done|]. cbn [lookup list_lookup]. intros Hi. exfalso.
    edestruct (IH (with_db (with_email_codes (email_codes (w_db w)) (w_db w)) w)) as (_ & (g' & _ & Hnow & _) & _);
      [exact Hf|exact Hc|exact Ha|exact Hi|]. simpl in Hnow. apply Z.ltb_lt in Hx. lia.
  - case_bool_decide as Hh; cbn [fst snd is_ok].
    + assert (∀ j, guesses u p gs (with_db (with_email_codes (delete ((u, p) : uuid * string) (email_codes (w_db w))) (w_db w)) w)
                     !! j ≠ Some true) as Hgone.
      { intros j. apply guesses_gone; [done|]. rewrite with_codes_lookup. apply lookup_delete_eq. }
      destruct i as [|i]; [|intros Hi; by destruct (Hgone i)]. intros _. split; [lia|]. apply Z.ltb_ge in Hx.
      split; [by exists g|]. intros [|j] Hj; [done|]. by destruct (Hgone j).
    + destruct (codeMaxAttempts <=? ec_Attempts c + 1) eqn:Hm; cbn [fst snd is_ok].
      * destruct i as [|i]; [done|]. intros Hi. exfalso. revert Hi. apply guesses_gone; [done|].
        rewrite with_codes_lookup. apply lookup_delete_eq.
      * destruct i as [|i]; [done|]. cbn [lookup list_lookup]. intros Hi. apply Z.leb_gt in Hm.
        edestruct IH as (Hb & (g' & Hg & Hnow & Hright) & Huniq); [| | |exact Hi|];
          [exact Hf|rewrite with_codes_lookup; apply lookup_insert_eq|simpl; lia|].
        simpl in Hb, Hright. split; [lia|]. split; [exists g'; by split_and!|].
        intros [|j] Hj; [done|]. f_equal. by apply Huniq.
Qed.
(** ** Signing out everywhere *)

(** What is left of the sessions of [u], ended between [w] and [w']: no refresh token is
    live, the access tokens issued so far are refused while they last (unless Redis
    cannot be asked), the socket was closed, and no phone is notified. *)
Record signed_out (u : uuid) (w w' : World) : Prop := {
  so_tokens h r : refresh_tokens (w_db w') !! h = Some r → rt_UserID r = u → rt_live r = false;
  so_access t issued : w_now w <= t < w_now w + accessTTL → issued <= w_now w / millisecond * millisecond →
    (Revoked u issued (with_now t w')).1 = Ok true ∨ (Revoked u issued (with_now t w')).1 = Err ErrInfra;
  so_socket : Closed u ∈ w_log w';
  so_devices k d : user_devices (w_db w') !! k = Some d → ud_UserID d ≠ u;
}.

Lemma revoked_after u issued t ms exp red rec fs w :
  w_revocations w = mk_revocations (<[u := (ms, exp)]> red) rec →
  rec !! u = Some (mk_entry (Some (ms * millisecond)) fs) →
  t < exp → issued <= ms * millisecond →
  (Revoked u issued (with_now t w)).1 = Ok true ∨ (Revoked u issued (with_now t w)).1 = Err ErrInfra.
Proof.
  intros Hrv Hrec Ht Hiss. unfold Revoked, M_bind, mbind, get, io. cbn [revoke_clock world_revocations revocations_of].
  cbn [w_revocations with_now w_now]. rewrite Hrv. cbn [rv_recent]. rewrite Hrec. unfold fresh. cbn [e_checked].
  assert (refuses (mk_entry (Some (ms * millisecond)) fs) issued = true) as Href by (by apply Z.leb_le).
  assert (refuses (fetched u t (<[u := (ms, exp)]> red)) issued = true) as Hfetch.
  { unfold refuses, fetched, redis_get. rewrite lookup_insert_eq. assert ((t <? exp) = true) as -> by (by apply Z.ltb_lt).
    by apply Z.leb_le. }
  destruct (t - fs <=? localTTL); [left; cbn -[refuses]; by rewrite Href|].
  cbn [faults world_faulty]. destruct (w_faults (with_now t w)) as [|[] fs']; cbn -[refuses fetched]; rewrite ?Hrv;
    cbn -[refuses fetched]; [left|by right|left]; by rewrite Hfetch.
Qed.

(** What ending sessions did is still there. *)
Definition sessions_same (w w' : World) : Prop :=
  refresh_tokens (w_db w') = refresh_tokens (w_db w) ∧ user_devices (w_db w') = user_devices (w_db w) ∧
  w_revocations w' = w_revocations w ∧ ∀ e, e ∈ w_log w → e ∈ w_log w'.

Lemma end_sessions_later u w x w1 w' : RevokeAllRefreshTokens u w = (Ok x, w1) → sessions_same w1 w' → signed_out u w w'.
Proof.
  unfold RevokeAllRefreshTokens, sessionEnder, EndSessions, RevokeAll, set_recent, Disconnect, ForgetDevices.
  intros H (St & Sd & Sr & Sl). run_inv.
  apply query_ok in Hrun as (fs & d & [= Hd] & ->). apply query_ok in H as (fs' & d' & [= Hd'] & ->).
  apply io_cases in Hrun3 as [(fs3 & [= _ <-])|[[=] _]]. unfold emit in Hrun1. run_inv. simpl in *. split.
  - intros h r. rewrite St, lookup_fmap. destruct (refresh_tokens (w_db w) !! h) as [r0|]; [|done]. simpl. intros [= <-].
    destruct (bool_decide (rt_UserID r0 = u)) eqn:Eu; simpl.
    + destruct (rt_live r0) eqn:El; done.
    + intros Hu. by apply bool_decide_eq_false in Eu.
  - intros t issued Ht Hiss. eapply revoked_after; [exact Sr|apply lookup_insert_eq|simpl; lia|simpl; lia].
  - apply Sl, elem_of_app. right. apply list_elem_of_here.
  - intros k d. rewrite Sd. intros [_ Hne]%map_lookup_filter_Some. exact Hne.
Qed.

Lemma end_sessions_ok u w x w' : RevokeAllRefreshTokens u w = (Ok x, w') → signed_out u w w'.
Proof. intros H. eapply end_sessions_later; [exact H|by split_and!]. Qed.

(** A whole request that ends in it. *)
Lemma signed_out_now u w0 w w' : w_now w = w_now w0 → signed_out u w w' → signed_out u w0 w'.
Proof. intros E [H1 H2 H3 H4]. rewrite E in H2. by split. Qed.

Lemma now_by_id u : moves same_now (GetUserByID u).
Proof. unfold GetUserByID, orNotFound. walk_program. Qed.
Lemma now_user_or a e : moves same_now (user_or a e).
Proof. unfold user_or, GetUserByEmail, orNotFound. walk_program. Qed.
Lemma now_check u p c : moves same_now (checkCode u p c).
Proof. unfold checkCode, checkCodeFor, GetCode, BumpAttempts, DeleteCode. walk_program. Qed.
Lemma now_check_for u p c : moves same_now (checkCodeFor u p c).
Proof. unfold checkCodeFor, GetCode, BumpAttempts, DeleteCode. walk_program. Qed.
Lemma now_change_email u e : moves same_now (ChangeEmail_ u e).
Proof. unfold ChangeEmail_. walk_program. Qed.
#[local] Hint Resolve now_by_id now_user_or now_check now_check_for now_change_email : moves.

(** The requests that sign an account out everywhere, and the account. *)
Definition signs_out (r : Request) (u : uuid) (w : World) : Prop :=
  match r with
  | ReqResetPassword e _ _ => ∃ row, users (w_db w) !! u = Some row ∧ u_email row = normEmail e
  | ReqUpdatePassword v _ _ | ReqLogoutAll v | ReqConfirmEmailChange v _ => v = u
  | _ => False
  end.

Definition ends_sessions (r : Request) : bool :=
  match r with
  | ReqResetPassword _ _ _ | ReqUpdatePassword _ _ _ | ReqLogoutAll _ | ReqConfirmEmailChange _ _ => true
  | _ => false
  end.

(** The world but for the refresh token that was answered, if one was. *)
Definition but_for (tok : option string) (w : World) : World :=
  match tok with
  | Some t => with_db (with_refresh_tokens (delete (hashToken t) (refresh_tokens (w_db w))) (w_db w)) w
  | None => w
  end.

#[local] Instance sessions_same_preorder : PreOrder sessions_same.
Proof.
  split; [by intros w; split_and!|]. intros w1 w2 w3 (A1 & A2 & A3 & A4) (B1 & B2 & B3 & B4). split_and!; [congruence..|auto].
Qed.
Lemma devices_exec_update id f d : user_devices (exec_update id f d).2 = user_devices d.
Proof. unfold exec_update, update_user, M_bind, mbind. repeat case_match; simplify_eq; reflexivity. Qed.
Lemma same_touch u now w r w' : TouchLastSeen_ u now w = (r, w') → sessions_same w w'.
Proof.
  intros [(fs & d & Hq & ->)|(_ & fs & ->)]%query_cases; [|by split_and!].
  pose proof (f_equal snd Hq) as E. simpl in E. rewrite <- E. unfold TouchLastSeen.
  split_and!; [apply same_exec_update|apply devices_exec_update|reflexivity|by simpl].
Qed.

(** A new session adds its refresh token, whose hash is new, and nothing else. *)
Lemma issue_adds u w t w' : issue u w = (Ok t, w') → sessions_same w (but_for (Some t.2) w').
Proof.
  unfold issue, Now, MakeJWT. intros H. run_inv. apply suspension_ok in Hrun as (row & fs & Hrow & Hban & ->).
  rewrite Hban in H. case_bool_decide as Hb; [by run_inv|]. run_inv. unfold Now in *. run_inv.
  apply try_ok, same_touch in Hrun0. apply new_token_ok in Hrun2 as (rest & ->).
  unfold CreateRefreshToken in Hrun4. run_inv. apply query_ok in Hrun as (fs' & d & Hq & ->).
  unfold CreateARefreshToken in Hq. repeat case_match; simplify_eq/=.
  transitivity s1; [exact Hrun0|]. split_and!; [|done..]. simpl. by apply delete_insert_id.
Qed.

Lemma same_sleep d w : sessions_same w (Sleep d w).2.
Proof. by split_and!. Qed.
Lemma same_send m w : sessions_same w (send m w).2.
Proof.
  unfold send, io, emit. destruct w as [d gr fr se na ba de rv st now ids rand log [|[] fs]]; split_and!; try done; simpl; intros e He; apply elem_of_app; by left.
Qed.

Lemma same_run {A} {m : M World A} {w r w'} : sessions_same w (m w).2 → m w = (r, w') → sessions_same w w'.
Proof. intros H E. by rewrite E in H. Qed.

Lemma reject_ok {S} o (w : S) x w' : reject o w = (Ok x, w') → o = None ∧ w' = w.
Proof. unfold reject. destruct o; [done|]. by intros [= _ <-]. Qed.

Lemma now_reject o : moves same_now (reject o).
Proof. unfold reject. walk_program. Qed.
Lemma now_hash p : moves same_now (HashPassword p).
Proof. unfold HashPassword. walk_program. Qed.
Lemma now_update_password u p : moves same_now (UpdateUserPassword u p).
Proof. unfold UpdateUserPassword. walk_program. Qed.
#[local] Hint Resolve now_reject now_hash now_update_password : moves.
#[local] Hint Unfold SetPassword MarkVerified : moves.

(** C32. A password change, a password reset, signing out everywhere and a change of the
    address end every session of the account when they succeed: no refresh token is live but
    the one a change of the address answers, every access token issued before is refused
    while it lasts (or the revocation cannot be read), the socket is closed and no phone is
    notified any more. *)
Theorem signed_out_everywhere r w x w' :
  ends_sessions r = true → serve r w = (Ok x, w') → ∃ u, signs_out r u w ∧ signed_out u w (but_for x w').
Proof.
  destruct r; try done; intros _; cbn [serve]; unfold no_session; intros H; run_inv.
  - unfold ResetPassword in Hrun. run_inv. run_of (@user_or) Hu. run_of (@reject) Hrej. run_of (@RevokeAllRefreshTokens) Hend.
    match type of Hend with _ ?w1 = _ => assert (same_now w w1) as Hnow by clock end.
    apply reject_ok in Hrej as [_ ->]. apply user_or_ok in Hu as (u & row & fs & Hrow & He & -> & _). exists u.
    split; [by exists row|]. eapply signed_out_now; [exact Hnow|]. by eapply end_sessions_ok.
  - exists userID. split; [done|]. unfold ConfirmEmailChange, session in Hrun. run_inv. case_decide; run_inv. untry Ht. outcome Ht; [|case_decide; run_inv].
    run_inv. run_of EndSessions Hend. run_of (@Sleep) Hsl. run_of (@issue) His. untry Hmail.
    match type of Hend with _ ?w1 = _ => assert (same_now w w1) as Hnow by clock end.
    eapply signed_out_now; [exact Hnow|]. eapply end_sessions_later; [exact Hend|].
    etrans; [|by eapply issue_adds]. etrans; [exact (same_run (same_sleep _ _) Hsl)|].
    exact (same_run (same_send _ _) Hmail).
  - unfold UpdatePassword_ in Hrun. run_inv. case_decide; run_inv. destruct (negb a2); run_inv. run_of EndSessions Hend.
    match type of Hend with _ ?w1 = _ => assert (same_now w w1) as Hnow by clock end.
    exists userID. split; [done|]. eapply signed_out_now; [exact Hnow|]. by eapply end_sessions_ok.
  - exists userID. split; [done|]. by eapply end_sessions_ok.
Qed.

Lemma revoked_err u i w e : (Revoked u i w).1 = Err e → ∃ fs, w_faults w = true :: fs.
Proof.
  destruct w as [d gr fr se na ba de rv st now ids rand log [|[] fs]]; [|eauto|]; unfold Revoked, M_bind, mbind, get, io; simpl;
    repeat case_match; intros; simplify_eq/=.
Qed.

(** An access token does not outlive the sessions: one made before an account
    was signed out everywhere is not accepted afterwards by the server that did it,
    whatever header carries it, except when Redis cannot be asked. *)
Theorem old_access_tokens_refused (jlaws : JwtLaws jwt) (ulaws : UuidLaws ulib) u w0 tok w1 w w' t h :
  MakeJWT u cfg_JWTSecret accessTTL w0 = (Ok tok, w1) → w_now w0 <= w_now w →
  signed_out u w w' → w_now w <= t → GetBearerToken h = Ok tok →
  (Authenticate h (with_now t w')).1 = Ok None ∨ ∃ fs, w_faults w' = true :: fs.
Proof.
  intros Hmake Hle Hout Ht Hh. unfold MakeJWT, Now in Hmake. run_inv.
  unfold Authenticate, Now. rewrite bind_run. cbn [get]. rewrite Hh. unfold ValidateJWTIssued.
  change (w_now (with_now t w')) with t.
  destruct (jwt_parse tok (hmac_key cfg_JWTSecret) (registered_options issuer) t) as [c|e] eqn:Ep.
  2: { left. by case_decide. }
  match goal with Hs : jwt_sign _ _ = Ok tok |- _ =>
    destruct (jwt_refuses _ _ _ _ _ _ _ Hs Ep) as ([_ Hsub _ _ Hexp Hiat] & _ & _ & e & He & Hlt) end.
  simpl in Hsub, Hexp, Hiat. rewrite Hsub. simpl. rewrite uuid_parse_string. rewrite He in Hexp.
  destruct (cl_iat c) as [iat|]; [|done]. simpl in *. rewrite bind_run, try_run.
  assert (∀ a : Z, a / millisecond * millisecond <= a) as Hfloor
    by (intros a; rewrite Z.mul_comm; apply Z.mul_div_le; unfold millisecond; lia).
  destruct (so_access _ _ _ Hout t iat) as [E|E].
  - specialize (Hfloor (w_now w1 + accessTTL)). lia.
  - etrans; [apply Hiat|]. apply Z.mul_le_mono_nonneg_r; [unfold millisecond; lia|by apply ms_mono].
  - left. by rewrite E.
  - right. apply revoked_err in E as (fs & Hfs). by exists fs.
Qed.
End rules.
