(* ===== verification/Auth_Deletion.v ===== *)
(** * Auth_Deletion: deleting an account

    What [DeleteUser] (auth/account_repo.go) does to the groups: the account leaves
    each of them as [Leave] would have it, and every group stays well-formed; and what is
    left of it in the other tables. *)

From S2P Require Import Prelude GoLib Types Db Sql_Groups Sql_Users Sql_Accounts Groups_Model World Moves Groups_Repo Groups_Refine Groups_Props Auth_Accounts Demo.

#[local] Open Scope Z_scope.

(** The same row and the same members. *)
Definition same_group (g : uuid) (d d' : DB) : Prop :=
  chat_groups d' !! g = chat_groups d !! g ∧ members_of d' g = members_of d g.

Lemma same_group_refl g d : same_group g d d.
Proof. done. Qed.
Lemma same_group_trans g d1 d2 d3 : same_group g d1 d2 → same_group g d2 d3 → same_group g d1 d3.
Proof. intros [H1 H2] [H3 H4]. split; congruence. Qed.

Definition ag_of (d : DB) (g : uuid) (row : ChatGroup) : AGroup := mk_AGroup (g_MaxMember row) (members_of d g).

Definition promoted (m : MemberTable) : MemberTable := mk_MemberTable (m_JoinedAt m) RoleAdmin [].

(** Group [g] handed over by its admin [u], who is still a member; or gone. *)
Definition handed (u g : uuid) (d d' : DB) : Prop :=
  ∃ row, chat_groups d !! g = Some row ∧
  match a_heir u (ag_of d g row) with
  | Some h => chat_groups d' !! g = Some row ∧ members_of d' g = alter promoted h (members_of d g)
  | None => chat_groups d' !! g = None ∧ members_of d' g = ∅
  end.

Lemma handed_after u g d d1 d2 : same_group g d d1 → handed u g d1 d2 → handed u g d d2.
Proof. intros [H1 H2]. unfold handed, ag_of. by rewrite H1, H2. Qed.
Lemma handed_before u g d d1 d2 : handed u g d d1 → same_group g d1 d2 → handed u g d d2.
Proof. intros (row & Hrow & H) [H1 H2]. exists row. rewrite H1, H2. done. Qed.

Lemma members_of_alter f g u d g' :
  members_of (with_member_table (alter f ((g, u) : uuid * uuid) (member_table d)) d) g' =
  if decide (g' = g) then alter f u (members_of d g) else members_of d g'.
Proof.
  apply members_of_ext. intros u'; simpl. destruct (decide (g' = g)) as [->|Hne].
  - destruct (decide (u' = u)) as [->|].
    + by rewrite !lookup_alter_eq, lookup_members_of.
    + rewrite !lookup_alter_ne by congruence. by rewrite lookup_members_of.
  - rewrite lookup_alter_ne by congruence. by rewrite lookup_members_of.
Qed.

Lemma delete_group_members g d g' :
  members_of (DeleteGroup g d).2 g' = if decide (g' = g) then ∅ else members_of d g'.
Proof.
  apply members_of_ext. intros u. simpl. destruct (decide (g' = g)) as [->|Hne].
  - rewrite lookup_empty. apply map_lookup_filter_None. right. intros m _. simpl. tauto.
  - rewrite lookup_members_of. destruct (member_table d !! (g', u)) eqn:Hu.
    + by apply map_lookup_filter_Some_2.
    + apply map_lookup_filter_None. by left.
Qed.

Lemma hand_over_ok u g w x w' :
  hand_over u g w = (Ok x, w') →
  handed u g (w_db w) (w_db w') ∧ (∀ g', g' ≠ g → same_group g' (w_db w) (w_db w')) ∧ reports (w_db w') = reports (w_db w).
Proof.
  unfold hand_over. intros H. run_inv. apply query_ok in Hrun as (fs & d & Hlock & ->).
  unfold LockGroup in Hlock. destruct (chat_groups (w_db w) !! g) as [row|] eqn:Hrow; [|done]. injection Hlock as _ <-.
  untry Hnext. apply query_cases in Hnext as [(fs1 & d & Hq & ->)|(-> & fs1 & ->)]; [|case_decide; [done|run_inv]].
  pose proof (heir_agrees (w_db w) g u row Hrow) as Hheir. change (NextAdmin g u) with (EarliestOtherMember g u) in Hheir.
  simpl in Hq. rewrite Hq in Hheir. simpl in Hheir.
  assert (d = w_db w) as -> by (unfold EarliestOtherMember in Hq; by injection Hq).
  unfold handed, ag_of. destruct (a_heir u (mk_AGroup (g_MaxMember row) (members_of (w_db w) g))) as [h|] eqn:Hh.
  all: rewrite Hheir in H.
  - apply query_ok in H as (fs2 & d & [= _ <-] & ->). simpl. split.
    + exists row. rewrite Hh. rewrite members_of_alter, decide_True by done. done.
    + split; [|done]. intros g' Hne. split; [done|]. simpl. by rewrite members_of_alter, decide_False.
  - rewrite decide_True in H by done. apply query_ok in H as (fs2 & d & Hd & ->).
    assert (d = (DeleteGroup g (w_db w)).2) as -> by (cbn [w_db with_db with_faults] in Hd; by rewrite Hd).
    cbn [w_db with_db]. split.
    + exists row. rewrite Hh, delete_group_members, decide_True by done. split; [done|]. split; [apply lookup_delete_eq|done].
    + split; [|done]. intros g' Hne. split; [by apply lookup_delete_ne|]. by rewrite delete_group_members, decide_False.
Qed.

Lemma hand_overs_ok u led w x w' :
  NoDup led → for_each led (hand_over u) w = (Ok x, w') →
  (∀ g, (g ∈ led → handed u g (w_db w) (w_db w')) ∧ (g ∉ led → same_group g (w_db w) (w_db w'))) ∧ reports (w_db w') = reports (w_db w).
Proof.
  revert w. induction led as [|g0 led IH]; intros w Hnd H; simpl in H.
  - run_inv. split; [|done]. intros g. split; [by intros ?%not_elem_of_nil|done].
  - apply NoDup_cons in Hnd as [Hg0 Hnd]. run_inv. apply hand_over_ok in Hrun as (Hh & Hother & Hrep).
    destruct (IH _ Hnd H) as [Hall Hreps]. split; [|congruence]. intros g. destruct (Hall g) as [Hin Hout]. split.
    + intros [->|Hg]%elem_of_cons.
      * destruct (Hall g0) as [_ Hout0]. eapply handed_before; [done|by apply Hout0].
      * eapply handed_after; [|by apply Hin]. apply Hother. by intros ->.
    + intros [Hne Hg]%not_elem_of_cons. eapply same_group_trans; [by apply Hother|by apply Hout].
Qed.

(** ** Deleting the row *)

Lemma length_members d g : length (members_where g (λ _ _, true) d) = size (members_of d g).
Proof.
  rewrite <- length_map_to_list. apply Permutation_length, NoDup_Permutation; [|apply NoDup_map_to_list|].
  - apply NoDup_fmap_2_strong; [|apply NoDup_select].
    intros [[g1 u1] m1] [[g2 u2] m2] [_ H1]%elem_of_select [_ H2]%elem_of_select; simpl in *.
    apply andb_true_iff in H1 as [->%bool_decide_eq_true _], H2 as [->%bool_decide_eq_true _]. by intros [= -> ->].
  - intros [u m]. rewrite elem_of_members_where, elem_of_map_to_list, lookup_members_of. naive_solver.
Qed.

Definition row_gone (u : uuid) (d : DB) : DB := (DeleteUserByID u d).2.

Lemma row_gone_ok u w x w' : query (DeleteUserByID u) w = (Ok x, w') → w_db w' = row_gone u (w_db w).
Proof. by intros (fs & d & [= _ <-] & ->)%query_ok. Qed.

Lemma delete_user_members u d g : members_of (row_gone u d) g = delete u (members_of d g).
Proof.
  apply members_of_ext. intros v. simpl. destruct (decide (v = u)) as [->|Hne].
  - rewrite lookup_delete_eq. apply map_lookup_filter_None. right. intros m _. simpl. tauto.
  - rewrite lookup_delete_ne, lookup_members_of by done. destruct (member_table d !! (g, v)) eqn:Hu.
    + by apply map_lookup_filter_Some_2.
    + apply map_lookup_filter_None. by left.
Qed.

(** The row of [g] with its members counted, if [b]. *)
Definition recounted (b : Prop) (g : uuid) (d d' : DB) : Prop :=
  members_of d' g = members_of d g ∧
  match chat_groups d !! g with
  | None => chat_groups d' !! g = None
  | Some row => ∃ row', chat_groups d' !! g = Some row' ∧ g_MaxMember row' = g_MaxMember row ∧
      (b → g_CurrentMember row' = Z.of_nat (size (members_of d g))) ∧ (¬ b → g_CurrentMember row' = g_CurrentMember row)
  end.

Lemma recount_ok g0 w x w' :
  query (RecountGroupMembers g0) w = (Ok x, w') →
  (∃ rows, w_db w' = with_chat_groups rows (w_db w)) ∧ ∀ g, recounted (g = g0) g (w_db w) (w_db w').
Proof.
  intros (fs & d & Hq & ->)%query_ok. simpl. unfold RecountGroupMembers in Hq. destruct (negb _); [done|].
  injection Hq as _ <-. split; [by eexists|]. intros g. split; [by apply members_of_table|].
  unfold update_group. cbn [chat_groups with_chat_groups]. destruct (decide (g = g0)) as [->|Hne].
  - rewrite lookup_alter_eq. destruct (chat_groups (w_db w) !! g0) as [row|] eqn:E; [|done]. simpl.
    eexists. split; [done|]. split; [done|]. split; [|done]. intros _. simpl. by rewrite length_members.
  - rewrite lookup_alter_ne by done. destruct (chat_groups (w_db w) !! g) as [row|] eqn:E; [|done]. exists row. by split_and!.
Qed.

Lemma recounts_ok l w x w' :
  for_each l (λ g, query (RecountGroupMembers g)) w = (Ok x, w') →
  (∃ rows, w_db w' = with_chat_groups rows (w_db w)) ∧ ∀ g, recounted (g ∈ l) g (w_db w) (w_db w').
Proof.
  revert w. induction l as [|g0 l IH]; intros w H; simpl in H.
  - run_inv. split; [exists (chat_groups (w_db w')); by destruct (w_db w')|]. intros g. split; [done|]. destruct (chat_groups (w_db w') !! g) as [row|] eqn:E; [|done].
    exists row. rewrite elem_of_nil. split_and!; done.
  - run_inv. apply recount_ok in Hrun as [[rows0 Hd0] H0]. apply IH in H as [[rows1 Hd1] H1].
    split; [exists rows1; by rewrite Hd1, Hd0|]. intros g.
    destruct (H0 g) as [Hm0 Hr0], (H1 g) as [Hm1 Hr1]. split; [congruence|].
    destruct (chat_groups (w_db w) !! g) as [row|].
    + destruct Hr0 as (row0 & Hrow0 & Hmax0 & Hyes0 & Hno0). rewrite Hrow0 in Hr1.
      destruct Hr1 as (row1 & Hrow1 & Hmax1 & Hyes1 & Hno1). exists row1. split; [done|]. split; [congruence|].
      rewrite Hm0 in Hyes1. split.
      * intros [->|Hg]%elem_of_cons; [|by apply Hyes1]. destruct (decide (g0 ∈ l)); [by apply Hyes1|].
        rewrite Hno1 by done. by apply Hyes0.
      * intros [Hne Hg]%not_elem_of_cons. rewrite Hno1 by done. by apply Hno0.
    + by rewrite Hr0 in Hr1.
Qed.

(** ** Leaving every group *)

(** What leaving makes of a group, of which [u] may be no member. *)
Definition without (u : uuid) (ag : AGroup) : option AGroup :=
  match ag_members ag !! u with
  | None => Some ag
  | Some _ => match a_leave u uuid_nil ag with Ok res => res | Err _ => None end
  end.

(** No row of an account's own is left in any table, and no column that refers to accounts
    names it. *)
Record forgotten (u : uuid) (d : DB) : Prop := {
  fg_user : users d !! u = None;
  fg_member g : member_table d !! (g, u) = None;
  fg_relation k r : user_relationships d !! k = Some r → rel_UserID r ≠ u ∧ rel_OtheruserID r ≠ u;
  fg_block k b : user_blocks d !! k = Some b → k.1 ≠ u ∧ k.2 ≠ u;
  fg_token k t : refresh_tokens d !! k = Some t → rt_UserID t ≠ u;
  fg_code k c : email_codes d !! k = Some c → k.1 ≠ u;
  fg_identity k i : user_identities d !! k = Some i → ui_UserID i ≠ u;
  fg_device k x : user_devices d !! k = Some x → ud_UserID x ≠ u;
  fg_message k m : message d !! k = Some m → pm_FromID m ≠ Some u ∧ pm_ToID m ≠ Some u;
  fg_group_message k m : groupmessage d !! k = Some m → gm_FromID m ≠ Some u;
  fg_reaction k : message_reactions d !! (k, u) = None;
  fg_group_reaction k : group_message_reactions d !! (k, u) = None;
  fg_group_read g : group_reads d !! (g, u) = None;
  fg_seen k : seen_messages d !! (k, u) = None;
  fg_call k c : calls d !! k = Some c → call_CallerID c ≠ Some u ∧ call_CalleeID c ≠ Some u;
  fg_avatar : user_avatars d !! u = None;
  fg_interest i : (u, i) ∉ user_interests d;
  fg_medium k m : media d !! k = Some m → md_OwnerID m ≠ Some u;
  fg_download k : (k, u) ∉ media_downloads d;
  fg_prefs : notification_prefs d !! u = None;
  fg_mute k t : chat_mutes d !! k = Some t → k.1.1 ≠ u;
  fg_action k a : admin_actions d !! k = Some a → aa_AdminID a ≠ Some u;
  fg_report k r : reports d !! k = Some r → rp_ReportedID r ≠ u ∧ rp_ReporterID r ≠ Some u ∧ rp_ResolvedBy r ≠ Some u;
}.

Lemma no_user_ne u o : no_user u o ≠ Some u.
Proof. unfold no_user. by case_decide. Qed.

Lemma none_left {A} (u : uuid) {K} `{Countable K} (k : K) (m : gmap (K * uuid) A) : filter (λ kv, kv.1.2 ≠ u) m !! (k, u) = None.
Proof. apply map_lookup_filter_None. right. intros x _ Hne. by apply Hne. Qed.
(** The columns of a table that are set to NULL. *)
Ltac cleared :=
  intros ?k ?x; rewrite lookup_fmap;
  match goal with |- _ <$> ?o = _ → _ => destruct o; [|done] end;
  simpl; intros [= <-]; simpl; split_and?; apply no_user_ne.

Lemma forgotten_row u d : forgotten u (row_gone u d).
Proof.
  split; simpl; try (intros k x [_ H]%map_lookup_filter_Some; exact H); try apply lookup_delete_eq; try (intros k; apply none_left);
    try cleared.
  - intros i Hi. by apply elem_of_filter in Hi as [Hne _].
  - intros k Hi. by apply elem_of_filter in Hi as [Hne _].
  - intros k r. rewrite lookup_fmap. destruct (filter _ (reports d) !! k) as [r0|] eqn:E; [|done].
    apply map_lookup_filter_Some in E as [_ E]. simpl. intros [= <-]. split; [exact E|]. simpl. split; apply no_user_ne.
Qed.

(** The messages copied into reports about the account go with the reports. *)
Lemma evidence_row u d k : rp_ReportedID <$> reports d !! k.1 = Some u → report_messages (row_gone u d) !! k = None.
Proof. intros Hr. apply map_lookup_filter_None. right. intros m _ Hne. by apply Hne. Qed.

Lemma evidence_groups rows d : report_messages (with_chat_groups rows d) = report_messages d.
Proof. done. Qed.
Lemma forgotten_groups u rows d : forgotten u d → forgotten u (with_chat_groups rows d).
Proof. by intros []. Qed.

Lemma groups_of_user u p d g : g ∈ groups_where u p d ↔ ∃ m, member_table d !! (g, u) = Some m ∧ p m = true.
Proof.
  unfold groups_where. rewrite list_elem_of_fmap. split.
  - intros ([[g' u'] m] & -> & Hin). apply elem_of_select in Hin as [Hm Hp].
    apply andb_true_iff in Hp as [Hu%bool_decide_eq_true Hp]. simpl in *. subst. by exists m.
  - intros (m & Hm & Hp). exists ((g, u), m). split; [done|]. apply elem_of_select. simpl. by rewrite bool_decide_true.
Qed.

Lemma groups_of_user_NoDup u p d : NoDup (groups_where u p d).
Proof.
  apply NoDup_fmap_2_strong; [|apply NoDup_select].
  intros [[g1 u1] m1] [[g2 u2] m2] [H1 P1]%elem_of_select [H2 P2]%elem_of_select; simpl in *.
  apply andb_true_iff in P1 as [->%bool_decide_eq_true _], P2 as [->%bool_decide_eq_true _]. intros ->. congruence.
Qed.

Lemma row_gone_groups u d : chat_groups (row_gone u d) = chat_groups d.
Proof. done. Qed.

#[local] Opaque row_gone.

(** The three parts of a successful deletion. *)
Lemma delete_user_parts u w p w' :
  DeleteUser u w = (Ok p, w') →
  ∃ d1, (∀ g, ((∃ m, member_table (w_db w) !! (g, u) = Some m ∧ m_Role m = RoleAdmin) → handed u g (w_db w) d1) ∧
              ((¬ ∃ m, member_table (w_db w) !! (g, u) = Some m ∧ m_Role m = RoleAdmin) → same_group g (w_db w) d1)) ∧
    reports d1 = reports (w_db w) ∧ (∃ rows, w_db w' = with_chat_groups rows (row_gone u d1)) ∧
    (∀ g, recounted (is_Some (member_table (w_db w) !! (g, u))) g (row_gone u d1) (w_db w')) ∧
    ∀ g, g ∈ p.2 ↔ is_Some (member_table (w_db w) !! (g, u)).
Proof.
  unfold DeleteUser. intros (fs & fs' & w2 & H & ->)%BeginFunc_ok. run_inv.
  apply read_ok in Hrun as (_ & fs0 & ->); [|by intros d r d' [= _ <-]].
  apply read_ok in Hrun0 as (Hgroups & fs1 & ->); [|by intros d r d' [= _ <-]].
  apply read_ok in Hrun1 as (Hled & fs2 & ->); [|by intros d r d' [= _ <-]].
  injection Hgroups as <-. injection Hled as <-. cbn [w_db with_faults fst snd] in *.
  assert (∀ g, g ∈ groups_where u (λ _, true) (w_db w) ↔ is_Some (member_table (w_db w) !! (g, u))) as Hin.
  { intros g. rewrite groups_of_user. split; [intros (m & Hm & _); by exists m|intros [m Hm]; by exists m]. }
  destruct (hand_overs_ok u _ _ _ _ (groups_of_user_NoDup u _ _) Hrun2) as [Hhand Hreports].
  exists (w_db s2). split; [|split; [exact Hreports|split; [|split; [|exact Hin]]]].
  - intros g. destruct (Hhand g) as [H1 H2]. split.
    + intros (m & Hm & Hr). apply H1, groups_of_user. exists m. by rewrite bool_decide_true.
    + intros Hno. apply H2. rewrite groups_of_user. intros (m & Hm & Hr%bool_decide_eq_true). eauto.
  - apply row_gone_ok in Hrun3 as <-. by apply recounts_ok in Hrun4 as [Hrows _].
  - apply row_gone_ok in Hrun3 as <-. apply recounts_ok in Hrun4 as [_ Hrec]. intros g.
    destruct (Hrec g) as [Hm Hr]. split; [done|]. destruct (chat_groups (w_db s3) !! g) as [row|]; [|done].
    destruct Hr as (row' & H1 & H2 & H3 & H4). exists row'. rewrite <- Hin. done.
Qed.

(** What became of group [g], of which the contract says [o]. *)
Definition group_is (o : option AGroup) (g : uuid) (d : DB) : Prop :=
  match o with
  | None => chat_groups d !! g = None ∧ members_of d g = ∅
  | Some ag => ag_ok ag ∧ members_of d g = ag_members ag ∧
      ∃ row, chat_groups d !! g = Some row ∧ g_MaxMember row = ag_max ag ∧
             g_CurrentMember row = Z.of_nat (size (ag_members ag))
  end.

(** The members of the row after it was counted. *)
Lemma group_is_counted (b : Prop) u g d1 d' row max ms :
  recounted b g (row_gone u d1) d' → chat_groups d1 !! g = Some row → g_MaxMember row = max →
  delete u (members_of d1 g) = ms → ag_ok (mk_AGroup max ms) →
  b ∨ (¬ b ∧ g_CurrentMember row = Z.of_nat (size ms)) → group_is (Some (mk_AGroup max ms)) g d'.
Proof.
  intros [Hm Hr] Hrow <- <- Hag Hb. rewrite delete_user_members in *. rewrite row_gone_groups, Hrow in Hr.
  destruct Hr as (row' & Hrow' & Hmax & Hyes & Hno). split; [done|]. split; [done|].
  exists row'. split; [done|]. split; [done|]. simpl. destruct Hb as [Hb|[Hb Hcnt]]; [by apply Hyes|].
  rewrite Hno by done. done.
Qed.

Lemma group_is_gone (b : Prop) u g d1 d' :
  recounted b g (row_gone u d1) d' → chat_groups d1 !! g = None → members_of d1 g = ∅ → group_is None g d'.
Proof.
  intros [Hm Hr] Hrow Hd. rewrite row_gone_groups, Hrow in Hr. split; [done|].
  rewrite Hm, delete_user_members, Hd. apply delete_empty.
Qed.

Lemma deletion_group u g d d1 d' :
  groups_ok d →
  ((∃ m, member_table d !! (g, u) = Some m ∧ m_Role m = RoleAdmin) → handed u g d d1) ∧
  ((¬ ∃ m, member_table d !! (g, u) = Some m ∧ m_Role m = RoleAdmin) → same_group g d d1) →
  recounted (is_Some (member_table d !! (g, u))) g (row_gone u d1) d' →
  group_is (abs d g ≫= without u) g d'.
Proof.
  intros Hok [Hadm Hnot] Hrec. unfold abs. destruct (chat_groups d !! g) as [row|] eqn:Hrow; simpl.
  2: { assert (members_of d g = ∅) as He by (by apply members_of_none).
    destruct Hnot as [H1 H2].
    { intros (m & Hm & _). rewrite <- lookup_members_of, He, lookup_empty in Hm. done. }
    eapply group_is_gone; [done|by rewrite H1|by rewrite H2]. }
  destruct (groups_ok_row _ _ _ Hok Hrow) as [Hag Hcnt]. unfold without, a_leave. simpl.
  rewrite lookup_members_of. destruct (member_table d !! (g, u)) as [m|] eqn:Hm; simpl.
  - case_decide as Hr; simpl.
    + destruct (Hadm (ex_intro _ m (conj eq_refl Hr))) as (row0 & Hrow0 & Hh). rewrite Hrow in Hrow0. injection Hrow0 as <-.
      unfold ag_of in Hh. destruct (a_heir u _) as [h|] eqn:Hheir.
      * destruct Hh as [Hrow1 Hmem1]. destruct (heir_other _ _ _ Hheir) as [Hne Hin]. simpl in Hin.
        eapply group_is_counted; [done|done|done| | |by left].
        -- rewrite Hmem1. reflexivity.
        -- apply (ag_ok_handover u h _ Hag); simpl; try done; [|by rewrite lookup_members_of, Hm; eauto].
           intros m' Hm'. rewrite lookup_members_of, Hm in Hm'. congruence.
      * destruct Hh as [Hrow1 Hmem1]. by eapply group_is_gone.
    + destruct Hnot as [H1 H2]; [intros (m' & [= <-] & Hr'); done|].
      eapply group_is_counted; [done|by rewrite H1|done|by rewrite H2| |by left].
      apply (ag_ok_remove u _ Hag). intros m' Hm'. simpl in Hm'. rewrite lookup_members_of, Hm in Hm'. congruence.
  - destruct Hnot as [H1 H2]; [by intros (m' & Hm' & _)|].
    assert (delete u (members_of d g) = members_of d g) as Hdel by (apply delete_id; by rewrite lookup_members_of).
    eapply group_is_counted; [done|by rewrite H1|done|by rewrite H2, Hdel|done|].
    right. split; [intros [? ?]; done|done].
Qed.

(** C23. Deleting an account leaves every group as the account's leaving it would: the
    members are those left, an admin's group goes to the heir that leaving names, a
    group without another member is gone, every group stays well-formed with a right
    count, groups it was not in do not change.  No row of the account's own remains in any
    table, no column that refers to accounts names it, and the evidence of reports about it
    is gone.  What keeps its id are the columns without a reference: the target of an
    admin's action, the sender of a message copied into a report about someone else, and
    the other side of another person's mute, upload or read marker. *)
Theorem deletion_leaves_groups u w p w' :
  groups_ok (w_db w) → DeleteUser u w = (Ok p, w') →
  groups_ok (w_db w') ∧ (∀ g, abs (w_db w') g = abs (w_db w) g ≫= without u) ∧ forgotten u (w_db w') ∧
  (∀ k, rp_ReportedID <$> reports (w_db w) !! k.1 = Some u → report_messages (w_db w') !! k = None).
Proof.
  intros Hok (d1 & Hhand & Hreports & (rows & Hrows) & Hrec & _)%delete_user_parts.
  assert (∀ g, group_is (abs (w_db w) g ≫= without u) g (w_db w')) as Hg by (intros g; by eapply deletion_group).
  split; [|split; [|split]].
  - split.
    + intros g row Hrow. specialize (Hg g). destruct (abs (w_db w) g ≫= without u) as [ag|]; simpl in Hg.
      * destruct Hg as (Hag & Hm & row' & Hrow' & Hmax & Hcnt). rewrite Hrow in Hrow'. injection Hrow' as <-.
        rewrite Hmax, Hm. destruct ag. done.
      * destruct Hg as [Hg _]. congruence.
    + intros g v [m Hm]. specialize (Hg g). rewrite <- lookup_members_of in Hm.
      destruct (abs (w_db w) g ≫= without u) as [ag|]; simpl in Hg.
      * destruct Hg as (_ & _ & row' & Hrow' & _). eauto.
      * destruct Hg as [_ Hg]. by rewrite Hg, lookup_empty in Hm.
  - intros g. specialize (Hg g). unfold abs at 1. destruct (abs (w_db w) g ≫= without u) as [ag|]; simpl in Hg.
    + destruct Hg as (_ & -> & row' & -> & -> & _). by destruct ag.
    + by destruct Hg as [-> _].
  - rewrite Hrows. apply forgotten_groups, forgotten_row.
  - intros k Hk. rewrite Hrows, evidence_groups. apply evidence_row. rewrite Hreports. exact Hk.
Qed.
