(* ===== verification/Demo_Auth.v ===== *)
(** * Demo_Auth: accounts at work

    Concrete libraries (a token is the digits of what was signed; a password's hash is
    the password with a mark) that satisfy the laws, a small database with accounts,
    and the theorems on accounts at concrete requests. *)

From Stdlib Require Import Strings.Ascii.
From S2P Require Import Prelude GoLib Sha256 Types Users_Model Revoke Db Versioned Groups_Model Sql_Friends Sql_Users Sql_Accounts World Moves Secure Users_Repo Users_Service Users_Props Friends_Service Sessions Auth_Session Auth_Accounts Auth_Rules Groups_Repo Groups_Refine Groups_Props Auth_Deletion Demo.

#[local] Open Scope Z_scope.

(** ** The libraries *)

#[local] Instance demo_argon : Argon := {|
  CreateHash p _ := Ok ("#" +:+ p)%string;
  ComparePasswordAndHash p h := Ok (bool_decide (h = "#" +:+ p)%string);
|}.

#[local] Instance demo_argon_laws : ArgonLaws demo_argon.
Proof. split; simpl; intros p _ h [= <-]; [by rewrite bool_decide_true|done]. Qed.

#[local] Instance demo_lower : GoLower := {| ToLower s := s |}.
#[local] Instance demo_mail : MailParse := {| ParseAddress s := if ContainsAny s "@" then Some s else None |}.

(** What is signed: the secret and the claims, as a list of texts. *)
Definition some_text (o : option string) : string := match o with Some s => String "+"%char s | None => EmptyString end.
Definition text_some (s : string) : option string := match s with String _ s => Some s | EmptyString => None end.

Definition pack (secret : string) (c : Claims) : list string :=
  let date (d : option Z) := some_text ((λ t, pos_digits (encode t)) <$> d) in
  [secret; some_text (cl_iss c); some_text (cl_sub c); some_text (cl_aud c); some_text (cl_email c);
   date (cl_exp c); date (cl_iat c)].

Definition unpack (s : list string) : option (string * Claims) :=
  let date (s : string) := t ← text_some s; digits_pos t ≫= decode (A := Z) in
  match s with
  | [secret; iss; sub; aud; email; e; i] =>
    Some (secret, mk_Claims (text_some iss) (text_some sub) (text_some aud) (text_some email) (date e) (date i))
  | _ => None
  end.

Lemma unpack_pack secret c : unpack (pack secret c) = Some (secret, c).
Proof.
  assert (∀ o, text_some (some_text o) = o) as Ht by by intros [].
  assert (∀ z : Z, digits_pos (pos_digits (encode z)) ≫= decode (A := Z) = Some z) as Hz.
  { intros z. rewrite digits_pos_digits. simpl. apply decode_encode. }
  destruct c as [iss sub aud em [e|] [i|]]; unfold unpack, pack; rewrite !Ht; cbn -[digits_pos pos_digits encode decode]; by rewrite ?Hz.
Qed.

Definition open_token (tok : string) : option (string * Claims) :=
  p ← digits_pos tok; l ← decode (A := list string) p; unpack l.

Lemma open_signed secret c : open_token (pos_digits (encode (pack secret c))) = Some (secret, c).
Proof. unfold open_token. rewrite digits_pos_digits. simpl. rewrite decode_encode. apply unpack_pack. Qed.

Definition asked {A} `{EqDecision A} (o has : option A) : bool :=
  match o with Some _ => bool_decide (has = o) | None => true end.

Definition demo_parse (tok : string) (key : SigningMethod → result string) (o : ParserOptions) (now : time) : result Claims :=
  match open_token tok with
  | None => Err (ErrNew "jwt" "token is malformed")
  | Some (secret, c) =>
    match cl_exp c with
    | None => Err (ErrNew "jwt" "token is missing required claim")
    | Some e =>
      if e <=? now then Err ErrTokenExpired
      else if bool_decide (key (HMAC "HS256") = Ok secret) && asked (po_issuer o) (cl_iss c) && asked (po_audience o) (cl_aud c)
      then Ok c else Err (ErrNew "jwt" "token is invalid")
    end
  end.

#[local] Instance demo_jwt : JwtLib := {|
  jwt_sign secret c := Ok (pos_digits (encode (pack secret c)));
  jwt_parse := demo_parse;
|}.

Lemma asks_asked {A} `{EqDecision A} (o has : option A) : asks o has ↔ asked o has = true.
Proof. unfold asks, asked. destruct o; [by rewrite bool_decide_eq_true|done]. Qed.

Lemma date_read_same d : date_read d d.
Proof. destruct d; simpl; [unfold millisecond; lia|done]. Qed.

Lemma claims_read_same c : claims_read c c.
Proof. split; try done; apply date_read_same. Qed.

#[local] Instance demo_jwt_laws : JwtLaws demo_jwt.
Proof.
  split; simpl; unfold demo_parse.
  - intros secret c tok key o now e [= <-] Hk _ Hi Ha He Hlt. rewrite open_signed. destruct c as [iss sub aud em ex iat]. simpl in *.
    rewrite He. assert ((e <=? now) = false) as -> by (apply Z.leb_gt; unfold millisecond in Hlt; lia).
    rewrite bool_decide_true by done. apply asks_asked in Hi, Ha. rewrite Hi, Ha. simpl. eexists. split; [done|]. subst.
    apply claims_read_same.
  - intros secret c tok key o now c' [= <-] H. rewrite open_signed in H. destruct c as [iss sub aud em ex iat]. simpl in *.
    destruct ex as [e|]; [|done]. destruct (e <=? now) eqn:Hlt; [done|]. case_bool_decide; [|done].
    destruct (asked (po_issuer o) iss) eqn:Hi; [|done]. destruct (asked (po_audience o) aud) eqn:Ha; [|done].
    injection H as <-. split; [apply claims_read_same|]. rewrite !asks_asked. split_and!; [done|done|].
    exists e. apply Z.leb_gt in Hlt. done.
Qed.

(** Google vouches for whoever is named in the token. *)
#[local] Instance demo_google : IdToken := {| idtoken_Validate tok aud := Ok (mk_IdPayload tok (Some tok) (Some true)) |}.

#[local] Instance demo_config : AuthConfig := {|
  cfg_JWTSecret := "secret"; cfg_AccessTokenTTL := 0; cfg_RefreshTokenTTL := 0; cfg_GoogleClientIDs := ["client"] |}.

(** ** Accounts: alice has a password, bob never confirmed his address, carol has no
    password *)

Definition accounts_db : DB :=
  with_users (list_to_map [
    (alice, set_password (Some "#open$sesame") 0 (demo_user "alice"));
    (bob, set_email "bob@example.com" None 0 (set_password (Some "#guess$me!") 0 (demo_user "bob")));
    (carol, demo_user "carol")]) demo_db.

Definition accounts : World := with_rand [[0; 1; 2]; [0; 1; 3]; [0; 1; 4]; [0; 1; 5]; [0; 1; 6]] (demo_world accounts_db).

Definition alice_token : string := hex_of [0; 1; 2].
Definition logged_in : World := (Login "alice@example.com" "open$sesame" accounts).2.

Lemma not_drawn_check t w :
  forallb (λ buf, negb (bool_decide (hashToken (hex_of buf) = hashToken t))) (w_rand w) = true → not_drawn t w.
Proof.
  intros H buf Hb. apply list_elem_of_In in Hb. rewrite forallb_forall in H. specialize (H buf Hb).
  by apply negb_true_iff, bool_decide_eq_false in H.
Qed.

Ltac run_auth := vm_compute; reflexivity.

(** The password of another account does not do. *)
Example wrong_password : (Login "bob@example.com" "open$sesame" accounts).1 = Err ErrInvalidCredentials.
Proof. run_auth. Qed.
Example unverified : (Login "bob@example.com" "guess$me!" accounts).1 = Err ErrEmailNotVerified.
Proof. run_auth. Qed.

Lemma refresh_token_works_once_witness :
  ∃ a w', Refresh alice_token logged_in = (Ok a, w') ∧
    ((Refresh alice_token (serve_all [ReqLogin "alice@example.com" "open$sesame"; ReqRefresh alice_token] w')).1 = Err ErrNotAuthorized ∨
     (Refresh alice_token (serve_all [ReqLogin "alice@example.com" "open$sesame"; ReqRefresh alice_token] w')).1 = Err ErrInfra).
Proof.
  do 2 eexists. split; [run_auth|].
  eapply (refresh_token_works_once alice_token logged_in); [left; run_auth|apply not_drawn_check; run_auth].
Defined.

Lemma sessions_are_earned_witness :
  ∃ w', serve (ReqLogin "alice@example.com" "open$sesame") accounts = (Ok (Some alice_token), w') ∧
    ∃ u, proved (ReqLogin "alice@example.com" "open$sesame") u accounts ∧ opened u alice_token w'.
Proof.
  eexists. split; [run_auth|]. eapply (sessions_are_earned (ReqLogin "alice@example.com" "open$sesame") accounts). run_auth.
Defined.

(** Bob asks for a code (it is 000259), and guesses. *)
Definition code_sent : World := (ResendVerification "bob@example.com" accounts).2.
Definition bob_code : option EmailCode := email_codes (w_db code_sent) !! ((bob, purposeVerify) : uuid * string).

Example bob_gets_in :
  is_ok (VerifyEmail "bob@example.com" " 000258 " code_sent).1 = true ∧
  (VerifyEmail "bob@example.com" "000259" code_sent).1 = Err ErrInvalidCode.
Proof. split; run_auth. Qed.

Lemma code_guesses_bounded_witness :
  ∃ c, bob_code = Some c ∧ guesses bob purposeVerify ["1"; "2"; "000258"; "000258"] code_sent !! 2%nat = Some true ∧
    (Z.of_nat 2 < codeMaxAttempts - ec_Attempts c ∧
     (∃ g, ["1"; "2"; "000258"; "000258"] !! 2%nat = Some g ∧ code_right bob purposeVerify g (w_now code_sent) c) ∧
     ∀ j, guesses bob purposeVerify ["1"; "2"; "000258"; "000258"] code_sent !! j = Some true → j = 2%nat).
Proof.
  eexists. split; [run_auth|]. split; [run_auth|].
  apply (code_guesses_bounded bob purposeVerify ["1"; "2"; "000258"; "000258"] code_sent);
    [reflexivity|run_auth|vm_compute; split; [discriminate|reflexivity]|run_auth].
Defined.

(** Six guesses, the last one right: too late. *)
Example sixth_guess : guesses bob purposeVerify ["1"; "2"; "3"; "4"; "5"; "000258"] code_sent = [false; false; false; false; false; false].
Proof. run_auth. Qed.

(** Redis and PostgreSQL failing: a deletion that fails leaves the code alive. *)
Theorem failed_deletion_keeps_code :
  let w := (checkCode bob purposeVerify "5" (with_faults [false; false; true]
              (foldl (λ w g, (checkCode bob purposeVerify g w).2) code_sent ["1"; "2"; "3"; "4"]))).2 in
  is_ok (checkCode bob purposeVerify "000258" w).1 = true.
Proof. run_auth. Qed.

(** Alice changes her password. *)
Definition changed : World := (UpdatePassword_ alice "open$sesame" "new$$sesame" logged_in).2.

Lemma signed_out_everywhere_witness :
  ∃ w', serve (ReqUpdatePassword alice "open$sesame" "new$$sesame") logged_in = (Ok None, w') ∧
    ∃ u, signs_out (ReqUpdatePassword alice "open$sesame" "new$$sesame") u logged_in ∧ signed_out u logged_in w'.
Proof.
  eexists. split; [run_auth|].
  eapply (signed_out_everywhere (ReqUpdatePassword alice "open$sesame" "new$$sesame") logged_in None); [reflexivity|run_auth].
Defined.

Definition alice_access : string :=
  match (MakeJWT alice cfg_JWTSecret accessTTL logged_in).1 with Ok tok => tok | Err _ => EmptyString end.

(** Her access token is accepted, until she signs out everywhere. *)
Example access_accepted : (Authenticate ("Bearer " +:+ alice_access)%string logged_in).1 = Ok (Some alice).
Proof. run_auth. Qed.

Definition logged_out : World := (LogoutAll alice logged_in).2.

Lemma old_access_tokens_refused_witness :
  (Authenticate ("Bearer " +:+ alice_access)%string (with_now (logged_in.(w_now) + minute) logged_out)).1 = Ok None ∨
  ∃ fs, w_faults logged_out = true :: fs.
Proof.
  apply (old_access_tokens_refused demo_jwt_laws demo_uuid_laws alice logged_in alice_access logged_in logged_in).
  - run_auth.
  - done.
  - apply (end_sessions_ok alice logged_in tt). run_auth.
  - vm_compute. discriminate.
  - run_auth.
Defined.

Lemma tokens_do_not_cross_witness :
  ∃ tok w', MakeJWT alice "secret" hour accounts = (Ok tok, w') ∧
    ((minute < w_now accounts + hour - 2 * millisecond →
       ∃ i, ValidateJWTIssued tok "secret" minute = Ok (alice, Some i) ∧
            w_now accounts - 2 * millisecond < i <= w_now accounts) ∧
     (w_now accounts + hour <= minute → is_ok (ValidateJWTIssued tok "secret" minute) = false) ∧
     ValidateAdminJWT tok "secret" minute = Err ErrInvalidToken).
Proof.
  do 2 eexists. split; [run_auth|].
  eapply (proj1 (tokens_do_not_cross alice "secret" hour accounts _ accounts minute)). run_auth.
Defined.

(** ** Profiles *)

#[local] Instance demo_order : Collation := {| name_le a b := negb (string_gt a b) |}.

Lemma users_ok_check d :
  forallb (λ p : uuid * User, bool_decide (user_columns_ok p.1 p.2 d = None)) (map_to_list (users d)) = true → users_ok d.
Proof.
  intros H id u Hu%elem_of_map_to_list. rewrite forallb_forall in H.
  by apply (bool_decide_eq_true_1 _), (H (id, u)), list_elem_of_In.
Qed.

Definition take_bob : UpdateProfileRequest := mk_UpdateProfileRequest (Some " bob ") (Some "Al") None None None (Some true).

Example bob_is_taken : (UpdateProfile [ForgetNames] alice take_bob accounts).1 = Err ErrDuplicateName.
Proof. run_auth. Qed.

Lemma profile_errors_documented_witness :
  ∃ r w', UpdateProfile [ForgetNames] alice take_bob accounts = (r, w') ∧
    (users_ok (w_db w') ∧ is_Some (users (w_db w') !! alice) ∧ match r with Ok _ => True | Err e => documented e end).
Proof.
  do 2 eexists. split; [run_auth|].
  eapply (profile_errors_documented alice take_bob accounts); [run_auth|apply users_ok_check; run_auth|].
  by eexists.
Defined.

(** ** Deleting an account *)

Lemma deletion_leaves_groups_witness :
  ∃ p w', DeleteUser alice accounts = (Ok p, w') ∧
    (groups_ok (w_db w') ∧ (∀ g, abs (w_db w') g = abs (w_db accounts) g ≫= without alice) ∧ forgotten alice (w_db w') ∧
      (∀ k, rp_ReportedID <$> reports (w_db accounts) !! k.1 = Some alice → report_messages (w_db w') !! k = None)).
Proof.
  do 2 eexists. split; [run_auth|]. eapply (deletion_leaves_groups alice accounts); [|run_auth].
  exact (proj1 (conj demo_groups_ok I)).
Defined.

(** Bob inherits alice's group. *)
Example bob_inherits : m_Role <$> member_table (w_db (DeleteUser alice accounts).2) !! ((team, bob) : uuid * uuid) = Some RoleAdmin.
Proof. run_auth. Qed.

(** The groups an account leads are read before they are locked: between the two, alice
    hands the group to carol, and the deletion promotes bob as well. *)
Theorem handover_races_deletion :
  let led := groups_where alice (λ m, bool_decide (m_Role m = RoleAdmin)) (w_db accounts) in
  let transferred := (run_op team (OpTransfer alice carol) accounts).2 in
  let w := (query (DeleteUserByID alice) (for_each led (hand_over alice) transferred).2).2 in
  (λ m, m_Role m) <$> member_table (w_db w) !! ((team, carol) : uuid * uuid) = Some RoleAdmin ∧
  (λ m, m_Role m) <$> member_table (w_db w) !! ((team, bob) : uuid * uuid) = Some RoleAdmin.
Proof. split; run_auth. Qed.

(** ** What the modelling showed *)

(** Reading a refresh token, revoking it and issuing the next are separate statements:
    of two requests that both read the token before either revokes it, both get a
    session.  Here the second runs between the first one's read and the rest. *)
Theorem concurrent_refreshes_both_succeed :
  let second := Refresh alice_token logged_in in
  let first := (RevokeToken alice_token ;; issue alice) second.2 in
  (rt ← GetRefreshToken_ alice_token; mret (rt_UserID rt)) logged_in = (Ok alice, logged_in) ∧
  is_ok second.1 = true ∧ is_ok first.1 = true.
Proof. split; [|split]; run_auth. Qed.

(** With a username that is taken, registering answers differently for an address that
    has an account and for one that has not. *)
Theorem register_tells_addresses_apart :
  (Register_ "alice" "alice@example.com" "open$sesame" accounts).1 = Ok tt ∧
  (Register_ "alice" "nobody@example.com" "open$sesame" accounts).1 = Err ErrDuplicateName.
Proof. split; run_auth. Qed.

(** A code whose mail could not be sent counts as sent: asked again at once, as the
    error says to, the service answers that all is well and sends nothing. *)
Theorem unsent_code_is_not_resent :
  let failed := ResendVerification "bob@example.com" (with_faults [false; false; false; true] accounts) in
  failed.1 = Err ErrMailUnavailable ∧ w_log failed.2 = [] ∧
  (ResendVerification "bob@example.com" failed.2).1 = Ok tt ∧ w_log (ResendVerification "bob@example.com" failed.2).2 = [].
Proof. split_and!; run_auth. Qed.

(** Signing in with Google to an unverified account revokes its access tokens and issues
    a new one; issued in the same millisecond, that one is refused too. *)
Theorem google_session_refused :
  let r := Google "bob@example.com" accounts in
  match r.1 with
  | Ok g => match gr_Session g with
            | Some s => (Authenticate ("Bearer " +:+ se_AccessToken s)%string r.2).1 = Ok None
            | None => False
            end
  | Err _ => False
  end.
Proof. run_auth. Qed.
