(* ===== verification/Sql_Calls.v ===== *)
(** * Sql_Calls: the statements of the call log (src/internal/database/calls.sql.go)

    With the constraints of src/sql/schema/044_calls.sql. *)

From S2P Require Import Prelude GoLib Db Sql_Chat.

#[local] Open Scope Z_scope.

Definition with_call (id : uuid) (c : Call) (d : DB) : DB := with_calls (<[id := c]> (calls d)) d.

Definition call_states : list string :=
  ["ringing"; "active"; "ended"; "missed"; "declined"; "cancelled"; "busy"; "failed"].

(** caller_id = me OR callee_id = me *)
Definition is_party (me : uuid) (c : Call) : bool :=
  bool_decide (call_CallerID c = Some me) || bool_decide (call_CalleeID c = Some me).

Definition InsertCall (id : uuid) (caller callee : option uuid) (state : string) (startedAt : time)
    (endedAt : option time) (endReason : option string) : M DB unit := λ d,
  if negb (bool_decide (state ∈ call_states)) then (Err (check_violation "calls_state_check"), d)
  else match calls d !! id with
  | Some _ => (Err (unique_violation "calls_pkey"), d)
  | None =>
    if negb (fk_ok (users d) caller) then (Err (foreign_key_violation "calls_caller_id_fkey"), d)
    else if negb (fk_ok (users d) callee) then (Err (foreign_key_violation "calls_callee_id_fkey"), d)
    else (Ok tt, with_call id (mk_Call caller callee state endReason startedAt None endedAt) d)
  end.

Definition AnswerCall (at_ : time) (id : uuid) : M DB unit := λ d,
  match calls d !! id with
  | Some c =>
    if decide (call_State c = "ringing")
    then (Ok tt, with_call id (mk_Call (call_CallerID c) (call_CalleeID c) "active" (call_EndReason c) (call_StartedAt c)
                                 (Some at_) (call_EndedAt c)) d)
    else (Ok tt, d)
  | None => (Ok tt, d)
  end.

(** ::bigint of a number of seconds: to the nearest, halves away from zero. *)
Definition round_seconds (ns : Z) : Z :=
  if 0 <=? ns then (2 * ns + second) / (2 * second) else - ((2 * - ns + second) / (2 * second)).

Definition sum_Z (l : list Z) : Z := foldr Z.add 0 l.

(** EXTRACT(EPOCH FROM (COALESCE(ended_at, now) - GREATEST(answered_at, since))),
    summed over the user's answered calls that reach past [since]. *)
Definition CallSecondsSince (userID : uuid) (since now : time) : M DB Z := λ d,
  let talked (r : uuid * Call) : option Z :=
    answered ← call_AnsweredAt r.2;
    Some (default now (call_EndedAt r.2) - Z.max answered since) in
  let rows := select (λ _ c, is_party userID c && bool_decide (is_Some (call_AnsweredAt c)) &&
                             (since <? default now (call_EndedAt c))) (calls d) in
  (Ok (round_seconds (sum_Z (omap talked rows))), d).

Definition CallStartedAt (id me : uuid) : M DB time := λ d,
  match calls d !! id with
  | Some c => if is_party me c then (Ok (call_StartedAt c), d) else (Err ErrNoRows, d)
  | None => (Err ErrNoRows, d)
  end.

Definition FinishCall (state : string) (endReason : option string) (at_ : time) (id : uuid) : M DB unit := λ d,
  match calls d !! id with
  | Some c =>
    if bool_decide (is_Some (call_EndedAt c)) then (Ok tt, d)
    else if negb (bool_decide (state ∈ call_states)) then (Err (check_violation "calls_state_check"), d)
    else (Ok tt, with_call id (mk_Call (call_CallerID c) (call_CalleeID c) state endReason (call_StartedAt c)
                                 (call_AnsweredAt c) (Some at_)) d)
  | None => (Ok tt, d)
  end.

Definition InterruptOpenCalls (at_ : time) : M DB Z := λ d,
  let close (c : Call) : Call :=
    if bool_decide (is_Some (call_EndedAt c)) then c
    else mk_Call (call_CallerID c) (call_CalleeID c) (if bool_decide (call_AnsweredAt c = None) then "failed" else "ended")
           (Some "interrupted") (call_StartedAt c) (call_AnsweredAt c) (Some at_) in
  (Ok (Z.of_nat (length (select (λ _ c, bool_decide (call_EndedAt c = None)) (calls d)))),
   with_calls (close <$> calls d) d).

Record ListCallsRow := mk_ListCallsRow {
  lc_ID : uuid;
  lc_Call : Call;
  lc_Peer : option (uuid * User);   (* LEFT JOIN users *)
}.

(** The other side of the call: an id, or NULL. *)
Definition peer_of (me : uuid) (c : Call) : option uuid :=
  if bool_decide (call_CallerID c = Some me) then call_CalleeID c else call_CallerID c.

Definition call_key (r : ListCallsRow) : time * uuid := (call_StartedAt (lc_Call r), lc_ID r).

Definition ListCalls (me : uuid) (before : option (time * uuid)) (lim : Z) : M DB (list ListCallsRow) := λ d,
  let row (r : uuid * Call) : ListCallsRow :=
    mk_ListCallsRow r.1 r.2 (p ← peer_of me r.2; (λ u, (p, u)) <$> users d !! p) in
  let mine := select (λ id c, is_party me c &&
                match before with Some b => row_lt (call_StartedAt c, id) b | None => true end) (calls d) in
  (Ok (limit lim (order_by (newest_id call_key) (row <$> mine))), d).

Definition PurgeOldCalls (before : time) : M DB Z := λ d,
  let keep := filter (λ kv : uuid * Call, before ≤ call_StartedAt kv.2) (calls d) in
  (Ok (Z.of_nat (size (calls d)) - Z.of_nat (size keep)), with_calls keep d).
