(* ===== verification/Calls.v ===== *)
(** * Calls: the call manager (src/internal/calls/calls.go)

    The calls in memory, their timers, and the handlers as goroutines (Threads):
    a critical section of [m.mu] is one action, and so is a call to the friends,
    the call log or the hub.  A [*call] is an address of [m_heap]; [m_calls] and
    [m_byUser] hold addresses.  [m_timers] holds the timers that are set: Stop
    removes one, and one that fires is removed and starts the goroutine that ends
    its call. *)

From S2P Require Import Prelude GoLib Threads Types Db Sql_Calls World.

#[local] Open Scope Z_scope.

Definition EvStart : string := "CallStart".
Definition EvAccept : string := "CallAccept".
Definition EvSignal : string := "CallSignal".
Definition EvDecline : string := "CallDecline".
Definition EvEnd : string := "CallEnd".

Definition EvRinging : string := "CallRinging".
Definition EvIncoming : string := "CallIncoming".
Definition EvAccepted : string := "CallAccepted".
Definition EvEnded : string := "CallEnded".
Definition EvError : string := "CallError".
Definition EvResumed : string := "CallResumed".

Definition ReasonEnded : string := "ended".
Definition ReasonMissed : string := "missed".
Definition ReasonDeclined : string := "declined".
Definition ReasonCancelled : string := "cancelled".
Definition ReasonBusy : string := "busy".
Definition ReasonDisconnected : string := "disconnected".
Definition ReasonElsewhere : string := "answered_elsewhere".
Definition ReasonUnfriended : string := "unfriended".
Definition ReasonLimit : string := "daily_limit".

(** Codes of CallError, not Go errors. *)
Definition CodeNotFriends : string := "not_friends".
Definition CodeInCall : string := "already_in_a_call".
Definition CodeRateLimited : string := "rate_limited".
Definition CodeUnknownCall : string := "unknown_call".
Definition CodeBadRequest : string := "bad_request".
Definition CodeUnavailable : string := "unavailable".
Definition CodeDailyLimit : string := "daily_limit".

Definition RingTimeout : duration := 45 * second.
Definition ReconnectGrace : duration := 30 * second.
Definition MaxDuration : duration := 4 * hour.
Definition maxSignalBytes : Z := 16 * 1024.
Definition maxSignals : Z := 500.
Definition startsPerMinute : Z := 10.

(** ** State *)

Record call := mk_call {
  c_id : uuid;
  c_caller : uuid;
  c_callee : uuid;
  c_callerConn : uuid;
  c_calleeConn : uuid;
  c_active : bool;
  c_started : time;
  c_answered : time;
  c_timer : nat;
  c_lost : gmap uuid nat;
  c_signals : gmap uuid Z;
}.

(** A timer that is set: when, for when, and what [m.end] it will call. *)
Record timer := mk_timer { tm_set : time; tm_due : time; tm_call : uuid; tm_reason : string }.

Record Manager := mk_Manager {
  m_heap : gmap nat call;
  m_next : nat;
  m_timers : gmap nat timer;
  m_nextTimer : nat;
  m_calls : gmap uuid nat;
  m_byUser : gmap uuid nat;
  m_starts : gmap uuid (list time);
}.

Definition NewManager : Manager := mk_Manager ∅ 0 ∅ 0 ∅ ∅ ∅.

Definition put_call (a : nat) (c : call) (m : Manager) : Manager :=
  mk_Manager (<[a := c]> (m_heap m)) (m_next m) (m_timers m) (m_nextTimer m) (m_calls m) (m_byUser m) (m_starts m).
Definition with_starts (x : gmap uuid (list time)) (m : Manager) : Manager :=
  mk_Manager (m_heap m) (m_next m) (m_timers m) (m_nextTimer m) (m_calls m) (m_byUser m) x.
Definition with_timers (x : gmap nat timer) (m : Manager) : Manager :=
  mk_Manager (m_heap m) (m_next m) x (m_nextTimer m) (m_calls m) (m_byUser m) (m_starts m).

(** [time.AfterFunc(d, func() { m.end(..., id, reason) })] *)
Definition AfterFunc (now : time) (d : duration) (id : uuid) (reason : string) (m : Manager) : nat * Manager :=
  (m_nextTimer m,
   mk_Manager (m_heap m) (m_next m) (<[m_nextTimer m := mk_timer now (now + d) id reason]> (m_timers m))
     (S (m_nextTimer m)) (m_calls m) (m_byUser m) (m_starts m)).

Definition Stop (t : nat) (m : Manager) : Manager := with_timers (delete t (m_timers m)) m.

(** [m.calls[id]] and [m.byUser[u]], followed. *)
Definition calls_get (id : uuid) (m : Manager) : option (nat * call) :=
  a ← m_calls m !! id; c ← m_heap m !! a; Some (a, c).
Definition byUser_get (u : uuid) (m : Manager) : option (nat * call) :=
  a ← m_byUser m !! u; c ← m_heap m !! a; Some (a, c).

Definition peer (c : call) (u : uuid) : uuid := if decide (u = c_caller c) then c_callee c else c_caller c.
Definition conn (c : call) (u : uuid) : uuid := if decide (u = c_caller c) then c_callerConn c else c_calleeConn c.

(** [from.User != c.caller && from.User != c.callee], negated. *)
Definition party (c : call) (u : uuid) : bool := bool_decide (u = c_caller c) || bool_decide (u = c_callee c).

(** What the handlers share: the rest of the process, the calls, and how many ids
    uuid.NewV7 has given out. *)
Record CallWorld := mk_CallWorld { cw_world : World; cw_mgr : Manager; cw_ids : nat }.

Definition on_world {A} (m : M World A) : CallWorld → result A * CallWorld := λ s,
  let '(r, w) := m (cw_world s) in (r, mk_CallWorld w (cw_mgr s) (cw_ids s)).
Definition locked {A} (f : Manager → A * Manager) : CallWorld → A * CallWorld := λ s,
  let '(a, m) := f (cw_mgr s) in (a, mk_CallWorld (cw_world s) m (cw_ids s)).
Definition clock : CallWorld → time * CallWorld := λ s, (w_now (cw_world s), s).

(** The ids of uuid.NewV7, in the order they are given out: all different and
    none zero (RFC 9562).  crypto/rand does not fail, so neither does NewV7. *)
Class FreshIds := {
  v7 : nat → uuid;
  v7_inj : Inj (=) (=) v7;
  v7_not_nil n : v7 n ≠ uuid_nil;
}.
Definition newID `{FreshIds} : CallWorld → uuid * CallWorld := λ s,
  (v7 (cw_ids s), mk_CallWorld (cw_world s) (cw_mgr s) (S (cw_ids s))).

(** The options of the manager, and what it is given. *)
Class ManagerConfig := { cm_ring : duration; cm_grace : duration; cm_daily : duration; cm_notify : bool }.
Class CallFriends := { cf_AreFriends : uuid → uuid → M World bool }.

Record idPayload := mk_idPayload { ip_ToID : uuid; ip_CallID : uuid; ip_Data : string }.

(** encoding/json on what a client sends. *)
Class CallJson := {
  unmarshal_idPayload : string → option idPayload;
  json_Valid : string → bool;
}.

Definition len (s : string) : Z := Z.of_nat (length (bytes_of s)).

(** ** Critical sections *)

(** The filter of [allowStart] keeps the order; it writes behind where it reads. *)
Definition allowStart (u : uuid) (now : time) (m : Manager) : bool * Manager :=
  let recent := List.filter (λ t, now - t <? minute) (default [] (m_starts m !! u)) in
  if Z.of_nat (length recent) >=? startsPerMinute then (false, with_starts (<[u := recent]> (m_starts m)) m)
  else
    let starts := <[u := recent ++ [now]]> (m_starts m) in
    (true, with_starts (if Z.of_nat (size starts) >? 100000 then ∅ else starts) m).

Inductive started := Limited | InCall | Busy | Rings.

Definition start_locked `{ManagerConfig} (id : uuid) (from : Conn) (to : uuid) (now : time) :
    CallWorld → started * CallWorld := λ s,
  let back m := mk_CallWorld (cw_world s) m (cw_ids s) in
  let '(ok, m) := allowStart (conn_User from) now (cw_mgr s) in
  if negb ok then (Limited, back m)
  else if bool_decide (is_Some (m_byUser m !! conn_User from)) then (InCall, back m)
  else if bool_decide (is_Some (m_byUser m !! to)) then (Busy, back m)
  else
    let '(t, m) := AfterFunc (w_now (cw_world s)) cm_ring id ReasonMissed m in
    let c := mk_call id (conn_User from) to (conn_ID from) uuid_nil false now 0 t ∅ ∅ in
    let a := m_next m in
    (Rings, back (mk_Manager (<[a := c]> (m_heap m)) (S a) (m_timers m) (m_nextTimer m) (<[id := a]> (m_calls m))
                    (<[to := a]> (<[conn_User from := a]> (m_byUser m))) (m_starts m))).

(** The answered call and the device of its caller. *)
Definition accept_locked (from : Conn) (id : uuid) (now : time) (limit : duration) : CallWorld → option Conn * CallWorld := λ s,
  match calls_get id (cw_mgr s) with
  | Some (a, c) =>
    if negb (bool_decide (c_callee c = conn_User from)) || c_active c then (None, s)
    else
      let m := Stop (c_timer c) (cw_mgr s) in
      let reason := if limit <? MaxDuration then ReasonLimit else ReasonEnded in
      let '(t, m) := AfterFunc (w_now (cw_world s)) limit id reason m in
      let c' := mk_call (c_id c) (c_caller c) (c_callee c) (c_callerConn c) (conn_ID from) true (c_started c) now t
                  (c_lost c) (c_signals c) in
      (Some (mk_Conn (c_caller c) (c_callerConn c)), mk_CallWorld (cw_world s) (put_call a c' m) (cw_ids s))
  | None => (None, s)
  end.

Inductive relayed := SUnknown | SLimited | SRelay (to : Conn).

Definition with_signals (x : gmap uuid Z) (c : call) : call :=
  mk_call (c_id c) (c_caller c) (c_callee c) (c_callerConn c) (c_calleeConn c) (c_active c) (c_started c) (c_answered c)
    (c_timer c) (c_lost c) x.

Definition signal_locked (from : Conn) (id : uuid) (m : Manager) : relayed * Manager :=
  match calls_get id m with
  | Some (a, c) =>
    let u := conn_User from in
    if negb (c_active c) || negb (party c u) || negb (bool_decide (conn c u = conn_ID from)) then (SUnknown, m)
    else
      let n := default 0 (c_signals c !! u) + 1 in
      let m := put_call a (with_signals (<[u := n]> (c_signals c)) c) m in
      if n >? maxSignals then (SLimited, m)
      else (SRelay (mk_Conn (peer c u) (conn c (peer c u))), m)
  | None => (SUnknown, m)
  end.

(** The reason to end the call with, for one of its sides. *)
Definition hangUp_locked (from : Conn) (id : uuid) (m : Manager) : option string * Manager :=
  match calls_get id m with
  | Some (a, c) =>
    if negb (party c (conn_User from)) then (None, m)
    else (Some (if c_active c then ReasonEnded
                else if decide (conn_User from = c_caller c) then ReasonCancelled else ReasonDeclined), m)
  | None => (None, m)
  end.

(** [if m.byUser[u] == c { delete(m.byUser, u) }] *)
Definition drop_user (u : uuid) (a : nat) (byUser : gmap uuid nat) : gmap uuid nat :=
  if decide (byUser !! u = Some a) then delete u byUser else byUser.

Definition end_locked (id : uuid) (m : Manager) : option call * Manager :=
  match calls_get id m with
  | Some (a, c) =>
    let byUser := drop_user (c_callee c) a (drop_user (c_caller c) a (m_byUser m)) in
    let timers := foldr (λ t ts, delete t ts) (delete (c_timer c) (m_timers m)) (snd <$> map_to_list (c_lost c)) in
    (Some c, mk_Manager (m_heap m) (m_next m) timers (m_nextTimer m) (delete id (m_calls m)) byUser (m_starts m))
  | None => (None, m)
  end.

Inductive joined := JNothing | JRings (c : call) | JResumes (c : call) (to : uuid) (device : Conn).

Definition with_conn (u dev : uuid) (lost : gmap uuid nat) (c : call) : call :=
  let mine := bool_decide (u = c_caller c) in
  mk_call (c_id c) (c_caller c) (c_callee c) (if mine then dev else c_callerConn c) (if mine then c_calleeConn c else dev)
    (c_active c) (c_started c) (c_answered c) (c_timer c) lost (c_signals c).

Definition connected_locked (cn : Conn) (m : Manager) : joined * Manager :=
  match byUser_get (conn_User cn) m with
  | None => (JNothing, m)
  | Some (a, c) =>
    if negb (c_active c) then (if decide (conn_User cn = c_callee c) then (JRings c, m) else (JNothing, m))
    else match c_lost c !! conn_User cn with
    | None => (JNothing, m)
    | Some t =>
      let c' := with_conn (conn_User cn) (conn_ID cn) (delete (conn_User cn) (c_lost c)) c in
      let p := peer c' (conn_User cn) in
      (JResumes c' p (mk_Conn p (conn c' p)), put_call a c' (Stop t m))
    end
  end.

Definition with_lost (x : gmap uuid nat) (c : call) : call :=
  mk_call (c_id c) (c_caller c) (c_callee c) (c_callerConn c) (c_calleeConn c) (c_active c) (c_started c) (c_answered c)
    (c_timer c) x (c_signals c).

(** The call to cancel, when the device of a caller leaves while it rings. *)
Definition disconnected_locked `{ManagerConfig} (cn : Conn) : CallWorld → option uuid * CallWorld := λ s,
  let u := conn_User cn in
  match byUser_get u (cw_mgr s) with
  | None => (None, s)
  | Some (a, c) =>
    if negb (bool_decide (conn c u = conn_ID cn)) then (None, s)
    else if negb (c_active c) then (if decide (u = c_caller c) then (Some (c_id c), s) else (None, s))
    else match c_lost c !! u with
    | Some _ => (None, s)
    | None =>
      let '(t, m) := AfterFunc (w_now (cw_world s)) cm_grace (c_id c) ReasonDisconnected (cw_mgr s) in
      (None, mk_CallWorld (cw_world s) (put_call a (with_lost (<[u := t]> (c_lost c)) c) m) (cw_ids s))
    end
  end.

(** ** Handlers *)

Section handlers.
Context {ulib : UuidLib} {ids : FreshIds} {cfg : ManagerConfig} {fr : CallFriends} {hub : HubOnline} {json : CallJson}.

Abbreviation goroutine := (prog CallWorld) (only parsing).

(** A call whose error is logged, or ignored. *)
Definition try_ (m : M World unit) : goroutine unit := _ ← atomically (on_world m); mret tt.

Definition SendToConn (to : Conn) (name : string) (fields : list (string * string)) (dur : option Z) : goroutine unit :=
  try_ (emit (Sent to (mk_Event name (PCall fields dur)))).

Definition fail (to : Conn) (callID : uuid) (code : string) : goroutine unit :=
  SendToConn to EvError (if decide (callID = uuid_nil) then [("error", code)]
                         else [("error", code); ("call_id", uuid_string callID)]) None.

Definition endedPayload (id : uuid) (reason : string) (d : duration) : Payload :=
  PCall [("call_id", uuid_string id); ("reason", reason)] (Some (Z.quot d millisecond)).

Definition incoming (c : call) : list (string * string) :=
  [("call_id", uuid_string (c_id c)); ("from_id", uuid_string (c_caller c))].

Definition pgUUID (id : uuid) : option uuid := if decide (id = uuid_nil) then None else Some id.

(** How much call time a user has left today. *)
Definition remaining (user : uuid) (now : time) : goroutine (result duration) :=
  if cm_daily <=? 0 then mret (Ok MaxDuration)
  else
    used ← atomically (on_world (query (CallSecondsSince user (pgTime (now - 24 * hour)) (pgTime now))));
    mret (match used with
          | Ok used => Ok (Z.min (cm_daily - used * second) MaxDuration)
          | Err e => Err e
          end).

Definition record (id : uuid) (caller callee : uuid) (state : string) (startedAt : time) (ended : option (time * string)) :
    goroutine unit :=
  try_ (query (InsertCall id (pgUUID caller) (pgUUID callee) state (pgTime startedAt) ((λ e, pgTime e.1) <$> ended)
                 (snd <$> ended))).

(** [m.end]: finishes a call (once) and tells both sides. *)
Definition end_ (id : uuid) (reason : string) : goroutine unit :=
  now ← atomically clock;
  c ← atomically (locked (end_locked id));
  match c with
  | None => mret tt
  | Some c =>
    let talked := if c_active c then now - c_answered c else 0 in
    let state := if c_active c then ReasonEnded
                 else if bool_decide (reason = ReasonDisconnected) || bool_decide (reason = ReasonUnfriended) ||
                         bool_decide (reason = ReasonLimit) then "failed"
                 else reason in
    try_ (query (FinishCall state (Some reason) (pgTime now) id)) ;;
    try_ (WriteToUsers [c_caller c; c_callee c] (mk_Event EvEnded (endedPayload id reason talked))) ;;
    if bool_decide (reason = ReasonMissed) && cm_notify
    then try_ (Notify (mk_Job KindMissedCall [c_callee c] (c_caller c) uuid_nil uuid_nil EmptyString id))
    else mret tt
  end.

Definition start (from : Conn) (to : uuid) : goroutine unit :=
  if bool_decide (to = uuid_nil) || bool_decide (to = conn_User from) then fail from uuid_nil CodeBadRequest
  else
    ok ← atomically (on_world (cf_AreFriends (conn_User from) to));
    match ok with
    | Err _ => fail from uuid_nil CodeUnavailable
    | Ok false => fail from uuid_nil CodeNotFriends
    | Ok true =>
      now ← atomically clock;
      id ← atomically newID;
      rest ← remaining (conn_User from) now;
      match rest with
      | Err _ => fail from uuid_nil CodeUnavailable
      | Ok rest =>
        if rest <=? 0 then fail from uuid_nil CodeDailyLimit
        else
          r ← atomically (start_locked id from to now);
          match r with
          | Limited => fail from uuid_nil CodeRateLimited
          | InCall => fail from uuid_nil CodeInCall
          | Busy =>
            record id (conn_User from) to ReasonBusy now (Some (now, ReasonBusy)) ;;
            try_ (emit (Sent from (mk_Event EvEnded (endedPayload id ReasonBusy 0))))
          | Rings =>
            record id (conn_User from) to "ringing" now None ;;
            SendToConn from EvRinging [("call_id", uuid_string id); ("to_id", uuid_string to)] None ;;
            try_ (WriteToUsers [to] (mk_Event EvIncoming
              (PCall [("call_id", uuid_string id); ("from_id", uuid_string (conn_User from))] None))) ;;
            online ← atomically (on_world (hub_Online to));
            if match online with Ok b => negb b | Err _ => true end && cm_notify
            then try_ (Notify (mk_Job KindCall [to] (conn_User from) uuid_nil uuid_nil EmptyString id))
            else mret tt
          end
      end
    end.

(** The loop over the two sides: the limit, or a failed read. *)
Fixpoint accept_limit (us : list uuid) (now : time) (limit : duration) : goroutine (result duration) :=
  match us with
  | [] => mret (Ok limit)
  | u :: us =>
    rest ← remaining u now;
    match rest with
    | Err e => mret (Err e)
    | Ok rest => accept_limit us now (Z.min limit rest)
    end
  end.

Definition accept (from : Conn) (id : uuid) : goroutine unit :=
  now ← atomically clock;
  pending ← atomically (locked (λ m, (calls_get id m, m)));
  limit ← match pending with
          | Some (_, c) =>
            if decide (c_callee c = conn_User from) then accept_limit [c_caller c; c_callee c] now MaxDuration
            else mret (Ok MaxDuration)
          | None => mret (Ok MaxDuration)
          end;
  match limit with
  | Err _ => fail from id CodeUnavailable
  | Ok limit =>
    if limit <=? 0 then end_ id ReasonLimit
    else
      caller ← atomically (accept_locked from id now limit);
      match caller with
      | None => fail from id CodeUnknownCall
      | Some callerConn =>
        try_ (query (AnswerCall (pgTime now) id)) ;;
        SendToConn callerConn EvAccepted [("call_id", uuid_string id)] None ;;
        try_ (emit (PushedExcept (conn_User from) (conn_ID from) (mk_Event EvEnded (endedPayload id ReasonElsewhere 0))))
      end
  end.

Definition signal (from : Conn) (id : uuid) (data : string) : goroutine unit :=
  if (len data =? 0) || (len data >? maxSignalBytes) || negb (json_Valid data) then fail from id CodeBadRequest
  else
    r ← atomically (locked (signal_locked from id));
    match r with
    | SUnknown => fail from id CodeUnknownCall
    | SLimited => fail from id CodeRateLimited
    | SRelay to =>
      SendToConn to EvSignal
        [("call_id", uuid_string id); ("from_id", uuid_string (conn_User from)); ("data", data)] None
    end.

Definition hangUp (from : Conn) (id : uuid) : goroutine unit :=
  reason ← atomically (locked (hangUp_locked from id));
  match reason with
  | None => fail from id CodeUnknownCall
  | Some reason => end_ id reason
  end.

Definition HandleCall (from : Conn) (event raw : string) : goroutine unit :=
  match unmarshal_idPayload raw with
  | None => fail from uuid_nil CodeBadRequest
  | Some p =>
    if len raw >? maxSignalBytes + 512 then fail from uuid_nil CodeBadRequest
    else if decide (event = EvStart) then start from (ip_ToID p)
    else if decide (event = EvAccept) then accept from (ip_CallID p)
    else if decide (event = EvSignal) then signal from (ip_CallID p) (ip_Data p)
    else if bool_decide (event = EvDecline) || bool_decide (event = EvEnd) then hangUp from (ip_CallID p)
    else fail from uuid_nil CodeBadRequest
  end.

Definition Connected (cn : Conn) : goroutine unit :=
  r ← atomically (locked (connected_locked cn));
  match r with
  | JNothing => mret tt
  | JRings c => SendToConn cn EvIncoming (incoming c) None
  | JResumes c p device =>
    SendToConn cn EvResumed [("call_id", uuid_string (c_id c)); ("peer_id", uuid_string p)] None ;;
    SendToConn device EvResumed [("call_id", uuid_string (c_id c)); ("peer_id", uuid_string (conn_User cn))] None
  end.

Definition Disconnected (cn : Conn) : goroutine unit :=
  r ← atomically (disconnected_locked cn);
  match r with
  | None => mret tt
  | Some id => end_ id ReasonCancelled
  end.

Definition EndBetween (a b : uuid) : goroutine unit :=
  c ← atomically (locked (λ m, (byUser_get a m, m)));
  match c with
  | Some (_, c) => if decide (peer c a = b) then end_ (c_id c) ReasonUnfriended else mret tt
  | None => mret tt
  end.

(** At startup: closes what a previous run left open. *)
Definition Recover : M World unit :=
  now ← Now;
  _ ← try (query (InterruptOpenCalls (pgTime now)));
  mret tt.

(** ** The manager at work *)

(** What comes in: events from devices, devices coming and going, friendships
    ending. *)
Inductive arrives : goroutine unit → Prop :=
  | a_event from event raw : arrives (HandleCall from event raw)
  | a_connected cn : arrives (Connected cn)
  | a_disconnected cn : arrives (Disconnected cn)
  | a_endBetween a b : arrives (EndBetween a b).

(** A timer that is due fires: it is gone, and its function is a new goroutine. *)
Inductive fires : CallWorld → goroutine unit → CallWorld → Prop :=
  | f_timer s t tm :
      m_timers (cw_mgr s) !! t = Some tm → tm_due tm <= w_now (cw_world s) →
      fires s (end_ (tm_call tm) (tm_reason tm)) (mk_CallWorld (cw_world s) (Stop t (cw_mgr s)) (cw_ids s)).

(** The rest of the process does what it does, and time passes. *)
Inductive outside : CallWorld → CallWorld → Prop :=
  | o_world s w : w_now (cw_world s) <= w_now w → outside s (mk_CallWorld w (cw_mgr s) (cw_ids s)).

Definition call_step := sstep arrives fires outside.
End handlers.
