(* ===== verification/Calls_Props.v ===== *)
(** * Calls: what holds however the handlers and the timers interleave

    [call_inv] is the invariant of the manager; the tokens of a goroutine are the
    ids it has drawn and not used yet.  [guards] says that no action takes away the
    timer of a call that goes on. *)

From S2P Require Import Prelude GoLib Threads Types Db Sql_Calls World Calls.

#[local] Open Scope Z_scope.

(** A call that is on: its id, its address, what is there. *)
Definition live (m : Manager) (id : uuid) (a : nat) (c : call) : Prop :=
  m_calls m !! id = Some a ∧ m_heap m !! a = Some c.

Lemma calls_get_live m id a c : calls_get id m = Some (a, c) ↔ live m id a c.
Proof.
  unfold calls_get, live. destruct (m_calls m !! id) as [b|]; simpl; [|naive_solver].
  destruct (m_heap m !! b) as [d|] eqn:E; simpl; naive_solver.
Qed.

(** ** The invariant *)

Record registered (m : Manager) : Prop := {
  r_calls id a : m_calls m !! id = Some a →
    ∃ c, m_heap m !! a = Some c ∧ c_id c = id ∧ c_caller c ≠ c_callee c ∧
      m_byUser m !! c_caller c = Some a ∧ m_byUser m !! c_callee c = Some a;
  r_byUser u a : m_byUser m !! u = Some a →
    ∃ c, m_heap m !! a = Some c ∧ (u = c_caller c ∨ u = c_callee c) ∧ m_calls m !! c_id c = Some a;
}.

Section inv.
Context {ids : FreshIds} {cfg : ManagerConfig}.

(** The ids of the calls, and those drawn for calls to come. *)
Record drawn (n : nat) (F : gset nat) (m : Manager) : Prop := {
  d_heap a c : m_heap m !! a = Some c → (a < m_next m)%nat ∧ ∃ i, (i < n)%nat ∧ i ∉ F ∧ c_id c = v7 i;
  d_tokens i : i ∈ F → (i < n)%nat;
}.

(** How long a call may go on as it is. *)
Definition allowance (c : call) : duration := if c_active c then MaxDuration else cm_ring.

Record timed (m : Manager) : Prop := {
  t_old t tm : m_timers m !! t = Some tm → (t < m_nextTimer m)%nat;
  t_heap a c : m_heap m !! a = Some c →
    (c_timer c < m_nextTimer m)%nat ∧
    ∀ u t, c_lost c !! u = Some t → (t < m_nextTimer m)%nat ∧ t ≠ c_timer c;
  t_main id a c tm : live m id a c → m_timers m !! c_timer c = Some tm →
    tm_call tm = id ∧ tm_due tm <= tm_set tm + allowance c;
  t_lost id a c u t tm : live m id a c → c_lost c !! u = Some t → m_timers m !! t = Some tm → tm_call tm = id;
}.

Record call_inv (F : gset nat) (s : CallWorld) : Prop := {
  i_registered : registered (cw_mgr s);
  i_drawn : drawn (cw_ids s) F (cw_mgr s);
  i_timed : timed (cw_mgr s);
}.

(** A call whose timer is not set any more. *)
Definition unguarded (m : Manager) (id : uuid) : Prop :=
  ∃ a c, live m id a c ∧ m_timers m !! c_timer c = None.

Definition guards (s s' : CallWorld) : Prop :=
  ∀ id, unguarded (cw_mgr s') id → unguarded (cw_mgr s) id.

Lemma guards_refl s s' : cw_mgr s' = cw_mgr s → guards s s'.
Proof. by intros E id; rewrite E. Qed.

Lemma live_id m id a c : registered m → live m id a c → c_id c = id.
Proof. intros HR [Hid Ha]. destruct (r_calls _ HR _ _ Hid) as (c' & Ha' & <- & _). naive_solver. Qed.

Lemma live_fun m id id' a c c' : registered m → live m id a c → live m id' a c' → id = id' ∧ c = c'.
Proof.
  intros HR HL HL'. pose proof (live_id _ _ _ _ HR HL). pose proof (live_id _ _ _ _ HR HL').
  destruct HL, HL'; simplify_eq. naive_solver.
Qed.

Lemma byUser_get_live m u a c :
  registered m → byUser_get u m = Some (a, c) → live m (c_id c) a c ∧ (u = c_caller c ∨ u = c_callee c).
Proof.
  intros HR. unfold byUser_get. destruct (m_byUser m !! u) as [b|] eqn:Eu; [|done]. simpl.
  destruct (r_byUser _ HR _ _ Eu) as (d & Hb & Hu & Hc). rewrite Hb. simpl. intros [= <- <-]. by repeat split.
Qed.

(** *** Changes that keep the sides of the calls *)

Lemma registered_put m a c c' :
  registered m → m_heap m !! a = Some c →
  c_id c' = c_id c → c_caller c' = c_caller c → c_callee c' = c_callee c → registered (put_call a c' m).
Proof.
  intros HR Ha E1 E2 E3. split; simpl.
  - intros id b Hid. destruct (r_calls _ HR _ _ Hid) as (d & Hb & Hd). destruct (decide (a = b)) as [<-|Hne].
    + exists c'. rewrite lookup_insert_eq. simplify_eq. by rewrite E1, E2, E3.
    + exists d. by rewrite lookup_insert_ne.
  - intros u b Hu. destruct (r_byUser _ HR _ _ Hu) as (d & Hb & Hd). destruct (decide (a = b)) as [<-|Hne].
    + exists c'. rewrite lookup_insert_eq. simplify_eq. by rewrite E1, E2, E3.
    + exists d. by rewrite lookup_insert_ne.
Qed.

Lemma drawn_put n F m a c c' :
  drawn n F m → m_heap m !! a = Some c → c_id c' = c_id c → drawn n F (put_call a c' m).
Proof.
  intros HD Ha E. split; simpl; [|apply HD]. intros b d. destruct (decide (a = b)) as [<-|Hne].
  - rewrite lookup_insert_eq. intros [= <-]. rewrite E. by eapply d_heap.
  - rewrite lookup_insert_ne by done. by eapply d_heap.
Qed.

(** A put: what its timers have to be. *)
Lemma timed_put m a c c' :
  timed m → m_heap m !! a = Some c →
  (c_timer c' < m_nextTimer m)%nat →
  (∀ u t, c_lost c' !! u = Some t → (t < m_nextTimer m)%nat ∧ t ≠ c_timer c') →
  (∀ id tm, live m id a c → m_timers m !! c_timer c' = Some tm → tm_call tm = id ∧ tm_due tm <= tm_set tm + allowance c') →
  (∀ id u t tm, live m id a c → c_lost c' !! u = Some t → m_timers m !! t = Some tm → tm_call tm = id) →
  timed (put_call a c' m).
Proof.
  intros [HT1 HT2 HT3 HT4] Ha H1 H2 H3 H4. split; simpl; [done|..].
  - intros b d. destruct (decide (a = b)) as [<-|Hne]; [rewrite lookup_insert_eq|rewrite lookup_insert_ne by done].
    + by intros [= <-].
    + by apply HT2.
  - intros id b d tm [Hid Hb]. simpl in *. destruct (decide (a = b)) as [<-|Hne].
    + rewrite lookup_insert_eq in Hb. injection Hb as <-. by apply H3.
    + rewrite lookup_insert_ne in Hb by done. by apply (HT3 id b d).
  - intros id b d u t tm [Hid Hb]. simpl in *. destruct (decide (a = b)) as [<-|Hne].
    + rewrite lookup_insert_eq in Hb. injection Hb as <-. by apply H4.
    + rewrite lookup_insert_ne in Hb by done. by apply (HT4 id b d).
Qed.

(** A put that sets no timer. *)
Lemma timed_put_same m a c c' :
  timed m → m_heap m !! a = Some c → c_timer c' = c_timer c → c_lost c' ⊆ c_lost c → c_active c' = c_active c →
  timed (put_call a c' m).
Proof.
  intros HT Ha Et El Ea. destruct (t_heap _ HT _ _ Ha) as [H1 H2].
  apply (timed_put m a c c'); [done|done|by rewrite Et|..]; rewrite ?Et.
  - intros u t Hu. eapply H2, lookup_weaken; eauto.
  - intros id tm HL Ht. unfold allowance. rewrite Ea. by apply (t_main _ HT id a c).
  - intros id u t tm HL Hu. apply (t_lost _ HT id a c u t tm HL). by eapply lookup_weaken.
Qed.

Lemma guards_put m a c c' id :
  m_heap m !! a = Some c → c_timer c' = c_timer c → unguarded (put_call a c' m) id → unguarded m id.
Proof.
  intros Ha Et (b & d & [Hid Hb] & Hn). simpl in *. destruct (decide (a = b)) as [<-|Hne].
  - rewrite lookup_insert_eq in Hb. simplify_eq. exists a, c. rewrite <- Et. by repeat split.
  - rewrite lookup_insert_ne in Hb by done. by exists b, d.
Qed.

(** *** Timers *)

(** A timer of one call is no other's. *)
Lemma timer_apart m id id' a a' c c' t tm :
  timed m → live m id a c → live m id' a' c' → m_timers m !! t = Some tm →
  t = c_timer c ∨ (∃ u, c_lost c !! u = Some t) → t = c_timer c' → id = id'.
Proof.
  intros HT HL HL' Htm Ht ->. destruct (t_main _ HT _ _ _ _ HL' Htm) as [<- _].
  destruct Ht as [Ht|(u & Ht)].
  - rewrite Ht in Htm. by destruct (t_main _ HT _ _ _ _ HL Htm) as [<- _].
  - symmetry. by apply (t_lost _ HT _ _ _ _ _ _ HL Ht Htm).
Qed.

Lemma timed_fewer m ts : timed m → ts ⊆ m_timers m → timed (with_timers ts m).
Proof.
  intros HT Hts. split; simpl.
  - intros t tm Ht. eapply (t_old _ HT), lookup_weaken; eauto.
  - apply HT.
  - intros id a c tm HL Ht. eapply (t_main _ HT); [exact HL|]. eapply lookup_weaken; eauto.
  - intros id a c u t tm HL Hu Ht. eapply (t_lost _ HT); [exact HL|done|]. eapply lookup_weaken; eauto.
Qed.

Lemma timed_AfterFunc m now d id reason : timed m → timed (AfterFunc now d id reason m).2.
Proof.
  intros HT. split; simpl.
  - intros t tm. destruct (decide (m_nextTimer m = t)) as [<-|Hne]; [lia|].
    rewrite lookup_insert_ne by done. intros Ht. apply (t_old _ HT) in Ht. lia.
  - intros a c Ha. destruct (t_heap _ HT _ _ Ha) as [H1 H2]. split; [lia|].
    intros u t Hu. destruct (H2 u t Hu). split; [lia|done].
  - intros id' a c tm HL. destruct (t_heap _ HT _ _ (proj2 HL)) as [H1 _].
    rewrite lookup_insert_ne by (simpl; lia). by apply (t_main _ HT id' a).
  - intros id' a c u t tm HL Hu. destruct (t_heap _ HT _ _ (proj2 HL)) as [_ H2]. destruct (H2 u t Hu).
    rewrite lookup_insert_ne by lia. by apply (t_lost _ HT id' a c u).
Qed.

(** ** The critical sections *)

Lemma inv_world F s s' : cw_mgr s' = cw_mgr s → cw_ids s' = cw_ids s → call_inv F s → call_inv F s'.
Proof. intros E1 E2 [HR HD HT]. split; by rewrite ?E1, ?E2. Qed.

Lemma inv_same F s : call_inv F s → call_inv F s ∧ guards s s.
Proof. intros HI. split; [done|by apply guards_refl]. Qed.

(** The table of recent starts is no part of it. *)
Lemma inv_starts F w n m x : call_inv F (mk_CallWorld w m n) → call_inv F (mk_CallWorld w (with_starts x m) n).
Proof. intros [[HR1 HR2] [HD1 HD2] [HT1 HT2 HT3 HT4]]. by split; split. Qed.

Lemma stop_guards m ts id :
  timed m → (∀ t id' a c, ts !! t = None → is_Some (m_timers m !! t) → live m id' a c → c_timer c ≠ t) →
  unguarded (with_timers ts m) id → unguarded m id.
Proof.
  intros HT Hts (a & c & HL & Hn). simpl in Hn. exists a, c. split; [done|].
  destruct (m_timers m !! c_timer c) as [tm|] eqn:E; [|done].
  exfalso. exact (Hts _ id a c Hn (mk_is_Some _ _ E) HL eq_refl).
Qed.

Lemma drop_user_lookup u a (bu : gmap uuid nat) v b :
  drop_user u a bu !! v = Some b ↔ bu !! v = Some b ∧ ¬ (v = u ∧ b = a).
Proof.
  unfold drop_user. destruct (decide (bu !! u = Some a)) as [E|E].
  - destruct (decide (u = v)) as [<-|Hne].
    + rewrite lookup_delete_eq. naive_solver.
    + rewrite lookup_delete_ne by done. naive_solver.
  - naive_solver.
Qed.

(** The timers that are left when a call ends. *)
Lemma stopped_lookup (ls : list (uuid * nat)) (ts : gmap nat timer) t tm :
  foldr (λ t ts, delete t ts) ts (snd <$> ls) !! t = Some tm ↔ ts !! t = Some tm ∧ ∀ u, (u, t) ∉ ls.
Proof.
  induction ls as [|[v t'] ls IH]; simpl.
  - split; [|naive_solver]. intros H. split; [done|]. intros u. by apply not_elem_of_nil.
  - destruct (decide (t' = t)) as [->|Hne].
    + rewrite lookup_delete_eq. split; [done|]. intros [_ Hu]. destruct (Hu v). apply list_elem_of_here.
    + rewrite lookup_delete_ne by done. rewrite IH. split; intros [H1 H2]; (split; [done|]); intros u Hu.
      * apply elem_of_cons in Hu as [[= -> ->]|Hu]; [done|]. by apply (H2 u).
      * apply (H2 u). by apply list_elem_of_further.
Qed.

Lemma end_locked_calls id m : m_calls (end_locked id m).2 !! id = None ∨ calls_get id m = None.
Proof. unfold end_locked. destruct (calls_get id m) as [[a c]|]; [left; apply lookup_delete_eq|by right]. Qed.

Lemma end_locked_registered id m : registered m → registered (end_locked id m).2.
Proof.
  intros HR. unfold end_locked. destruct (calls_get id m) as [[a c]|] eqn:E; [|done].
  apply calls_get_live in E. pose proof (live_id _ _ _ _ HR E) as Hid. destruct E as [Hc Ha]. split; simpl.
  - intros id' b. destruct (decide (id = id')) as [<-|Hne]; [by rewrite lookup_delete_eq|].
    rewrite lookup_delete_ne by done. intros Hid'. destruct (r_calls _ HR _ _ Hid') as (d & Hb & Hd & Hne' & Hu & Hv).
    exists d. rewrite !drop_user_lookup. assert (a ≠ b) by naive_solver. naive_solver.
  - intros u b. rewrite !drop_user_lookup. intros [[Hu Hna] Hnb].
    destruct (r_byUser _ HR _ _ Hu) as (d & Hb & Hor & Hd). exists d. split; [done|]. split; [done|].
    rewrite lookup_delete_ne; [done|]. intros E. rewrite <- E, Hc in Hd. naive_solver.
Qed.

Lemma end_locked_live id m id' a c :
  live (end_locked id m).2 id' a c → live m id' a c.
Proof.
  unfold end_locked, live. destruct (calls_get id m) as [[b d]|]; [|done]. simpl. intros [H1 H2].
  split; [|done]. by apply lookup_delete_Some in H1 as [_ H1].
Qed.

Lemma end_locked_timers id m : m_timers (end_locked id m).2 ⊆ m_timers m.
Proof.
  unfold end_locked. destruct (calls_get id m) as [[b d]|]; [|done]. simpl.
  apply map_subseteq_spec. intros t tm. rewrite stopped_lookup. intros [H _]. by apply lookup_delete_Some in H as [_ H].
Qed.

Lemma end_locked_ok F w n m id :
  call_inv F (mk_CallWorld w m n) →
  call_inv F (mk_CallWorld w (end_locked id m).2 n) ∧
  ∀ id', unguarded (end_locked id m).2 id' → unguarded m id'.
Proof.
  intros [HR HD HT]. pose proof (end_locked_live id m) as Hlive. pose proof (end_locked_timers id m) as Hsub.
  split; [split; simpl; [by apply end_locked_registered| |]|].
  - unfold end_locked. destruct (calls_get id m) as [[b d]|]; [|done]. by destruct HD.
  - destruct HT as [HT1 HT2 HT3 HT4]. split.
    + intros t tm Ht. unfold end_locked in *. destruct (calls_get id m) as [[b d]|]; simpl in *;
        eapply HT1; [eapply lookup_weaken; eauto|done].
    + unfold end_locked in *. by destruct (calls_get id m) as [[b d]|].
    + intros id' a c tm HL Ht. eapply HT3; [by apply Hlive|]. eapply lookup_weaken; eauto.
    + intros id' a c u t tm HL Hu Ht. eapply HT4; [by apply Hlive|done|]. eapply lookup_weaken; eauto.
  - intros id' (a & c & HL & Hn). pose proof (Hlive _ _ _ HL) as HL'. exists a, c. split; [done|].
    destruct (m_timers m !! c_timer c) as [tm|] eqn:E; [|done].
    unfold end_locked in HL, Hn. destruct (calls_get id m) as [[b d]|] eqn:Eg; simpl in *; [|congruence].
    apply calls_get_live in Eg. exfalso. apply eq_None_not_Some in Hn. apply Hn. exists tm. apply stopped_lookup.
    assert (id ≠ id') as Hne.
    { intros <-. destruct HL as [HL _]. simpl in HL. by rewrite lookup_delete_eq in HL. }
    split.
    + apply lookup_delete_Some. split; [|done]. intros Et. apply Hne.
      eapply timer_apart; [exact HT|exact Eg|exact HL'|exact E|by left|done].
    + intros u Hu. apply elem_of_map_to_list in Hu. apply Hne.
      eapply timer_apart; [exact HT|exact Eg|exact HL'|exact E|right; by exists u|done].
Qed.

Lemma signal_locked_ok F w n m from id :
  call_inv F (mk_CallWorld w m n) →
  call_inv F (mk_CallWorld w (signal_locked from id m).2 n) ∧
  ∀ id', unguarded (signal_locked from id m).2 id' → unguarded m id'.
Proof.
  intros HI. unfold signal_locked. destruct (calls_get id m) as [[a c]|] eqn:E; [|by split].
  apply calls_get_live in E. destruct (_ || _ || _); [by split|]. destruct E as [Hid Ha].
  set (c' := with_signals _ c). destruct HI as [HR HD HT].
  assert (call_inv F (mk_CallWorld w (put_call a c' m) n) ∧ ∀ id', unguarded (put_call a c' m) id' → unguarded m id')
    as Hput; [|by destruct (_ >? _)].
  split; [split; simpl|].
  - by apply (registered_put m a c).
  - by apply (drawn_put n F m a c).
  - by apply (timed_put_same m a c).
  - intros id'. by apply (guards_put m a c).
Qed.

Lemma connected_locked_ok F w n m cn :
  call_inv F (mk_CallWorld w m n) →
  call_inv F (mk_CallWorld w (connected_locked cn m).2 n) ∧
  ∀ id', unguarded (connected_locked cn m).2 id' → unguarded m id'.
Proof.
  intros HI. unfold connected_locked. destruct (byUser_get (conn_User cn) m) as [[a c]|] eqn:E; [|by split].
  destruct (c_active c) eqn:Eact; [|by destruct (decide _)]. simpl.
  destruct (c_lost c !! conn_User cn) as [t|] eqn:El; [|by split]. simpl.
  set (c' := with_conn _ _ _ c). destruct HI as [HR HD HT]. simpl in *.
  destruct (byUser_get_live _ _ _ _ HR E) as [HL Hu]. pose proof HL as [Hid Ha].
  assert (timed (Stop t m)) as HT' by (apply timed_fewer; [done|apply delete_subseteq]).
  split; [split; simpl|].
  - apply (registered_put (Stop t m) a c); [by destruct HR|done..].
  - apply (drawn_put n F (Stop t m) a c); [by destruct HD|done..].
  - apply (timed_put_same (Stop t m) a c); [done..| |done]. apply delete_subseteq.
  - intros id' HU. apply (guards_put (Stop t m) a c) in HU; [|done..].
    apply (stop_guards m (delete t (m_timers m)) id' HT); [|exact HU].
    intros t' id2 a2 c2 Hn [tm Htm] HL2 <-. apply lookup_delete_None in Hn as [Ht|Hn]; [|congruence].
    assert (c_id c = id2) as <-.
    { eapply timer_apart; [exact HT|exact HL|exact HL2|exact Htm|right; rewrite <- Ht; by eexists|done]. }
    destruct (t_heap _ HT _ _ Ha) as [_ H2]. destruct (H2 _ _ El) as [_ Hne]. destruct HL2 as [Hid2 Ha2].
    apply Hne. congruence.
Qed.

Lemma disconnected_locked_ok F s cn :
  call_inv F s → call_inv F (disconnected_locked cn s).2 ∧ guards s (disconnected_locked cn s).2.
Proof.
  intros HI. unfold disconnected_locked. destruct (byUser_get (conn_User cn) (cw_mgr s)) as [[a c]|] eqn:E; [|by apply inv_same].
  destruct (negb (bool_decide _)); [by apply inv_same|]. destruct (c_active c) eqn:Eact; [|simpl; destruct (decide _); by apply inv_same]. simpl.
  destruct (c_lost c !! conn_User cn) as [t|] eqn:El; [by apply inv_same|]. simpl.
  set (m1 := mk_Manager _ _ _ _ _ _ _). set (c' := with_lost _ c). destruct HI as [HR HD HT].
  destruct (byUser_get_live _ _ _ _ HR E) as [HL Hu]. pose proof HL as [Hid Ha].
  assert (timed m1) as HT1
    by exact (timed_AfterFunc (cw_mgr s) (w_now (cw_world s)) cm_grace (c_id c) ReasonDisconnected HT).
  destruct (t_heap _ HT _ _ Ha) as [H1 H2].
  split; [split; simpl|].
  - apply (registered_put m1 a c); [|done..]. by destruct HR.
  - apply (drawn_put _ F m1 a c); [|done..]. by destruct HD.
  - apply (timed_put m1 a c); [done|done|simpl; lia|..].
    + simpl. intros u t. destruct (decide (conn_User cn = u)) as [<-|Hne].
      * rewrite lookup_insert_eq. intros [= <-]. lia.
      * rewrite lookup_insert_ne by done. intros Ht. destruct (H2 _ _ Ht). split; [lia|done].
    + intros id tm HL1. by apply (t_main _ HT1 id a c).
    + intros id u t tm HL1. simpl. destruct (decide (conn_User cn = u)) as [<-|Hne].
      * rewrite lookup_insert_eq. intros [= <-]. rewrite lookup_insert_eq. intros [= <-]. simpl.
        by destruct (live_fun (cw_mgr s) (c_id c) id a c c HR HL HL1).
      * rewrite lookup_insert_ne by done. by apply (t_lost _ HT1 id a c).
  - intros id HU. apply (guards_put m1 a c) in HU as (b & d & HL1 & Hn); [|done..]. exists b, d. split; [done|].
    simpl in Hn. by apply lookup_insert_None in Hn as [Hn _].
Qed.

Lemma accept_locked_ok F s from id now limit :
  limit <= MaxDuration → call_inv F s →
  call_inv F (accept_locked from id now limit s).2 ∧ guards s (accept_locked from id now limit s).2.
Proof.
  intros Hlim HI. unfold accept_locked. destruct (calls_get id (cw_mgr s)) as [[a c]|] eqn:E; [|by apply inv_same].
  destruct (_ || _); [by apply inv_same|]. apply calls_get_live in E. destruct HI as [HR HD HT]. simpl.
  set (m0 := Stop (c_timer c) (cw_mgr s)). set (m1 := mk_Manager _ _ (<[_ := _]> _) _ _ _ _). set (c' := mk_call _ _ _ _ _ _ _ _ _ _ _).
  assert (timed m0) as HT0 by (apply timed_fewer; [done|apply delete_subseteq]).
  assert (timed m1) as HT1 by exact (timed_AfterFunc m0 (w_now (cw_world s)) limit id _ HT0).
  pose proof E as [Hid Ha]. destruct (t_heap _ HT _ _ Ha) as [H1 H2].
  split; [split; simpl|].
  - apply (registered_put m1 a c); [|done..]. by destruct HR.
  - apply (drawn_put _ F m1 a c); [|done..]. by destruct HD.
  - apply (timed_put m1 a c); [done|done|simpl; lia|..].
    + simpl. intros u t Ht. destruct (H2 _ _ Ht). split; lia.
    + intros id' tm HL1. simpl. rewrite lookup_insert_eq. intros [= <-]. simpl.
      unfold allowance. simpl. split; [|lia]. by destruct (live_fun (cw_mgr s) id id' a c c HR E HL1).
    + intros id' u t tm HL1. simpl. intros Hu. by apply (t_lost _ HT1 id' a c u).
  - intros id' (b & d & [Hid' Hb] & Hn). simpl in Hid', Hb, Hn. destruct (decide (a = b)) as [<-|Hne].
    + rewrite lookup_insert_eq in Hb. injection Hb as <-. simpl in Hn. by rewrite lookup_insert_eq in Hn.
    + rewrite lookup_insert_ne in Hb by done.
      assert (live (cw_mgr s) id' b d) as HLb by done.
      exists b, d. split; [done|]. apply lookup_insert_None in Hn as [Hn _].
      destruct (m_timers (cw_mgr s) !! c_timer d) as [tm|] eqn:Et; [|done].
      apply lookup_delete_None in Hn as [Ht|Hn]; [|congruence].
      assert (id = id') as <- by (eapply timer_apart; [exact HT|exact E|exact HLb|exact Et|by left|done]).
      destruct HLb. congruence.
Qed.

Lemma inv_drop o F s : call_inv (o ∪ F) s → call_inv F s.
Proof.
  intros [HR [HD1 HD2] HT]. split; [done| |done]. split.
  - intros a c Ha. destruct (HD1 _ _ Ha) as (Hlt & i & Hi & Hni & E). split; [done|]. exists i. set_solver.
  - intros i Hi. apply HD2. set_solver.
Qed.

Lemma allowStart_starts u now m : ∃ x, (allowStart u now m).2 = with_starts x m.
Proof. unfold allowStart. destruct (_ >=? _); by eexists. Qed.

(** A new call, with an id no call has had. *)
Lemma new_call_registered m id u v cv t now x tn ts :
  (∀ b d, m_heap m !! b = Some d → (b < m_next m)%nat ∧ c_id d ≠ id) →
  registered m → m_byUser m !! u = None → m_byUser m !! v = None → u ≠ v →
  registered (mk_Manager (<[m_next m := mk_call id u v cv uuid_nil false now 0 t ∅ ∅]> (m_heap m)) (S (m_next m)) ts tn
    (<[id := m_next m]> (m_calls m)) (<[v := m_next m]> (<[u := m_next m]> (m_byUser m))) x).
Proof.
  intros Hnew [HR1 HR2] Hu Hv Hne.
  assert (∀ b d, m_heap m !! b = Some d → m_next m ≠ b) as Hold.
  { intros b d Hb. destruct (Hnew _ _ Hb). lia. }
  split; simpl.
  - intros id' b. destruct (decide (id = id')) as [<-|Hid].
    + rewrite lookup_insert_eq. intros [= <-]. eexists. rewrite lookup_insert_eq. split; [done|]. simpl.
      rewrite lookup_insert_ne by done. by rewrite !lookup_insert_eq.
    + rewrite lookup_insert_ne by done. intros Hid'. destruct (HR1 _ _ Hid') as (d & Hb & Ed & Hdd & Hd1 & Hd2).
      exists d. rewrite lookup_insert_ne by eauto. do 3 (split; [done|]).
      rewrite !lookup_insert_ne by congruence. done.
  - intros w b. destruct (decide (v = w)) as [<-|Hvw]; [|destruct (decide (u = w)) as [<-|Huw]].
    + rewrite lookup_insert_eq. intros [= <-]. eexists. rewrite lookup_insert_eq. split; [done|]. simpl.
      rewrite lookup_insert_eq. eauto.
    + rewrite lookup_insert_ne, lookup_insert_eq by done. intros [= <-]. eexists. rewrite lookup_insert_eq.
      split; [done|]. simpl. rewrite lookup_insert_eq. eauto.
    + rewrite !lookup_insert_ne by done. intros Hw. destruct (HR2 _ _ Hw) as (d & Hb & Hd & Hid).
      exists d. rewrite lookup_insert_ne by eauto. split; [done|]. split; [done|].
      rewrite lookup_insert_ne; [done|]. destruct (Hnew _ _ Hb). congruence.
Qed.

Lemma start_locked_ok F s i from to now :
  i ∉ F → conn_User from ≠ to → call_inv ({[i]} ∪ F) s →
  call_inv F (start_locked (v7 i) from to now s).2 ∧ guards s (start_locked (v7 i) from to now s).2.
Proof.
  intros HiF Hne HI. unfold start_locked. destruct (allowStart _ _ _) as [ok m] eqn:Eok.
  destruct (allowStart_starts (conn_User from) now (cw_mgr s)) as [x Ex]. rewrite Eok in Ex. simpl in Ex. subst m.
  assert (call_inv F (mk_CallWorld (cw_world s) (with_starts x (cw_mgr s)) (cw_ids s)) ∧
          guards s (mk_CallWorld (cw_world s) (with_starts x (cw_mgr s)) (cw_ids s))) as Hback.
  { split; [|by intros id]. apply inv_starts. eapply inv_world; [..|eapply inv_drop, HI]; done. }
  destruct ok; [|done]. simpl.
  destruct (m_byUser (cw_mgr s) !! conn_User from) eqn:Eu; [by rewrite bool_decide_eq_true_2|].
  rewrite bool_decide_eq_false_2 by (by intros [? ?]).
  destruct (m_byUser (cw_mgr s) !! to) eqn:Ev; [by rewrite bool_decide_eq_true_2|].
  rewrite bool_decide_eq_false_2 by (by intros [? ?]). simpl.
  destruct HI as [HR [HD1 HD2] HT].
  assert (∀ b d, m_heap (cw_mgr s) !! b = Some d → (b < m_next (cw_mgr s))%nat ∧ c_id d ≠ v7 i) as Hnew.
  { intros b d Hb. destruct (HD1 _ _ Hb) as (Hlt & j & Hj & Hnj & ->). split; [done|].
    intros E. apply v7_inj in E as ->. set_solver. }
  assert (∀ b d, m_heap (cw_mgr s) !! b = Some d → m_next (cw_mgr s) ≠ b) as Hold.
  { intros b d Hb. destruct (Hnew _ _ Hb). lia. }
  pose proof (timed_AfterFunc (cw_mgr s) (w_now (cw_world s)) cm_ring (v7 i) ReasonMissed HT) as [HT1 HT2 HT3 HT4].
  assert (∀ id b d, m_next (cw_mgr s) ≠ b →
    (<[v7 i := m_next (cw_mgr s)]> (m_calls (cw_mgr s)) : gmap uuid nat) !! id = Some b →
    m_heap (cw_mgr s) !! b = Some d → live (cw_mgr s) id b d) as Hlive.
  { intros id b d Hb Hid Hd. split; [|done]. by apply lookup_insert_Some in Hid as [[_ ?]|[_ ?]]. }
  split; [split; simpl|].
  - by apply new_call_registered.
  - split; simpl.
    + intros b d. destruct (decide (m_next (cw_mgr s) = b)) as [<-|Hb].
      * rewrite lookup_insert_eq. intros [= <-]. split; [lia|]. exists i. split; [|done]. apply HD2. set_solver.
      * rewrite lookup_insert_ne by done. intros Hd. destruct (HD1 _ _ Hd) as (Hlt & j & Hj & Hnj & E).
        split; [lia|]. exists j. set_solver.
    + intros j Hj. apply HD2. set_solver.
  - split; simpl in *.
    + done.
    + intros b d. destruct (decide (m_next (cw_mgr s) = b)) as [<-|Hb].
      * rewrite lookup_insert_eq. intros [= <-]. simpl. split; [lia|]. intros u t. by rewrite lookup_empty.
      * rewrite lookup_insert_ne by done. by apply HT2.
    + intros id b d tm [Hid Hd]. simpl in *. destruct (decide (m_next (cw_mgr s) = b)) as [<-|Hb].
      * rewrite lookup_insert_eq in Hd. injection Hd as <-. simpl. rewrite lookup_insert_eq. intros [= <-]. simpl.
        split; [|unfold allowance; simpl; lia]. apply lookup_insert_Some in Hid as [[-> _]|[_ Hid]]; [done|].
        destruct (r_calls _ HR _ _ Hid) as (d & Hd & _). by destruct (Hold _ _ Hd).
      * rewrite lookup_insert_ne in Hd by done. apply (HT3 id b d). by apply Hlive.
    + intros id b d u t tm [Hid Hd]. simpl in *. destruct (decide (m_next (cw_mgr s) = b)) as [<-|Hb].
      * rewrite lookup_insert_eq in Hd. injection Hd as <-. simpl. by rewrite lookup_empty.
      * rewrite lookup_insert_ne in Hd by done. apply (HT4 id b d). by apply Hlive.
  - intros id (b & d & [Hid Hd] & Hn). simpl in *. destruct (decide (m_next (cw_mgr s) = b)) as [<-|Hb].
    + rewrite lookup_insert_eq in Hd. injection Hd as <-. simpl in Hn. by rewrite lookup_insert_eq in Hn.
    + rewrite lookup_insert_ne in Hd by done. exists b, d. split; [by apply Hlive|].
      by apply lookup_insert_None in Hn as [Hn _].
Qed.

(** ** The handlers *)

Context {ulib : UuidLib} {fr : CallFriends} {hub : HubOnline} {json : CallJson}.

#[local] Abbreviation quiet' := (quiet call_inv guards (λ _, True)) (only parsing).
#[local] Abbreviation owns' := (owns call_inv guards) (only parsing).

Lemma on_world_keeps {A} (m : M World A) : keeps call_inv guards (on_world m).
Proof.
  intros F s HI. unfold on_world. destruct (m (cw_world s)). split; [|by apply guards_refl].
  by eapply inv_world; [..|exact HI].
Qed.

Lemma locked_keeps {A} (f : Manager → A * Manager) :
  (∀ F w n m, call_inv F (mk_CallWorld w m n) →
     call_inv F (mk_CallWorld w (f m).2 n) ∧ ∀ id, unguarded (f m).2 id → unguarded m id) →
  keeps call_inv guards (locked f).
Proof. intros Hf F [w m n] HI. unfold locked, guards. simpl. specialize (Hf F w n m HI). by destruct (f m). Qed.

Lemma look_keeps {A} (f : Manager → A) : keeps call_inv guards (locked (λ m, (f m, m))).
Proof. by apply locked_keeps. Qed.

Lemma clock_keeps : keeps call_inv guards clock.
Proof. intros F s HI. by apply inv_same. Qed.

(** One more action. *)
Lemma quiet_act {A B} Q (m : CallWorld → A * CallWorld) (f : A → prog CallWorld B) :
  keeps call_inv guards m → (∀ a, quiet call_inv guards Q (f a)) → quiet call_inv guards Q (atomically m ≫= f).
Proof. intros Hm Hf. by apply (quiet_bind _ _ (λ _, True)); [apply quiet_atomically|]. Qed.

Lemma quiet_then {A} Q (p : prog CallWorld unit) (q : prog CallWorld A) :
  quiet' p → quiet call_inv guards Q q → quiet call_inv guards Q (p ;; q).
Proof. intros Hp Hq. by apply (quiet_bind _ _ (λ _, True)). Qed.

Lemma try_quiet m : quiet' (try_ m).
Proof. by apply quiet_act; [apply on_world_keeps|]. Qed.

Lemma fail_quiet to id code : quiet' (fail to id code).
Proof. apply try_quiet. Qed.

Lemma end_quiet id reason : quiet' (end_ id reason).
Proof.
  apply quiet_act; [apply clock_keeps|]. intros now. apply quiet_act.
  { apply locked_keeps. intros F w n m. apply end_locked_ok. }
  intros [c|]; [|done]. apply quiet_then; [apply try_quiet|]. apply quiet_then; [apply try_quiet|].
  destruct (_ && _); [apply try_quiet|done].
Qed.

Lemma remaining_quiet u now : quiet call_inv guards (λ r, ∀ d, r = Ok d → d <= MaxDuration) (remaining u now).
Proof.
  unfold remaining. destruct (_ <=? _); [intros d [= <-]; lia|].
  apply quiet_act; [apply on_world_keeps|]. intros [n|e]; intros d [= <-]. lia.
Qed.

Lemma accept_limit_quiet us now limit :
  limit <= MaxDuration → quiet call_inv guards (λ r, ∀ d, r = Ok d → d <= MaxDuration) (accept_limit us now limit).
Proof.
  revert limit. induction us as [|u us IH]; intros limit Hl; simpl; [intros d [= <-]; lia|].
  apply (quiet_bind _ _ _ _ _ _ (remaining_quiet u now)). intros [d|e] Hd; [|by intros d].
  apply IH. lia.
Qed.

(** The goroutines that hold no id yet. *)
Lemma accept_quiet from id : quiet' (accept from id).
Proof.
  apply quiet_act; [apply clock_keeps|]. intros now. apply quiet_act; [apply look_keeps|]. intros pending.
  apply (quiet_bind _ _ (λ r, ∀ d, r = Ok d → d <= MaxDuration)).
  { assert (∀ d, Ok MaxDuration = Ok d → d <= MaxDuration) as Hmax by (intros d [= <-]; lia).
    destruct pending as [[a c]|]; [|exact Hmax]. destruct (decide _); [|exact Hmax].
    by apply accept_limit_quiet. }
  intros [limit|e] Hl; [|apply fail_quiet]. destruct (_ <=? _); [apply end_quiet|].
  apply quiet_act. { intros F s. apply accept_locked_ok. by apply Hl. }
  intros [cn|]; [|apply fail_quiet]. do 2 (apply quiet_then; [apply try_quiet|]). apply try_quiet.
Qed.

Lemma signal_quiet from id data : quiet' (signal from id data).
Proof.
  unfold signal. destruct (_ || _); [apply fail_quiet|]. apply quiet_act.
  { apply locked_keeps. intros F w n m. apply signal_locked_ok. }
  intros [| |to]; try apply fail_quiet. apply try_quiet.
Qed.

Lemma hangUp_quiet from id : quiet' (hangUp from id).
Proof.
  apply quiet_act; [|intros [r|]; [apply end_quiet|apply fail_quiet]]. apply locked_keeps. intros F w n m.
  unfold hangUp_locked. destruct (calls_get id m) as [[a c]|]; [|done]. by destruct (negb _).
Qed.

Lemma Connected_quiet cn : quiet' (Connected cn).
Proof.
  apply quiet_act. { apply locked_keeps. intros F w n m. apply connected_locked_ok. }
  intros [|c|c p d]; [done|apply try_quiet|]. apply quiet_then; apply try_quiet.
Qed.

Lemma Disconnected_quiet cn : quiet' (Disconnected cn).
Proof.
  apply quiet_act. { intros F s. apply disconnected_locked_ok. }
  intros [id|]; [apply end_quiet|done].
Qed.

Lemma EndBetween_quiet a b : quiet' (EndBetween a b).
Proof.
  apply quiet_act; [apply look_keeps|]. intros [[i c]|]; [|done]. destruct (decide _); [apply end_quiet|done].
Qed.

#[local] Hint Resolve fail_quiet end_quiet accept_quiet signal_quiet hangUp_quiet Connected_quiet Disconnected_quiet
  EndBetween_quiet : quiet.

Lemma quiet_owns o p : quiet' p → owns' o p.
Proof. apply owns_quiet. Qed.

Lemma owns_then {A} o (m : CallWorld → A * CallWorld) f :
  (∀ R s, o ## R → call_inv (o ∪ R) s →
     guards s (m s).2 ∧ ∃ o', o' ## R ∧ call_inv (o' ∪ R) (m s).2 ∧ owns' o' (f (m s).1)) →
  owns' o (atomically m ≫= f).
Proof. by constructor. Qed.

(** [start] holds the id it has drawn until it uses it. *)
Lemma start_owns from to : owns' ∅ (start from to).
Proof.
  unfold start. destruct (_ || _) eqn:Eg; [auto using quiet_owns with quiet|].
  apply orb_false_iff in Eg as [_ Hne%bool_decide_eq_false]. 
  apply (owns_bind _ _ (λ _, True)); [apply quiet_atomically, on_world_keeps|].
  intros [[|]|e] _; try auto using quiet_owns with quiet.
  apply (owns_bind _ _ (λ _, True)); [apply quiet_atomically, clock_keeps|]. intros now _.
  apply owns_then. intros R s Hd [HR [HD1 HD2] HT]. split; [by apply guards_refl|].
  assert (cw_ids s ∉ R) as Hfresh by (intros Hi; apply (Nat.lt_irrefl (cw_ids s)), HD2; set_solver).
  exists {[cw_ids s]}. split; [set_solver|]. split.
  { split; simpl; [done| |done]. split.
    - intros a c Ha. destruct (HD1 _ _ Ha) as (Hlt & i & Hi & Hni & E). split; [done|]. exists i.
      split; [lia|]. split; [|done]. intros [->%elem_of_singleton|Hi']%elem_of_union; [lia|]. apply Hni. set_solver.
    - intros i [->%elem_of_singleton|Hi]%elem_of_union; [lia|]. apply Nat.lt_lt_succ_r, HD2. set_solver. }
  apply (owns_bind _ _ _ _ _ _ (remaining_quiet _ _)). intros [rest|e] _;
    [|auto using quiet_owns with quiet].
  destruct (_ <=? _); [auto using quiet_owns with quiet|].
  apply owns_then. intros R' s' Hd' HI'.
  destruct (start_locked_ok R' s' (cw_ids s) from to now) as [HI2 HG]; [set_solver|done|done|].
  split; [done|]. exists ∅. split; [set_solver|]. split; [by rewrite (left_id_L ∅ (∪))|].
  apply quiet_owns. destruct (start_locked _ _ _ _ _).1; try apply fail_quiet; [by apply quiet_then; apply try_quiet|].
  do 3 (apply quiet_then; [apply try_quiet|]). apply quiet_act; [apply on_world_keeps|].
  intros online. destruct (_ && _); [apply try_quiet|done].
Qed.

Lemma arrives_owns p : arrives p → owns' ∅ p.
Proof.
  intros [from event raw|cn|cn|a b].
  - unfold HandleCall. destruct (unmarshal_idPayload raw) as [q|]; [|auto using quiet_owns with quiet].
    destruct (_ >? _); [auto using quiet_owns with quiet|].
    destruct (decide _); [apply start_owns|].
    destruct (decide _); [auto using quiet_owns with quiet|].
    destruct (decide _); [auto using quiet_owns with quiet|].
    destruct (_ || _); [auto using quiet_owns with quiet|auto using quiet_owns with quiet].
  - auto using quiet_owns with quiet.
  - auto using quiet_owns with quiet.
  - auto using quiet_owns with quiet.
Qed.
End inv.
