(* ===== verification/Calls_Theorems.v ===== *)
(** * Calls: the theorems

    One call per user, and every call ends. *)

From S2P Require Import Prelude GoLib Threads Types Db Sql_Calls World Calls Calls_Props.

#[local] Open Scope Z_scope.

Section theorems.
Context {ulib : UuidLib} {ids : FreshIds} {cfg : ManagerConfig} {fr : CallFriends} {hub : HubOnline} {json : CallJson}.

(** What can be reached from a manager that has just been made. *)
Definition call_reach (s : CallWorld) (ts : list (prog CallWorld unit)) : Prop :=
  ∃ s0, cw_mgr s0 = NewManager ∧ rtc call_step (s0, []) (s, ts).

#[local] Abbreviation ok := (pool_ok call_inv guards) (only parsing).

Lemma fires_keeps s p s' F : fires s p s' → call_inv F s → call_inv F s' ∧ owns call_inv guards ∅ p.
Proof.
  intros [s1 t tm Ht Hdue] [HR HD HT]. split; [|apply quiet_owns, end_quiet].
  split; [by destruct HR|by destruct HD|]. apply timed_fewer; [done|apply delete_subseteq].
Qed.

Lemma outside_keeps s s' F : outside s s' → call_inv F s → call_inv F s'.
Proof. intros [s1 w Hw]. by apply inv_world. Qed.

Lemma call_step_ok c c' : ok c → call_step c c' → ok c'.
Proof. apply pool_invariant; [apply arrives_owns|apply fires_keeps|apply outside_keeps]. Qed.

Lemma new_inv s : cw_mgr s = NewManager → call_inv ∅ s.
Proof.
  intros E. split; rewrite E; split; unfold NewManager, live; simpl; try (intros; set_solver);
    intros *; rewrite ?lookup_empty; try done; by intros [? ?].
Qed.

(** ** Somebody ends every call *)

(** Goroutines that are about to end a call. *)
Definition ending (id : uuid) (p : prog CallWorld unit) : Prop :=
  ∃ reason, p = end_ id reason ∨ ∃ s s', next (end_ id reason) s = Some (p, s').

Definition watched (c : CallWorld * list (prog CallWorld unit)) : Prop :=
  ∀ id, unguarded (cw_mgr c.1) id → ∃ p, p ∈ c.2 ∧ ending id p.

(** A step of a goroutine that is ending a call: it still is, or the call is gone. *)
Lemma ending_step id p s p' s' :
  ending id p → next p s = Some (p', s') → ending id p' ∨ ¬ unguarded (cw_mgr s') id.
Proof.
  intros (reason & [->|(s1 & s2 & Hp)]) Hn; [left; exists reason; right; by exists s, s'|right].
  simpl in Hp. injection Hp as <- <-. simpl in Hn. injection Hn as _ <-.
  unfold locked. destruct (end_locked id (cw_mgr s)) as [oc m'] eqn:E. simpl.
  intros (a & c & HL & _). pose proof (end_locked_calls id (cw_mgr s)) as Hend.
  pose proof (end_locked_live id (cw_mgr s) id a c) as Hl. rewrite E in Hend, Hl. simpl in *.
  destruct Hend as [Hend|Hend]; [destruct HL as [HL _]; congruence|].
  apply Hl, calls_get_live in HL. congruence.
Qed.

Lemma watched_step c c' : ok c → watched c → call_step c c' → watched c'.
Proof.
  intros Hok HW Hstep. destruct Hstep as [s ts p Hp|s s' p p' ts1 ts2 Hn|s s' p ts Hf|s s' ts Ho].
  - intros id Hid. destruct (HW id Hid) as (q & Hq & He). exists q. split; [|done]. simpl. apply elem_of_app. by left.
  - destruct (pool_run call_inv guards s ts1 p ts2 p' s' Hok Hn) as [_ HG]. intros id Hid. simpl in *.
    destruct (HW id (HG id Hid)) as (q & Hq & He). simpl in Hq.
    apply elem_of_app in Hq as [Hq|[->|Hq]%elem_of_cons].
    + exists q. split; [|done]. apply elem_of_app. by left.
    + destruct (ending_step _ _ _ _ _ He Hn); [|done]. exists p'. split; [|done]. apply elem_of_app. right.
      apply list_elem_of_here.
    + exists q. split; [|done]. apply elem_of_app. right. by apply list_elem_of_further.
  - destruct Hok as (F & _ & [HR HD HT]). destruct Hf as [s t tm Ht Hdue]. intros id (a & c & HL & Hn). simpl in *.
    destruct (m_timers (cw_mgr s) !! c_timer c) as [tm'|] eqn:E.
    + apply lookup_delete_None in Hn as [->|Hn]; [|congruence]. rewrite Ht in E. injection E as <-.
      destruct (t_main _ HT id a c tm HL Ht) as [Eid _].
      exists (end_ (tm_call tm) (tm_reason tm)). split; [apply elem_of_app; right; by apply list_elem_of_singleton|].
      exists (tm_reason tm). left. by rewrite Eid.
    + destruct (HW id) as (q & Hq & He); [by exists a, c|]. exists q. split; [|done]. apply elem_of_app. by left.
  - destruct Ho as [s w Hw]. exact HW.
Qed.

Lemma reach_ok s ts : call_reach s ts → ok (s, ts) ∧ watched (s, ts).
Proof.
  intros (s0 & E0 & Hr). assert (ok (s0, []) ∧ watched (s0, [])) as H0.
  { split; [exists ∅; split; [constructor|by apply new_inv]|].
    intros id (a & c & [HL _] & _). simpl in HL. by rewrite E0 in HL. }
  revert H0. generalize (s0, @nil (prog CallWorld unit)) (s, ts) Hr. clear. intros c c' Hr.
  induction Hr as [c|c c1 c' Hs Hr IH]; [done|]. intros [H1 H2]. apply IH.
  split; [by eapply call_step_ok|by eapply watched_step].
Qed.

(** Whatever the state it runs in, the goroutine leaves no such call. *)
Definition removes (id : uuid) (p : prog CallWorld unit) : Prop :=
  ∀ s, calls_get id (cw_mgr (run p s).2) = None.

Lemma on_world_mgr {A} (m : M World A) s : cw_mgr (on_world m s).2 = cw_mgr s.
Proof. unfold on_world. by destruct (m (cw_world s)). Qed.

(** What [end_] does to the calls, once the clock is read, is what its critical
    section does. *)
Lemma ended_mgr id reason p s1 s2 s :
  next (end_ id reason) s1 = Some (p, s2) → cw_mgr (run p s).2 = (end_locked id (cw_mgr s)).2.
Proof.
  simpl. intros [= <- _]. simpl. unfold locked. destruct (end_locked id (cw_mgr s)) as [[c|] m] eqn:E; [|done].
  simpl. destruct (_ && _); simpl; by rewrite !on_world_mgr.
Qed.

Lemma end_mgr id reason s : cw_mgr (run (end_ id reason) s).2 = (end_locked id (cw_mgr s)).2.
Proof. exact (ended_mgr id reason _ s s s eq_refl). Qed.

Lemma end_locked_gone id m : calls_get id (end_locked id m).2 = None.
Proof.
  unfold end_locked. destruct (calls_get id m) as [[a c]|] eqn:E; [|done]. unfold calls_get. simpl.
  by rewrite lookup_delete_eq.
Qed.

Lemma ending_removes id p : ending id p → removes id p.
Proof.
  intros (reason & [->|(s1 & s2 & Hp)]) s.
  - rewrite end_mgr. apply end_locked_gone.
  - rewrite (ended_mgr _ _ _ _ _ _ Hp). apply end_locked_gone.
Qed.

(** A call that is on has a timer, or a goroutine that is about to end it. *)
Lemma call_watched s ts id a c :
  call_reach s ts → live (cw_mgr s) id a c →
  (∃ tm, m_timers (cw_mgr s) !! c_timer c = Some tm ∧ tm_call tm = id ∧ tm_due tm <= tm_set tm + allowance c) ∨
  ∃ p, p ∈ ts ∧ ending id p.
Proof.
  intros [(F & _ & [_ _ HT]) HW]%reach_ok HL. destruct (m_timers (cw_mgr s) !! c_timer c) as [tm|] eqn:E.
  - left. exists tm. split; [done|]. by apply (t_main _ HT id a c).
  - right. apply HW. by exists a, c.
Qed.

(** C6. Every call ends.  However the handlers, the timers and the rest of the
    process interleave, a call that is on has its timer set, to fire at most the
    ring time after it was set while it rings and at most MaxDuration after it was
    answered, or the goroutine that ends it is already there; and that goroutine
    leaves no such call, in whatever state it runs. *)
Theorem every_call_ends s ts id a c :
  call_reach s ts → calls_get id (cw_mgr s) = Some (a, c) →
  ∃ p, removes id p ∧
    (p ∈ ts ∨
     ∃ tm, m_timers (cw_mgr s) !! c_timer c = Some tm ∧ p = end_ (tm_call tm) (tm_reason tm) ∧
       tm_due tm <= tm_set tm + (if c_active c then MaxDuration else cm_ring)).
Proof.
  intros Hr Hc. apply calls_get_live in Hc. destruct (call_watched _ _ _ _ _ Hr Hc) as [(tm & Ht & <- & Hdue)|(p & Hp & He)].
  - exists (end_ (tm_call tm) (tm_reason tm)). split; [|right; by exists tm].
    apply ending_removes. exists (tm_reason tm). by left.
  - exists p. split; [by apply ending_removes|by left].
Qed.

(** C7. Nobody is in two calls, and nobody is kept busy by a call that is over:
    however the handlers and the timers interleave, a user is marked as in a call
    exactly when there is one with them, it is the only one, and its two sides
    are different. *)
Theorem one_call_per_user s ts u :
  call_reach s ts →
  (∀ id1 id2 a1 a2 c1 c2,
     calls_get id1 (cw_mgr s) = Some (a1, c1) → calls_get id2 (cw_mgr s) = Some (a2, c2) →
     party c1 u → party c2 u → id1 = id2) ∧
  (is_Some (m_byUser (cw_mgr s) !! u) ↔
     ∃ id a c, calls_get id (cw_mgr s) = Some (a, c) ∧ party c u ∧ peer c u ≠ u).
Proof.
  intros [(F & _ & [HR _ _]) _]%reach_ok.
  assert (∀ id a c, calls_get id (cw_mgr s) = Some (a, c) → party c u →
    m_byUser (cw_mgr s) !! u = Some a ∧ peer c u ≠ u ∧ c_id c = id) as Hby.
  { intros id a c HL Hp. apply calls_get_live in HL as [Hid Ha].
    destruct (r_calls _ HR _ _ Hid) as (c' & Ha' & <- & Hne & H1 & H2). simpl in *.
    simplify_eq. unfold party in Hp.
    apply orb_True in Hp as [Hp|Hp]; apply bool_decide_spec in Hp as ->; unfold peer.
    - rewrite decide_True by done. split_and!; [done|by apply not_eq_sym|done].
    - rewrite decide_False by (by apply not_eq_sym). done. }
  split.
  - intros id1 id2 a1 a2 c1 c2 H1 H2 P1 P2. destruct (Hby _ _ _ H1 P1) as (B1 & _ & <-).
    destruct (Hby _ _ _ H2 P2) as (B2 & _ & <-).
    apply calls_get_live in H1 as [_ H1]. apply calls_get_live in H2 as [_ H2]. congruence.
  - split.
    + intros [a Ha]. destruct (r_byUser _ HR _ _ Ha) as (c & Hc & Hu & Hid).
      assert (calls_get (c_id c) (cw_mgr s) = Some (a, c)) as HL by by apply calls_get_live.
      assert (party c u) as Hp.
      { unfold party. apply orb_True. destruct Hu as [Hu|Hu]; [left|right]; by apply bool_decide_spec. }
      exists (c_id c), a, c. split; [done|]. split; [done|].
      by destruct (Hby _ _ _ HL Hp) as (_ & Hne & _).
    + intros (id & a & c & HL & Hp & _). destruct (Hby _ _ _ HL Hp) as [H _]. by eexists.
Qed.
End theorems.

(** * Signalling and the daily limit

    What one handler does to the state it finds. *)

Section rules.
Context {ulib : UuidLib} {ids : FreshIds} {cfg : ManagerConfig} {fr : CallFriends} {hub : HubOnline} {json : CallJson}.

(** The events that were sent to one device in a run. *)
Definition sent_since (s s' : CallWorld) : list (Conn * Event) :=
  omap (λ e, match e with Sent to ev => Some (to, ev) | _ => None end)
    (drop (length (w_log (cw_world s))) (w_log (cw_world s'))).

Lemma run_atomically {A} (m : CallWorld → A * CallWorld) s : run (atomically m) s = m s.
Proof. unfold atomically. simpl. by destruct (m s). Qed.

(** A send to one device logs it and does nothing else. *)
Lemma run_SendToConn to name fields dur s :
  run (SendToConn to name fields dur) s =
  (tt, mk_CallWorld (with_log (w_log (cw_world s) ++ [Sent to (mk_Event name (PCall fields dur))]) (cw_world s))
         (cw_mgr s) (cw_ids s)).
Proof. done. Qed.

Lemma sent_once w m n to ev m' n' :
  sent_since (mk_CallWorld w m n) (mk_CallWorld (with_log (w_log w ++ [Sent to ev]) w) m' n') = [(to, ev)].
Proof. unfold sent_since. simpl. by rewrite drop_app_length. Qed.

Lemma try_mgr m s : cw_mgr (run (try_ m) s).2 = cw_mgr s.
Proof. unfold try_. rewrite run_bind, run_atomically. apply on_world_mgr. Qed.

Lemma run_fail to id code s :
  ∃ ev, ev_name ev = EvError ∧ sent_since s (run (fail to id code) s).2 = [(to, ev)] ∧
    cw_mgr (run (fail to id code) s).2 = cw_mgr s.
Proof.
  unfold fail. rewrite run_SendToConn. eexists. split; [|split; [by destruct s; apply sent_once|done]]. done.
Qed.

(** Signalling goes only from one device of an active call to its other device:
    whatever a client asks, an event CallSignal is sent to one device only, when the
    call is active and the sender is the device the sender's side is talking on, to the
    device of the other side; it counts against that side, at most 500 times a
    call. *)
Theorem signal_between_devices s from id data to ev :
  (to, ev) ∈ sent_since s (run (signal from id data) s).2 → ev_name ev = EvSignal →
  ∃ a c, calls_get id (cw_mgr s) = Some (a, c) ∧ c_active c ∧ party c (conn_User from) ∧
    conn c (conn_User from) = conn_ID from ∧ to = mk_Conn (peer c (conn_User from)) (conn c (peer c (conn_User from))) ∧
    default 0 (c_signals c !! conn_User from) < maxSignals ∧
    ∃ c', calls_get id (cw_mgr (run (signal from id data) s).2) = Some (a, c') ∧
      c_signals c' !! conn_User from = Some (default 0 (c_signals c !! conn_User from) + 1).
Proof.
  assert (∀ s1 code, cw_world s1 = cw_world s → (to, ev) ∈ sent_since s (run (fail from id code) s1).2 →
    ev_name ev = EvSignal → False) as Hfail.
  { intros s1 code E Hin Hev. destruct (run_fail from id code s1) as (ev' & Hev' & Hs & _).
    unfold sent_since in Hin, Hs. rewrite <- E, Hs in Hin. apply list_elem_of_singleton in Hin as [= -> ->].
    by rewrite Hev' in Hev. }
  unfold signal. destruct (_ || _); [intros Hin Hev; by destruct (Hfail s _ eq_refl Hin Hev)|].
  rewrite run_bind, run_atomically. unfold locked, signal_locked.
  destruct (calls_get id (cw_mgr s)) as [[a c]|] eqn:E;
    [|intros Hin Hev; by destruct (Hfail _ _ (eq_refl : cw_world (mk_CallWorld _ _ _) = _) Hin Hev)].
  destruct (_ || _ || _) eqn:Eg;
    [intros Hin Hev; by destruct (Hfail _ _ (eq_refl : cw_world (mk_CallWorld _ _ _) = _) Hin Hev)|].
  apply orb_false_iff in Eg as [[Eact Ep]%orb_false_iff Ec].
  apply negb_false_iff in Eact, Ep, Ec. apply bool_decide_eq_true in Ec.
  destruct (_ >? _) eqn:En; [intros Hin Hev; by destruct (Hfail _ _ (eq_refl : cw_world (mk_CallWorld _ _ _) = _) Hin Hev)|].
  cbn [fst snd]. rewrite run_SendToConn. destruct s as [w m n]. cbn [cw_world cw_mgr cw_ids snd] in *.
  rewrite sent_once. intros [= -> ->]%list_elem_of_singleton _. exists a, c.
  rewrite Z.gtb_ltb in En. apply Z.ltb_ge in En.
  split_and!; [done|by rewrite Eact|by rewrite Ep|done|done|lia|].
  exists (with_signals (<[conn_User from := default 0 (c_signals c !! conn_User from) + 1]> (c_signals c)) c).
  split; [|apply lookup_insert_eq]. apply calls_get_live in E as [Hid Ha].
  apply calls_get_live. split; [done|apply lookup_insert_eq].
Qed.

(** ** The daily limit *)

(** The seconds of answered calls of a user in the 24 hours before [now]. *)
Definition used_today (u : uuid) (now : time) (d : DB) : Z :=
  match (CallSecondsSince u (pgTime (now - 24 * hour)) (pgTime now) d).1 with Ok n => n | Err _ => 0 end.

(** The clock, the tables and the calls are the same. *)
Definition same_calls (s s' : CallWorld) : Prop :=
  w_db (cw_world s') = w_db (cw_world s) ∧ w_now (cw_world s') = w_now (cw_world s) ∧ cw_mgr s' = cw_mgr s.

(** What is left is no more than the limit leaves. *)
Definition within (u : uuid) (now : time) (s : CallWorld) (d : duration) : Prop :=
  d <= MaxDuration ∧ (0 < cm_daily → used_today u now (w_db (cw_world s)) * second + d <= cm_daily).

Lemma run_remaining u now s :
  same_calls s (run (remaining u now) s).2 ∧ ∀ d, (run (remaining u now) s).1 = Ok d → within u now s d.
Proof.
  unfold remaining. destruct (cm_daily <=? 0) eqn:E.
  - apply Z.leb_le in E. split; [done|]. intros d [= <-]. split; [done|lia].
  - rewrite run_bind, run_atomically. unfold on_world.
    destruct (query _ _) as [r w] eqn:Eq. apply query_cases in Eq as [(fs & d & Hq & ->)|(-> & fs & ->)].
    + injection Hq as <- <-. split; [done|]. intros d [= <-]. split; [lia|]. intros _. unfold used_today. simpl. lia.
    + by split.
Qed.

Lemma run_accept_limit us now limit s :
  same_calls s (run (accept_limit us now limit) s).2 ∧
  ∀ d, (run (accept_limit us now limit) s).1 = Ok d → d <= limit ∧ ∀ u, u ∈ us → within u now s d.
Proof.
  revert limit s. induction us as [|u us IH]; intros limit s.
  - simpl. split; [done|]. intros d [= <-]. split; [lia|]. intros u Hu. by apply not_elem_of_nil in Hu.
  - simpl. rewrite run_bind. destruct (run_remaining u now s) as [Hs Hd].
    destruct (run (remaining u now) s) as [[rest|e] s1]; simpl in *; [|done].
    destruct (IH (Z.min limit rest) s1) as [Hs1 Hd1]. destruct (Hd rest eq_refl) as [Hr1 Hr2].
    unfold same_calls, within in *. destruct Hs as (E1 & E2 & E3), Hs1 as (F1 & F2 & F3).
    split; [by rewrite F1, F2, F3|]. intros d Hl. destruct (Hd1 d Hl) as [Hle Hus]. rewrite E1 in Hus. split; [lia|].
    intros v [->|Hv]%elem_of_cons; [split; lia|by apply Hus].
Qed.

(** The answer, once the limit is known. *)
Lemma run_answered from id now limit s a c a' c' tm :
  calls_get id (cw_mgr s) = Some (a, c) → c_active c = false →
  let s' := (accept_locked from id now limit s).2 in
  calls_get id (cw_mgr s') = Some (a', c') → c_active c' → m_timers (cw_mgr s') !! c_timer c' = Some tm →
  conn_User from = c_callee c ∧ c_calleeConn c' = conn_ID from ∧ tm_call tm = id ∧ tm_due tm - tm_set tm = limit.
Proof.
  intros E Eact. unfold accept_locked. rewrite E, Eact, orb_false_r.
  destruct (bool_decide (c_callee c = conn_User from)) eqn:Eb; simpl.
  - apply bool_decide_eq_true in Eb. apply calls_get_live in E as [Hid Ha]. intros [Hid' Ha']%calls_get_live.
    simpl in Hid', Ha'. simplify_eq. rewrite lookup_insert_eq in Ha'. injection Ha' as <-. simpl. intros _.
    rewrite lookup_insert_eq. intros [= <-]. simpl. split_and!; [done..|lia].
  - rewrite E. intros [= <- <-]. by rewrite Eact.
Qed.

(** What answering does to the calls: it ends the call for want of time, does
    nothing, or is its critical section with a limit both sides allow. *)
Lemma run_accept from id s a c :
  calls_get id (cw_mgr s) = Some (a, c) →
  let now := w_now (cw_world s) in let m' := cw_mgr (run (accept from id) s).2 in
  m' = (end_locked id (cw_mgr s)).2 ∨ m' = cw_mgr s ∨
  ∃ limit s1, m' = cw_mgr (accept_locked from id now limit s1).2 ∧ same_calls s s1 ∧
    ∀ u, u ∈ [c_caller c; c_callee c] → within u now s limit.
Proof.
  intros E. cbv zeta. unfold accept. rewrite run_bind, run_atomically. cbn [fst snd clock].
  rewrite run_bind, run_atomically. set (now := w_now (cw_world s)).
  assert (locked (λ m, (calls_get id m, m)) s = (Some (a, c), s)) as ->
    by (destruct s; unfold locked; simpl in *; by rewrite E).
  cbn [fst snd]. rewrite run_bind. destruct (decide (c_callee c = conn_User from)) as [Ecal|Ecal].
  - destruct (run_accept_limit [c_caller c; c_callee c] now MaxDuration s) as [Hs Hl].
    destruct (run (accept_limit _ _ _) s) as [[limit|e] s1]; cbn [fst snd] in *.
    + destruct (limit <=? 0); [left; rewrite end_mgr; by destruct Hs as (_ & _ & ->)|].
      right; right. exists limit, s1. split; [|split; [done|by apply Hl]].
      rewrite run_bind, run_atomically. destruct (accept_locked from id now limit s1) as [[cn|] s2]; cbn [fst snd].
      * rewrite run_bind, run_bind, try_mgr, run_SendToConn. apply try_mgr.
      * by destruct (run_fail from id CodeUnknownCall s2) as (ev & _ & _ & ->).
    + right; left. destruct (run_fail from id CodeUnavailable s1) as (ev & _ & _ & ->). apply Hs.
  - right; left. change (run (mret (Ok MaxDuration)) s) with (@Ok duration MaxDuration, s). cbn [fst snd].
    change (MaxDuration <=? 0) with false. cbv iota. rewrite run_bind, run_atomically.
    unfold accept_locked. rewrite E, bool_decide_eq_false_2 by done. cbn [negb orb fst snd].
    by destruct (run_fail from id CodeUnknownCall s) as (ev & _ & _ & ->).
Qed.

(** A call cannot outlast what its two sides have left today: when a device
    answers, it is a device of the callee, and the timer that will end the call is
    set to at most MaxDuration and to no more than the daily limit leaves either
    side after the answered calls of its last 24 hours. *)
Theorem answer_within_daily_limit s from id a c a' c' tm :
  calls_get id (cw_mgr s) = Some (a, c) → c_active c = false →
  let s' := (run (accept from id) s).2 in
  calls_get id (cw_mgr s') = Some (a', c') → c_active c' → m_timers (cw_mgr s') !! c_timer c' = Some tm →
  conn_User from = c_callee c ∧ c_calleeConn c' = conn_ID from ∧ tm_call tm = id ∧ tm_due tm - tm_set tm <= MaxDuration ∧
  ∀ u, u ∈ [c_caller c; c_callee c] → 0 < cm_daily →
    used_today u (w_now (cw_world s)) (w_db (cw_world s)) * second + (tm_due tm - tm_set tm) <= cm_daily.
Proof.
  intros E Eact. cbv zeta. destruct (run_accept from id s a c E) as [->|[->|(limit & s1 & -> & (_ & _ & Hm) & Hl)]].
  - by rewrite end_locked_gone.
  - rewrite E. intros [= <- <-]. by rewrite Eact.
  - assert (calls_get id (cw_mgr s1) = Some (a, c)) as E1 by by rewrite Hm.
    intros Hc' Hact Htm. destruct (run_answered _ _ _ _ _ _ _ _ _ _ E1 Eact Hc' Hact Htm) as (H1 & H2 & H3 & ->).
    split_and!; [done..| |].
    + apply (Hl (c_caller c)). apply list_elem_of_here.
    + intros u Hu Hpos. by destruct (Hl u Hu) as [_ Hw]; apply Hw.
Qed.
End rules.
