(* ===== verification/Demo_Calls.v ===== *)
(** * Demo_Calls: the call manager at work

    A concrete hub and configuration, some calls, the theorems of Calls_Theorems and
    Calls_Rules at them, and two races. *)

From Stdlib Require Import Strings.Ascii.
From S2P Require Import Prelude GoLib Threads Types Db Sql_Calls World Demo Calls Calls_Props Calls_Theorems.

#[local] Open Scope Z_scope.

Definition demo_v7 (n : nat) : uuid := (1000 + N.of_nat n)%N.

#[export] Program Instance demo_ids : FreshIds := { v7 := demo_v7 }.
Next Obligation. intros n m H. unfold demo_v7 in H. lia. Qed.
Next Obligation. intros n. unfold demo_v7, uuid_nil. lia. Qed.

(** Two hours a day, and pushes. *)
#[export] Instance demo_calls_config : ManagerConfig :=
  { cm_ring := RingTimeout; cm_grace := ReconnectGrace; cm_daily := 2 * hour; cm_notify := true }.

(** Everybody is friends, nobody else is connected. *)
#[export] Instance demo_call_friends : CallFriends := { cf_AreFriends _ _ := mret true }.
#[export] Instance demo_online : HubOnline := { hub_Online _ := mret false }.

(** Payloads: who to call, or which call. *)
#[export] Instance demo_call_json : CallJson := {
  unmarshal_idPayload raw :=
    match raw with
    | String c s =>
      u ← uuid_parse s;
      if decide (c = "t"%char) then Some (mk_idPayload u uuid_nil EmptyString)
      else if decide (c = "c"%char) then Some (mk_idPayload uuid_nil u EmptyString)
      else if decide (c = "s"%char) then Some (mk_idPayload uuid_nil u "{}")
      else None
    | EmptyString => None
    end;
  json_Valid _ := true;
}.

Definition phone (u : uuid) : Conn := mk_Conn u (u + 500)%N.
Definition to_user (u : uuid) : string := "t" +:+ uuid_string u.
Definition for_call (u : uuid) : string := "c" +:+ uuid_string u.
Definition with_signal (u : uuid) : string := "s" +:+ uuid_string u.

Definition quiet_line : CallWorld := mk_CallWorld (demo_world demo_db) NewManager 0.
Definition the_call : uuid := demo_v7 0.

(** Alice calls Bob; Bob answers. *)
Definition ringing : CallWorld := (run (HandleCall (phone alice) EvStart (to_user bob)) quiet_line).2.
Definition talking : CallWorld := (run (HandleCall (phone bob) EvAccept (for_call the_call)) ringing).2.

Definition done_ : prog CallWorld unit := Ret tt.

Lemma ringing_reached : call_reach ringing [done_].
Proof. exists quiet_line. split; [done|]. apply (rtc_serve _ _ _ _ _ []), a_event. Qed.

Lemma talking_reached : call_reach talking [done_; done_].
Proof.
  destruct ringing_reached as (s0 & E & Hr). exists s0. split; [done|]. etrans; [exact Hr|].
  apply (rtc_serve _ _ _ _ _ [done_]), a_event.
Qed.

Definition call_is (s : CallWorld) (active : bool) : bool :=
  match calls_get the_call (cw_mgr s) with Some (a, c) => Nat.eqb a 0 && Bool.eqb (c_active c) active | None => false end.

Example ringing_rings : call_is ringing false = true. Proof. vm_compute. reflexivity. Qed.
Example talking_talks : call_is talking true = true. Proof. vm_compute. reflexivity. Qed.
Example phone_rang : Pushed [bob] (mk_Event EvIncoming (PCall [("call_id", uuid_string the_call); ("from_id", uuid_string alice)] None))
  ∈ w_log (cw_world ringing).
Proof. vm_compute. repeat (first [apply list_elem_of_here|apply list_elem_of_further]). Qed.

(** ** The theorems at these calls *)

Lemma every_call_ends_witness :
  match calls_get the_call (cw_mgr talking) with
  | Some (a, c) => ∃ p, removes the_call p ∧
      (p ∈ [done_; done_] ∨
       ∃ tm, m_timers (cw_mgr talking) !! c_timer c = Some tm ∧ p = end_ (tm_call tm) (tm_reason tm) ∧
         tm_due tm <= tm_set tm + (if c_active c then MaxDuration else cm_ring))
  | None => False
  end.
Proof.
  destruct (calls_get the_call (cw_mgr talking)) as [[a c]|] eqn:E.
  - exact (every_call_ends _ _ _ a c talking_reached E).
  - vm_compute in E. discriminate.
Defined.

Lemma one_call_per_user_witness :
  is_Some (m_byUser (cw_mgr talking) !! bob) ∧
  ∃ id a c, calls_get id (cw_mgr talking) = Some (a, c) ∧ party c bob ∧ peer c bob ≠ bob.
Proof.
  destruct (one_call_per_user talking [done_; done_] bob talking_reached) as [_ [Hb _]].
  assert (is_Some (m_byUser (cw_mgr talking) !! bob)) as Hbusy by (vm_compute; by eexists).
  split; [exact Hbusy|exact (Hb Hbusy)].
Defined.

Definition a_signal : CallWorld := (run (signal (phone alice) the_call "{}") talking).2.

Lemma signal_between_devices_witness :
  match sent_since talking a_signal with
  | [(to, ev)] => to = phone bob ∧
      ∃ a c, calls_get the_call (cw_mgr talking) = Some (a, c) ∧ c_active c ∧ party c alice ∧
        conn c alice = conn_ID (phone alice) ∧ to = mk_Conn (peer c alice) (conn c (peer c alice)) ∧
        default 0 (c_signals c !! alice) < maxSignals ∧
        ∃ c', calls_get the_call (cw_mgr a_signal) = Some (a, c') ∧
          c_signals c' !! alice = Some (default 0 (c_signals c !! alice) + 1)
  | _ => False
  end.
Proof.
  destruct (sent_since talking a_signal) as [|[to ev] [|]] eqn:E; try (vm_compute in E; discriminate).
  assert (to = phone bob ∧ ev_name ev = EvSignal) as [Hto Hev] by (vm_compute in E; by injection E as <- <-).
  split; [exact Hto|].
  apply (signal_between_devices talking (phone alice) the_call "{}" to ev); [|exact Hev].
  fold a_signal. rewrite E. apply list_elem_of_here.
Defined.

Lemma answer_within_daily_limit_witness :
  match calls_get the_call (cw_mgr ringing), calls_get the_call (cw_mgr talking) with
  | Some (a, c), Some (a', c') =>
    match m_timers (cw_mgr talking) !! c_timer c' with
    | Some tm => tm_due tm - tm_set tm = 2 * hour ∧ conn_User (phone bob) = c_callee c ∧
        used_today alice (w_now (cw_world ringing)) (w_db (cw_world ringing)) * second + (tm_due tm - tm_set tm) <= 2 * hour
    | None => False
    end
  | _, _ => False
  end.
Proof.
  destruct (calls_get the_call (cw_mgr ringing)) as [[a c]|] eqn:E; [|vm_compute in E; discriminate].
  destruct (calls_get the_call (cw_mgr talking)) as [[a' c']|] eqn:E'; [|vm_compute in E'; discriminate].
  destruct (m_timers (cw_mgr talking) !! c_timer c') as [tm|] eqn:Et;
    [|vm_compute in E'; injection E' as <- <-; vm_compute in Et; discriminate].
  assert (c_active c = false ∧ c_caller c = alice) as [Ea Ec] by (vm_compute in E; by injection E as <- <-).
  assert (c_active c') as Ea' by (vm_compute in E'; by injection E' as <- <-).
  destruct (answer_within_daily_limit ringing (phone bob) the_call a c a' c' tm E Ea E' Ea' Et)
    as (H1 & _ & _ & _ & Hu).
  split; [vm_compute in E'; injection E' as <- <-; vm_compute in Et; by injection Et as <-|].
  split; [exact H1|]. apply (Hu alice); [rewrite Ec; apply list_elem_of_here|done].
Defined.

(** ** Two races *)

(** Nobody answered for 45 seconds, and the timer fires. *)
Definition late : CallWorld :=
  mk_CallWorld (with_now (1000 + RingTimeout) (cw_world ringing)) (cw_mgr ringing) (cw_ids ringing).
Definition fired : CallWorld := mk_CallWorld (cw_world late) (Stop 0 (cw_mgr late)) (cw_ids late).
(** Bob answers before the goroutine of the timer runs. *)
Definition answered : CallWorld := (run (HandleCall (phone bob) EvAccept (for_call the_call)) fired).2.
Definition missed : CallWorld := (run (end_ the_call ReasonMissed) answered).2.

Lemma missed_reached : call_reach missed [done_; done_; done_].
Proof.
  destruct ringing_reached as (s0 & E & Hr). exists s0. split; [done|]. etrans; [exact Hr|].
  eapply rtc_l; [apply (s_outside _ _ _ _ late), o_world; by vm_compute|].
  eapply rtc_l.
  { apply (s_fire _ _ _ late fired (end_ the_call ReasonMissed)).
    assert (∃ tm, m_timers (cw_mgr late) !! 0%nat = Some tm ∧ tm_due tm <= w_now (cw_world late) ∧
      tm_call tm = the_call ∧ tm_reason tm = ReasonMissed) as (tm & Ht & Hd & <- & <-).
    { eexists. split; [vm_compute; reflexivity|]. split; [by vm_compute|]. split; reflexivity. }
    by apply (f_timer late 0 tm). }
  etrans; [exact (rtc_serve _ _ _ (HandleCall (phone bob) EvAccept (for_call the_call)) fired
                    [done_; end_ the_call ReasonMissed] (a_event _ _ _))|].
  exact (rtc_run _ _ _ (end_ the_call ReasonMissed) answered [done_] [done_]).
Qed.

(** A call that has been answered can end as missed, with a missed-call push to the
    one who answered: [end] does not ask whether the call still rings, and Stop does
    not stop a timer that has fired. *)
Theorem answered_call_can_end_as_missed :
  ∃ s ts row, call_reach s ts ∧ calls (w_db (cw_world s)) !! the_call = Some row ∧ is_Some (call_AnsweredAt row) ∧
    call_EndReason row = Some ReasonMissed ∧
    Notified (mk_Job KindMissedCall [bob] alice uuid_nil uuid_nil EmptyString the_call) ∈ w_log (cw_world s).
Proof.
  assert (∃ row, calls (w_db (cw_world missed)) !! the_call = Some row ∧ is_Some (call_AnsweredAt row) ∧
    call_EndReason row = Some ReasonMissed) as (row & H1 & H2 & H3).
  { eexists. split; [vm_compute; reflexivity|]. split; [by eexists|reflexivity]. }
  exists missed, [done_; done_; done_], row. split; [apply missed_reached|]. do 3 (split; [assumption|]).
  vm_compute. repeat (first [apply list_elem_of_here|apply list_elem_of_further]).
Qed.

(** Alice calls Bob; before the call is in the log, Bob ends the friendship. *)
Definition starting : prog CallWorld unit * CallWorld :=
  advance 5 (HandleCall (phone alice) EvStart (to_user bob)) quiet_line.
Definition unfriended : CallWorld := (run (EndBetween bob alice) starting.2).2.
Definition left_open : CallWorld := (run starting.1 unfriended).2.

Lemma left_open_reached : call_reach left_open [done_; done_].
Proof.
  exists quiet_line. split; [done|]. eapply rtc_l; [apply s_arrive, a_event|].
  etrans; [exact (rtc_advance _ _ _ 5 (HandleCall (phone alice) EvStart (to_user bob)) quiet_line [] [])|].
  etrans; [exact (rtc_serve _ _ _ (EndBetween bob alice) starting.2 [starting.1] (a_endBetween _ _))|].
  exact (rtc_run _ _ _ starting.1 unfriended [] [done_]).
Qed.

Definition open_row (s : CallWorld) : bool :=
  match calls (w_db (cw_world s)) !! the_call with
  | Some r => bool_decide (call_State r = "ringing") && bool_decide (call_EndedAt r = None)
  | None => false
  end.

(** The names of the events about calls that were pushed to all of a user's
    devices, in order. *)
Definition rung (u : uuid) (s : CallWorld) : list string :=
  omap (λ e, match e with Pushed us ev => if decide (u ∈ us) then Some (ev_name ev) else None | _ => None end)
    (w_log (cw_world s)).

(** A call can be over, every goroutine finished, with its row in the log still
    ringing and the callee told that it ended before being told that it rings:
    [start] writes the row and rings after it has let go of the lock. *)
Theorem ended_call_can_stay_open :
  ∃ s ts, call_reach s ts ∧ Forall (λ p, p = done_) ts ∧ calls_get the_call (cw_mgr s) = None ∧ open_row s = true ∧
    rung bob s = [EvEnded; EvIncoming].
Proof.
  exists left_open, [done_; done_]. split; [apply left_open_reached|]. split; [by repeat constructor|].
  by vm_compute.
Qed.
