(* ===== verification/Chat_Model.v ===== *)
(** * Chat_Model: messages as the API shows them (src/internal/chat/model.go)

    Also the requests of the service (service.go): history pages, forwarding. *)

From S2P Require Import Prelude GoLib Types.

#[local] Open Scope Z_scope.

Definition TypePrivate : string := "private".
Definition TypePublic : string := "public".
Definition TopicSeen : string := "chat.seen.update".

Definition ErrNotAuthorized : error := ErrNew "chat" "not a member of this group".
Definition ErrNotFriends : error := ErrNew "chat" "you can only message friends".
Definition ErrNotValidToID : error := ErrNew "chat" "to_id must be a valid uuid of another user or group".
Definition ErrNotValidUUID : error := ErrNew "chat" "not valid uuid".
Definition ErrNotValidTimeFmt : error := ErrNew "chat" "since must be an RFC3339 timestamp".
Definition ErrNotValidParentID : error := ErrNew "chat" "parent_id must be the id of a message in the same chat".
Definition ErrNotSupportedTypeMsg : error := ErrNew "chat" ("type must be " +:+ quoted "private" +:+ " or " +:+ quoted "public")%string.
Definition ErrEmptyMessage : error := ErrNew "chat" "msg must be 1-500 characters".
Definition ErrMessageNotInChat : error := ErrNew "chat" "msg_id is not a message in this chat".
Definition ErrBadCursor : error := ErrNew "chat" "before must be the id of a message in this chat".
Definition ErrSinceAndBefore : error := ErrNew "chat" "use either since or before, not both".
Definition ErrSinceNotSupported : error := ErrNew "chat" "since is not supported for group history".
Definition ErrMessageNotFound : error := ErrNew "chat" "message not found".
Definition ErrBadClientID : error := ErrNew "chat" "client_msg_id must be a UUID".
Definition ErrNotYourMessage : error := ErrNew "chat" "you can only change your own messages".
Definition ErrEditWindowClosed : error := ErrNew "chat" "messages can only be edited within 15 minutes of sending".
Definition ErrNotGroupMessage : error := ErrNew "chat" "read-by is only for group messages".
Definition ErrGroupTooBig : error := ErrNew "chat" "read-by is only shown in groups of up to 50 members".
Definition ErrBadForward : error := ErrNew "chat" "to must list 1-5 chats".

(** Errors of src/internal/media that a forward may report. *)
Definition ErrMediaDisabled : error := ErrNew "media" "media is not configured on this server".
Definition ErrDailyQuota : error := ErrNew "media" "daily upload limit reached (300 MB or 300 files per day)".
Definition ErrStorageFull : error := ErrNew "media" "media storage is full right now; try again later".
Definition ErrForwardExpired : error :=
  ErrNew "media" "this media has expired on the server; send it again from your phone".

Definition EditWindow : duration := 15 * minute.
Definition maxMessageLen : Z := 500.
Definition ReadByMaxMembers : Z := 50.
Definition MaxForwardTargets : Z := 5.
Definition streamCap : Z := 200.
Definition pageSize : Z := 30.
Definition maxPage : Z := 100.
Definition bannedTTL : duration := 30 * second.

Record InCommingMessage := mk_InCommingMessage {
  im_Content : string;
  im_ParendID : string;
  im_ToID : string;
  im_Type : string;
  im_Media : list uuid;
  im_ClientMsgID : string;
  im_Forwarded : bool;
}.

Record MessageCache := mk_MessageCache {
  mc_Msg : InCommingMessage;
  mc_FromID : uuid;
  mc_CreatedAt : time;
}.

Record ReactionCount := mk_ReactionCount { rc_Emoji : string; rc_Count : Z; rc_Me : bool }.

Record MessageMetaDataRes := mk_MessageMetaDataRes {
  mr_ID : uuid;
  mr_MsgInfo : MessageCache;
  mr_CreatedAt : time;
  mr_EditedAt : option time;
  mr_Forwarded : bool;
  mr_Deleted : bool;
  mr_Reactions : list ReactionCount;
  mr_Media : list Attachment;
  mr_SenderSuspended : bool;
}.

Record Reactor := mk_Reactor {
  rr_UserID : uuid;
  rr_Name : string;
  rr_DisplayName : string;
  rr_Emoji : string;
  rr_CreatedAt : time;
}.

Record Reader := mk_Reader {
  rd_UserID : uuid;
  rd_Name : string;
  rd_DisplayName : string;
  rd_AvatarURL : option string;
  rd_ReadAt : time;
}.

Record messageRef := mk_messageRef {
  ref_Kind : string;
  ref_From : uuid;
  ref_To : uuid;
  ref_Group : uuid;
  ref_CreatedAt : time;
}.

Record EditedMessage := mk_EditedMessage { em_MsgID : uuid; em_Content : string; em_EditedAt : time }.

Record LastMessage := mk_LastMessage {
  lm_ID : uuid;
  lm_Msg : string;
  lm_FromID : uuid;
  lm_CreatedAt : time;
  lm_Deleted : bool;
  lm_SenderSuspended : bool;
}.

Record Conversation := mk_Conversation {
  cv_Type : string;
  cv_ID : uuid;
  cv_Name : string;
  cv_DisplayName : string;
  cv_AvatarURL : option string;
  cv_LastMessage : option LastMessage;
  cv_Unread : Z;
}.

Record HistoryQuery := mk_HistoryQuery { hq_Since : string; hq_Before : string; hq_Limit : Z }.

Record ForwardTarget := mk_ForwardTarget { ft_Type : string; ft_ID : string }.

Record ForwardResult := mk_ForwardResult {
  fr_Type : string;
  fr_ID : string;
  fr_MsgID : option uuid;
  fr_Error : string;
}.

Definition PrivateChatID `{UuidLib} (a b : uuid) : string :=
  let '(a, b) := if string_gt (uuid_string a) (uuid_string b) then (b, a) else (a, b) in
  (uuid_string a +:+ "_" +:+ uuid_string b)%string.

(** The page a query asks for: the cursor (the zero uuid for none) and the
    number of messages. *)
Definition HistoryQuery_parse `{UuidLib} (q : HistoryQuery) : result (uuid * Z) :=
  if negb (bool_decide (hq_Since q = EmptyString)) && negb (bool_decide (hq_Before q = EmptyString))
  then Err ErrSinceAndBefore
  else
    let limit := if hq_Limit q >? 0 then Z.min (hq_Limit q) maxPage else pageSize in
    if decide (hq_Before q = EmptyString) then Ok (uuid_nil, limit)
    else match uuid_parse (hq_Before q) with
         | None => Err ErrBadCursor
         | Some before => Ok (before, limit)
         end.

(** [time.Parse(time.RFC3339Nano, s)] of the standard library: the layouts it
    accepts are left to [parse_rfc3339]. *)
Class TimeParse := { parse_rfc3339 : string → option time }.

Definition parseSince `{TimeParse} (since : string) : result time :=
  if decide (since = EmptyString) then Ok zero_time
  else match parse_rfc3339 since with
       | None => Err ErrNotValidTimeFmt
       | Some t => Ok t
       end.
