(* ===== verification/Media.v ===== *)
(** * Media: photos, videos, files and voice messages (src/internal/media/media.go, files.go, thumb.go)

    The bucket is [w_store]: an object per key.  What a call of the storage does to it
    is what r2.go asks of S3; links are made by the class [MediaConfig], for r2.go's
    signatures.  Phones put objects there with the links ([phone_put]). *)

From S2P Require Import Prelude GoLib Types Db Sql_Media Chat_Model World.

#[local] Open Scope Z_scope.

Definition MaxImageBytes : Z := Z.shiftl 5 20.
Definition MaxVideoBytes : Z := Z.shiftl 100 20.
Definition MaxFileBytes : Z := Z.shiftl 100 20.
Definition DailyUserBytes : Z := Z.shiftl 300 20.
Definition DailyUserFiles : Z := 300.
Definition MaxPerMessage : Z := 10.
Definition LargeBytes : Z := Z.shiftl 16 20.
Definition maxSmallVideoMs : Z := 3 * 60000 + 5000.
Definition maxLargeVideoMs : Z := 10 * 60000 + 5000.
Definition uploadCapBytes : Z := Z.shiftl 9500 20.
Definition lruHighBytes : Z := Z.shiftl 9 30.
Definition lruLowBytes : Z := Z.shiftl 8 30.
Definition maxLifetime : duration := 7 * 24 * hour.
Definition largeLifetime : duration := 24 * hour.
Definition keepAfterAll : duration := 24 * hour.
Definition pendingTTL : duration := hour.
Definition uploadTTL : duration := 10 * minute.
Definition downloadTTL : duration := 5 * minute.
Definition trackGroupsUpTo : Z := 50.

Definition ErrBadMedia : error := ErrNew "media"
  "kind must be image (JPEG, PNG, WebP, HEIC; max 5 MB), video (MP4, MOV, WebM; max 100 MB; 3 min, or 10 min above 16 MB), voice (Opus/OGG, AAC/M4A, WebM, MP3; max 10 MB, 15 min, duration_ms required; waveform up to 128 values 0-255) or file (documents, archives, audio; max 100 MB; with file_name) with its size in bytes; width/height up to 8192".
Definition ErrBadFile : error := ErrNew "media"
  "this kind of file can't be sent: allowed are documents (PDF, Word, Excel, PowerPoint, OpenDocument, text, CSV), archives (ZIP, 7z, RAR), e-books and audio; apps and programs are not".
Definition ErrNotFound : error := ErrNew "media" "media not found".
Definition ErrExpired : error := ErrNew "media"
  "this media has expired".
Definition ErrBadAttachment : error := ErrNew "media"
  "media must be your own uploads (at most 10), each uploaded and not attached to another message".
Definition ErrNoObject : error := ErrNew "media" "object not found".
Definition ErrNotVideo : error := ErrNew "media" "thumbnails are for your own videos".
Definition ErrThumbnailSet : error := ErrNew "media" "this video already has a thumbnail".
Definition ErrBadThumbnail : error := ErrNew "media" "thumbnail must be a JPEG, PNG or WebP image (at most 2 MB)".

(** ** files.go *)

Definition fileTypes : list (string * list string) := [
  ("pdf", ["application/pdf"]);
  ("doc", ["application/msword"]);
  ("docx", ["application/vnd.openxmlformats-officedocument.wordprocessingml.document"]);
  ("xls", ["application/vnd.ms-excel"]);
  ("xlsx", ["application/vnd.openxmlformats-officedocument.spreadsheetml.sheet"]);
  ("ppt", ["application/vnd.ms-powerpoint"]);
  ("pptx", ["application/vnd.openxmlformats-officedocument.presentationml.presentation"]);
  ("odt", ["application/vnd.oasis.opendocument.text"]);
  ("ods", ["application/vnd.oasis.opendocument.spreadsheet"]);
  ("odp", ["application/vnd.oasis.opendocument.presentation"]);
  ("rtf", ["application/rtf"; "text/rtf"]);
  ("txt", ["text/plain"]);
  ("csv", ["text/csv"; "text/comma-separated-values"]);
  ("md", ["text/markdown"; "text/plain"]);
  ("epub", ["application/epub+zip"]);
  ("zip", ["application/zip"; "application/x-zip-compressed"]);
  ("7z", ["application/x-7z-compressed"]);
  ("rar", ["application/vnd.rar"; "application/x-rar-compressed"]);
  ("mp3", ["audio/mpeg"]);
  ("m4a", ["audio/mp4"; "audio/x-m4a"]);
  ("ogg", ["audio/ogg"]);
  ("opus", ["audio/ogg"; "audio/opus"]);
  ("wav", ["audio/wav"; "audio/x-wav"]);
  ("aac", ["audio/aac"])].

Definition maxFileName : Z := 200.

(** The runes a name may not have: control characters, format characters, quotes and
    slashes. *)
Definition bad_name_rune (r : Z) : bool := is_control r || is_Cf r || (r =? 34) || (r =? 47).

Definition types_of (ext : string) : list string :=
  match List.find (λ e : string * list string, bool_decide (e.1 = ext)) fileTypes with Some e => e.2 | None => [] end.

Definition cleanFileName `{GoLower} (name contentType : string) : option string :=
  let name := path_Base (replace_bytes [(92, "/")] name) in
  let name := TrimSpace (drop_runes bad_name_rune name) in
  if slices_contains [EmptyString; "."; ".."] name || (RuneCountInString name >? maxFileName) then None
  else match LastIndexByte name 46 with
  | None => None
  | Some dot =>
    if (dot =? 0)%nat || (dot =? length (bytes_of name) - 1)%nat then None
    else
      let ext := ToLower (string_of (drop (S dot) (bytes_of name))) in
      if slices_contains (types_of ext) contentType then Some name else None
  end.

Definition voiceTypes : list string :=
  ["audio/ogg"; "audio/opus"; "audio/webm"; "audio/mp4"; "audio/aac"; "audio/x-m4a"; "audio/mpeg"].
Definition MaxVoiceBytes : Z := Z.shiftl 10 20.
Definition maxVoiceMs : Z := 15 * 60000 + 5000.
Definition maxWaveform : Z := 128.

(** [Waveform.UnmarshalJSON], after the JSON is an array of numbers. *)
Definition check_waveform (n : list Z) : option (list Z) :=
  if (Z.of_nat (length n) >? maxWaveform) || existsb (λ v, negb (in_range 0 255 v)) n then None else Some n.

(** ** thumb.go *)

Definition thumbMaxSide : Z := 480.
Definition thumbQuality : Z := 80.
Definition thumbMaxPixels : Z := 40000000.

(** The size of the thumbnail of a picture. *)
Definition thumb_size (width height : Z) : Z * Z :=
  if (width >? thumbMaxSide) || (height >? thumbMaxSide) then
    if width >=? height then (thumbMaxSide, Z.max 1 (height * thumbMaxSide / width))
    else (Z.max 1 (width * thumbMaxSide / height), thumbMaxSide)
  else (width, height).

Definition ProcessThumbnail `{ImageLib} (raw : list Z) : result (list Z) :=
  match DecodeConfig raw with
  | None => Err ErrBadThumbnail
  | Some (format, width, height) =>
    if negb (slices_contains ["jpeg"; "png"; "webp"] format) then Err ErrBadThumbnail
    else if (width <=? 0) || (height <=? 0) || (width * height >? thumbMaxPixels) then Err ErrBadThumbnail
    else match DecodeImage raw with
    | None => Err ErrBadThumbnail
    | Some src =>
      let '(w, h) := thumb_size width height in
      JpegEncode (ScaleOnWhite w h src (Bounds src)) thumbQuality
    end
  end.

(** ** media.go *)

Definition allowedTypes : list (string * list string) := [
  ("image", ["image/jpeg"; "image/png"; "image/webp"; "image/heic"]);
  ("video", ["video/mp4"; "video/quicktime"; "video/webm"])].
Definition allowed_type (kind contentType : string) : bool :=
  match List.find (λ e : string * list string, bool_decide (e.1 = kind)) allowedTypes with
  | Some e => slices_contains e.2 contentType
  | None => false
  end.

Record Dims := mk_Dims { dm_DurationMs : Z; dm_Width : Z; dm_Height : Z }.

Definition dims_ok (d : Dims) (kind : string) (size : Z) : bool :=
  if (dm_Width d <? 0) || (dm_Height d <? 0) || (dm_Width d >? 8192) || (dm_Height d >? 8192) || (dm_DurationMs d <? 0)
  then false
  else if decide (kind = "video") then
    if size >? LargeBytes then dm_DurationMs d <=? maxLargeVideoMs else dm_DurationMs d <=? maxSmallVideoMs
  else if decide (kind = "image") then dm_DurationMs d =? 0
  else if decide (kind = "voice") then
    (dm_Width d =? 0) && (dm_Height d =? 0) && (dm_DurationMs d >? 0) && (dm_DurationMs d <=? maxVoiceMs)
  else (dm_DurationMs d =? 0) && (dm_Width d =? 0) && (dm_Height d =? 0).

Record NewUploadRequest := mk_NewUploadRequest {
  nu_Kind : string;
  nu_ContentType : string;
  nu_Size : Z;
  nu_FileName : string;
  nu_Waveform : option (list Z);
  nu_Dims : Dims;
}.

Record Upload := mk_Upload {
  up_ID : uuid;
  up_URL : string;
  up_Method : string;
  up_Headers : list (string * string);
  up_ExpiresIn : Z;
}.

Record Download := mk_Download {
  dl_URL : string;
  dl_FileName : string;
  dl_ContentType : string;
  dl_Size : Z;
  dl_ExpiresIn : Z;
}.

(** What the service is given: whether there is a storage, its links, and the members of
    a group. *)
Class MediaConfig := {
  mc_store : bool;
  PresignPut : string → string → Z → duration → time → result string;
  PresignGet : string → string → string → duration → time → result string;
  mc_Members : uuid → M World (list uuid);
}.

(** Pictures, documents, ... as the request names them: the largest size, and the file's
    name. *)
Definition check_kind `{GoLower} (req : NewUploadRequest) : result (Z * option string) :=
  let kind := nu_Kind req in
  if decide (kind = "image") then Ok (MaxImageBytes, None)
  else if decide (kind = "video") then Ok (MaxVideoBytes, None)
  else if decide (kind = "voice") then
    if negb (slices_contains voiceTypes (nu_ContentType req)) || negb (bool_decide (nu_FileName req = EmptyString))
    then Err ErrBadMedia else Ok (MaxVoiceBytes, None)
  else if decide (kind = "file") then
    match cleanFileName (nu_FileName req) (nu_ContentType req) with
    | Some name => Ok (MaxFileBytes, Some name)
    | None => Err ErrBadFile
    end
  else Err ErrBadMedia.

Definition check_request `{GoLower} (req : NewUploadRequest) : result (option string) :=
  match check_kind req with
  | Err e => Err e
  | Ok (limit, fileName) =>
    let kind := nu_Kind req in
    if (bool_decide (kind = "image") || bool_decide (kind = "video")) &&
       (negb (allowed_type kind (nu_ContentType req)) || negb (bool_decide (nu_FileName req = EmptyString)))
    then Err ErrBadMedia
    else if negb (bool_decide (kind = "voice")) && bool_decide (default [] (nu_Waveform req) ≠ []) then Err ErrBadMedia
    else if (nu_Size req <=? 0) || (nu_Size req >? limit) || negb (dims_ok (nu_Dims req) kind (nu_Size req)) then Err ErrBadMedia
    else Ok fileName
  end.

Definition optInt (n : Z) : option Z := let n32 := wrap 32 n in if n >? 0 then Some n32 else None.

(** [pgtype.Int4.Int32] of a column *)
Definition int_of (o : option Z) : Z := default 0 o.

Definition attachment (id : uuid) (m : Medium) (expired thumbnail : bool) : Attachment :=
  mk_Attachment id (md_Kind m) (md_ContentType m) (md_Size m) (md_ExpiresAt m) expired (int_of (md_DurationMs m))
    (int_of (md_Width m)) (int_of (md_Height m)) thumbnail (default EmptyString (md_FileName m)) (default [] (md_Waveform m)).

(** ** The bucket *)

Definition with_object (k : string) (o : Object) (w : World) : World := with_store (<[k := o]> (w_store w)) w.

Definition store_Size (k : string) : M World Z := io (λ w,
  (match w_store w !! k with Some o => Ok (Z.of_nat (length (ob_Data o))) | None => Err ErrNoObject end, w)).
Definition store_Delete (k : string) : M World unit := io (modify (λ w, with_store (delete k (w_store w)) w)).
Definition store_Put (k contentType : string) (data : list Z) : M World unit := io (modify (with_object k (mk_Object contentType data))).
Definition store_Copy (src dst : string) : M World unit := io (λ w,
  match w_store w !! src with Some o => (Ok tt, with_object dst o w) | None => (Err ErrNoObject, w) end).

Section media.
Context {ulib : UuidLib} {lower : GoLower} {images : ImageLib} {cfg : MediaConfig}.

Definition key (id : uuid) : string := "m/" +:+ uuid_string id.
Definition thumbKey (id : uuid) : string := "t/" +:+ uuid_string id.

(** A phone uses a link of PresignPut: once, with exactly this type and size. *)
Definition phone_put (id : uuid) (contentType : string) (size : Z) (data : list Z) (w : World) : World :=
  match w_store w !! key id with
  | Some _ => w
  | None => if Z.of_nat (length data) =? size then with_object (key id) (mk_Object contentType data) w else w
  end.

Definition overQuota (owner : uuid) (size : Z) (now : time) : M World bool :=
  let since := pgTime (now - 24 * hour) in
  used ← query (MediaUploadedSince owner since);
  files ← query (MediaCreatedSince owner since);
  mret ((used + size >? DailyUserBytes) || (files >=? DailyUserFiles)).

(** The quota, the space, and the row, for an upload or a copy. *)
Definition create (owner : uuid) (size : Z) (now : time) (row : uuid → CreateMediaParams) : M World uuid :=
  over ← overQuota owner size now;
  if over : bool then throw ErrDailyQuota
  else
    stored ← query MediaStoredBytes;
    if stored + size >? uploadCapBytes then throw ErrStorageFull
    else
      id ← NewV7;
      query (CreateMedia (row id)) ;;
      mret id.

Definition lifetime (size : Z) : duration := if size >? LargeBytes then largeLifetime else maxLifetime.

Definition NewUpload (owner : uuid) (req : NewUploadRequest) : M World Upload :=
  if negb mc_store then throw ErrMediaDisabled
  else
    fileName ← lift_result (check_request req);
    now ← Now;
    let size := nu_Size req in
    id ← create owner size now (λ id,
      mk_CreateMediaParams id owner (nu_Kind req) (nu_ContentType req) size (pgTime now) (pgTime (now + lifetime size))
        (optInt (dm_DurationMs (nu_Dims req))) (optInt (dm_Width (nu_Dims req))) (optInt (dm_Height (nu_Dims req))) fileName
        (nu_Waveform req));
    u ← lift_result (PresignPut (key id) (nu_ContentType req) size uploadTTL now);
    mret (mk_Upload id u "PUT" [("Content-Type", nu_ContentType req); ("If-None-Match", "*")] (uploadTTL / second)).

(** [if n == 0 { return nil, ErrBadAttachment }], for each *)
Fixpoint attach_all (owner : uuid) (ids : list uuid) (chatType : string) (chatID msgID : uuid) : M World unit :=
  match ids with
  | [] => mret tt
  | id :: ids =>
    n ← query (AttachMedia chatType chatID msgID id owner);
    if n =? 0 then throw ErrBadAttachment else attach_all owner ids chatType chatID msgID
  end.

Definition no_rows {A} (e : error) (m : M World A) : M World A :=
  r ← try m;
  match r with
  | Ok a => mret a
  | Err e' => throw (if decide (e' = ErrNoRows) then e else e')
  end.

Fixpoint check_all (owner : uuid) (ids : list uuid) : M World (list Attachment) :=
  match ids with
  | [] => mret []
  | id :: ids =>
    m ← no_rows ErrBadAttachment (query (GetMedia id));
    if negb (owned owner m) || negb (bool_decide (md_Status m = "pending")) || negb (live m) then throw ErrBadAttachment
    else
      r ← try (store_Size (key id));
      match r with
      | Err e => throw (if decide (e = ErrNoObject) then ErrBadAttachment else e)
      | Ok size =>
        if negb (size =? md_Size m) then throw ErrBadAttachment
        else rest ← check_all owner ids; mret (attachment id m false (md_HasThumbnail m) :: rest)
      end
  end.

Definition Attach (owner : uuid) (ids : list uuid) (chatType : string) (chatID msgID : uuid) : M World (list Attachment) :=
  if decide (ids = []) then mret []
  else if negb mc_store then throw ErrMediaDisabled
  else if Z.of_nat (length ids) >? MaxPerMessage then throw ErrBadAttachment
  else if decide (NoDup ids) then
    out ← check_all owner ids;
    attach_all owner ids chatType chatID msgID ;;
    mret out
  else throw ErrBadAttachment.

Definition ForMessages (msgIDs : list uuid) : M World (gmap uuid (list Attachment)) :=
  if decide (msgIDs = []) then mret ∅
  else
    rows ← query (MediaForMessages msgIDs);
    mret (foldl (λ (out : gmap uuid (list Attachment)) (r : uuid * Medium),
      let mid := default uuid_nil (md_MessageID r.2) in
      <[mid := default [] (out !! mid) ++
          [attachment r.1 r.2 (negb (live r.2)) (md_HasThumbnail r.2 && live r.2)]]> out) ∅ rows).

(** A failure is logged. *)
Definition ExpireGroup (groupID : uuid) : M World unit :=
  now ← Now; _ ← try (query (ExpireMediaOfGroup (pgTime now) groupID)); mret tt.

Definition ExpireMessage (msgID : uuid) : M World unit :=
  now ← Now; query (ExpireMediaOfMessage (pgTime now) msgID).

(** The others who must download what is sent to a group, for a member who may. *)
Definition group_recipients (viewer : uuid) (m : Medium) : M World (list uuid) :=
  let chatID := default uuid_nil (md_ChatID m) in
  members ← try (mc_Members chatID);
  match members with
  | Err _ => throw ErrNotFound
  | Ok members =>
    if negb (slices_contains members viewer) then throw ErrNotFound
    else
      visible ← try (query (GroupMediaVisible (md_MessageID m) (md_CreatedAt m) chatID viewer));
      match visible with
      | Ok true =>
        mret (if Z.of_nat (length members) <=? trackGroupsUpTo
              then slices_delete (λ u, bool_decide (u = default uuid_nil (md_OwnerID m))) members else [])
      | _ => throw ErrNotFound
      end
  end.

(** [access]: the row, the owner, and who must download it. *)
Definition access (viewer id : uuid) : M World (Medium * uuid * list uuid) :=
  if negb mc_store then throw ErrMediaDisabled
  else
    m ← no_rows ErrNotFound (query (GetMedia id));
    if negb (bool_decide (md_Status m = "ready")) then throw ErrNotFound
    else
      let chatID := default uuid_nil (md_ChatID m) in
      let owner := default uuid_nil (md_OwnerID m) in
      recipients ←
        (if decide (md_ChatType m = Some "private") then
           if negb (bool_decide (viewer = owner)) && negb (bool_decide (viewer = chatID)) then throw ErrNotFound
           else mret [chatID]
         else if decide (md_ChatType m = Some "public") then group_recipients viewer m
         else throw ErrNotFound);
      if negb (live m) || negb (bool_decide (is_Some (md_OwnerID m))) then throw ErrExpired
      else mret (m, owner, recipients).

Definition Download_ (viewer id : uuid) : M World Download :=
  a ← access viewer id;
  let '(m, owner, recipients) := a in
  now ← Now;
  (if decide (viewer = owner) then mret tt
   else
     query (RecordMediaDownload id viewer (pgTime now)) ;;
     if decide (recipients = []) then mret tt
     else
       n ← query (CountMediaDownloads id);
       if n >=? Z.of_nat (length recipients) then query (MarkMediaDelivered (pgTime now) id) else mret tt) ;;
  u ← lift_result (PresignGet (key id) (md_ContentType m) (default EmptyString (md_FileName m)) downloadTTL now);
  mret (mk_Download u (default EmptyString (md_FileName m)) (md_ContentType m) (md_Size m) (downloadTTL / second)).

(** [remove]: the files that are gone, of those with a thumbnail and the others. *)
Fixpoint remove_files (thumbs ids : list uuid) : M World (list uuid) :=
  match ids with
  | [] => mret []
  | id :: ids =>
    r ← try ((if slices_contains thumbs id then store_Delete (thumbKey id) else mret tt) ;; store_Delete (key id));
    done ← remove_files thumbs ids;
    mret (match r with Ok _ => id :: done | Err _ => done end)
  end.

Definition remove (ids : list uuid) : M World nat :=
  thumbs ← (if decide (ids = []) then mret [] else
              r ← try (query (ThumbnailsOf ids)); mret (match r with Ok l => l | Err _ => [] end));
  done ← remove_files thumbs ids;
  (if decide (done = []) then mret tt
   else now ← Now; _ ← try (query (MarkMediaDeleted (pgTime now) done)); mret tt) ;;
  mret (length done).

(** The least recently used files to remove, until little enough is stored. *)
Fixpoint lru_victims (stored : Z) (rows : list (uuid * Z)) : list uuid :=
  match rows with
  | [] => []
  | (id, size) :: rows => if stored <=? lruLowBytes then [] else id :: lru_victims (stored - size) rows
  end.

Definition Cleanup : M World nat :=
  if negb mc_store then mret 0%nat
  else
    now ← Now;
    ids ← query (MediaToDelete (pgTime (now - keepAfterAll)) (pgTime now) (pgTime (now - pendingTTL)));
    deleted ← remove ids;
    stored ← query MediaStoredBytes;
    if stored <=? lruHighBytes then mret deleted
    else
      rows ← query LeastRecentlyUsedMedia;
      n ← remove (lru_victims stored rows);
      mret (deleted + n)%nat.

Definition SetThumbnail_ (owner id : uuid) (raw : list Z) : M World unit :=
  if negb mc_store then throw ErrMediaDisabled
  else
    m ← no_rows ErrNotVideo (query (GetMedia id));
    if negb (owned owner m) || negb (bool_decide (md_Kind m = "video")) || negb (live m) then throw ErrNotVideo
    else if md_HasThumbnail m then throw ErrThumbnailSet
    else
      img ← lift_result (ProcessThumbnail raw);
      store_Put (thumbKey id) "image/jpeg" img ;;
      n ← query (SetThumbnail id owner);
      if n =? 0 then throw ErrThumbnailSet else mret tt.

Definition Thumbnail (viewer id : uuid) : M World Download :=
  a ← access viewer id;
  let m := a.1.1 in
  if negb (md_HasThumbnail m) then throw ErrNotFound
  else
    now ← Now;
    u ← lift_result (PresignGet (thumbKey id) "image/jpeg" EmptyString downloadTTL now);
    mret (mk_Download u EmptyString "image/jpeg" 0 (downloadTTL / second)).

Definition Duplicate (owner srcID : uuid) : M World uuid :=
  if negb mc_store then throw ErrMediaDisabled
  else
    m ← no_rows ErrNotFound (query (GetMedia srcID));
    if negb (bool_decide (md_Status m = "ready")) || negb (live m) then throw ErrForwardExpired
    else
      now ← Now;
      id ← create owner (md_Size m) now (λ id,
        mk_CreateMediaParams id owner (md_Kind m) (md_ContentType m) (md_Size m) (pgTime now) (pgTime (now + lifetime (md_Size m)))
          (md_DurationMs m) (md_Width m) (md_Height m) (md_FileName m) (md_Waveform m));
      r ← try (store_Copy (key srcID) (key id));
      match r with
      | Err e => throw (if decide (e = ErrNoObject) then ErrForwardExpired else e)
      | Ok _ =>
        (if md_HasThumbnail m then
           r ← try (store_Copy (thumbKey srcID) (thumbKey id));
           match r with Ok _ => _ ← try (query (SetThumbnail id owner)); mret tt | Err _ => mret tt end
         else mret tt) ;;
        mret id
      end.
End media.
