(* ===== verification/Media_Rules.v ===== *)
(** * Media_Rules: what uploads, attachments, downloads and the cleanup do

    First what happens to a row, then what each operation requires. *)

From S2P Require Import Prelude GoLib Types Db Sql_Media Chat_Model World Moves Media.

#[local] Open Scope Z_scope.

(** ** What happens to a row *)

(** What an upload is stays; once attached it stays attached to the same message, once
    deleted it stays deleted, and a thumbnail stays. *)
Record kept (m m' : Medium) : Prop := {
  kp_what : (md_OwnerID m', md_Kind m', md_ContentType m', md_Size m', md_CreatedAt m', md_FileName m', md_Waveform m')
            = (md_OwnerID m, md_Kind m, md_ContentType m, md_Size m, md_CreatedAt m, md_FileName m, md_Waveform m);
  kp_dims : (md_DurationMs m', md_Width m', md_Height m') = (md_DurationMs m, md_Width m, md_Height m);
  kp_attached : md_Status m = "ready" →
    (md_Status m', md_ChatType m', md_ChatID m', md_MessageID m') = (md_Status m, md_ChatType m, md_ChatID m, md_MessageID m);
  kp_deleted : live m = false → live m' = false;
  kp_thumbnail : md_HasThumbnail m = true → md_HasThumbnail m' = true;
}.

#[export] Instance kept_preorder : PreOrder kept.
Proof.
  split; [by split|]. intros m1 m2 m3 [A1 A2 A3 A4 A5] [B1 B2 B3 B4 B5].
  split; [congruence|congruence| |auto|auto]. intros Hr. assert (md_Status m2 = "ready") by (specialize (A3 Hr); congruence).
  rewrite B3 by done. auto.
Qed.

Definition media_kept (w w' : World) : Prop :=
  ∀ id m, media (w_db w) !! id = Some m → ∃ m', media (w_db w') !! id = Some m' ∧ kept m m'.

#[export] Instance media_kept_preorder : PreOrder media_kept.
Proof.
  split; [by intros w id m Hm; exists m|]. intros w1 w2 w3 H12 H23 id m Hm.
  destruct (H12 id m Hm) as (m2 & Hm2 & K2). destruct (H23 id m2 Hm2) as (m3 & Hm3 & K3). exists m3. split; [done|by etrans].
Qed.

#[export] Instance media_kept_blind : Blind media_kept.
Proof. split; intros w x id m Hm; by exists m. Qed.

Lemma update_media_lookup p f d id : media (update_media p f d) !! id = (λ m, if p id m then f m else m) <$> media d !! id.
Proof. unfold update_media. simpl. rewrite map_lookup_imap. by destruct (media d !! id). Qed.

Lemma kept_update p f : (∀ id m, p id m = true → kept m (f m)) → moves media_kept (query (modify (update_media p f))).
Proof.
  intros Hf. apply (moves_query _). intros w id m Hm. change (w_db _) with (update_media p f (w_db w)). rewrite update_media_lookup, Hm. eexists. split; [done|].
  destruct (p id m) eqn:E; [by apply (Hf id)|reflexivity].
Qed.

Lemma kept_read {A} (q : M DB A) : read_only q → moves media_kept (query q).
Proof. apply (moves_read _). Qed.

Lemma kept_put {A} (q : M DB A) id :
  (∀ d, (q d).2 = d ∨ ∃ m', (q d).2 = put_medium id m' d ∧ ∀ m, media d !! id = Some m → kept m m') → moves media_kept (query q).
Proof.
  intros Hq. apply (moves_query _). intros w. destruct (Hq (w_db w)) as [E|(m' & E & Hk)]; rewrite E; intros k m Hm; simpl; [by exists m|].
  destruct (decide (k = id)) as [->|Hne]; [rewrite lookup_insert_eq|rewrite lookup_insert_ne by done; by exists m].
  exists m'. split; [done|by apply Hk].
Qed.

Lemma kept_AttachMedia t c g id o : moves media_kept (query (AttachMedia t c g id o)).
Proof.
  apply (kept_put _ id). intros d. unfold AttachMedia. destruct (media d !! id) as [m|] eqn:Hm; [|by left].
  destruct (_ && live m) eqn:E; [|by left]. destruct (media_columns_ok _ d); [by left|]. right. eexists. split; [done|].
  intros m' [= ->]. apply andb_true_iff in E as [[_ Hs%bool_decide_eq_true]%andb_true_iff _].
  split; try done. rewrite Hs. done.
Qed.

Lemma kept_CreateMedia a : moves media_kept (query (CreateMedia a)).
Proof.
  apply (kept_put _ (cmp_ID a)). intros d. unfold CreateMedia. destruct (media d !! cmp_ID a); [by left|].
  destruct (media_columns_ok _ d); [by left|]. right. by eexists.
Qed.

Lemma kept_SetThumbnail id o : moves media_kept (query (SetThumbnail id o)).
Proof.
  apply (kept_put _ id). intros d. unfold SetThumbnail. destruct (media d !! id) as [m|] eqn:Hm; [|by left].
  destruct (_ && negb _) eqn:E; [|by left]. right. eexists. split; [done|]. intros m' [= ->]. by split.
Qed.

Lemma kept_times m e dl a del : (live m = false → del ≠ None) → kept m (set_media_times e dl a del m).
Proof. intros H. split; try done. intros Hl. apply bool_decide_eq_false. by apply H. Qed.

Lemma kept_same_times m e dl a : kept m (set_media_times e dl a (md_DeletedAt m) m).
Proof. apply kept_times. by intros H%bool_decide_eq_false. Qed.

Lemma kept_RecordMediaDownload id u now : moves media_kept (query (RecordMediaDownload id u now)).
Proof.
  apply (moves_query _). intros w.
  assert (∀ d, media d = media (w_db w) → media_kept w (with_db (update_media (λ k _, bool_decide (k = id))
            (λ m, set_media_times (md_ExpiresAt m) (md_DeliveredAt m) now (md_DeletedAt m) m) d) w)) as Htouch.
  { intros d Hd k m Hm. change (w_db _) with (update_media (λ k _, bool_decide (k = id))
      (λ m, set_media_times (md_ExpiresAt m) (md_DeliveredAt m) now (md_DeletedAt m) m) d).
    rewrite update_media_lookup, Hd, Hm. eexists. split; [done|]. destruct (bool_decide (k = id)); [apply kept_same_times|reflexivity]. }
  assert (media_kept w (with_db (w_db w) w)) as Hsame by (intros k m Hm; by exists m).
  unfold RecordMediaDownload. destruct (decide _); [by apply Htouch|].
  destruct (media (w_db w) !! id), (users (w_db w) !! u); try exact Hsame. by apply Htouch.
Qed.

Lemma kept_expire_group now g : moves media_kept (query (ExpireMediaOfGroup now g)).
Proof. apply kept_update. intros; apply kept_same_times. Qed.
Lemma kept_expire_message now g : moves media_kept (query (ExpireMediaOfMessage now g)).
Proof. apply kept_update. intros; apply kept_same_times. Qed.
Lemma kept_delivered now g : moves media_kept (query (MarkMediaDelivered now g)).
Proof. apply kept_update. intros; apply kept_same_times. Qed.
Lemma kept_deleted now ids : moves media_kept (query (MarkMediaDeleted now ids)).
Proof. apply kept_update. intros; by apply kept_times. Qed.

Lemma kept_store {A} (m : M World A) : (∀ w, w_db (m w).2 = w_db w) → moves media_kept (io m).
Proof. intros H. apply (moves_io _). intros w id md Hm. rewrite H. by exists md. Qed.

#[export] Hint Resolve kept_AttachMedia kept_CreateMedia kept_SetThumbnail kept_RecordMediaDownload kept_expire_group
  kept_expire_message kept_delivered kept_deleted : moves.
#[export] Hint Extern 2 (moves media_kept (query _)) => (apply kept_read; by apply read_only_pure) : moves.
#[export] Hint Extern 2 (moves media_kept NewV7) => apply (moves_NewV7 _) : moves.

Lemma kept_Size k : moves media_kept (store_Size k).
Proof. by apply kept_store. Qed.
Lemma kept_Delete k : moves media_kept (store_Delete k).
Proof. by apply kept_store. Qed.
Lemma kept_Put k t x : moves media_kept (store_Put k t x).
Proof. by apply kept_store. Qed.
Lemma kept_Copy a b : moves media_kept (store_Copy a b).
Proof. apply kept_store. intros w. by destruct (w_store w !! a). Qed.
#[export] Hint Resolve kept_Size kept_Delete kept_Put kept_Copy : moves.

Section operations.
Context {ulib : UuidLib} {lower : GoLower} {images : ImageLib} {cfg : MediaConfig}.
Hypothesis members_kept : ∀ g, moves media_kept (mc_Members g).

(** What the service is asked. *)
Inductive media_op :=
  | MNewUpload (owner : uuid) (req : NewUploadRequest)
  | MAttach (owner : uuid) (ids : list uuid) (chatType : string) (chatID msgID : uuid)
  | MForMessages (ids : list uuid)
  | MExpireGroup (g : uuid)
  | MExpireMessage (id : uuid)
  | MDownload (viewer id : uuid)
  | MCleanup
  | MSetThumbnail (owner id : uuid) (raw : list Z)
  | MThumbnail (viewer id : uuid)
  | MDuplicate (owner id : uuid).

Definition serve_media (op : media_op) : M World unit :=
  match op with
  | MNewUpload o r => NewUpload o r ;; mret tt
  | MAttach o ids t c m => Attach o ids t c m ;; mret tt
  | MForMessages ids => ForMessages ids ;; mret tt
  | MExpireGroup g => ExpireGroup g
  | MExpireMessage id => ExpireMessage id
  | MDownload v id => Download_ v id ;; mret tt
  | MCleanup => Cleanup ;; mret tt
  | MSetThumbnail o id raw => SetThumbnail_ o id raw
  | MThumbnail v id => Thumbnail v id ;; mret tt
  | MDuplicate o id => Duplicate o id ;; mret tt
  end.

Lemma kept_no_rows {A} e (m : M World A) : moves media_kept m → moves media_kept (no_rows e m).
Proof. intros Hm. unfold no_rows. walk_program. Qed.
#[local] Hint Resolve kept_no_rows : moves.

Lemma kept_create o s n r : moves media_kept (create o s n r).
Proof. unfold create, overQuota. walk_program. Qed.
#[local] Hint Resolve kept_create members_kept : moves.

Lemma kept_check_all o ids : moves media_kept (check_all o ids).
Proof. induction ids as [|id ids IH]; simpl; walk_program. Qed.
Lemma kept_attach_all o ids t c m : moves media_kept (attach_all o ids t c m).
Proof. induction ids as [|id ids IH]; simpl; walk_program. Qed.
Lemma kept_access v id : moves media_kept (access v id).
Proof. unfold access, group_recipients. walk_program. Qed.
Lemma kept_remove_files thumbs ids : moves media_kept (remove_files thumbs ids).
Proof. induction ids as [|id ids IH]; simpl; walk_program. Qed.
#[local] Hint Resolve kept_check_all kept_attach_all kept_access kept_remove_files : moves.
Lemma kept_remove ids : moves media_kept (remove ids).
Proof. unfold remove. walk_program. Qed.
#[local] Hint Resolve kept_remove : moves.

Lemma serve_media_kept op : moves media_kept (serve_media op).
Proof.
  destruct op; simpl; unfold NewUpload, Attach, ForMessages, ExpireGroup, ExpireMessage, Download_, Cleanup, SetThumbnail_,
    Thumbnail, Duplicate; walk_program.
Qed.
End operations.

(** ** Sums over the rows *)

(** The bytes an owner has started uploading since, the number of files, and the bytes
    stored. *)
Definition bytes_since (owner : uuid) (since : time) (d : DB) : Z :=
  sum_sizes (select (λ _ m, owned owner m && (since <=? md_CreatedAt m)) (media d)).
Definition files_since (owner : uuid) (since : time) (d : DB) : Z :=
  Z.of_nat (length (select (λ _ m, owned owner m && (since <? md_CreatedAt m)) (media d))).
Definition stored_bytes (d : DB) : Z := sum_sizes (select (λ _ m, live m) (media d)).

Lemma sum_sizes_perm l l' : l ≡ₚ l' → sum_sizes l = sum_sizes l'.
Proof. induction 1; simpl in *; lia. Qed.

Lemma filter_perm {A} (p : A → bool) l l' : l ≡ₚ l' → List.filter p l ≡ₚ List.filter p l'.
Proof.
  induction 1 as [|x l l' _ IH|x y l|l1 l2 l3 _ IH1 _ IH2]; simpl; [done|destruct (p x); [by constructor|done]| |by etrans].
  destruct (p x), (p y); try done. constructor.
Qed.

Lemma select_insert (p : uuid → Medium → bool) (t : gmap uuid Medium) id m : t !! id = None →
  select p (<[id := m]> t) ≡ₚ (if p id m then [(id, m)] else []) ++ select p t.
Proof.
  intros Hid. unfold select. rewrite (filter_perm _ _ _ (map_to_list_insert t id m Hid)). simpl. by destruct (p id m).
Qed.

Lemma sum_insert (p : uuid → Medium → bool) t id m : t !! id = None →
  sum_sizes (select p (<[id := m]> t)) = (if p id m then md_Size m else 0) + sum_sizes (select p t).
Proof. intros Hid. rewrite (sum_sizes_perm _ _ (select_insert p t id m Hid)). by destruct (p id m). Qed.

Lemma length_insert (p : uuid → Medium → bool) t id m : t !! id = None →
  length (select p (<[id := m]> t)) = ((if p id m then 1 else 0) + length (select p t))%nat.
Proof. intros Hid. rewrite (select_insert p t id m Hid). by destruct (p id m). Qed.

(** ** A new row *)

Definition within_quota (owner : uuid) (size : Z) (now : time) (d : DB) : Prop :=
  let since := pgTime (now - 24 * hour) in
  bytes_since owner since d + size <= DailyUserBytes ∧ files_since owner since d < DailyUserFiles ∧
  stored_bytes d + size <= uploadCapBytes.

(** The constraints a new row may break. *)
Definition refused (row : uuid → CreateMediaParams) (d : DB) (e : error) : Prop :=
  ∃ id, (is_Some (media d !! id) ∧ e = unique_violation "media_pkey") ∨
        (media d !! id = None ∧ media_columns_ok (new_medium (row id)) d = Some e).

(** A statement that only reads: what it answers, or a failure. *)
Lemma read_run {A} (f : DB → result A) w r w' : query (λ d, (f d, d)) w = (r, w') →
  w_db w' = w_db w ∧ w_now w' = w_now w ∧ w_store w' = w_store w ∧ (r = f (w_db w) ∨ r = Err ErrInfra).
Proof.
  intros [(fs & d & H & ->)|(-> & fs & ->)]%query_cases; [|split_and!; try done; by right].
  injection H as <- <-. split_and!; try done. by left.
Qed.

Lemma create_run owner size now row w r w' : (∀ id, cmp_ID (row id) = id) →
  create owner size now row w = (r, w') →
  w_now w' = w_now w ∧ w_store w' = w_store w ∧
  match r with
  | Ok id => within_quota owner size now (w_db w) ∧ media (w_db w) !! id = None ∧
             media_columns_ok (new_medium (row id)) (w_db w) = None ∧
             w_db w' = put_medium id (new_medium (row id)) (w_db w)
  | Err e => w_db w' = w_db w ∧
             (e ∈ [ErrInfra; ErrDailyQuota; ErrStorageFull] ∨ refused row (w_db w) e)
  end.
Proof.
  intros Hrow. unfold create, overQuota. rewrite !bind_run.
  destruct (query (MediaUploadedSince _ _) w) as [r1 w1] eqn:H1.
  apply (read_run (λ d, Ok (bytes_since owner (pgTime (now - 24 * hour)) d))) in H1 as (D1 & N1 & S1 & R1).
  destruct r1 as [used|e]; [|intros [= <- <-]; split_and!; try done; left; destruct R1 as [|[= ->]]; [done|by left]].
  destruct R1 as [[= ->]|]; [|done]. rewrite bind_run.
  destruct (query (MediaCreatedSince _ _) w1) as [r2 w2] eqn:H2.
  apply (read_run (λ d, Ok (files_since owner (pgTime (now - 24 * hour)) d))) in H2 as (D2 & N2 & S2 & R2).
  destruct r2 as [files|e]; [|intros [= <- <-]; split_and!; try congruence; left; destruct R2 as [|[= ->]]; [done|by left]].
  destruct R2 as [[= ->]|]; [|done]. cbn [mret M_ret]. unfold mret, M_ret.
  destruct (_ || _) eqn:Hq.
  { intros [= <- <-]. split_and!; try congruence. left. set_solver. }
  rewrite bind_run. destruct (query MediaStoredBytes w2) as [r3 w3] eqn:H3.
  apply (read_run (λ d, Ok (stored_bytes d))) in H3 as (D3 & N3 & S3 & R3).
  destruct r3 as [stored|e]; [|intros [= <- <-]; split_and!; try congruence; left; destruct R3 as [|[= ->]]; [done|by left]].
  destruct R3 as [[= ->]|]; [|done]. rewrite D2, D1 in *.
  destruct (_ >? uploadCapBytes) eqn:Hs.
  { intros [= <- <-]. split_and!; try congruence. left. set_solver. }
  rewrite bind_run. unfold NewV7. destruct (w_ids w3) as [|id ids]; [intros [= <- <-]; split_and!; try congruence; left; by left|].
  rewrite bind_run. destruct (query (CreateMedia (row id)) _) as [r4 w4] eqn:H4.
  apply query_cases in H4 as [(fs & d & H4 & ->)|(-> & fs & ->)].
  2: { intros [= <- <-]. split_and!; simpl; try congruence. left. by left. }
  simpl in H4. unfold CreateMedia in H4. rewrite Hrow, D3 in H4.
  destruct (media (w_db w) !! id) as [m|] eqn:Hm.
  { injection H4 as <- <-. intros [= <- <-]. split_and!; simpl; try congruence. right. exists id. left. by split. }
  destruct (media_columns_ok _ _) as [e|] eqn:Hc; injection H4 as <- <-; intros [= <- <-]; (split; [simpl; congruence|]); (split; [simpl; congruence|]).
  - split; [done|]. right. exists id. right. by split.
  - split_and!; try done. split_and!; lia.
Qed.

(** ** Uploads *)

Definition limit_of (kind : string) : Z :=
  if decide (kind = "image") then MaxImageBytes else if decide (kind = "voice") then MaxVoiceBytes else MaxFileBytes.

Lemma cleanFileName_short `{GoLower} name ct n : cleanFileName name ct = Some n → varchar_ok 200 n = true.
Proof.
  unfold cleanFileName. destruct (_ || _) eqn:E; [done|]. destruct (LastIndexByte _ _) as [dot|]; [|done].
  case_match; [done|]. case_match; [|done]. intros [= <-].
  apply orb_false_iff in E as [_ E]. unfold varchar_ok, maxFileName in *. lia.
Qed.

Lemma check_request_ok `{GoLower} req fileName : check_request req = Ok fileName →
  slices_contains media_kinds (nu_Kind req) = true ∧ 0 < nu_Size req <= limit_of (nu_Kind req) ∧
  dims_ok (nu_Dims req) (nu_Kind req) (nu_Size req) = true ∧ from_option (varchar_ok 200) true fileName = true.
Proof.
  unfold check_request. destruct (check_kind req) as [[limit fn]|e] eqn:Hk; [|done].
  destruct (_ && (_ || _)); [done|]. destruct (_ && _); [done|].
  destruct (_ || _) eqn:Hs; [done|]. intros [= <-].
  apply orb_false_iff in Hs as [Hs Hd%negb_false_iff]. apply orb_false_iff in Hs as [Hs1 Hs2].
  assert (slices_contains media_kinds (nu_Kind req) = true ∧ limit <= limit_of (nu_Kind req) ∧
          from_option (varchar_ok 200) true fn = true) as (H1 & H2 & H3).
  { unfold check_kind in Hk. unfold limit_of, slices_contains. rewrite bool_decide_eq_true.
    destruct (decide (nu_Kind req = "image")) as [->|]; [injection Hk as <- <-; split_and!; [set_solver|by vm_compute|done]|].
    destruct (decide (nu_Kind req = "video")) as [->|]; [injection Hk as <- <-; split_and!; [set_solver|by vm_compute|done]|].
    destruct (decide (nu_Kind req = "voice")) as [->|].
    { destruct (_ || _); [done|]. injection Hk as <- <-. split_and!; [set_solver|by vm_compute|done]. }
    destruct (decide (nu_Kind req = "file")) as [->|]; [|done].
    destruct (cleanFileName _ _) as [nm|] eqn:Hn; [|done]. injection Hk as <- <-. split_and!; [set_solver|by vm_compute|].
    by eapply cleanFileName_short. }
  split_and!; [done|lia|lia|done|done].
Qed.

Lemma pgTime_day now : pgTime (now - 24 * hour) < pgTime now.
Proof.
  unfold pgTime, hour, minute, second. pose proof (Z_div_mod_eq_full now 1000). pose proof (Z.mod_pos_bound now 1000 ltac:(lia)).
  pose proof (Z_div_mod_eq_full (now - 24 * (60 * (60 * 1000000000))) 1000).
  pose proof (Z.mod_pos_bound (now - 24 * (60 * (60 * 1000000000))) 1000 ltac:(lia)). lia.
Qed.

(** The limits, with the new row. *)
Lemma within_quota_after owner size now d id m :
  within_quota owner size now d → media d !! id = None → md_OwnerID m = Some owner → md_Size m = size →
  md_CreatedAt m = pgTime now → md_DeletedAt m = None →
  let since := pgTime (now - 24 * hour) in let d' := put_medium id m d in
  bytes_since owner since d' <= DailyUserBytes ∧ files_since owner since d' <= DailyUserFiles ∧ stored_bytes d' <= uploadCapBytes.
Proof.
  intros (Q1 & Q2 & Q3) Hid Ho Hs Hc Hd. pose proof (pgTime_day now). cbv zeta.
  unfold bytes_since, files_since, stored_bytes in *. unfold put_medium. cbn [media with_media].
  rewrite (sum_insert (λ _ m, live m)), (sum_insert (λ _ m, owned owner m && (_ <=? md_CreatedAt m))) by done.
  rewrite (length_insert (λ _ m, owned owner m && (_ <? md_CreatedAt m))) by done.
  unfold owned, live in *. rewrite Ho, Hc, Hd, Hs. rewrite !bool_decide_true by done.
  replace (_ <=? pgTime now) with true by lia. replace (_ <? pgTime now) with true by lia. cbn [andb]. lia.
Qed.

Lemma optInt_range n hi : 0 <= n <= hi → hi < 2 ^ 31 → between_ok 1 hi (optInt n) = true.
Proof.
  intros Hn Hhi. unfold optInt. destruct (n >? 0) eqn:E; [|done]. simpl.
  assert (wrap 32 n = n) as ->; [|unfold in_range; lia].
  unfold wrap. change (2 ^ (32 - 1)) with (2 ^ 31). change (2 ^ 32) with (2 ^ 31 + 2 ^ 31). rewrite Z.mod_small; lia.
Qed.

Section uploads.
Context {ulib : UuidLib} {lower : GoLower} {images : ImageLib} {cfg : MediaConfig}.

(** The constraints of the schema a checked request can break: the length, which it
    bounds at ten minutes, and what the request says nothing of. *)
Lemma checked_refused req fileName owner now e d : check_request req = Ok fileName →
  Z.of_nat (length (default [] (nu_Waveform req))) <= 128 →
  let row id := mk_CreateMediaParams id owner (nu_Kind req) (nu_ContentType req) (nu_Size req) (pgTime now)
                  (pgTime (now + lifetime (nu_Size req))) (optInt (dm_DurationMs (nu_Dims req))) (optInt (dm_Width (nu_Dims req)))
                  (optInt (dm_Height (nu_Dims req))) fileName (nu_Waveform req) in
  refused row d e →
  e = unique_violation "media_pkey" ∨ (e = foreign_key_violation "media_owner_id_fkey" ∧ users d !! owner = None) ∨
  (e = check_violation "media_duration_ms_check" ∧ dm_DurationMs (nu_Dims req) > 600000).
Proof.
  intros Hc Hw row (id & [[_ ->]|[_ He]]); [by left|]. right.
  apply check_request_ok in Hc as (Hk & Hs & Hd & Hn). unfold media_columns_ok in He.
  cbn -[between_ok varchar_ok slices_contains from_option bool_decide optInt Z.leb] in He.
  rewrite Hk in He. cbn [negb] in He. destruct (nu_Size req <=? 0) eqn:E0; [lia|]. change (slices_contains chat_types (default "private" None)) with true in He.
  cbn [negb] in He. assert (0 <= dm_Width (nu_Dims req) <= 8192 ∧ 0 <= dm_Height (nu_Dims req) <= 8192 ∧ 0 <= dm_DurationMs (nu_Dims req)) as (D1 & D2 & D3).
  { unfold dims_ok in Hd. destruct (_ || _) eqn:E; [done|]. lia. }
  destruct (between_ok 1 600000 (optInt (dm_DurationMs (nu_Dims req)))) eqn:E1; cbn [negb] in He.
  - rewrite (optInt_range (dm_Width _)), (optInt_range (dm_Height _)) in He by lia. rewrite Hn in He. cbn [negb] in He.
    destruct (from_option _ true (nu_Waveform req)) eqn:E2; cbn [negb] in He.
    2: { destruct (nu_Waveform req); simpl in *; [lia|done]. }
    simpl in He. case_bool_decide as Hu; [done|]. injection He as <-. left. split; [done|]. by apply eq_None_not_Some.
  - injection He as <-. right. split; [done|]. destruct (decide (dm_DurationMs (nu_Dims req) <= 600000)); [|lia].
    rewrite optInt_range in E1; [done|lia|lia].
Qed.

(** C27. Uploads are limited.  A link is only given for a file of a known kind within its
    size, and then the user has started at most 300 MB and 300 files in the last 24 hours
    and at most the cap is stored, this file included; the row is the user's, waiting, and
    expires.  A refusal is one of the documented errors, or a constraint of the schema: the
    user is gone, or the recording is longer than ten minutes. *)
Theorem uploads_limited owner req w r w' :
  Z.of_nat (length (default [] (nu_Waveform req))) <= 128 →
  NewUpload owner req w = (r, w') →
  let now := w_now w in let since := pgTime (now - 24 * hour) in
  match r with
  | Ok up => ∃ m, media (w_db w) !! up_ID up = None ∧ w_db w' = put_medium (up_ID up) m (w_db w) ∧
      md_OwnerID m = Some owner ∧ md_Status m = "pending" ∧ md_Size m = nu_Size req ∧
      md_ExpiresAt m = pgTime (now + lifetime (nu_Size req)) ∧
      md_Kind m ∈ media_kinds ∧ 0 < md_Size m <= limit_of (md_Kind m) ∧
      bytes_since owner since (w_db w') <= DailyUserBytes ∧ files_since owner since (w_db w') <= DailyUserFiles ∧
      stored_bytes (w_db w') <= uploadCapBytes
  | Err e =>
      (w_db w' = w_db w ∧
       (e ∈ [ErrInfra; ErrMediaDisabled; ErrBadMedia; ErrBadFile; ErrDailyQuota; ErrStorageFull; unique_violation "media_pkey"] ∨
        (e = foreign_key_violation "media_owner_id_fkey" ∧ users (w_db w) !! owner = None) ∨
        (e = check_violation "media_duration_ms_check" ∧ dm_DurationMs (nu_Dims req) > 600000))) ∨
      ∃ id, PresignPut (key id) (nu_ContentType req) (nu_Size req) uploadTTL now = Err e
  end.
Proof.
  intros Hw. unfold NewUpload. destruct mc_store; cbn [negb].
  2: { intros [= <- <-]. left. split; [done|]. left. set_solver. }
  rewrite bind_run. unfold lift_result at 1. destruct (check_request req) as [fileName|e] eqn:Hc.
  2: { intros [= <- <-]. left. split; [done|]. left. revert Hc. unfold check_request, check_kind.
       repeat case_match; intros; simplify_eq; set_solver. }
  rewrite bind_run. cbn [Now get]. rewrite bind_run.
  match goal with |- context [create owner (nu_Size req) (w_now w) ?f w] => set (row := f) end.
  destruct (create _ _ _ row w) as [r1 w1] eqn:H1. apply create_run in H1 as (_ & _ & H1); [|done].
  destruct r1 as [id|e].
  2: { intros [= <- <-]. left. destruct H1 as [Hd He]. split; [done|]. destruct He as [He|He]; [left; set_solver|].
       destruct (checked_refused req fileName owner (w_now w) e (w_db w) Hc Hw He) as [->|He']; [left; set_solver|by right]. }
  destruct H1 as (Hq & Hid & _ & Hd). rewrite bind_run. unfold lift_result. destruct (PresignPut _ _ _ _ _) as [u|e] eqn:Hu.
  2: { intros [= <- <-]. right. by exists id. }
  intros [= <- <-]. cbn [up_ID]. exists (new_medium (row id)). apply check_request_ok in Hc as (Hk & Hs & _).
  split_and!; try done; try (by apply slices_contains_true); try (simpl; lia);
    rewrite Hd; by eapply within_quota_after.
Qed.
End uploads.

(** ** Attachments *)

Section attachments.
Context {ulib : UuidLib} {lower : GoLower} {images : ImageLib} {cfg : MediaConfig}.

(** An upload that may be sent: the sender's own, waiting, and in the bucket with the size
    declared. *)
Definition sendable (owner : uuid) (w : World) (id : uuid) : Prop := ∃ m o,
  media (w_db w) !! id = Some m ∧ md_OwnerID m = Some owner ∧ md_Status m = "pending" ∧ md_DeletedAt m = None ∧
  w_store w !! key id = Some o ∧ Z.of_nat (length (ob_Data o)) = md_Size m.

(** The uploads [ids] attached to a message. *)
Definition attached_to (ids : list uuid) (chatType : string) (chatID msgID : uuid) : DB → DB :=
  update_media (λ k _, slices_contains ids k) (set_attached chatType chatID msgID).

Lemma no_rows_run {A} e (m : M World A) w r w' : no_rows e m w = (r, w') →
  ∃ r0, m w = (r0, w') ∧ (∀ a, r = Ok a ↔ r0 = Ok a).
Proof.
  unfold no_rows. rewrite bind_run. unfold try. destruct (m w) as [[a|e'] w1].
  - intros [= <- <-]. by exists (Ok a).
  - intros [= <- <-]. exists (Err e'). split; [done|]. by split.
Qed.

Lemma Size_run k w r w' : store_Size k w = (r, w') → w_db w' = w_db w ∧ w_store w' = w_store w ∧
  ∀ n, r = Ok n → ∃ o, w_store w !! k = Some o ∧ Z.of_nat (length (ob_Data o)) = n.
Proof.
  unfold store_Size, io; simpl. destruct (w_faults w) as [|[] fs]; simpl; destruct (w_store w !! k) as [o|] eqn:Ho; simpl;
    intros [= H <-]; subst r; (split_and!; [done|done|]); intros n Hn; try done; injection Hn as <-; by exists o.
Qed.

Lemma check_all_run owner ids w r w' : check_all owner ids w = (r, w') →
  w_db w' = w_db w ∧ w_store w' = w_store w ∧
  ∀ out, r = Ok out → (∀ id, id ∈ ids → sendable owner w id) ∧ att_ID <$> out = ids.
Proof.
  revert w r w'. induction ids as [|id ids IH]; intros w r w'; simpl.
  { intros [= <- <-]. split_and!; try done. intros out [= <-]. split; [|done]. set_solver. }
  rewrite bind_run. destruct (no_rows ErrBadAttachment (query (GetMedia id)) w) as [r1 w1] eqn:H1.
  apply no_rows_run in H1 as (r0 & H1 & Hr).
  apply (read_run (λ d, match media d !! id with Some m => Ok m | None => Err ErrNoRows end)) in H1 as (D1 & _ & S1 & R1).
  destruct r1 as [m|e]; [|by intros [= <- <-]]. assert (r0 = Ok m) as -> by (by apply Hr).
  destruct R1 as [R1|]; [|done]. destruct (media (w_db w) !! id) as [m'|] eqn:Hm; [|done]. injection R1 as <-.
  destruct (negb (owned owner m) || _ || _) eqn:E; [by intros [= <- <-]|].
  apply orb_false_iff in E as [[E1 E2]%orb_false_iff E3].
  apply negb_false_iff, bool_decide_eq_true in E1, E2, E3.
  rewrite bind_run. unfold try. destruct (store_Size (key id) w1) as [[size|e] w2] eqn:H2; apply Size_run in H2 as (D2 & S2 & Hsize).
  2: { intros [= <- <-]. split_and!; congruence. }
  destruct (negb (size =? md_Size m)) eqn:Esize; [intros [= <- <-]; split_and!; congruence|].
  rewrite bind_run. destruct (check_all owner ids w2) as [r3 w3] eqn:H3. apply IH in H3 as (D3 & S3 & H3).
  assert (w_db w3 = w_db w ∧ w_store w3 = w_store w) as [D S] by (split; congruence).
  destruct r3 as [out|e]; intros [= <- <-]; (split_and!; [done|done|]); [|done].
  intros out' [= <-]. destruct (H3 out eq_refl) as [Hall <-]. split; [|done].
  intros k [->|Hk]%elem_of_cons.
  - destruct (Hsize size eq_refl) as (o & Ho & Hlen). exists m, o. rewrite <- S1. split_and!; try done.
    apply negb_false_iff in Esize. lia.
  - destruct (Hall k Hk) as (m' & o & Hm' & Ho). exists m', o. rewrite <- D1, <- S1, <- D2, <- S2. by split.
Qed.

Lemma attached_cons id ids ct c msg m d : id ∉ ids → media d !! id = Some m →
  attached_to ids ct c msg (put_medium id (set_attached ct c msg m) d) = attached_to (id :: ids) ct c msg d.
Proof.
  intros Hid Hm. unfold attached_to, update_media, put_medium, with_media; simpl. f_equal.
  apply map_eq. intros k. rewrite !map_lookup_imap. unfold slices_contains.
  destruct (decide (k = id)) as [->|Hne].
  - rewrite lookup_insert_eq, Hm. simpl. rewrite bool_decide_false by done. by rewrite bool_decide_true by set_solver.
  - rewrite lookup_insert_ne by done. destruct (media d !! k); simpl; [|done].
    by rewrite (bool_decide_ext (k ∈ ids) (k ∈ id :: ids)) by set_solver.
Qed.

Lemma attach_all_run owner ids ct c msg w w' : NoDup ids → attach_all owner ids ct c msg w = (Ok tt, w') →
  w_db w' = attached_to ids ct c msg (w_db w) ∧ w_store w' = w_store w.
Proof.
  revert w. induction ids as [|id ids IH]; intros w; simpl.
  { intros _ [= <-]. split; [|done]. unfold attached_to, update_media. destruct (w_db w); unfold with_media; simpl. f_equal.
    symmetry. apply map_eq. intros k. rewrite map_lookup_imap. by destruct (_ !! k). }
  intros [Hid Hnd]%NoDup_cons. rewrite bind_run. destruct (query _ w) as [[n|e] w1] eqn:H1; [|done].
  destruct (n =? 0) eqn:En; [done|]. intros H. apply IH in H as [D S]; [|done].
  apply query_cases in H1 as [(fs & d & H1 & ->)|(Hn & _)]; [|done]. simpl in D, S.
  unfold AttachMedia in H1. destruct (media (w_db w) !! id) as [m|] eqn:Hm; [|by injection H1 as <- <-].
  destruct (_ && live m); [|by injection H1 as <- <-]. destruct (media_columns_ok _ _); [done|].
  injection H1 as <- <-. split; [|done]. rewrite D. by apply attached_cons.
Qed.

(** What happens between two messages: calls of the service, uploads, and time passes. *)
Inductive media_step : relation World :=
  | step_op op w : media_step w (serve_media op w).2
  | step_upload id contentType size data w : media_step w (phone_put id contentType size data w)
  | step_time t w : media_step w (with_now t w).

Hypothesis members_kept : ∀ g, moves media_kept (mc_Members g).

Lemma steps_kept w w' : rtc media_step w w' → media_kept w w'.
Proof.
  induction 1 as [w|w w1 w2 Hs _ IH]; [reflexivity|]. etrans; [|exact IH]. destruct Hs as [op w|id ct n data w|t w].
  - by apply serve_media_kept.
  - intros k m Hm. exists m. unfold phone_put. split; [|reflexivity]. by repeat case_match.
  - intros k m Hm. by exists m.
Qed.

Lemma Attach_run owner ids ct c msg w out w' : Attach owner ids ct c msg w = (Ok out, w') →
  NoDup ids ∧ Z.of_nat (length ids) <= MaxPerMessage ∧ (∀ id, id ∈ ids → sendable owner w id) ∧
  w_db w' = attached_to ids ct c msg (w_db w) ∧ att_ID <$> out = ids.
Proof.
  unfold Attach. destruct (decide (ids = [])) as [->|_].
  { intros [= <- <-]. destruct (attach_all_run owner [] ct c msg w w) as [D _]; [by constructor|done|].
    split_and!; [by constructor|done|set_solver|done|done]. }
  destruct (negb mc_store); [done|]. destruct (_ >? MaxPerMessage) eqn:Hlen; [done|]. destruct (decide (NoDup ids)) as [Hnd|]; [|done].
  rewrite bind_run. destruct (check_all owner ids w) as [[l|e] w1] eqn:H1; [|done]. apply check_all_run in H1 as (D1 & S1 & H1).
  destruct (H1 l eq_refl) as [Hall <-]. rewrite bind_run.
  destruct (attach_all _ _ _ _ _ w1) as [[[]|e] w2] eqn:H2; [|done]. intros [= <- <-].
  apply attach_all_run in H2 as [D2 _]; [|done]. split_and!; [done|lia|done|by rewrite D2, D1|done].
Qed.

(** C10. An upload is sent once.  A message takes at most ten uploads, all different, each
    the sender's own, waiting, not deleted, and in the bucket with the size declared; they
    become that message's, and no other row changes.  Whatever is asked, uploaded or
    cleaned up afterwards, no message takes one of them again. *)
Theorem uploads_attached_once owner ids ct c msg w out w1 : Attach owner ids ct c msg w = (Ok out, w1) →
  NoDup ids ∧ Z.of_nat (length ids) <= MaxPerMessage ∧ (∀ id, id ∈ ids → sendable owner w id) ∧
  w_db w1 = attached_to ids ct c msg (w_db w) ∧ att_ID <$> out = ids ∧
  ∀ w2, rtc media_step w1 w2 → ∀ owner' ids' ct' c' msg' id, id ∈ ids → id ∈ ids' →
    ∃ e, (Attach owner' ids' ct' c' msg' w2).1 = Err e.
Proof.
  intros (Hnd & Hlen & Hall & Hd & Hout)%Attach_run. split_and!; try done.
  intros w2 Hsteps%steps_kept o' ids' t' c' m' id Hid Hid'.
  destruct (Attach o' ids' t' c' m' w2) as [[out'|e] w3] eqn:H2; [exfalso|by exists e].
  apply Attach_run in H2 as (_ & _ & Hall' & _). destruct (Hall' id Hid') as (m2 & o2 & Hm2 & _ & Hpending & _).
  destruct (Hall id Hid) as (m & o & Hm & _).
  assert (media (w_db w1) !! id = Some (set_attached ct c msg m)) as Hm1.
  { rewrite Hd. unfold attached_to. rewrite update_media_lookup, Hm. simpl. unfold slices_contains. by rewrite bool_decide_true. }
  destruct (Hsteps id _ Hm1) as (m2' & Hm2' & K). simplify_eq. destruct K as [_ _ K _ _].
  specialize (K eq_refl). simpl in K. injection K as K _ _ _. by rewrite K in Hpending.
Qed.
End attachments.

(** ** Who may download *)

Section downloads.
Context {ulib : UuidLib} {lower : GoLower} {images : ImageLib} {cfg : MediaConfig}.

(** When the message of an upload was sent: the upload's own time once the message is
    gone. *)
Definition sent_at (m : Medium) (d : DB) : time :=
  from_option gm_CreatedAt (md_CreatedAt m) (md_MessageID m ≫= λ id, groupmessage d !! id).

(** Of a sent upload: the two of a private chat; in a group, members who had joined when it
    was sent. *)
Definition may_see (viewer id : uuid) (d : DB) : Prop := ∃ m, media d !! id = Some m ∧ md_Status m = "ready" ∧
  ((md_ChatType m = Some "private" ∧ (viewer = default uuid_nil (md_OwnerID m) ∨ viewer = default uuid_nil (md_ChatID m))) ∨
   (md_ChatType m = Some "public" ∧ ∃ mt, member_table d !! (default uuid_nil (md_ChatID m), viewer) = Some mt ∧
      m_JoinedAt mt <= sent_at m d)).

(** Refused, and nothing of the uploads has changed. *)
Definition not_told {A} (r : result A) (w w' : World) : Prop :=
  ∃ e, r = Err e ∧ e ∈ [ErrInfra; ErrMediaDisabled; ErrNotFound] ∧ w_db w' = w_db w.

Hypothesis members_read : ∀ g w, w_db (mc_Members g w).2 = w_db w.

Lemma group_access viewer m w r w' : group_recipients viewer m w = (r, w') → w_db w' = w_db w ∧
  (r = Err ErrNotFound ∨
   ∃ mt, member_table (w_db w) !! (default uuid_nil (md_ChatID m), viewer) = Some mt ∧ m_JoinedAt mt <= sent_at m (w_db w)).
Proof.
  unfold group_recipients. rewrite bind_run. unfold try at 1. pose proof (members_read (default uuid_nil (md_ChatID m)) w) as D1.
  destruct (mc_Members _ w) as [[ms|e] w1]; simpl in D1; [|intros [= <- <-]; split; [done|by left]].
  destruct (negb _); [intros [= <- <-]; split; [done|by left]|]. rewrite bind_run. unfold try.
  destruct (query _ w1) as [r2 w2] eqn:H2.
  apply (read_run (λ d, Ok (match member_table d !! (default uuid_nil (md_ChatID m), viewer) with
                            | Some mt => m_JoinedAt mt <=? sent_at m d | None => false end))) in H2 as (D2 & _ & _ & R2).
  destruct r2 as [[]|e]; intros [= <- <-]; (split; [congruence|]); [right|by left..].
  destruct R2 as [[= R2]|]; [|done]. rewrite D1 in R2. destruct (member_table _ !! _) as [mt|]; [|done]. exists mt. split; [done|lia].
Qed.

Lemma not_told_err {A} e w w' : e ∈ [ErrInfra; ErrMediaDisabled; ErrNotFound] → w_db w' = w_db w → not_told (Err e : result A) w w'.
Proof. intros. by exists e. Qed.

Lemma access_run viewer id w r w' : access viewer id w = (r, w') → w_db w' = w_db w ∧
  (may_see viewer id (w_db w) ∨ not_told r w w').
Proof.
  unfold access. destruct (negb mc_store).
  { intros [= <- <-]. split; [done|]. right. apply not_told_err; [set_solver|done]. }
  rewrite bind_run. unfold no_rows. rewrite bind_run. unfold try at 1. destruct (query (GetMedia id) w) as [r1 w1] eqn:H1.
  apply (read_run (λ d, match media d !! id with Some m => Ok m | None => Err ErrNoRows end)) in H1 as (D1 & _ & _ & R1).
  destruct r1 as [m|e].
  2: { intros [= <- <-]. split; [done|]. right. apply not_told_err; [|done].
       case_decide; [set_solver|]. destruct R1 as [R1|[= ->]]; [|set_solver]. by destruct (media _ !! id); simplify_eq. }
  destruct R1 as [R1|]; [|done]. destruct (media (w_db w) !! id) as [m'|] eqn:Hm; [|done]. injection R1 as <-.
  assert (∀ A, not_told (Err ErrNotFound : result A) w w1) as Hno by (intros A; apply not_told_err; [set_solver|done]).
  unfold mret, M_ret. destruct (negb (bool_decide (md_Status m = "ready"))) eqn:Hs; [intros [= <- <-]; split; [done|right; apply Hno]|].
  apply negb_false_iff, bool_decide_eq_true in Hs. rewrite bind_run.
  match goal with |- context [match ?p w1 with _ => _ end] => destruct (p w1) as [r2 w2] eqn:H2 end.
  assert (w_db w2 = w_db w ∧ (r2 = Err ErrNotFound ∨ may_see viewer id (w_db w))) as [D2 [->|Hsee]].
  { case_decide as Hp.
    { destruct (_ && _) eqn:E; injection H2 as <- <-; (split; [done|]); [by left|right].
      exists m. split_and!; try done. left. split; [done|].
      apply andb_false_iff in E as [E%negb_false_iff%bool_decide_eq_true|E%negb_false_iff%bool_decide_eq_true]; [by left|by right]. }
    case_decide as Hg; [|injection H2 as <- <-; split; [done|by left]].
    apply group_access in H2 as [D2 [->|(mt & Hmt & Hj)]]; (split; [congruence|]); [by left|right].
    rewrite D1 in Hmt, Hj. exists m. split_and!; try done. right. split; [done|]. by exists mt. }
  - intros [= <- <-]. split; [done|]. right. apply not_told_err; [set_solver|done].
  - destruct r2 as [l|e]; [|intros [= <- <-]; split; [done|by left]].
    destruct (_ || _); intros [= <- <-]; (split; [done|by left]).
Qed.

(** C9. Media are for whom they were sent.  A link to a file or its preview is only
    given to one of the two of the private chat, or to a member who had joined the group
    when it was sent, in the tables, whatever members are cached; to anyone else the answer
    is the one of a file that does not exist, and nothing is recorded. *)
Theorem media_access viewer id w : ¬ may_see viewer id (w_db w) →
  (∀ r w', Download_ viewer id w = (r, w') → not_told r w w') ∧
  (∀ r w', Thumbnail viewer id w = (r, w') → not_told r w w').
Proof.
  intros Hno. unfold Download_, Thumbnail.
  split; intros r w'; rewrite bind_run; destruct (access viewer id w) as [r1 w1] eqn:H1;
    apply access_run in H1 as [D1 [|(e & -> & He & _)]]; try done; intros [= <- <-]; by apply not_told_err.
Qed.
End downloads.

(** * The janitor removes what is due, and nothing else (src/internal/media/media.go) *)

(** ** What is stored *)

(** The rows [done], deleted. *)
Definition marked (done : list uuid) (t : time) : gmap uuid Medium → gmap uuid Medium :=
  map_imap (λ k m, Some (if slices_contains done k
    then set_media_times (md_ExpiresAt m) (md_DeliveredAt m) (md_LastAccessAt m) (Some t) m else m)).

Definition sizes_ok (t : gmap uuid Medium) : Prop := map_Forall (λ _ m, 0 < md_Size m) t.

Lemma lookup_marked done t rows id : marked done t rows !! id =
  (λ m, if slices_contains done id
        then set_media_times (md_ExpiresAt m) (md_DeliveredAt m) (md_LastAccessAt m) (Some t) m else m) <$> rows !! id.
Proof. unfold marked. rewrite map_lookup_imap. by destruct (rows !! id). Qed.

Lemma marked_nil t rows : marked [] t rows = rows.
Proof. apply map_eq. intros k. rewrite lookup_marked. by destruct (rows !! k). Qed.

Lemma marked_insert done t id m rows : marked done t (<[id := m]> rows) =
  <[id := if slices_contains done id
          then set_media_times (md_ExpiresAt m) (md_DeliveredAt m) (md_LastAccessAt m) (Some t) m else m]> (marked done t rows).
Proof.
  apply map_eq. intros k. destruct (decide (k = id)) as [->|Hne].
  - by rewrite lookup_marked, !lookup_insert_eq.
  - by rewrite lookup_marked, !lookup_insert_ne, lookup_marked.
Qed.

Lemma stored_marked done t rows : sizes_ok rows →
  sum_sizes (select (λ _ m, live m) (marked done t rows)) <= sum_sizes (select (λ _ m, live m) rows).
Proof.
  induction rows as [|id m rows Hid IH] using map_ind; intros Hpos; [by vm_compute|].
  rewrite marked_insert. apply map_Forall_insert in Hpos as [Hm Hpos]; [|done]. specialize (IH Hpos).
  rewrite !(sum_insert (λ _ m, live m)); [|done|by rewrite lookup_marked, Hid].
  destruct (slices_contains done id); simpl; [destruct (live m); lia|lia].
Qed.

(** ** Removing files *)

Section cleanup.
Context {ulib : UuidLib} {laws : UuidLaws ulib} {lower : GoLower} {images : ImageLib} {cfg : MediaConfig}.

#[export] Instance key_inj : Inj (=) (=) key.
Proof. intros a b H. by apply (inj uuid_string), (inj (String.append "m/")). Qed.
Lemma key_thumbKey a b : key a ≠ thumbKey b.
Proof. done. Qed.

(** Files of [ids] are removed; no other object is touched, none appears, and only rows of
    files that are gone are marked. *)
Record removal (ids : list uuid) (w w' : World) : Prop := {
  rm_rows : ∃ done t, (∀ id, id ∈ done → id ∈ ids ∧ w_store w' !! key id = None) ∧
              media (w_db w') = marked done t (media (w_db w));
  rm_store k : (∀ id, id ∈ ids → k ≠ key id ∧ k ≠ thumbKey id) → w_store w' !! k = w_store w !! k;
  rm_gone k : w_store w !! k = None → w_store w' !! k = None;
  rm_now : w_now w' = w_now w;
}.

Lemma Delete_run k w r w' : store_Delete k w = (r, w') → w_db w' = w_db w ∧ w_now w' = w_now w ∧
  (w_store w' = w_store w ∨ w_store w' = delete k (w_store w)) ∧ (r = Ok tt → w_store w' = delete k (w_store w)).
Proof.
  unfold store_Delete, io, modify; simpl. destruct (w_faults w) as [|[] fs]; simpl; intros [= <- <-]; simpl;
    (split_and!; [done|done|by auto|done]).
Qed.

Lemma delete_sub (s1 s2 : gmap string Object) k k' : s2 = s1 ∨ s2 = delete k s1 → (k ≠ k' → s2 !! k' = s1 !! k') ∧ (s1 !! k' = None → s2 !! k' = None).
Proof.
  intros [->| ->]; [done|]. split; intros H; [by rewrite lookup_delete_ne|].
  destruct (decide (k = k')) as [->|]; [by rewrite lookup_delete_eq|by rewrite lookup_delete_ne].
Qed.

Lemma remove_files_run thumbs ids w r w' : remove_files thumbs ids w = (r, w') → ∃ done, r = Ok done ∧
  w_db w' = w_db w ∧ w_now w' = w_now w ∧ (∀ id, id ∈ done → id ∈ ids ∧ w_store w' !! key id = None) ∧
  (∀ k, (∀ id, id ∈ ids → k ≠ key id ∧ k ≠ thumbKey id) → w_store w' !! k = w_store w !! k) ∧
  (∀ k, w_store w !! k = None → w_store w' !! k = None).
Proof.
  revert w r w'. induction ids as [|id ids IH]; intros w r w'; simpl.
  { intros [= <- <-]. exists []. split_and!; try done. set_solver. }
  rewrite bind_run. unfold try at 1. rewrite bind_run.
  destruct ((if slices_contains thumbs id then store_Delete (thumbKey id) else mret tt) w) as [r0 w0] eqn:H0.
  assert (w_db w0 = w_db w ∧ w_now w0 = w_now w ∧ ∀ k, (thumbKey id ≠ k → w_store w0 !! k = w_store w !! k) ∧
          (w_store w !! k = None → w_store w0 !! k = None)) as (D0 & N0 & S0).
  { destruct (slices_contains thumbs id); [|by injection H0 as <- <-].
    apply Delete_run in H0 as (D0 & N0 & S0 & _). split_and!; [done..|]. intros k. by apply delete_sub. }
  assert (∃ r1 w1, (match r0 with Ok _ => store_Delete (key id) w0 | Err e => (Err e, w0) end) = (r1, w1) ∧
          w_db w1 = w_db w ∧ w_now w1 = w_now w ∧ (r1 = Ok tt → w_store w1 !! key id = None) ∧
          ∀ k, (thumbKey id ≠ k → key id ≠ k → w_store w1 !! k = w_store w !! k) ∧
          (w_store w !! k = None → w_store w1 !! k = None)) as (r1 & w1 & E1 & D1 & N1 & G1 & S1).
  { destruct r0 as [[]|e]; [|exists (Err e), w0; split_and!; try done; intros k; destruct (S0 k); split; auto].
    destruct (store_Delete (key id) w0) as [r1 w1] eqn:H1. apply Delete_run in H1 as (D1 & N1 & S1 & G1).
    exists r1, w1. split_and!; try congruence; [intros Hr; rewrite (G1 Hr); apply lookup_delete_eq|].
    intros k. destruct (S0 k) as [A B], (delete_sub _ _ _ k S1) as [A' B']. split; [intros; rewrite A', A by done; done|auto]. }
  rewrite E1. rewrite bind_run. destruct (remove_files thumbs ids w1) as [r2 w2] eqn:H2.
  apply IH in H2 as (dn & -> & D2 & N2 & G2 & S2 & K2). intros [= <- <-]. eexists. split; [done|].
  split_and!; [congruence|congruence| | |].
  - intros k Hk. destruct r1 as [u|e]; [|apply G2 in Hk as [Hk ?]; split; [by right|done]].
    apply elem_of_cons in Hk as [->|Hk]; [|apply G2 in Hk as [Hk ?]; split; [by right|done]].
    split; [by left|]. apply K2, G1. by destruct u.
  - intros k Hk. rewrite S2 by (intros; apply Hk; by right). destruct (S1 k) as [A _].
    destruct (Hk id ltac:(by left)). by rewrite A.
  - intros k Hk. by apply K2, S1.
Qed.

Lemma remove_run ids w r w' : remove ids w = (r, w') → (∃ n, r = Ok n) ∧ removal ids w w'.
Proof.
  unfold remove. rewrite bind_run.
  match goal with |- context [match ?p w with _ => _ end] => destruct (p w) as [r1 w1] eqn:H1 end.
  assert (w_db w1 = w_db w ∧ w_store w1 = w_store w ∧ w_now w1 = w_now w ∧ ∃ thumbs, r1 = Ok thumbs) as (D1 & S1 & N1 & thumbs & ->).
  { case_decide; [injection H1 as <- <-; by split_and!; try eexists|]. rewrite bind_run in H1. unfold try in H1.
    destruct (query _ w) as [r0 w0] eqn:H0.
    apply (read_run (λ d, Ok (fst <$> select (λ k m, slices_contains ids k && md_HasThumbnail m) (media d)))) in H0 as (D & N & S & _).
    injection H1 as <- <-. split_and!; try congruence. by eexists. }
  rewrite bind_run. destruct (remove_files thumbs ids w1) as [r2 w2] eqn:H2.
  apply remove_files_run in H2 as (dn & -> & D2 & N2 & G2 & S2 & K2). rewrite bind_run. clear H1.
  destruct (decide (dn = [])) as [Hdn|Hdn].
  - intros E; injection E as <- <-. split; [by eexists|]. split; [|by setoid_rewrite <- S1|by setoid_rewrite <- S1|congruence].
    exists [], 0. split; [set_solver|]. rewrite marked_nil. congruence.
  - rewrite bind_run. cbn [Now get]. rewrite bind_run. unfold try. destruct (query _ w2) as [r3 w3] eqn:H3.
    intros E; injection E as <- <-. split; [by eexists|].
    apply query_cases in H3 as [(fs & d & H3 & ->)|(_ & fs & ->)].
    + injection H3 as <- <-. split; [|by setoid_rewrite <- S1|by setoid_rewrite <- S1|simpl; congruence].
      exists dn, (pgTime (w_now w2)). split; [done|]. simpl. by rewrite D2, D1.
    + split; [|by setoid_rewrite <- S1|by setoid_rewrite <- S1|simpl; congruence].
      exists [], 0. split; [set_solver|]. rewrite marked_nil. simpl. congruence.
Qed.

(** Whether the next cleanup is to remove the file. *)
Definition due_at (now : time) (m : Medium) : bool :=
  due (pgTime (now - keepAfterAll)) (pgTime now) (pgTime (now - pendingTTL)) m.

Lemma removal_other ids w w' id m : removal ids w w' → id ∉ ids → media (w_db w) !! id = Some m →
  media (w_db w') !! id = Some m ∧ w_store w' !! key id = w_store w !! key id ∧ w_store w' !! thumbKey id = w_store w !! thumbKey id.
Proof.
  intros [(dn & t & Hdn & Hrows) Hstore _ _] Hid Hm. split_and!.
  - rewrite Hrows, lookup_marked, Hm. simpl. unfold slices_contains. rewrite bool_decide_false; [done|]. by intros [? _]%Hdn.
  - apply Hstore. intros k Hk. split; [|done]. by intros ->%(inj key).
  - apply Hstore. intros k Hk. split; [done|]. intros E. unfold thumbKey in E.
    by apply (inj (String.append "t/")), (inj uuid_string) in E as ->.
Qed.

Lemma removal_deleted ids w w' id m m' : removal ids w w' → media (w_db w) !! id = Some m → media (w_db w') !! id = Some m' →
  m' = m ∨ (live m' = false ∧ w_store w' !! key id = None).
Proof.
  intros [(dn & t & Hdn & Hrows) _ _ _] Hm. rewrite Hrows, lookup_marked, Hm. simpl. intros [= <-].
  unfold slices_contains. case_bool_decide as Hin; [right|by left]. split; [done|by apply Hdn].
Qed.

(** ** When nothing fails *)

Lemma Delete_calm k w : w_faults w = [] → store_Delete k w = (Ok tt, with_store (delete k (w_store w)) w).
Proof. intros Hw. unfold store_Delete. by rewrite (io_calm _ _ Hw). Qed.

Lemma remove_files_calm thumbs ids w : w_faults w = [] → ∃ w', remove_files thumbs ids w = (Ok ids, w') ∧ w_faults w' = [] ∧
  ∀ id, id ∈ ids → id ∈ thumbs → w_store w' !! thumbKey id = None.
Proof.
  revert w. induction ids as [|id ids IH]; intros w Hw; simpl; [exists w; set_solver|].
  assert (∃ w1, (if slices_contains thumbs id then store_Delete (thumbKey id) else mret tt) w = (Ok tt, w1) ∧ w_faults w1 = [] ∧
          (id ∈ thumbs → w_store w1 !! thumbKey id = None)) as (w1 & E1 & F1 & T1).
  { unfold slices_contains. case_bool_decide; [|exists w; by split_and!]. rewrite (Delete_calm _ _ Hw).
    eexists. split_and!; [done|done|intros _; apply lookup_delete_eq]. }
  rewrite bind_run. unfold try at 1. rewrite bind_run, E1, (Delete_calm _ _ F1). rewrite bind_run.
  destruct (IH (with_store (delete (key id) (w_store w1)) w1) F1) as (w2 & E2 & F2 & T2). rewrite E2.
  exists w2. split_and!; [done|done|]. intros k [->|Hk]%elem_of_cons Ht; [|by apply T2].
  apply remove_files_run in E2 as (_ & _ & _ & _ & _ & _ & K2). apply K2. simpl.
  rewrite lookup_delete_ne; [by apply T1|apply key_thumbKey].
Qed.

(** Whether nothing of the upload is left but its row, deleted. *)
Definition removed (id : uuid) (m : Medium) (w : World) : Prop :=
  (∃ m', media (w_db w) !! id = Some m' ∧ live m' = false) ∧ w_store w !! key id = None ∧
  (md_HasThumbnail m = true → w_store w !! thumbKey id = None).

Lemma remove_calm ids w : w_faults w = [] → ∃ n w', remove ids w = (Ok n, w') ∧ removal ids w w' ∧ w_faults w' = [] ∧
  ∀ id m, id ∈ ids → media (w_db w) !! id = Some m → removed id m w'.
Proof.
  intros Hw. destruct (decide (ids = [])) as [->|Hne].
  { exists 0%nat, w. split; [done|]. split; [by apply (remove_run _ _ (Ok 0%nat))|]. split; [done|]. set_solver. }
  destruct (remove ids w) as [r w'] eqn:E. pose proof (remove_run _ _ _ _ E) as [[n ->] Hr]. exists n, w'. split; [done|]. split; [done|].
  revert E. unfold remove. rewrite bind_run, decide_False by done. rewrite bind_run. unfold try at 1. rewrite (query_calm _ _ Hw).
  cbn [ThumbnailsOf fst snd mret M_ret]. rewrite bind_run.
  set (thumbs := fst <$> _). destruct (remove_files_calm thumbs ids (with_db (w_db w) w) Hw) as (w1 & E1 & F1 & T1). rewrite E1.
  apply remove_files_run in E1 as (dn & [= <-] & D1 & N1 & G1 & _). rewrite bind_run, decide_False by done.
  rewrite bind_run. cbn [Now get]. rewrite bind_run. unfold try. rewrite (query_calm _ _ F1). intros [= _ <-]. split; [exact F1|].
  intros id m Hin Hm. split_and!.
  - unfold update_media; simpl. rewrite map_lookup_imap, D1. simpl. rewrite Hm. simpl. eexists. split; [done|].
    unfold slices_contains. by rewrite bool_decide_true.
  - by apply G1.
  - intros Ht. apply T1; [done|]. apply list_elem_of_fmap. exists (id, m). split; [done|]. apply elem_of_select; simpl.
    split; [done|]. rewrite Ht. unfold slices_contains. by rewrite bool_decide_true.
Qed.

Lemma removed_stays ids w w' id m : removal ids w w' → removed id m w → removed id m w'.
Proof.
  intros [(dn & t & _ & Hrows) _ Hgone _] ((m1 & Hm1 & Hl) & Hk & Ht). split_and!; [|by apply Hgone|by intros ?; apply Hgone, Ht].
  rewrite Hrows, lookup_marked, Hm1. simpl. eexists. split; [done|]. by destruct (slices_contains dn id).
Qed.

(** The least recently used rows there are, and those of them that go. *)
Definition lru_rows (d : DB) : list (uuid * Medium) := limit 500 (order_by lru_le (select (λ _ m, live m) (media d))).
Definition lru_of (d : DB) : list uuid := lru_victims (stored_bytes d) ((λ e : uuid * Medium, (e.1, md_Size e.2)) <$> lru_rows d).

(** A pass in which nothing fails: what is due goes, and, with more than 9 GiB stored after
    that, what was not used for longest. *)
Lemma Cleanup_calm w : mc_store = true → w_faults w = [] →
  let ids := fst <$> limit 500 (select (λ _ m, due_at (w_now w) m) (media (w_db w))) in
  ∃ w1 ids2, removal ids w w1 ∧ (∀ id m, id ∈ ids → media (w_db w) !! id = Some m → removed id m w1) ∧
    ids2 = (if stored_bytes (w_db w1) <=? lruHighBytes then [] else lru_of (w_db w1)) ∧
    removal ids2 w1 (Cleanup w).2 ∧ ∀ id m, id ∈ ids2 → media (w_db w1) !! id = Some m → removed id m (Cleanup w).2.
Proof.
  intros Hon Hw ids. unfold Cleanup. rewrite Hon. cbn [negb]. rewrite bind_run. cbn [Now get]. rewrite bind_run, (query_calm _ _ Hw).
  cbn [MediaToDelete fst snd]. rewrite bind_run. change (fst <$> limit 500 (select _ (media (w_db w)))) with ids.
  rewrite with_db_same. destruct (remove_calm ids w Hw) as (n & w1 & -> & Hr & F1 & Hall). exists w1. eexists. split; [exact Hr|].
  split; [exact Hall|]. split; [reflexivity|]. rewrite bind_run, (query_calm _ _ F1). cbn [MediaStoredBytes fst snd]. rewrite with_db_same.
  change (sum_sizes _) with (stored_bytes (w_db w1)). destruct (stored_bytes (w_db w1) <=? lruHighBytes).
  { split; [|set_solver]. by apply (remove_run [] _ (Ok 0%nat)). }
  rewrite bind_run, query_calm by exact F1. cbn [LeastRecentlyUsedMedia fst snd]. rewrite with_db_same, bind_run. fold (lru_rows (w_db w1)).
  change (lru_victims _ _) with (lru_of (w_db w1)).
  destruct (remove_calm (lru_of (w_db w1)) w1 F1) as (n2 & w2 & -> & Hr2 & _ & Hall2). simpl.
  split; [exact Hr2|exact Hall2].
Qed.

Lemma cleanup_calm id m w : mc_store = true → w_faults w = [] → media (w_db w) !! id = Some m → due_at (w_now w) m = true →
  (length (select (λ _ m, due_at (w_now w) m) (media (w_db w))) ≤ 500)%nat → removed id m (Cleanup w).2.
Proof.
  intros Hon Hw Hm Hdue Hmany. destruct (Cleanup_calm w Hon Hw) as (w1 & ids2 & _ & Hall & _ & Hr2 & _).
  eapply removed_stays; [exact Hr2|]. apply Hall; [|done]. unfold limit. rewrite take_ge by exact Hmany.
  apply list_elem_of_fmap. exists (id, m). split; [done|]. by apply elem_of_select.
Qed.

Lemma lru_total x y : lru_le x y = true ∨ lru_le y x = true.
Proof. unfold lru_le. rewrite !orb_true_iff, !andb_true_iff, !Z.ltb_lt, !Z.eqb_eq, !Z.leb_le. lia. Qed.
Lemma lru_trans x y z : lru_le x y = true → lru_le y z = true → lru_le x z = true.
Proof. unfold lru_le. rewrite !orb_true_iff, !andb_true_iff, !Z.ltb_lt, !Z.eqb_eq, !Z.leb_le. lia. Qed.

(** The victims are the first rows. *)
Lemma lru_victims_prefix stored rows : ∃ n, lru_victims stored rows = take n (fst <$> rows).
Proof.
  revert stored. induction rows as [|[id size] rows IH]; intros stored; simpl; [by exists 0%nat|].
  destruct (stored <=? lruLowBytes); [by exists 0%nat|]. destruct (IH (stored - size)) as [n ->]. by exists (S n).
Qed.

Lemma lru_of_oldest d id m id2 m2 : media d !! id = Some m → id ∈ lru_of d → media d !! id2 = Some m2 → live m2 = true → id2 ∉ lru_of d →
  lru_le (id, m) (id2, m2) = true.
Proof.
  intros Hm Hin Hm2 Hl2 Hout. unfold lru_of in *. destruct (lru_victims_prefix (stored_bytes d) ((λ e : uuid * Medium, (e.1, md_Size e.2)) <$> lru_rows d)) as [n E].
  rewrite E, <- list_fmap_compose in Hin, Hout. unfold compose in Hin, Hout. cbn [fst] in Hin, Hout.
  rewrite <- fmap_take in Hin, Hout. unfold lru_rows, limit in Hin, Hout. rewrite take_take in Hin, Hout.
  set (k := Nat.min n _) in *. set (l := order_by lru_le _) in *.
  assert (∀ e, e ∈ l ↔ media d !! e.1 = Some e.2 ∧ live e.2 = true) as Hl.
  { intros [i x]. unfold l. rewrite elem_of_order_by. apply elem_of_select. }
  pose proof (order_by_sorted lru_le lru_total lru_trans (select (λ _ m, live m) (media d))) as Hsorted. fold l in Hsorted.
  apply list_elem_of_fmap in Hin as ([i x] & Hi & Hin). simpl in Hi. subst i.
  assert (x = m) as ->.
  { apply elem_of_take in Hin as (j & Hj & _). apply list_elem_of_lookup_2, Hl in Hj as [Hj _]. simpl in Hj. congruence. }
  assert ((id2, m2) ∈ l) as Hin2 by (by apply Hl). rewrite <- (take_drop k l) in Hin2, Hsorted. apply elem_of_app in Hin2 as [Hin2|Hin2].
  - destruct Hout. apply list_elem_of_fmap. by exists (id2, m2).
  - apply StronglySorted_app in Hsorted as (H & _). by apply H.
Qed.

Lemma and_assoc_swap (A B C : Prop) : B ∧ A ∧ C → A ∧ B ∧ C.
Proof. tauto. Qed.

(** What goes besides what is due was used no later than anything that stays. *)
Lemma cleanup_lru id m m' w : mc_store = true → w_faults w = [] → media (w_db w) !! id = Some m → live m = true → due_at (w_now w) m = false →
  media (w_db (Cleanup w).2) !! id = Some m' → live m' = false → removed id m (Cleanup w).2 ∧
  ∀ id2 m2, media (w_db w) !! id2 = Some m2 → (∃ m2', media (w_db (Cleanup w).2) !! id2 = Some m2' ∧ live m2' = true) →
    lru_le (id, m) (id2, m2) = true.
Proof.
  intros Hon Hw Hm Hl Hdue Hm' Hl'.
  destruct (Cleanup_calm w Hon Hw) as (w1 & ids2 & Hr1 & _ & E & Hr2 & Hall).
  assert (media (w_db w1) !! id = Some m) as Hm1.
  { apply (removal_other _ _ _ _ _ Hr1); [|done]. intros ([k x] & -> & (i & Hi & _)%elem_of_take)%list_elem_of_fmap.
    apply list_elem_of_lookup_2, elem_of_select in Hi as [Hi Hd]. simpl in *. congruence. }
  assert (id ∈ ids2) as Hin.
  { destruct (decide (id ∈ ids2)) as [|Hnot]; [done|]. apply (removal_other _ _ _ _ _ Hr2) in Hm1 as [Hm1 _]; [|done]. congruence. }
  split; [by apply Hall|]. intros id2 m2 Hm2 (m2' & Hm2' & Hl2').
  assert (media (w_db w1) !! id2 = Some m2 ∧ live m2 = true ∧ id2 ∉ ids2) as (Hm21 & Hl2 & Hout).
  { destruct (media (w_db w1) !! id2) as [x|] eqn:Hx.
    2: { destruct Hr2 as [(dn & t & _ & Hrows) _ _ _]. by rewrite Hrows, lookup_marked, Hx in Hm2'. }
    destruct (removal_deleted _ _ _ _ _ _ Hr2 Hx Hm2') as [->|[? _]]; [|congruence].
    destruct (removal_deleted _ _ _ _ _ _ Hr1 Hm2 Hx) as [->|[? _]]; [|congruence]. split_and!; [done..|].
    intros Hin2. destruct (Hall _ _ Hin2 Hx) as ((y & Hy & Hly) & _). congruence. }
  rewrite E in Hin, Hout. destruct (_ <=? _); [by apply not_elem_of_nil in Hin|]. by eapply lru_of_oldest.
Qed.

(** C28. The janitor removes what is due.  When no call fails and at most 500 uploads are
    due, each that is due (expired, downloaded by all more than a day ago, of a deleted
    account, or waiting for more than an hour) is gone, file and preview, and marked
    deleted.  Unless more than 9 GiB are stored, every other one stays as it is; above that,
    when no call fails, an upload that goes without being due goes with its preview and was
    last used no later than any that stays.  Whatever fails on the way, an upload is only
    marked deleted once its file is gone (its preview can stay behind when the previews
    cannot be listed). *)
Theorem cleanup_removes_what_is_due id m w r w' : sizes_ok (media (w_db w)) → media (w_db w) !! id = Some m →
  Cleanup w = (r, w') →
  (mc_store = true → w_faults w = [] → (length (select (λ _ m, due_at (w_now w) m) (media (w_db w))) ≤ 500)%nat →
     due_at (w_now w) m = true → removed id m w') ∧
  (stored_bytes (w_db w) <= lruHighBytes → due_at (w_now w) m = false →
     media (w_db w') !! id = Some m ∧ w_store w' !! key id = w_store w !! key id ∧ w_store w' !! thumbKey id = w_store w !! thumbKey id) ∧
  (mc_store = true → w_faults w = [] → live m = true → due_at (w_now w) m = false →
     ∀ m', media (w_db w') !! id = Some m' → live m' = false →
     removed id m w' ∧ ∀ id2 m2, media (w_db w) !! id2 = Some m2 → (∃ m2', media (w_db w') !! id2 = Some m2' ∧ live m2' = true) →
       lru_le (id, m) (id2, m2) = true) ∧
  (live m = true → ∀ m', media (w_db w') !! id = Some m' → live m' = false → w_store w' !! key id = None).
Proof.
  intros Hsizes Hm Hrun. split; [intros; rewrite <- (f_equal snd Hrun : (Cleanup w).2 = w'); by apply cleanup_calm|].
  apply and_assoc_swap. split; [intros; rewrite <- (f_equal snd Hrun : (Cleanup w).2 = w') in *; by eapply cleanup_lru|]. revert Hrun.
  unfold Cleanup. destruct (negb mc_store); [intros [= <- <-]; split; [done|intros; simplify_eq; congruence]|].
  rewrite bind_run. cbn [Now get]. rewrite bind_run. destruct (query _ w) as [r1 w1] eqn:H1.
  apply (read_run (λ d, Ok (fst <$> limit 500 (select (λ _ m, due_at (w_now w) m) (media d))))) in H1 as (D1 & N1 & S1 & R1).
  destruct r1 as [ids|e]; [|intros [= <- <-]; rewrite D1, S1; split; [done|intros; simplify_eq; congruence]].
  destruct R1 as [[= ->]|]; [|done]. set (ids := fst <$> _).
  assert (due_at (w_now w) m = false → id ∉ ids) as Hids.
  { unfold ids. intros Hdue Hin. apply list_elem_of_fmap in Hin as ([k m'] & -> & Hin). unfold limit in Hin. apply elem_of_take in Hin as (i & Hi & _).
    apply list_elem_of_lookup_2, elem_of_select in Hi as [Hi Hd]. simpl in *. simplify_eq. congruence. }
  rewrite bind_run. destruct (remove ids w1) as [r2 w2] eqn:H2. apply remove_run in H2 as [[n2 ->] H2].
  assert (media (w_db w1) !! id = Some m) as Hm1 by congruence.
  rewrite bind_run. destruct (query MediaStoredBytes w2) as [r3 w3] eqn:H3.
  apply (read_run (λ d, Ok (stored_bytes d))) in H3 as (D3 & N3 & S3 & R3).
  assert (due_at (w_now w) m = false → media (w_db w3) !! id = Some m ∧ w_store w3 !! key id = w_store w !! key id ∧
          w_store w3 !! thumbKey id = w_store w !! thumbKey id) as Hkeep.
  { intros Hdue. rewrite D3, S3, <- S1. by apply (removal_other _ _ _ _ _ H2); [apply Hids|]. }
  assert (∀ m', media (w_db w3) !! id = Some m' → m' = m ∨ (live m' = false ∧ w_store w3 !! key id = None)) as Hgone.
  { intros m'. rewrite D3, S3. by apply (removal_deleted _ _ _ _ _ _ H2). }
  destruct r3 as [stored|e].
  2: { intros [= <- <-]. split; [by intros _|]. intros Hl m' Hm'. destruct (Hgone m' Hm') as [->|[_ ?]]; [congruence|done]. }
  destruct R3 as [[= ->]|]; [|done].
  destruct (stored_bytes (w_db w2) <=? lruHighBytes) eqn:Hfull.
  { intros [= <- <-]. split; [by intros _|]. intros Hl m' Hm'. destruct (Hgone m' Hm') as [->|[_ ?]]; [congruence|done]. }
  assert (lruHighBytes < stored_bytes (w_db w)).
  { destruct H2 as [(dn & t & _ & Hrows) _ _ _]. pose proof (stored_marked dn t _ Hsizes) as Hle.
    unfold stored_bytes in *. rewrite Hrows, D1 in Hfull. lia. }
  rewrite bind_run. destruct (query LeastRecentlyUsedMedia w3) as [r4 w4] eqn:H4.
  apply (read_run (λ d, Ok ((λ e : uuid * Medium, (e.1, md_Size e.2)) <$> limit 500 (order_by lru_le (select (λ _ m, live m) (media d)))))) in H4 as (D4 & N4 & S4 & R4).
  destruct r4 as [rows|e].
  2: { intros [= <- <-]. rewrite D4, S4. split; [lia|]. intros Hl m' Hm'. destruct (Hgone m' Hm') as [->|[_ ?]]; [congruence|done]. }
  rewrite bind_run. destruct (remove _ w4) as [r5 w5] eqn:H5. apply remove_run in H5 as [[n5 ->] H5].
  intros [= <- <-]. split; [lia|]. intros Hl m' Hm'.
  destruct (media (w_db w4) !! id) as [m4|] eqn:Hm4.
  2: { destruct H5 as [(dn & t & _ & Hrows) _ _ _]. by rewrite Hrows, lookup_marked, Hm4 in Hm'. }
  destruct (removal_deleted _ _ _ _ _ _ H5 Hm4 Hm') as [->|[_ ?]]; [|done]. intros Hdead.
  rewrite D4 in Hm4. destruct (Hgone m4 Hm4) as [->|[_ Hnone]]; [congruence|].
  destruct H5 as [_ _ Hrm _]. apply Hrm. by rewrite S4.
Qed.
End cleanup.
