(* ===== verification/Chat_Repo.v ===== *)
(** * Chat_Repo: the chat repository (src/internal/chat/repo.go, cache.go)

    Statements and the errors they become, the rows as the API shows them, and
    the cached list of banned accounts. *)

From S2P Require Import Prelude GoLib Types Users_Model Db Groups_Model Sql_Chat World Chat_Model.

#[local] Open Scope Z_scope.

(** Parsing is done again here: text that is not an id is stored as NULL. *)
Definition pgOptUUID `{UuidLib} (s : string) : option uuid := uuid_parse s.

Definition optString `{UuidLib} (id : option uuid) : string := from_option uuid_string EmptyString id.

(** [uuid.UUID(x.Bytes)]: NULL has zero bytes. *)
Definition uuidBytes (id : option uuid) : uuid := default uuid_nil id.

Section repo.
Context `{UuidLib}.

Definition AddPrivate (m : MessageMetaDataRes) : M World unit :=
  let msg := mc_Msg (mr_MsgInfo m) in
  query (AddMessagePrivate (mr_ID m) (Some (im_Content msg)) (pgOptUUID (im_ParendID msg))
           (Some (mc_FromID (mr_MsgInfo m))) (pgOptUUID (im_ToID msg)) (pgTime (mr_CreatedAt m)) (mr_Forwarded m)).

Definition AddPublic (m : MessageMetaDataRes) : M World unit :=
  let msg := mc_Msg (mr_MsgInfo m) in
  query (AddMessagePublic (mr_ID m) (Some (im_Content msg)) (pgOptUUID (im_ToID msg))
           (Some (mc_FromID (mr_MsgInfo m))) (pgOptUUID (im_ParendID msg)) (pgTime (mr_CreatedAt m)) (mr_Forwarded m)).

Definition fromPrivate (rows : list (uuid * Message)) : list MessageMetaDataRes :=
  (λ r : uuid * Message,
    mk_MessageMetaDataRes r.1
      (mk_MessageCache
        (mk_InCommingMessage (default EmptyString (pm_Content r.2)) (optString (pm_Parentid r.2))
           (optString (pm_ToID r.2)) TypePrivate [] EmptyString false)
        (uuidBytes (pm_FromID r.2)) (pm_CreatedAt r.2))
      (pm_CreatedAt r.2) (pm_EditedAt r.2) (pm_Forwarded r.2) (bool_decide (is_Some (pm_DeletedAt r.2)))
      [] [] false) <$> rows.

Definition fromPublic (rows : list (uuid * Groupmessage)) : list MessageMetaDataRes :=
  (λ r : uuid * Groupmessage,
    mk_MessageMetaDataRes r.1
      (mk_MessageCache
        (mk_InCommingMessage (default EmptyString (gm_Content r.2)) (optString (gm_ParentID r.2))
           (optString (gm_GroupID r.2)) TypePublic [] EmptyString false)
        (uuidBytes (gm_FromID r.2)) (gm_CreatedAt r.2))
      (gm_CreatedAt r.2) (gm_EditedAt r.2) (gm_Forwarded r.2) (bool_decide (is_Some (gm_DeletedAt r.2)))
      [] [] false) <$> rows.

Definition RecentPrivate (a b : uuid) (n : Z) : M World (list MessageMetaDataRes) :=
  rows ← query (GetRecentPrivateMessages a b n);
  mret (reverse (fromPrivate rows)).

Definition PrivateSince (a b : uuid) (since : time) (n : Z) : M World (list MessageMetaDataRes) :=
  rows ← query (GetPrivateMessagesSince a b (pgTime since) n);
  mret (fromPrivate rows).

Definition RecentPublic (groupID viewer : uuid) (n : Z) : M World (list MessageMetaDataRes) :=
  rows ← query (GetRecentGroupMessages groupID viewer n);
  mret (reverse (fromPublic rows)).

Definition UpdateLastSeen (chatID : string) (userID msgID : uuid) : M World unit :=
  query (AddLastSeenMessage chatID msgID userID).

Definition ParentInPrivate (parentID a b : uuid) : M World bool := query (PrivateMessageInChat parentID a b).

Definition ParentInGroup (parentID groupID : uuid) : M World bool := query (GroupMessageInGroup parentID groupID).

(** [if errors.Is(err, pgx.ErrNoRows) { return alt }] *)
Definition missing {A} (alt : error) (m : M World A) : M World A :=
  r ← try m;
  match r with
  | Ok a => mret a
  | Err e => throw (if decide (e = ErrNoRows) then alt else e)
  end.

Definition PrivateBefore (a b before : uuid) (n : Z) : M World (list MessageMetaDataRes) :=
  at_ ← missing ErrBadCursor (query (PrivateMessageCursor before a b));
  rows ← query (GetPrivateMessagesBefore a b at_ before n);
  mret (reverse (fromPrivate rows)).

Definition JoinedAt (groupID userID : uuid) : M World time :=
  missing ErrNotAuthorized (query (GroupJoinedAt groupID userID)).

Definition GroupBefore (groupID viewer before : uuid) (n : Z) : M World (list MessageMetaDataRes) :=
  at_ ← missing ErrBadCursor (query (GroupMessageCursor before groupID));
  rows ← query (GetGroupMessagesBefore groupID at_ before viewer n);
  mret (reverse (fromPublic rows)).

Definition MarkGroupRead_ (groupID userID msgID : uuid) : M World bool :=
  _ ← missing ErrMessageNotInChat (query (GroupMessageCursor msgID groupID));
  n ← query (MarkGroupRead groupID userID msgID);
  mret (n >? 0).

Definition RecentGroupSenders_ (groupID msgID : uuid) : M World (list uuid) :=
  query (RecentGroupSenders groupID msgID).

Definition GroupReadBy_ (ref : messageRef) (msgID : uuid) : M World (list Reader) :=
  rows ← query (GroupReadBy (ref_Group ref) (ref_From ref) (pgTime (ref_CreatedAt ref)) msgID);
  mret ((λ x : uuid * User * time,
    mk_Reader x.1.1 (u_name x.1.2) (ShownName (u_name x.1.2) (u_display_name x.1.2))
      (AvatarURLFrom x.1.1 (u_avatar_at x.1.2)) x.2) <$> rows).

Definition lastMessage (id : uuid) (content : option string) (from : option uuid) (at_ : option time) (deleted : bool) :
    option LastMessage :=
  t ← at_; Some (mk_LastMessage id (default EmptyString content) (uuidBytes from) t deleted false).
End repo.

Section rest.
Context `{UuidLib}.

(** The order of the chat list: [SortStableFunc]'s comparison gives at most 0. *)
Definition conversation_le `{GoLower} (a b : Conversation) : bool :=
  match cv_LastMessage a, cv_LastMessage b with
  | None, None => negb (string_gt (ToLower (cv_Name a)) (ToLower (cv_Name b)))
  | None, Some _ => false
  | Some _, None => true
  | Some x, Some y => lm_CreatedAt y <=? lm_CreatedAt x
  end.

Definition Conversations_ `{GoLower} `{LowerCollation} (me : uuid) : M World (list Conversation) :=
  priv ← query (ListPrivateConversations me);
  grp ← query (ListGroupConversations me);
  let of_private (p : ListPrivateConversationsRow) :=
    mk_Conversation TypePrivate (lp_OtherID p) (u_name (lp_Other p))
      (ShownName (u_name (lp_Other p)) (u_display_name (lp_Other p)))
      (AvatarURLFrom (lp_OtherID p) (u_avatar_at (lp_Other p)))
      (lastMessage (lp_LastID p) (pm_Content (lp_Last p)) (pm_FromID (lp_Last p)) (Some (pm_CreatedAt (lp_Last p)))
         (bool_decide (is_Some (pm_DeletedAt (lp_Last p))))) (lp_Unread p) in
  let of_group (g : ListGroupConversationsRow) :=
    mk_Conversation TypePublic (lg_GroupID g) (g_Name (lg_Group g)) (g_Name (lg_Group g))
      (AvatarURL (lg_GroupID g) (g_AvatarAt (lg_Group g)))
      (match lg_Last g with
       | Some r => lastMessage r.1 (gm_Content r.2) (gm_FromID r.2) (Some (gm_CreatedAt r.2))
                     (bool_decide (is_Some (gm_DeletedAt r.2)))
       | None => lastMessage uuid_nil None None None false
       end) (lg_Unread g) in
  mret (order_by conversation_le ((of_private <$> priv) ++ (of_group <$> grp))).

Definition LocateMessage (msgID : uuid) : M World messageRef :=
  p ← try (query (PrivateMessageParticipants msgID));
  match p with
  | Ok (from, to, at_) => mret (mk_messageRef TypePrivate (uuidBytes from) (uuidBytes to) uuid_nil at_)
  | Err e =>
    if negb (bool_decide (e = ErrNoRows)) then throw e
    else
      g ← missing ErrMessageNotFound (query (GroupMessageGroup msgID));
      mret (mk_messageRef TypePublic (uuidBytes g.1.2) uuid_nil (uuidBytes g.1.1) g.2)
  end.

Definition SetReaction (kind : string) (msgID userID : uuid) (emoji : string) : M World unit :=
  if decide (kind = TypePrivate) then query (SetPrivateReaction msgID userID emoji)
  else query (SetGroupReaction msgID userID emoji).

Definition DeleteReaction (kind : string) (msgID userID : uuid) : M World bool :=
  n ← query (if decide (kind = TypePrivate) then DeletePrivateReaction msgID userID
             else DeleteGroupReaction msgID userID);
  mret (n >? 0).

(** [out[id] = append(out[id], ...)] row after row. *)
Definition add_count (out : gmap uuid (list ReactionCount)) (x : ReactionSummaryRow) : gmap uuid (list ReactionCount) :=
  <[rs_MessageID x := default [] (out !! rs_MessageID x) ++ [mk_ReactionCount (rs_Emoji x) (rs_N x) (rs_Mine x)]]> out.

Definition ReactionCounts (kind : string) (me : uuid) (ids : list uuid) : M World (gmap uuid (list ReactionCount)) :=
  if decide (ids = []) then mret ∅
  else
    rows ← query (if decide (kind = TypePrivate) then PrivateReactionSummary me ids else GroupReactionSummary me ids);
    mret (foldl add_count ∅ rows).

Definition Reactors_ (kind : string) (msgID : uuid) : M World (list Reactor) :=
  rows ← query (if decide (kind = TypePrivate) then PrivateReactors msgID else GroupReactors msgID);
  mret ((λ x : uuid * User * Reaction,
    mk_Reactor x.1.1 (u_name x.1.2) (ShownName (u_name x.1.2) (u_display_name x.1.2))
      (r_Emoji x.2) (r_CreatedAt x.2)) <$> rows).

Definition EditMessage_ (kind : string) (msgID : uuid) (content : string) (at_ : time) : M World bool :=
  n ← query (if decide (kind = TypePrivate) then EditPrivateMessage (Some content) (pgTime at_) msgID
             else EditGroupMessage (Some content) (pgTime at_) msgID);
  mret (n >? 0).

Definition DeleteMessage_ (kind : string) (msgID : uuid) (at_ : time) : M World bool :=
  n ← query (if decide (kind = TypePrivate) then DeletePrivateMessage (pgTime at_) msgID
             else DeleteGroupMessage (pgTime at_) msgID);
  mret (n >? 0).

(** [bannedCache.get] *)
Definition banned_get : M World (gset uuid) :=
  c ← get w_banned;
  now ← Now;
  let fetch :=
    rows ← query AllBannedUsers;
    now ← Now;
    modify (with_banned (Some (list_to_set rows, now))) ;;
    mret (list_to_set rows) in
  match c with
  | Some (ids, fetched) => if now - fetched <? bannedTTL then mret ids else fetch
  | None => fetch
  end.

Definition Suspended (ids : list uuid) : M World (gset uuid) :=
  if decide (ids = []) then mret ∅
  else
    banned ← banned_get;
    mret (list_to_set (List.filter (λ id, bool_decide (id ∈ banned)) ids)).

Definition ForgetBans : M World unit := modify (with_banned None).

Definition MessageContent (kind : string) (id : uuid) : M World (string * bool) :=
  m ← missing ErrMessageNotFound
        (query (if decide (kind = TypePrivate) then PrivateMessageContent id else GroupMessageContent id));
  mret (default EmptyString m.1, bool_decide (is_Some m.2)).

(** ** cache.go *)

Definition seenKey (chatID : string) (user : uuid) : string :=
  ("chat:seen:" +:+ chatID +:+ ":" +:+ uuid_string user)%string.

(** The value of the key; its expiry after 7 days is not modelled. *)
Definition SetSeen (chatID : string) (user msgID : uuid) : M World unit :=
  io (modify (λ w, with_seen (<[seenKey chatID user := uuid_string msgID]> (w_seen w)) w)).
End rest.
