(* ===== verification/Chat_Service.v ===== *)
(** * Chat_Service: the chat service (src/internal/chat/service.go)

    Sending, history, edits, reactions, read markers, forwarding and the policy
    of client-sent events.  What the service needs from the groups, the friends
    and the media is a class each, as it is an interface in the code.  Log lines
    and metrics (telemetry) are dropped. *)

From S2P Require Import Prelude GoLib Types Users_Model Db Groups_Model Sql_Chat Chat_Dedupe World Chat_Emoji Chat_Model Chat_Repo.

#[local] Open Scope Z_scope.

Class GroupMembership := {
  grp_IsMember : uuid → uuid → M World bool;
  grp_Members : uuid → M World (list uuid);
  grp_CanDeleteMessage : uuid → uuid → uuid → M World bool;
}.

Class FriendChecker := { frd_AreFriends : uuid → uuid → M World bool }.

Record MediaStore := mk_MediaStore {
  md_Attach : uuid → list uuid → string → uuid → uuid → M World (list Attachment);
  md_ForMessages : list uuid → M World (gmap uuid (list Attachment));
  md_ExpireMessage : uuid → M World unit;
  md_Duplicate : uuid → uuid → M World uuid;
}.

(** The optional parts of chatService: a notifier, and photos and videos. *)
Class ChatService := { csv_notify : bool; csv_media : option MediaStore }.

(** ** Helpers *)

Definition withMe (targets : list uuid) (me : uuid) : list uuid := targets ++ [me].

Definition without (id : uuid) (l : list uuid) : list uuid := slices_delete (λ x, bool_decide (x = id)) l.

Definition ignoreNotFound (e : error) : option error := if decide (e = ErrNotFoundGroup) then None else Some e.

(** [queue.Permanent(err)], or [err] to be retried. *)
Inductive verdict := Permanent (e : error) | Retry (e : error).

Definition classify (e : error) : verdict :=
  match e with
  | ErrPg code _ => if String.prefix "22" code then Permanent e else Retry e
  | _ => Retry e
  end.

(** "%02d" of a number that is not negative. *)
Definition two_digits (n : Z) : string :=
  if (0 <=? n) && (n <? 10) then ("0" +:+ pretty n)%string else pretty n.

(** One step of the loop: photos, videos, files. *)
Definition count_kind (c : Z * Z * Z) (a : Attachment) : Z * Z * Z :=
  let '(photos, videos, files) := c in
  if decide (att_Kind a = "video") then (photos, videos + 1, files)
  else if bool_decide (att_Kind a = "file") || bool_decide (att_Kind a = "voice") then (photos, videos, files + 1)
  else (photos + 1, videos, files).

Definition mediaPreview (text : string) (att : list Attachment) : string :=
  if negb (bool_decide (text = EmptyString)) then text
  else match att with
  | [] => text
  | a0 :: rest =>
    if decide (rest = [] ∧ att_Kind a0 = "voice") then
      let secs := Z.quot (att_DurationMs a0 + 500) 1000 in
      ("🎤 Voice message (" +:+ pretty (Z.quot secs 60) +:+ ":" +:+ two_digits (Z.rem secs 60) +:+ ")")%string
    else
      let '(photos, videos, files) := foldl count_kind (0, 0, 0) att in
      if (files =? 1) && (photos + videos =? 0) then ("📎 " +:+ att_FileName a0)%string
      else if files >? 0 then ("📎 " +:+ pretty (Z.of_nat (length att)) +:+ " files")%string
      else if (videos =? 0) && (photos =? 1) then "📷 Photo"
      else if (photos =? 0) && (videos =? 1) then "🎥 Video"
      else if videos =? 0 then ("📷 " +:+ pretty photos +:+ " photos")%string
      else if photos =? 0 then ("🎥 " +:+ pretty videos +:+ " videos")%string
      else ("📎 " +:+ pretty (photos + videos) +:+ " files")%string
  end.

(** [dedupe.do] when no other request runs at the same time: an entry found in
    the table is finished, and not failed (a failed one is forgotten before the
    call returns), so the two cases that go round the loop or wait end the
    request; Chat_Dedupe treats them with concurrent calls.  The result carries
    whether it is a repeat. *)
Definition ErrCanceled : error := ErrNew "context" "context canceled".

Definition dedupe_do (k : dedupeKey) (send : M World uuid) : M World (uuid * bool) :=
  now ← Now;
  d ← get w_dedupe;
  let '(r, d) := enter k now d in
  modify (with_dedupe d) ;;
  match r with
  | inl a =>
    res ← try send;
    modify (λ w, with_dedupe (finish a res (w_dedupe w)) w) ;;
    match res with
    | Ok id => mret (id, false)
    | Err e => modify (λ w, with_dedupe (forget k a (w_dedupe w)) w) ;; throw e
    end
  | inr a =>
    d ← get w_dedupe;
    match outcome d a with
    | Some (Ok id) => mret (id, true)
    | _ => throw ErrCanceled
    end
  end.

Section service.
Context `{UuidLib} `{GroupMembership} `{FriendChecker} `{ChatService}.

Definition push (targets : list uuid) (event : string) (payload : Payload) : M World unit :=
  _ ← try (WriteToUsers targets (mk_Event event payload)); mret tt.

Definition notify (j : Job) : M World unit := if csv_notify then Notify j else mret tt.

(** The group of an event about [ref]: only set for group messages. *)
Definition event_group (ref : messageRef) : string :=
  if decide (ref_Kind ref = TypePublic) then uuid_string (ref_Group ref) else EmptyString.

Definition parentInChat (kind : string) (parentID from to : uuid) : M World bool :=
  if decide (kind = TypePrivate) then ParentInPrivate parentID from to else ParentInGroup parentID to.

(** The switch on the type: who receives the message, if the sender may write. *)
Definition send_targets (from to : uuid) (kind : string) : M World (list uuid) :=
  if decide (kind = TypePrivate) then
    ok ← frd_AreFriends from to;
    if ok : bool then mret [to] else throw ErrNotFriends
  else if decide (kind = TypePublic) then
    members ← grp_Members to;
    if slices_contains members from then mret (without from members) else throw ErrNotAuthorized
  else throw ErrNotSupportedTypeMsg.

Definition attach (from : uuid) (ids : list uuid) (kind : string) (to msgID : uuid) : M World (list Attachment) :=
  match ids, csv_media with
  | _ :: _, Some m =>
    md_Attach m from ids (if decide (kind = TypePublic) then TypePublic else TypePrivate) to msgID
  | _, _ => mret []
  end.

(** The checks before anything is read: the text, the media and the ids. *)
Definition send_checks (from : uuid) (inp : InCommingMessage) : result (string * uuid * uuid) :=
  let content := TrimSpace (im_Content inp) in
  let n := RuneCountInString content in
  if ((n =? 0) && bool_decide (im_Media inp = [])) || (n >? maxMessageLen) then Err ErrEmptyMessage
  else if negb (bool_decide (im_Media inp = [])) && bool_decide (csv_media = None) then Err ErrMediaDisabled
  else match uuid_parse (im_ToID inp) with
  | None => Err ErrNotValidToID
  | Some to =>
    if decide (to = from) then Err ErrNotValidToID
    else if decide (im_ParendID inp = EmptyString) then Ok (content, to, uuid_nil)
    else match uuid_parse (im_ParendID inp) with
         | None => Err ErrNotValidParentID
         | Some parentID => Ok (content, to, parentID)
         end
  end.

Definition send (from : uuid) (inp : InCommingMessage) : M World uuid :=
  checked ← lift_result (send_checks from inp);
  let '(content, to, parentID) := checked in
  let kind := im_Type inp in
  targets ← send_targets from to kind;
  msgID ← NewV7;
  now ← Now;
  (if decide (parentID = uuid_nil) then mret tt
   else
     ok ← parentInChat kind parentID from to;
     if ok : bool then mret tt else throw ErrNotValidParentID) ;;
  attached ← attach from (im_Media inp) kind to msgID;
  let stored := mk_InCommingMessage content (im_ParendID inp) (im_ToID inp) kind [] (im_ClientMsgID inp)
                  (im_Forwarded inp) in
  let msg := mk_MessageMetaDataRes msgID (mk_MessageCache stored from now) now None (im_Forwarded inp) false [] [] false in
  (if decide (kind = TypePrivate) then AddPrivate msg else AddPublic msg) ;;
  push (withMe targets from) EventMessage
    (PMessage (mk_OutGoingMessage (uuid_string msgID) content (im_ParendID inp) (uuid_string from)
       (if decide (kind = TypePublic) then EmptyString else uuid_string to) kind
       (if decide (kind = TypePublic) then uuid_string to else EmptyString) now attached (im_Forwarded inp))) ;;
  notify (if decide (kind = TypePublic)
          then mk_Job KindGroup targets from to msgID (mediaPreview content attached) uuid_nil
          else mk_Job KindPrivate targets from uuid_nil msgID (mediaPreview content attached) uuid_nil) ;;
  mret msgID.

Definition SendMessage (from : uuid) (inp : InCommingMessage) : M World uuid :=
  if decide (im_ClientMsgID inp = EmptyString) then send from inp
  else match uuid_parse (im_ClientMsgID inp) with
  | None => throw ErrBadClientID
  | Some cid =>
    r ← dedupe_do (from, cid) (send from inp);
    mret r.1
  end.

(** ** History *)

Definition privateHistory `{TimeParse} (me other : uuid) (q : HistoryQuery) : M World (list MessageMetaDataRes) :=
  p ← lift_result (HistoryQuery_parse q);
  let '(before, limit) := p in
  if negb (bool_decide (before = uuid_nil)) then PrivateBefore me other before limit
  else
    sinceT ← lift_result (parseSince (hq_Since q));
    if negb (bool_decide (sinceT = zero_time)) then PrivateSince me other sinceT streamCap
    else RecentPrivate me other limit.

Definition groupHistory (me groupID : uuid) (q : HistoryQuery) : M World (list MessageMetaDataRes) :=
  if negb (bool_decide (hq_Since q = EmptyString)) then throw ErrSinceNotSupported
  else
    p ← lift_result (HistoryQuery_parse q);
    let '(before, limit) := p in
    ok ← grp_IsMember groupID me;
    if negb ok then throw ErrNotAuthorized
    else if negb (bool_decide (before = uuid_nil)) then GroupBefore groupID me before limit
    else RecentPublic groupID me limit.

(** What one message of a page shows. *)
Definition shown (counts : gmap uuid (list ReactionCount)) (att : gmap uuid (list Attachment)) (banned : gset uuid)
    (m : MessageMetaDataRes) : MessageMetaDataRes :=
  let info := mr_MsgInfo m in
  let suspended := bool_decide (mc_FromID info ∈ banned) in
  let msg := mc_Msg info in
  let content := if mr_Deleted m || suspended then EmptyString else im_Content msg in
  mk_MessageMetaDataRes (mr_ID m)
    (mk_MessageCache (mk_InCommingMessage content (im_ParendID msg) (im_ToID msg) (im_Type msg) (im_Media msg)
                        (im_ClientMsgID msg) (im_Forwarded msg)) (mc_FromID info) (mc_CreatedAt info))
    (mr_CreatedAt m) (mr_EditedAt m) (mr_Forwarded m) (mr_Deleted m)
    (if suspended then [] else default [] (counts !! mr_ID m))
    (if mr_Deleted m || suspended then [] else default [] (att !! mr_ID m))
    (mr_SenderSuspended m || suspended).

(** The senders of a page, each once, without those whose account is gone. *)
Definition page_senders (msgs : list MessageMetaDataRes) : list uuid :=
  foldl (λ senders m,
    let from := mc_FromID (mr_MsgInfo m) in
    if negb (bool_decide (from = uuid_nil)) && negb (slices_contains senders from) then senders ++ [from] else senders)
    [] msgs.

Definition withState (kind : string) (me : uuid) (msgs : list MessageMetaDataRes) : M World (list MessageMetaDataRes) :=
  let ids := mr_ID <$> msgs in
  counts ← ReactionCounts kind me ids;
  att ← match csv_media with
        | Some m => md_ForMessages m ids
        | None => mret ∅
        end;
  banned ← Suspended (page_senders msgs);
  mret (shown counts att banned <$> msgs).

Definition PrivateMessages `{TimeParse} (me other : uuid) (q : HistoryQuery) : M World (list MessageMetaDataRes) :=
  msgs ← privateHistory me other q;
  withState TypePrivate me msgs.

Definition GroupMessages (me groupID : uuid) (q : HistoryQuery) : M World (list MessageMetaDataRes) :=
  msgs ← groupHistory me groupID q;
  withState TypePublic me msgs.

Definition Conversations `{GoLower} `{LowerCollation} (me : uuid) : M World (list Conversation) :=
  list_ ← Conversations_ me;
  banned ← Suspended (omap (λ c, lm_FromID <$> cv_LastMessage c) list_);
  let hide (c : Conversation) : Conversation :=
    match cv_LastMessage c with
    | Some lm =>
      if decide (lm_FromID lm ∈ banned)
      then mk_Conversation (cv_Type c) (cv_ID c) (cv_Name c) (cv_DisplayName c) (cv_AvatarURL c)
             (Some (mk_LastMessage (lm_ID lm) EmptyString (lm_FromID lm) (lm_CreatedAt lm) (lm_Deleted lm) true))
             (cv_Unread c)
      else c
    | None => c
    end in
  mret (hide <$> list_).

(** ** Read markers *)

Definition MarkGroupRead_s (me groupID : uuid) (msgIDStr : string) : M World unit :=
  match uuid_parse msgIDStr with
  | None => throw ErrNotValidUUID
  | Some msgID =>
    members ← grp_Members groupID;
    if negb (slices_contains members me) then throw ErrNotAuthorized
    else
      moved ← MarkGroupRead_ groupID me msgID;
      if negb moved || (Z.of_nat (length members) >? ReadByMaxMembers) then mret tt
      else
        senders ← try (RecentGroupSenders_ groupID msgID);
        match senders with
        | Err _ => mret tt
        | Ok senders =>
          let to := me :: List.filter (λ id, negb (bool_decide (id = me)) && slices_contains members id) senders in
          push to EventGroupRead
            (PGroupRead (mk_OutGroupReadEvent (uuid_string groupID) (uuid_string me) (uuid_string msgID)))
        end
  end.

Definition SeenAllowed (from to : uuid) : M World bool :=
  if decide (from = to) then mret false else frd_AreFriends from to.

(** [queue.Publish], given up after a second. *)
Definition Publish (topic : string) (j : JobSeen) : M World unit := io (emit (Queued topic j)).

Definition MarkSeen (me other : uuid) (msgIDStr : string) : M World unit :=
  match uuid_parse msgIDStr with
  | None => throw ErrNotValidUUID
  | Some msgID =>
    inChat ← ParentInPrivate msgID me other;
    if negb inChat then throw ErrMessageNotInChat
    else
      let chatID := PrivateChatID me other in
      SetSeen chatID me msgID ;;
      Publish TopicSeen (mk_JobSeen chatID msgID me) ;;
      ok ← try (SeenAllowed me other);
      match ok with
      | Ok true => push [other] EventSeen (PSeen (mk_OutGoingEventForSeen (uuid_string msgID) (uuid_string me)))
      | _ => mret tt
      end
  end.

(** The worker: what it answers the queue. *)
Definition HandleSeen (j : JobSeen) : M World (option verdict) :=
  r ← try (UpdateLastSeen (js_ChatID j) (js_SeenID j) (js_MsgID j));
  mret (match r with Ok _ => None | Err e => Some (classify e) end).
End service.

Section changes.
Context `{UuidLib} `{GroupMembership} `{FriendChecker} `{ChatService}.

(** ** Who may touch a message *)

(** The other side of a private message, for one of its two participants. *)
Definition other_side (me : uuid) (ref : messageRef) : option uuid :=
  if decide (me = ref_From ref) then Some (ref_To ref)
  else if decide (me = ref_To ref) then Some (ref_From ref)
  else None.

Definition authorizeMessage (me msgID : uuid) (requireFriends : bool) : M World (messageRef * list uuid) :=
  ref ← LocateMessage msgID;
  if decide (ref_Kind ref = TypePrivate) then
    match other_side me ref with
    | None => throw ErrMessageNotFound
    | Some other =>
      if requireFriends then
        ok ← frd_AreFriends me other;
        if ok : bool then mret (ref, [other]) else throw ErrNotFriends
      else mret (ref, [other])
    end
  else
    members ← grp_Members (ref_Group ref);
    if negb (slices_contains members me) then throw ErrMessageNotFound
    else
      joined ← try (JoinedAt (ref_Group ref) me);
      match joined with
      | Err e => throw (if decide (e = ErrNotAuthorized) then ErrMessageNotFound else e)
      | Ok joined =>
        if ref_CreatedAt ref <? joined then throw ErrMessageNotFound
        else mret (ref, without me members)
      end.

(** ** Edit and delete *)

Definition EditMessage (me msgID : uuid) (content : string) : M World EditedMessage :=
  let content := TrimSpace content in
  let n := RuneCountInString content in
  if (n =? 0) || (n >? maxMessageLen) then throw ErrEmptyMessage
  else
    a ← authorizeMessage me msgID true;
    let '(ref, others) := a in
    if negb (bool_decide (ref_From ref = me)) then throw ErrNotYourMessage
    else
      now ← Now;
      if now - ref_CreatedAt ref >? EditWindow then throw ErrEditWindowClosed
      else
        ok ← EditMessage_ (ref_Kind ref) msgID content now;
        if negb ok then throw ErrMessageNotFound
        else
          push (withMe others me) EventEdited
            (PEdited (mk_OutEditedEvent (uuid_string msgID) (uuid_string me) (ref_Kind ref) (event_group ref) content now)) ;;
          mret (mk_EditedMessage msgID content now).

(** Whether [me] may delete the message at [ref]. *)
Definition may_delete (me : uuid) (ref : messageRef) : M World unit :=
  if decide (ref_From ref = me) then mret tt
  else if negb (bool_decide (ref_Kind ref = TypePublic)) then throw ErrNotYourMessage
  else
    ok ← grp_CanDeleteMessage (ref_Group ref) me (ref_From ref);
    if ok : bool then mret tt else throw ErrNotYourMessage.

Definition DeleteMessage (me msgID : uuid) : M World unit :=
  a ← authorizeMessage me msgID false;
  let '(ref, others) := a in
  may_delete me ref ;;
  now ← Now;
  ok ← DeleteMessage_ (ref_Kind ref) msgID now;
  if negb ok then throw ErrMessageNotFound
  else
    (match csv_media with
     | Some m => _ ← try (md_ExpireMessage m msgID); mret tt
     | None => mret tt
     end) ;;
    push (withMe others me) EventDeleted
      (PDeleted (mk_OutDeletedEvent (uuid_string msgID) (uuid_string (ref_From ref)) (ref_Kind ref) (event_group ref)
         (if decide (ref_From ref = me) then EmptyString else uuid_string me))).

Definition ForgetGroup (groupID : uuid) : M World unit := mret tt.

(** ** Reactions *)

Definition pushReaction (ref : messageRef) (to : list uuid) (from msgID : uuid) (emoji : string) : M World unit :=
  push to EventReaction
    (PReaction (mk_OutReactionEvent (uuid_string msgID) (uuid_string from) (ref_Kind ref) (event_group ref) emoji)).

Definition React (me msgID : uuid) (emoji : string) : M World unit :=
  _ ← lift_result (ValidateEmoji emoji);
  a ← authorizeMessage me msgID true;
  let '(ref, others) := a in
  SetReaction (ref_Kind ref) msgID me emoji ;;
  pushReaction ref (withMe others me) me msgID emoji ;;
  if negb (bool_decide (ref_From ref = me)) && negb (bool_decide (ref_From ref = uuid_nil))
  then notify (mk_Job KindReaction [ref_From ref] me
                 (if decide (ref_Kind ref = TypePublic) then ref_Group ref else uuid_nil) msgID emoji uuid_nil)
  else mret tt.

Definition Unreact (me msgID : uuid) : M World unit :=
  a ← authorizeMessage me msgID false;
  let '(ref, others) := a in
  removed ← DeleteReaction (ref_Kind ref) msgID me;
  if removed : bool then pushReaction ref (withMe others me) me msgID EmptyString else mret tt.

Definition Reactors (me msgID : uuid) : M World (list Reactor) :=
  a ← authorizeMessage me msgID false;
  Reactors_ (ref_Kind a.1) msgID.

Definition ReadBy (me msgID : uuid) : M World (list Reader) :=
  a ← authorizeMessage me msgID false;
  let '(ref, others) := a in
  if negb (bool_decide (ref_Kind ref = TypePublic)) then throw ErrNotGroupMessage
  else if negb (bool_decide (ref_From ref = me)) then throw ErrNotYourMessage
  else if Z.of_nat (length others) + 1 >? ReadByMaxMembers then throw ErrGroupTooBig
  else GroupReadBy_ ref msgID.

(** ** Forwarding *)

Definition forward_known : list error :=
  [ErrNotFriends; ErrNotAuthorized; ErrNotValidToID; ErrNotSupportedTypeMsg; ErrEmptyMessage;
   ErrForwardExpired; ErrDailyQuota; ErrStorageFull; ErrMediaDisabled].

Definition forwardError (e : error) : string :=
  if decide (e ∈ forward_known) then error_text e else "couldn't forward to this chat right now".

(** [for _, a := range src]: stops at the first attachment that cannot be copied. *)
Fixpoint duplicate_all (m : MediaStore) (me : uuid) (src : list Attachment) (copied : list uuid) :
    M World (result (list uuid)) :=
  match src with
  | [] => mret (Ok copied)
  | a :: src =>
    id ← try (md_Duplicate m me (att_ID a));
    match id with
    | Ok id => duplicate_all m me src (copied ++ [id])
    | Err e => mret (Err e)
    end
  end.

Definition forward_one (me : uuid) (content : string) (src : list Attachment) (t : ForwardTarget) : M World ForwardResult :=
  let failed e := mk_ForwardResult (ft_Type t) (ft_ID t) None (forwardError e) in
  ids ← match csv_media with
        | Some m => duplicate_all m me src []
        | None => mret (Ok [])
        end;
  match ids with
  | Err e => mret (failed e)
  | Ok ids =>
    r ← try (SendMessage me (mk_InCommingMessage content EmptyString (ft_ID t) (ft_Type t) ids EmptyString true));
    mret (match r with
          | Ok id => mk_ForwardResult (ft_Type t) (ft_ID t) (Some id) EmptyString
          | Err e => failed e
          end)
  end.

Fixpoint forward_all (me : uuid) (content : string) (src : list Attachment) (to : list ForwardTarget) :
    M World (list ForwardResult) :=
  match to with
  | [] => mret []
  | t :: to =>
    r ← forward_one me content src t;
    rest ← forward_all me content src to;
    mret (r :: rest)
  end.

Definition Forward (me msgID : uuid) (to : list ForwardTarget) : M World (list ForwardResult) :=
  if bool_decide (to = []) || (Z.of_nat (length to) >? MaxForwardTargets) then throw ErrBadForward
  else
    a ← authorizeMessage me msgID false;
    let '(ref, _) := a in
    c ← MessageContent (ref_Kind ref) msgID;
    let '(content, deleted) := c in
    if deleted : bool then throw ErrMessageNotFound
    else
      (if decide (ref_From ref = uuid_nil) then mret tt
       else
         banned ← Suspended [ref_From ref];
         if decide (ref_From ref ∈ banned) then throw ErrMessageNotFound else mret tt) ;;
      src ← match csv_media with
            | Some m => all ← md_ForMessages m [msgID]; mret (default [] (all !! msgID))
            | None => mret []
            end;
      forward_all me content src to.

(** ** Client-sent events (ws.EventPolicy) and hooks *)

Definition TypingTargets (from to : uuid) (group : bool) : M World (list uuid) :=
  if negb group then
    ok ← frd_AreFriends from to;
    if ok : bool then mret [to] else mret []
  else
    members ← try (grp_Members to);
    match members with
    | Err e => match ignoreNotFound e with Some e => throw e | None => mret [] end
    | Ok members => if slices_contains members from then mret (without from members) else mret []
    end.

Definition BansChanged (userID : uuid) : M World unit := ForgetBans.
End changes.
