(* ===== verification/Reports.v ===== *)
(** * Reports: users report users (src/internal/reports/reports.go)

    Evidence is copied when the report is made. *)

From S2P Require Import Prelude GoLib Types Db Sql_Admin World Sql_Media Moves Media_Rules.

#[local] Open Scope Z_scope.

Definition Reasons : list string := ["spam"; "harassment"; "hate"; "violence"; "sexual"; "impersonation"; "scam"; "other"].
Definition maxNote : Z := 1000.
Definition maxEvidence : Z := 20.

Definition ErrBadReport : error := ErrNew "reports"
  "reason must be one of spam, harassment, hate, violence, sexual, impersonation, scam, other; note at most 1000 characters; at most 20 messages".
Definition ErrSelf : error := ErrNew "reports" "you can't report yourself".
Definition ErrUnknownUser : error := ErrNew "reports" "user not found".
Definition ErrBadEvidence : error := ErrNew "reports"
  "each attached message must be from your chat with this user or from a group you're in".

Record Request := mk_Request { rq_UserID : uuid; rq_Reason : string; rq_Note : string; rq_Messages : list uuid }.

(** The first of each id. *)
Fixpoint dedupe_from (seen ids : list uuid) : list uuid :=
  match ids with
  | [] => []
  | id :: ids => if slices_contains seen id then dedupe_from seen ids else id :: dedupe_from (id :: seen) ids
  end.
Definition dedupe (ids : list uuid) : list uuid := dedupe_from [] ids.

(** [uuid.UUID(x.Bytes)] of a column, and back. *)
Definition opt_uuid (id : uuid) : option uuid := if decide (id = uuid_nil) then None else Some id.

Definition private_evidence (e : uuid * Message) : uuid * ReportMessage :=
  (e.1, mk_ReportMessage "private" None (opt_uuid (default uuid_nil (pm_FromID e.2))) (default EmptyString (pm_Content e.2)) (pm_CreatedAt e.2)).
Definition group_evidence (e : uuid * Groupmessage) : uuid * ReportMessage :=
  (e.1, mk_ReportMessage "public" (opt_uuid (default uuid_nil (gm_GroupID e.2))) (opt_uuid (default uuid_nil (gm_FromID e.2)))
          (default EmptyString (gm_Content e.2)) (gm_CreatedAt e.2)).

(** Only messages the reporter can see, from a chat they are in. *)
Definition collect (reporter reported : uuid) (ids : list uuid) : M World (list (uuid * ReportMessage)) :=
  if decide (ids = []) then mret []
  else
    priv ← query (PrivateEvidence ids reporter reported);
    grp ← query (GroupEvidence reporter ids);
    let evidence := (private_evidence <$> priv) ++ (group_evidence <$> grp) in
    if negb (length evidence =? length ids)%nat then throw ErrBadEvidence else mret evidence.

(** The transaction. *)
Definition file_report (reporter reported : uuid) (reason note : string) (evidence : list (uuid * ReportMessage)) : M World uuid :=
  BeginFunc (
    r ← try NewV7;
    now ← nowUTC;
    reportID ← query (UpsertOpenReport (match r with Ok id => id | Err _ => uuid_nil end) reporter reported reason note now);
    for_each evidence (λ m, query (AddReportMessage reportID m.1 m.2)) ;;
    mret reportID).

Definition is_23503 (e : error) : bool := match e with ErrPg code _ => bool_decide (code = "23503") | _ => false end.

Definition check_report (reporter : uuid) (req : Request) : option error :=
  if negb (slices_contains Reasons (rq_Reason req)) || (RuneCountInString (TrimSpace (rq_Note req)) >? maxNote) ||
     (Z.of_nat (length (rq_Messages req)) >? maxEvidence)
  then Some ErrBadReport
  else if decide (rq_UserID req = reporter) then Some ErrSelf
  else None.

Definition Report_ (reporter : uuid) (req : Request) : M World uuid :=
  match check_report reporter req with
  | Some e => throw e
  | None =>
    evidence ← collect reporter (rq_UserID req) (dedupe (rq_Messages req));
    r ← try (file_report reporter (rq_UserID req) (rq_Reason req) (TrimSpace (rq_Note req)) evidence);
    match r with
    | Ok id => mret id
    | Err e => throw (if is_23503 e then ErrUnknownUser else e)
    end
  end.

(** * Evidence is what the reporter can see, copied once *)

(** The message [mid] as the reporter sees it: one of the private chat with the reported
    user, or of a group the reporter was in when it was sent; not a deleted one. *)
Definition seen_by (reporter reported : uuid) (d : DB) (mid : uuid) (m : ReportMessage) : Prop :=
  (∃ pm, message d !! mid = Some pm ∧ pm_DeletedAt pm = None ∧
     ((pm_FromID pm = Some reporter ∧ pm_ToID pm = Some reported) ∨ (pm_FromID pm = Some reported ∧ pm_ToID pm = Some reporter)) ∧
     m = (private_evidence (mid, pm)).2) ∨
  (∃ gm g mt, groupmessage d !! mid = Some gm ∧ gm_DeletedAt gm = None ∧ gm_GroupID gm = Some g ∧
     member_table d !! (g, reporter) = Some mt ∧ m_JoinedAt mt <= gm_CreatedAt gm ∧ m = (group_evidence (mid, gm)).2).

(** Ids are of private messages or of group messages, not of both. *)
Definition ids_apart (d : DB) : Prop := ∀ id, message d !! id = None ∨ groupmessage d !! id = None.

(** At most one open report of one user about another. *)
Definition one_open (d : DB) : Prop := ∀ k1 k2 r1 r2, reports d !! k1 = Some r1 → reports d !! k2 = Some r2 →
  rp_Status r1 = "open" → rp_Status r2 = "open" → is_Some (rp_ReporterID r1) →
  rp_ReporterID r1 = rp_ReporterID r2 → rp_ReportedID r1 = rp_ReportedID r2 → k1 = k2.

Lemma dedupe_from_spec ids seen : NoDup (dedupe_from seen ids) ∧ ∀ x, x ∈ dedupe_from seen ids ↔ x ∈ ids ∧ x ∉ seen.
Proof.
  revert seen. induction ids as [|y ids IH]; intros seen; simpl; [split; [constructor|set_solver]|].
  destruct (slices_contains seen y) eqn:Hy.
  - apply slices_contains_true in Hy. destruct (IH seen) as [Hnd Hin]. split; [done|]. intros x. rewrite Hin. set_solver.
  - assert (y ∉ seen) as Hns by (intros H%slices_contains_true; congruence).
    destruct (IH (y :: seen)) as [Hnd Hin]. split; [constructor; [rewrite Hin; set_solver|done]|].
    intros x. rewrite elem_of_cons, Hin. destruct (decide (x = y)) as [->|]; set_solver.
Qed.

Lemma NoDup_dedupe ids : NoDup (dedupe ids).
Proof. apply dedupe_from_spec. Qed.
Lemma elem_of_dedupe ids x : x ∈ dedupe ids ↔ x ∈ ids.
Proof. unfold dedupe. rewrite (proj2 (dedupe_from_spec ids [])). set_solver. Qed.

(** ** Collecting the evidence *)

Lemma collect_run reporter reported ids w r w' : collect reporter reported ids w = (r, w') → w_db w' = w_db w ∧
  ∀ ev, r = Ok ev → length ev = length ids ∧
    (∀ e, e ∈ ev → e.1 ∈ ids ∧ seen_by reporter reported (w_db w) e.1 e.2) ∧ (ids_apart (w_db w) → NoDup (ev.*1)).
Proof.
  unfold collect. case_decide as Hids.
  { intros [= <- <-]. split; [done|]. intros ev [= <-]. subst. split_and!; [done|set_solver|constructor]. }
  rewrite bind_run. destruct (query (PrivateEvidence _ _ _) w) as [r1 w1] eqn:H1.
  apply (read_run (λ d, Ok (select (λ k m, slices_contains ids k && bool_decide (pm_DeletedAt m = None) &&
         ((bool_decide (pm_FromID m = Some reporter) && bool_decide (pm_ToID m = Some reported)) ||
          (bool_decide (pm_FromID m = Some reported) && bool_decide (pm_ToID m = Some reporter)))) (message d)))) in H1 as (D1 & _ & _ & R1).
  destruct r1 as [priv|e]; [|by intros [= <- <-]]. rewrite bind_run.
  destruct (query (GroupEvidence _ _) w1) as [r2 w2] eqn:H2.
  apply (read_run (λ d, Ok (select (λ k m, slices_contains ids k && bool_decide (gm_DeletedAt m = None) &&
         match gm_GroupID m ≫= λ g, member_table d !! (g, reporter) with
         | Some mt => m_JoinedAt mt <=? gm_CreatedAt m
         | None => false
         end) (groupmessage d)))) in H2 as (D2 & _ & _ & R2).
  destruct r2 as [grp|e]; [|intros [= <- <-]; split; [congruence|done]].
  destruct (negb _) eqn:Hlen; intros [= <- <-]; (split; [congruence|]); [done|]. intros ev [= <-].
  apply negb_false_iff, Nat.eqb_eq in Hlen. destruct R1 as [[= ->]|]; [|done]. destruct R2 as [[= ->]|]; [|done]. rewrite D1 in *.
  split_and!; [done| |].
  - intros e [He|He]%elem_of_app; apply list_elem_of_fmap in He as ([k m] & -> & [Hk Hp]%elem_of_select); cbn [fst snd private_evidence group_evidence].
    + apply andb_true_iff in Hp as [[Hin%slices_contains_true Hdel%bool_decide_eq_true]%andb_true_iff Hp]. split; [done|]. left.
      exists m. split_and!; try done. apply orb_true_iff in Hp as [[A%bool_decide_eq_true B%bool_decide_eq_true]%andb_true_iff|
        [A%bool_decide_eq_true B%bool_decide_eq_true]%andb_true_iff]; [by left|by right].
    + apply andb_true_iff in Hp as [[Hin%slices_contains_true Hdel%bool_decide_eq_true]%andb_true_iff Hp]. split; [done|]. right.
      destruct (gm_GroupID m) as [g|] eqn:Hg; [|done]. simpl in Hp. destruct (member_table _ !! _) as [mt|] eqn:Hmt; [|done].
      exists m, g, mt. split_and!; try done; [lia|]. unfold group_evidence. simpl. by rewrite Hg.
  - intros Hapart. rewrite fmap_app, <- !list_fmap_compose. apply NoDup_app. split_and!.
    + apply NoDup_fmap_2_strong; [|apply NoDup_select]. intros [k1 m1] [k2 m2] [H1 _]%elem_of_select [H2 _]%elem_of_select. simpl. intros ->. congruence.
    + intros k (e1 & -> & He1)%list_elem_of_fmap (e2 & E & He2)%list_elem_of_fmap. destruct e1 as [k1 m1], e2 as [k2 m2].
      apply elem_of_select in He1 as [He1 _], He2 as [He2 _]. simpl in E. subst k2. destruct (Hapart k1); congruence.
    + apply NoDup_fmap_2_strong; [|apply NoDup_select]. intros [k1 m1] [k2 m2] [H1 _]%elem_of_select [H2 _]%elem_of_select. simpl. intros ->. congruence.
Qed.

Lemma covers {A} (l1 l2 : list A) : NoDup l1 → (∀ x, x ∈ l1 → x ∈ l2) → length l1 = length l2 → ∀ x, x ∈ l2 → x ∈ l1.
Proof.
  intros Hnd Hsub Hlen x Hx. apply NoDup_submseteq in Hsub; [|done].
  rewrite (submseteq_length_Permutation l1 l2); [done|done|lia].
Qed.

(** ** Filing *)

Lemma add_all id ev w x w' : for_each ev (λ m : uuid * ReportMessage, query (AddReportMessage id m.1 m.2)) w = (Ok x, w') →
  reports (w_db w') = reports (w_db w) ∧ ids_apart (w_db w') = ids_apart (w_db w) ∧
  (∀ k m, report_messages (w_db w) !! k = Some m → report_messages (w_db w') !! k = Some m) ∧
  (∀ e, e ∈ ev → is_Some (report_messages (w_db w') !! (id, e.1))) ∧
  ∀ k m, report_messages (w_db w') !! k = Some m → report_messages (w_db w) !! k = Some m ∨ (k.1 = id ∧ (k.2, m) ∈ ev).
Proof.
  revert w. induction ev as [|[mid m0] ev IH]; intros w H; cbn [for_each] in H.
  { injection H as _ <-. split_and!; try done; [set_solver|by left]. }
  run_inv. apply query_ok in Hrun as (fs & d & Hq & ->). destruct (IH _ H) as (Hr & Hap & Hkeep & Hnew & Hold).
  cbn [w_db with_db] in *. unfold AddReportMessage in Hq. cbn [fst snd] in Hq.
  assert (reports d = reports (w_db w) ∧ ids_apart d = ids_apart (w_db w) ∧ is_Some (report_messages d !! (id, mid)) ∧
          (∀ k m, report_messages (w_db w) !! k = Some m → report_messages d !! k = Some m) ∧
          ∀ k m, report_messages d !! k = Some m → report_messages (w_db w) !! k = Some m ∨ (k = (id, mid) ∧ m = m0))
    as (Er & Ea & [m1 Hm1] & Hk & Ho).
  { destruct (negb _); [done|]. destruct (report_messages (w_db w) !! (id, mid)) as [m1|] eqn:Hm1.
    - injection Hq as _ <-. split_and!; try done; by left.
    - destruct (reports (w_db w) !! id); [|done]. injection Hq as _ <-. simpl. split_and!; try done.
      + rewrite lookup_insert_eq. by eexists.
      + intros k m Hm. rewrite lookup_insert_ne; [done|]. intros <-. congruence.
      + intros k m [[<- <-]|[_ Hm]]%lookup_insert_Some; [by right|by left]. }
  split_and!; [congruence|congruence|auto| |].
  - intros e [->|He]%elem_of_cons; [|by apply Hnew]. exists m1. by apply Hkeep.
  - intros k m Hm. destruct (Hold k m Hm) as [Hm'|[E Hin]]; [|right; split; [done|by right]].
    destruct (Ho k m Hm') as [?|[-> ->]]; [by left|right]. split; [done|by left].
Qed.

(** What the report is after [UpsertOpenReport]. *)
Lemma upsert_ok id reporter reported reason note now d k d' :
  UpsertOpenReport id reporter reported reason note now d = (Ok k, d') →
  report_messages d' = report_messages d ∧ message d' = message d ∧ groupmessage d' = groupmessage d ∧ member_table d' = member_table d ∧
  (∀ k', k' ≠ k → reports d' !! k' = reports d !! k') ∧
  (∃ r, reports d' !! k = Some r ∧ open_report reporter reported r = true ∧ rp_Reason r = reason ∧ rp_Note r = note) ∧
  (one_open d → one_open d').
Proof.
  unfold UpsertOpenReport. destruct (report_columns_ok _ _ _ _ _ _); [done|].
  destruct (select _ (reports d)) as [|[k0 r0] l] eqn:Hsel.
  - destruct (reports d !! id) as [|] eqn:Hid; [done|]. destruct (users d !! reporter), (users d !! reported); try done.
    intros [= <- <-]. cbn [report_messages message groupmessage member_table reports with_reports]. split_and!; try done.
    + intros k' Hk. by rewrite lookup_insert_ne.
    + eexists. rewrite lookup_insert_eq. split; [done|]. split_and!; try done. unfold open_report. simpl. by rewrite !bool_decide_true.
    + assert (∀ k' r, reports d !! k' = Some r → rp_Status r = "open" → rp_ReporterID r = Some reporter → rp_ReportedID r = reported → False) as Hno.
      { intros k' r Hr H1 H2 H3. assert ((k', r) ∈ ([] : list (uuid * Report))) as Hin; [|by apply not_elem_of_nil in Hin].
        rewrite <- Hsel. apply elem_of_select. split; [done|]. unfold open_report. by rewrite !bool_decide_true. }
      intros Hone k1 k2 r1 r2. cbn [reports with_reports]. intros [[<- <-]|[_ H1]]%lookup_insert_Some [[<- <-]|[_ H2]]%lookup_insert_Some S1 S2 Hs E1 E2; simpl in *; try done.
      * exfalso. by apply (Hno k2 r2).
      * exfalso. by apply (Hno k1 r1).
      * by apply (Hone k1 k2 r1 r2).
  - assert ((k0, r0) ∈ select (λ _ r, open_report reporter reported r) (reports d)) as Hin by (rewrite Hsel; left).
    apply elem_of_select in Hin as [Hk0 Hopen]. intros [= <- <-].
    cbn [report_messages message groupmessage member_table reports with_reports]. split_and!; try done.
    + intros k' Hk. by rewrite lookup_insert_ne.
    + eexists. rewrite lookup_insert_eq. by split_and!.
    + intros Hone k1 k2 r1 r2. cbn [reports with_reports]. intros [[<- <-]|[_ H1]]%lookup_insert_Some [[<- <-]|[_ H2]]%lookup_insert_Some S1 S2 Hs E1 E2; simpl in *; try done.
      * by apply (Hone k0 k2 r0 r2).
      * by apply (Hone k1 k0 r1 r0).
      * by apply (Hone k1 k2 r1 r2).
Qed.

(** C29. A report says what the reporter saw.  Filing leaves one open report of the
    reporter about the reported user, the new one or the open one with the new reason and
    note; attached are all the messages named and only those, each as it then was in the
    pair's private chat or in a group, sent after the reporter joined and not deleted; what
    was attached before stays as first copied, no other report changes, and a refused report
    changes nothing. *)
Theorem report_says_what_was_seen reporter req w r w' : one_open (w_db w) → ids_apart (w_db w) →
  Report_ reporter req w = (r, w') →
  one_open (w_db w') ∧
  match r with
  | Err _ => w_db w' = w_db w
  | Ok id =>
    rq_UserID req ≠ reporter ∧
    (∃ rep, reports (w_db w') !! id = Some rep ∧ open_report reporter (rq_UserID req) rep = true ∧
       rp_Reason rep = rq_Reason req ∧ rp_Note rep = TrimSpace (rq_Note req)) ∧
    (∀ k, k ≠ id → reports (w_db w') !! k = reports (w_db w) !! k) ∧
    (∀ mid, mid ∈ rq_Messages req → is_Some (report_messages (w_db w') !! (id, mid))) ∧
    (∀ k m, report_messages (w_db w) !! k = Some m → report_messages (w_db w') !! k = Some m) ∧
    ∀ k m, report_messages (w_db w') !! k = Some m → report_messages (w_db w) !! k = Some m ∨
      (k.1 = id ∧ k.2 ∈ rq_Messages req ∧ seen_by reporter (rq_UserID req) (w_db w) k.2 m)
  end.
Proof.
  intros Hone Hapart. unfold Report_. destruct (check_report reporter req) as [e|] eqn:Hc; [by intros [= <- <-]|].
  assert (rq_UserID req ≠ reporter) as Hself.
  { unfold check_report in Hc. destruct (_ || _); [done|]. by case_decide. }
  rewrite bind_run. destruct (collect _ _ _ w) as [[ev|e] w1] eqn:H1; apply collect_run in H1 as [D1 H1].
  2: { intros [= <- <-]. by rewrite D1. }
  destruct (H1 ev eq_refl) as (Hlen & Hev & Hnd). specialize (Hnd Hapart).
  rewrite bind_run. unfold try. destruct (file_report _ _ _ _ ev w1) as [[id|e] w2] eqn:H2.
  2: { intros [= <- <-]. apply BeginFunc_atomic in H2. by rewrite H2, D1. }
  intros [= <- <-]. apply BeginFunc_ok in H2 as (fs & fs' & w3 & H & ->). run_inv.
  run_of @for_each Hadd. match goal with Hq : query (UpsertOpenReport _ _ _ _ _ _) ?wq = _ |- _ =>
    assert (w_db wq = w_db w) as Dq; [|apply query_ok in Hq as (fs1 & d1 & Hup & ->)] end.
  { apply try_ok in Hrun. unfold nowUTC in Hrun0. run_inv. unfold Now in *. run_inv. rewrite <- D1.
    unfold NewV7 in Hrun. destruct (w_ids _); by simplify_eq/=. }
  rewrite Dq in Hup. apply upsert_ok in Hup as (Em & _ & _ & _ & Hk & Hrep & Hone').
  apply add_all in Hadd as (Er & _ & Hkeep & Hnew & Hold). cbn [w_db with_db with_faults] in *.
  assert (∀ mid, mid ∈ rq_Messages req → mid ∈ ev.*1) as Hcover.
  { intros mid Hmid. apply (covers ev.*1 (dedupe (rq_Messages req))); [done| |by rewrite length_fmap|by apply elem_of_dedupe].
    intros k (e & -> & He)%list_elem_of_fmap. by apply Hev. }
  split; [intros k1 k2 r1 r2; rewrite Er; by apply Hone'|]. split; [done|]. split_and!.
  - by rewrite Er.
  - intros k Hne. by rewrite Er, Hk.
  - intros mid (e & -> & He)%Hcover%list_elem_of_fmap. by apply Hnew.
  - intros k m Hm. apply Hkeep. by rewrite Em.
  - intros k m [Hm|[E Hin]]%Hold; [left; by rewrite <- Em|right]. split; [done|].
    destruct (Hev _ Hin) as [Hd Hs]. split; [by apply elem_of_dedupe|done].
Qed.
