(* ===== verification/Admin.v ===== *)
(** * Admin: bans, admin rights, the audit log and reports (src/internal/admin/admin.go)

    [bansChanged] runs what app.go registers: the chat drops its cached bans. *)

From S2P Require Import Prelude GoLib Types Users_Model Groups_Model Friends_Model Versioned Db Sql_Groups Sql_Users Sql_Accounts Sql_Media Sql_Admin World Groups_Repo Sessions Chat_Service.

#[local] Open Scope Z_scope.

Definition ErrUserNotFound : error := ErrNew "admin" "user not found".
Definition ErrBanSelf : error := ErrNew "admin" "you can't ban yourself".
Definition ErrBanAdmin : error := ErrNew "admin" "admins can't be banned (remove admin rights with the CLI first)".
Definition ErrBadBan : error := ErrNew "admin" "a reason (1-500 characters) is required; until must be in the future".
Definition ErrNotBanned : error := ErrNew "admin" "user is not banned".
Definition ErrUnknownEmail : error := ErrNew "admin" "no account with that email".
Definition ErrReportNotFound : error := ErrNew "admin" "report not found".
Definition ErrBadResolution : error := ErrNew "admin" ("status must be " +:+ quoted "resolved" +:+ " or " +:+ quoted "dismissed" +:+ "; note at most 1000 characters")%string.
Definition ErrReportClosed : error := ErrNew "admin" "report is already closed".

Definition reportRetention : duration := 180 * 24 * hour.

(** [t.Format(time.RFC3339)] *)
Class TimeFormat := { RFC3339 : time → string }.

Section admin.
Context {ulib : UuidLib} {auth : AuthConfig} {pg : PgText} {fmt : TimeFormat}.

Definition optUUID (id : uuid) : option uuid := if decide (id = uuid_nil) then None else Some id.

(** A failure is logged. *)
Definition Log (admin : uuid) (action : string) (user group : uuid) (detail : string) : M World unit :=
  r ← try NewV7;
  now ← nowUTC;
  _ ← try (query (LogAdminAction (match r with Ok id => id | Err _ => uuid_nil end)
                    (mk_AdminAction (optUUID admin) action (optUUID user) (optUUID group) detail now)));
  mret tt.

(** [groupStore.Invalidate] in app.go; a failure is logged. *)
Definition changed (groupID : uuid) : M World unit :=
  _ ← try (Invalidate (T := GroupSnapshot) [uuid_string groupID]); mret tt.

Definition bansChanged (id : uuid) : M World unit := BansChanged id.

(** ** Views *)

Record Overview := mk_Overview { ov_Counts : AdminOverviewRow; ov_OpenReports : Z }.

Definition Overview_ : M World Overview :=
  now ← Now;
  o ← query (AdminOverview (pgTime (now - 24 * hour)) (pgTime (now - 7 * 24 * hour)));
  open ← query CountOpenReports;
  mret (mk_Overview o open).

Record AdminUser := mk_AdminUser {
  au_ID : uuid;
  au_Name : string;
  au_DisplayName : string;
  au_Email : string;
  au_Verified : bool;
  au_CreatedAt : time;
  au_LastSeenAt : option time;
  au_IsAdmin : bool;
  au_BannedAt : option time;
  au_BannedUntil : option time;
  au_BanReason : string;
  au_Stats : option UserStats;
}.

Definition toUser (id : uuid) (u : User) (stats : option UserStats) : AdminUser :=
  mk_AdminUser id (u_name u) (if decide (u_display_name u = EmptyString) then u_name u else u_display_name u) (u_email u)
    (bool_decide (is_Some (u_email_verified_at u))) (u_created_at u) (u_last_seen_at u) (u_is_admin u) (u_banned_at u)
    (u_banned_until u) (default EmptyString (u_ban_reason u)) stats.

Definition page (limit offset : Z) : Z * Z :=
  (if (limit <=? 0) || (limit >? 100) then 50 else limit, wrap 32 (Z.max offset 0)).

Definition Users (q : string) (limit offset : Z) : M World (list AdminUser) :=
  let '(lim, off) := page limit offset in
  rows ← query (AdminSearchUsers (TrimSpace q) off lim);
  mret ((λ r : uuid * User, toUser r.1 r.2 None) <$> rows).

Definition User_ (id : uuid) : M World AdminUser :=
  r ← try (query (AdminGetUser id));
  match r with
  | Err e => throw (if decide (e = ErrNoRows) then ErrUserNotFound else e)
  | Ok u => st ← query (AdminUserStats id); mret (toUser id u (Some st))
  end.

Definition Groups (q : string) (limit offset : Z) : M World (list AdminGroupRow) :=
  let '(lim, off) := page limit offset in
  now ← Now;
  query (AdminSearchGroups (pgTime (now - 7 * 24 * hour)) (TrimSpace q) off lim).

Definition Audit (limit : Z) : M World (list (uuid * AdminAction * string)) :=
  let '(lim, _) := page limit 0 in query (ListAdminActions lim).

(** ** Bans *)

(** The transaction that takes a banned user out of one group, given the row read before. *)
Definition leave_group (user : uuid) (m : GroupMembershipsOfRow) : M World unit :=
  BeginFunc (
    stay ← (if decide (mo_Role m = RoleAdmin) then
              r ← try (query (EarliestOtherMember (mo_GroupID m) user));
              match r with
              | Ok next => query (PromoteToLeader (mo_GroupID m) next) ;; mret false
              | Err e => if decide (e = ErrNoRows) then mret true else throw e
              end
            else mret false);
    if stay : bool then mret tt
    else
      query (DeleteMemFromGroup (mo_GroupID m) user) ;;
      query (RecountGroupMembers (mo_GroupID m))).

Definition leaveGroups (user : uuid) : M World unit :=
  ms ← query (GroupMembershipsOf user);
  for_each ms (λ m,
    if mo_CurrentMember m <=? 1 then mret tt
    else
      leave_group user m ;;
      changed (mo_GroupID m) ;;
      Log uuid_nil "ban_removed_from_group" user (mo_GroupID m) EmptyString).

(** The checks of [Ban]: the reason, trimmed. *)
Definition check_ban (admin target : uuid) (reason : string) (until : option time) (now : time) : result string :=
  let reason := TrimSpace reason in
  let n := RuneCountInString reason in
  if decide (target = admin) then Err ErrBanSelf
  else if (n =? 0) || (n >? 500) || from_option (λ t, t <=? now) false until then Err ErrBadBan
  else Ok reason.

Definition Ban (admin target : uuid) (reason : string) (until : option time) : M World unit :=
  now ← Now;
  reason ← lift_result (check_ban admin target reason until now);
  n ← query (BanUser (pgTime now) (pgTime <$> until) reason target);
  if n =? 0 then
    r ← try (query (UserBan target));
    match r with
    | Ok b => throw (if ub_IsAdmin b then ErrBanAdmin else ErrUserNotFound)
    | Err e => throw (if decide (e = ErrNoRows) then ErrUserNotFound else e)
    end
  else
    EndSessions target ;;
    leaveGroups target ;;
    Log admin "ban" target uuid_nil
      (match until with
       | None => "permanent: " +:+ reason
       | Some t => "until " +:+ RFC3339 t +:+ ": " +:+ reason
       end) ;;
    bansChanged target.

Definition Unban (admin target : uuid) : M World unit :=
  n ← query (UnbanUser target);
  if n =? 0 then throw ErrNotBanned
  else
    Log admin "unban" target uuid_nil EmptyString ;;
    bansChanged target.

(** One ban whose time is up, read before. *)
Definition lift (id : uuid) : M World unit :=
  _ ← query (UnbanUser id);
  Log uuid_nil "ban_expired" id uuid_nil EmptyString ;;
  bansChanged id.

Definition LiftExpired : M World nat :=
  now ← nowUTC;
  ids ← query (ExpiredBans now);
  for_each ids lift ;;
  mret (length ids).

Definition IsActiveAdmin (id : uuid) : M World bool :=
  r ← try (query (UserBan id));
  match r with
  | Ok b => mret (ub_IsAdmin b && bool_decide (ub_BannedAt b = None))
  | Err e => if decide (e = ErrNoRows) then mret false else throw e
  end.

(** ** The command line *)

Definition SetAdmin (email : string) (on : bool) : M World string :=
  r ← try (query (SetAdminByEmail on (TrimSpace email)));
  match r with
  | Err e => throw (if decide (e = ErrNoRows) then ErrUnknownEmail else e)
  | Ok (id, name) =>
    (if on then mret tt else EndSessions id) ;;
    Log uuid_nil (if on then "grant_admin" else "revoke_admin") id uuid_nil "via cmd/admin" ;;
    mret name
  end.

Definition Admins : M World (list (uuid * User)) := query ListAdmins.

(** ** Reports *)

Definition Reports (status : string) (limit offset : Z) : M World (list ListReportsRow) :=
  let '(lim, off) := page limit offset in query (ListReports status off lim).

Record ReportDetail := mk_ReportDetail {
  rd_ID : uuid;
  rd_Report : Report;
  rd_ReportedName : string;
  rd_ReporterName : string;
  rd_Messages : list (uuid * ReportMessage);
}.

Definition Report_ (admin id : uuid) : M World ReportDetail :=
  r ← try (query (GetReport id));
  match r with
  | Err e => throw (if decide (e = ErrNoRows) then ErrReportNotFound else e)
  | Ok (rep, reported, reporter) =>
    msgs ← query (ReportMessages id);
    Log admin "view_report" (rp_ReportedID rep) uuid_nil ("report " +:+ uuid_string id) ;;
    mret (mk_ReportDetail id rep reported reporter msgs)
  end.

Definition Resolve (admin id : uuid) (status note : string) : M World unit :=
  let note := TrimSpace note in
  if negb (slices_contains ["resolved"; "dismissed"] status) || (RuneCountInString note >? 1000) then throw ErrBadResolution
  else
    now ← nowUTC;
    n ← query (ResolveReport status (optUUID admin) now note id);
    if n =? 0 then
      r ← try (query (GetReport id));
      match r with
      | Err e => throw (if decide (e = ErrNoRows) then ErrReportNotFound else ErrReportClosed)
      | Ok _ => throw ErrReportClosed
      end
    else Log admin ("report_" +:+ status) uuid_nil uuid_nil ("report " +:+ uuid_string id +:+ ": " +:+ note).

Definition PurgeOldReports : M World Z :=
  now ← Now;
  query (DeleteOldClosedReports (pgTime (now - reportRetention))).
End admin.
