(* ===== verification/Http.v ===== *)
(** * Http: requests, answers, and what stands before every handler
    (src/internal/platform/httpx, reqctx, ratelimit/middleware.go, src/internal/app/wsauth.go,
    src/internal/admin/handler.go)

    A handler is a program that may answer early: [Handling].  Middleware wraps handlers; the
    router that names them is in App.  net.ParseIP, net.SplitHostPort and encoding/json are
    parameters; encoding an answer is taken to succeed. *)

From S2P Require Import Prelude GoLib Types Users_Model Revoke Ratelimit Ws_Ticket Db World Secure Sessions Auth_Session Admin.

#[local] Open Scope Z_scope.

(** ** package strconv, package strings *)

Definition maxInt : Z := 9223372036854775807.

Fixpoint digits_value (acc : Z) (bs : list Z) : option Z :=
  match bs with
  | [] => Some acc
  | b :: bs => if in_range 48 57 b then digits_value (acc * 10 + (b - 48)) bs else None
  end.

(** [strconv.Atoi]: the number, and whether there was no error; out of range the number is the
    closest one. *)
Definition Atoi (s : string) : Z * bool :=
  let '(negative, ds) := match bytes_of s with
                         | 43 :: ds => (false, ds)
                         | 45 :: ds => (true, ds)
                         | ds => (false, ds)
                         end in
  match ds, digits_value 0 ds with
  | [], _ | _, None => (0, false)
  | _, Some n =>
    if negative then (if n >? maxInt + 1 then (- (maxInt + 1), false) else (- n, true))
    else if n >? maxInt then (maxInt, false) else (n, true)
  end.

Fixpoint split_on (c : Z) (bs : list Z) : list (list Z) :=
  match bs with
  | [] => [[]]
  | b :: bs =>
    if b =? c then [] :: split_on c bs
    else match split_on c bs with p :: ps => (b :: p) :: ps | [] => [[b]] end
  end.

(** The parts between commas, trimmed, without the empty ones. *)
Definition splitList (s : string) : list string :=
  List.filter (λ p, negb (bool_decide (p = EmptyString))) ((λ p, TrimSpace (string_of p)) <$> split_on 44 (bytes_of s)).

(** ** package net *)

Inductive IP := IPv4 (a b c d : Z) | IPv6 (bytes : list Z).

Class NetLib := {
  SplitHostPort : string → option string;    (* the host *)
  ParseIP : string → option IP;              (* an IPv4 address in IPv6 form is an IPv4 one *)
  ip_String : IP → string;
}.

Definition v6_loopback : list Z := replicate 15 0 ++ [1].

(** IsPrivate, IsLoopback, IsLinkLocalUnicast, IsUnspecified; then 100.64.0.0/10. *)
Definition isInternal (ip : IP) : bool :=
  match ip with
  | IPv4 a b c d =>
    (a =? 10) || ((a =? 172) && (Z.land b 0xf0 =? 16)) || ((a =? 192) && (b =? 168)) ||
    (a =? 127) || ((a =? 169) && (b =? 254)) || ((a =? 0) && (b =? 0) && (c =? 0) && (d =? 0)) ||
    ((a =? 100) && (Z.land b 0xc0 =? 64))
  | IPv6 bs =>
    let first := nth 0 bs 0 in
    (Z.land first 0xfe =? 0xfc) || bool_decide (bs = v6_loopback) ||
    ((first =? 0xfe) && (Z.land (nth 1 bs 0) 0xc0 =? 0x80)) || bool_decide (bs = replicate 16 0)
  end.

(** ** Requests *)

Record HttpRequest := mk_HttpRequest {
  hr_Method : string;
  hr_RemoteAddr : string;
  hr_Forwarded : list string;        (* the lines of X-Forwarded-For *)
  hr_Header : string → string;       (* r.Header.Get *)
  hr_Query : string → string;        (* r.URL.Query().Get *)
  hr_Path : string → string;         (* r.PathValue *)
  hr_Body : list Z;                  (* what arrives of the body *)
  hr_Cut : bool;                     (* the connection fails before its end *)
  hr_ClientIP : string;              (* the context: reqctx.ClientIP, reqctx.User, adminID *)
  hr_User : option uuid;
  hr_Admin : uuid;
}.

(** [reqctx.Start], with the client's address: nothing of the context is the caller's choice. *)
Definition Start (clientIP : string) (r : HttpRequest) : HttpRequest :=
  mk_HttpRequest (hr_Method r) (hr_RemoteAddr r) (hr_Forwarded r) (hr_Header r) (hr_Query r) (hr_Path r) (hr_Body r) (hr_Cut r)
    clientIP None uuid_nil.
Definition WithUser (x : uuid) (r : HttpRequest) : HttpRequest :=
  mk_HttpRequest (hr_Method r) (hr_RemoteAddr r) (hr_Forwarded r) (hr_Header r) (hr_Query r) (hr_Path r) (hr_Body r) (hr_Cut r)
    (hr_ClientIP r) (Some x) (hr_Admin r).
Definition with_admin (x : uuid) (r : HttpRequest) : HttpRequest :=
  mk_HttpRequest (hr_Method r) (hr_RemoteAddr r) (hr_Forwarded r) (hr_Header r) (hr_Query r) (hr_Path r) (hr_Body r) (hr_Cut r)
    (hr_ClientIP r) (hr_User r) x.

(** [reqctx.User] *)
Definition reqctx_User (r : HttpRequest) : option uuid :=
  id ← hr_User r; if decide (id = uuid_nil) then None else Some id.

(** *** Whose address *)

Section client_ip.
Context {net : NetLib}.

Definition peer_host (r : HttpRequest) : string := default (hr_RemoteAddr r) (SplitHostPort (hr_RemoteAddr r)).

(** From the right. *)
Fixpoint walk_hops (peer : string) (trustedProxies seen : Z) (hops : list string) : string :=
  match hops with
  | [] => peer
  | h :: hops =>
    match ParseIP h with
    | None => peer
    | Some ip =>
      if isInternal ip then walk_hops peer trustedProxies seen hops
      else if seen + 1 =? trustedProxies then ip_String ip
      else walk_hops peer trustedProxies (seen + 1) hops
    end
  end.

Definition hops_of (r : HttpRequest) : list string := hr_Forwarded r ≫= splitList.

Definition ClientIP (r : HttpRequest) (trustedProxies : Z) : string :=
  if trustedProxies <=? 0 then peer_host r else walk_hops (peer_host r) trustedProxies 0 (reverse (hops_of r)).

(** The IPv6 addresses of one /64 count as one. *)
Definition limitKeyForIP (s : string) : string :=
  match ParseIP s with
  | Some (IPv6 bs) => (ip_String (IPv6 (take 8 bs ++ replicate 8 0)) +:+ "/64")%string
  | _ => s
  end.

Definition ClientKey `{UuidLib} (r : HttpRequest) : string :=
  match reqctx_User r with
  | Some id => ("user:" +:+ uuid_string id)%string
  | None =>
    if decide (hr_ClientIP r = EmptyString) then ("ip:" +:+ peer_host r)%string
    else ("ip:" +:+ limitKeyForIP (hr_ClientIP r))%string
  end.
End client_ip.

(** ** Answers *)

Inductive any : Type := Any : ∀ {A : Type}, A → any.

Inductive Body :=
  | NoBody
  | ErrorBody (msg : string)
  | JSONBody (payload : any)
  | RawBody (data : list Z)
  | Upgraded (user : uuid).      (* the connection was handed to hub.Serve *)

(** A header set again replaces the one before: of two with one name the last counts. *)
Record Response := mk_Response { rs_Code : Z; rs_Header : list (string * string); rs_Body : Body }.

Definition JSON {A} (code : Z) (payload : A) : Response := mk_Response code [] (JSONBody (Any payload)).
Definition Error (code : Z) (msg : string) : Response := mk_Response code [] (ErrorBody msg).
Definition WriteHeader (code : Z) : Response := mk_Response code [] NoBody.

(** The error goes to the log. *)
Definition ServerError (err : error) : Response := Error 500 "internal server error".

Definition unauthorized : Response := Error 401 "unauthorized".

Definition with_headers (hs : list (string * string)) (r : Response) : Response :=
  mk_Response (rs_Code r) (hs ++ rs_Header r) (rs_Body r).

(** [errors.Is(err, a), errors.Is(err, b), ...] *)
Definition is_one_of (e : error) (l : list error) : bool := bool_decide (e ∈ l).

(** ** Handlers *)

(** A handler's program: it answers early, or goes on. *)
Definition Handling (A : Type) : Type := World → (Response + A) * World.

#[export] Instance handling_ret : MRet Handling := λ A a w, (inr a, w).
#[export] Instance handling_bind : MBind Handling := λ A B k m w,
  match m w with
  | (inl r, w') => (inl r, w')
  | (inr a, w') => k a w'
  end.

Definition answer {A} (r : Response) : Handling A := λ w, (inl r, w).

(** Calls a service; [fail] answers for its errors. *)
Definition ask {A} (fail : error → Response) (m : M World A) : Handling A := λ w,
  match m w with
  | (Ok a, w') => (inr a, w')
  | (Err e, w') => (inl (fail e), w')
  end.

Definition handle (h : Handling Response) (w : World) : Response * World :=
  match h w with
  | (inl r, w') | (inr r, w') => (r, w')
  end.

(** *** What handlers read *)

Definition maxBodyBytes : nat := Z.to_nat (2 ^ 20).

(** [json.Decoder.Decode] into a value of type T: it reads the body up to the end of the
    value, so what [http.MaxBytesReader] cuts off is as if it had not arrived. *)
Class JsonDecode (T : Type) := { decode_json : list Z → option T }.

Section reading.
Context {ulib : UuidLib}.

Definition caller (r : HttpRequest) : Handling uuid :=
  match reqctx_User r with Some id => mret id | None => answer unauthorized end.

Definition ErrBadPathParam : error := ErrNew "httpx" "invalid path parameter".

(** Every handler answers its error with a text of its own. *)
Definition PathUUID (r : HttpRequest) (name msg : string) : Handling uuid :=
  match uuid_parse (hr_Path r name) with Some id => mret id | None => answer (Error 400 msg) end.

Definition Decode {T} `{JsonDecode T} (r : HttpRequest) (ok : T → bool) (msg : string) : Handling T :=
  match decode_json (take maxBodyBytes (hr_Body r)) with
  | Some v => if ok v then mret v else answer (Error 400 msg)
  | None => answer (Error 400 msg)
  end.

(** [io.ReadAll(http.MaxBytesReader(w, r.Body, max))] *)
Inductive upload := TooBig | CutOff | Whole (data : list Z).
Definition ReadAll (r : HttpRequest) (max : Z) : upload :=
  if Z.of_nat (length (hr_Body r)) >? max then TooBig else if hr_Cut r then CutOff else Whole (hr_Body r).
End reading.

Definition no_check {T} (v : T) : bool := true.

(** ** Middleware *)

(** What one server keeps between requests, beside the world: the limiters, one a policy
    (RATE_LIMIT_BACKEND=memory), and the tickets. *)
Record Server := mk_Server { srv_world : World; srv_limits : gmap string Memory; srv_tickets : Tickets }.

Definition on_server (h : HttpRequest → World → Response * World) (r : HttpRequest) (s : Server) : Response * Server :=
  let '(resp, w) := h r (srv_world s) in (resp, mk_Server w (srv_limits s) (srv_tickets s)).

Definition Handler : Type := HttpRequest → Server → Response * Server.

Section middleware.
Context {ulib : UuidLib} {jwt : JwtLib} {auth : AuthConfig} {net : NetLib} {pg : Sql_Admin.PgText} {fmt : TimeFormat}.

(** [httpx.Authenticate] around a handler. *)
Definition authed (next : Handler) : Handler := λ r s,
  match Authenticate (hr_Header r "Authorization") (srv_world s) with
  | (Ok (Some id), w) => next (WithUser id r) (mk_Server w (srv_limits s) (srv_tickets s))
  | (_, w) => (unauthorized, mk_Server w (srv_limits s) (srv_tickets s))
  end.

(** [App.wsAuth] *)
Definition wsAuth (next : Handler) : Handler := λ r s,
  let ticket := hr_Query r "ticket" in
  if negb (bool_decide (hr_Header r "Authorization" = EmptyString)) || bool_decide (ticket = EmptyString) then authed next r s
  else
    let '(got, tickets) := Redeem ticket (w_now (srv_world s)) (srv_tickets s) in
    match got with
    | None => (unauthorized, mk_Server (srv_world s) (srv_limits s) tickets)
    | Some (user, issued) =>
      let '(gone, w) := Revoked user issued (srv_world s) in
      let s := mk_Server w (srv_limits s) tickets in
      match gone with
      | Ok false => next (WithUser user r) s
      | _ => (unauthorized, s)
      end
    end.

(** [admin.Authenticate]; it fails closed. *)
Definition adminAuth (next : Handler) : Handler := λ r s,
  let w := srv_world s in
  let back w := mk_Server w (srv_limits s) (srv_tickets s) in
  match GetBearerToken (hr_Header r "Authorization") with
  | Err _ => (unauthorized, s)
  | Ok tok =>
    match ValidateAdminJWT tok cfg_JWTSecret (w_now w) with
    | Err _ => (unauthorized, s)
    | Ok (id, issued) =>
      match Revoked id issued w with
      | (Ok false, w) =>
        match IsActiveAdmin id w with
        | (Err e, w) => (ServerError e, back w)
        | (Ok false, w) => (Error 403 "not an admin", back w)
        | (Ok true, w) => next (with_admin id r) (back w)
        end
      | (_, w) => (unauthorized, back w)
      end
    end
  end.

Record limitPolicy := mk_limitPolicy { lp_name : string; lp_limit : Z; lp_period : duration }.

(** [int(math.Ceil(d.Seconds()))] *)
Definition ceil_seconds (d : duration) : Z := - ((- d) / second).

(** [ratelimit.Middleware(a.limiter(p), p.name, a.logger)] *)
Definition limited (p : limitPolicy) (next : Handler) : Handler := λ r s,
  let limiter := default (NewMemory (lp_limit p) (lp_period p)) (srv_limits s !! lp_name p) in
  let '(res, limiter) := Allow (w_now (srv_world s)) (lp_name p +:+ ":" +:+ ClientKey r)%string limiter in
  let s := mk_Server (srv_world s) (<[lp_name p := limiter]> (srv_limits s)) (srv_tickets s) in
  let headers := [("X-RateLimit-Limit", pretty (rl_Limit res)); ("X-RateLimit-Remaining", pretty (Z.max (rl_Remaining res) 0))] in
  if negb (rl_Allowed res) then
    let secs := ceil_seconds (rl_RetryAfter res) in
    (with_headers (headers ++ if secs >? 0 then [("Retry-After", pretty secs)] else [])
       (Error 429 "too many requests, please try again later"), s)
  else
    let '(resp, s) := next r s in (with_headers headers resp, s).

(** [httpx.CORS] *)
Definition cors_headers (allowed : list string) (origin : string) : list (string * string) :=
  if negb (bool_decide (origin = EmptyString)) && (slices_contains allowed "*" || slices_contains allowed origin)
  then [("Access-Control-Allow-Origin", origin); ("Vary", "Origin");
        ("Access-Control-Allow-Methods", "GET, POST, PUT, PATCH, DELETE, OPTIONS");
        ("Access-Control-Allow-Headers", "Authorization, Content-Type, X-Request-Id")]
  else [].

Definition CORS (allowed : list string) (next : Handler) : Handler := λ r s,
  let headers := cors_headers allowed (hr_Header r "Origin") in
  if bool_decide (hr_Method r = "OPTIONS") then (with_headers headers (WriteHeader 204), s)
  else let '(resp, s) := next r s in (with_headers headers resp, s).

(** [httpx.SecurityHeaders] *)
Definition security_headers : list (string * string) :=
  [("X-Content-Type-Options", "nosniff"); ("X-Frame-Options", "DENY"); ("Referrer-Policy", "no-referrer");
   ("Strict-Transport-Security", "max-age=31536000"); ("Cache-Control", "no-store")].
Definition SecurityHeaders (next : Handler) : Handler := λ r s,
  let '(resp, s) := next r s in (with_headers security_headers resp, s).

(** What [httpx.RequestLogger] makes of the context: the address, and an id for the logs. *)
Definition RequestLogger (trustedProxies : Z) (next : Handler) : Handler := λ r s,
  next (Start (ClientIP r trustedProxies) r) s.
End middleware.

(** ** Whose address it is *)

Section forged.
Context {net : NetLib}.

(** The addresses among the hops that are not the hosting provider's own. *)
Definition public_hops (hops : list string) : list IP :=
  omap (λ h, ip ← ParseIP h; if isInternal ip then None else Some ip) hops.

Lemma walk_hops_public peer n hops rest : ∀ seen k ip, Forall (λ h, is_Some (ParseIP h)) hops →
  public_hops hops !! k = Some ip → seen + 1 + Z.of_nat k = n → walk_hops peer n seen (hops ++ rest) = ip_String ip.
Proof.
  induction hops as [|h hops IH]; intros seen k ip Hall Hk Hn; [done|]. apply Forall_cons in Hall as [[i Hi] Hall].
  unfold public_hops in Hk. simpl in Hk |- *. rewrite Hi in Hk |- *. simpl in Hk. destruct (isInternal i); simpl in Hk.
  - by apply (IH seen k).
  - destruct k as [|k]; simpl in Hk.
    + injection Hk as ->. by rewrite (proj2 (Z.eqb_eq _ _)) by lia.
    + rewrite (proj2 (Z.eqb_neq _ _)) by lia. apply (IH (seen + 1) k); [done..|lia].
Qed.

(** C38. Behind [n] trusted proxies the client's address is the [n]-th public address from
    the right among the hops the proxies wrote, whatever the client put before them: a caller
    cannot choose the address its requests are limited by. *)
Theorem client_ip_is_not_forged r n forged real ip : 0 < n → hops_of r = forged ++ real →
  Forall (λ h, is_Some (ParseIP h)) real → reverse (public_hops real) !! Z.to_nat (n - 1) = Some ip →
  ClientIP r n = ip_String ip.
Proof.
  intros Hn Hh Hall Hip. unfold ClientIP. rewrite (proj2 (Z.leb_gt _ _)) by lia. rewrite Hh, reverse_app.
  apply (walk_hops_public _ _ _ _ 0 (Z.to_nat (n - 1))); [by apply Forall_reverse| |lia].
  rewrite <- Hip. f_equal. unfold public_hops. clear. induction real as [|h l IH]; [done|].
  rewrite reverse_cons, omap_app, IH. destruct (ParseIP h) as [i|] eqn:E; simpl; rewrite E; simpl; [|by rewrite app_nil_r].
  destruct (isInternal i); simpl; [by rewrite app_nil_r|by rewrite reverse_cons].
Qed.
End forged.

#[local] Instance demo_net : NetLib := {|
  SplitHostPort s := None;
  ParseIP s := if decide (s = "203.0.113.7") then Some (IPv4 203 0 113 7)
               else if decide (s = "10.26.141.160") then Some (IPv4 10 26 141 160) else None;
  ip_String ip := match ip with IPv4 203 _ _ _ => "203.0.113.7" | _ => "10.26.141.160" end;
|}.

(** The client wrote 6.6.6.6; the hosting provider's balancer comes last. *)
Lemma client_ip_is_not_forged_witness :
  ClientIP (mk_HttpRequest "GET" "10.0.0.9" ["6.6.6.6, 203.0.113.7, 10.26.141.160"] (λ _, EmptyString) (λ _, EmptyString)
              (λ _, EmptyString) [] false EmptyString None uuid_nil) 1 = "203.0.113.7".
Proof.
  match goal with |- ?a = _ => change (a = ip_String (IPv4 203 0 113 7)) end.
  apply (client_ip_is_not_forged _ 1 ["6.6.6.6"] ["203.0.113.7"; "10.26.141.160"] (IPv4 203 0 113 7)); [done|by vm_compute| |done].
  repeat constructor; by eexists.
Defined.
