(* ===== verification/Chat_Access.v ===== *)
(** * Chat_Access: who may write what in which chat

    The service is proved against the interfaces of its collaborators: all that
    is asked of them is that checking memberships and friendships, and handling
    media, leaves the message tables and the clock alone ([Collaborators]). *)

From S2P Require Import Prelude GoLib Types Users_Model Db Groups_Model Sql_Chat Chat_Dedupe World Chat_Emoji Chat_Model Chat_Repo Chat_Service Demo.

#[local] Open Scope Z_scope.

(** ** Programs that leave the messages alone *)

(** The tables that hold what was said, and to whom. *)
Definition chat_tables (d : DB) :=
  (message d, groupmessage d, message_reactions d, group_message_reactions d, member_table d).

(** [leaves f m]: whatever fails, [m] leaves what [f] shows of the world as it
    was.  [f] is [inert] when it does not show the sources of ids, the log, the
    failures to come or the cached bans. *)
Definition leaves {X A} (f : World → X) (m : M World A) : Prop := ∀ w, f (m w).2 = f w.

Record inert {X} (f : World → X) : Prop := {
  inert_ids x w : f (with_ids x w) = f w;
  inert_log x w : f (with_log x w) = f w;
  inert_faults x w : f (with_faults x w) = f w;
  inert_banned x w : f (with_banned x w) = f w;
}.

(** [quiet]: the message tables, the clock and the table of recent sends stay.
    [still]: the last two stay. *)
Definition chat_view (w : World) := (chat_tables (w_db w), w_now w, w_dedupe w).
Definition process_view (w : World) := (w_now w, w_dedupe w).
Notation quiet := (leaves chat_view).
Notation still := (leaves process_view).

Lemma inert_chat : inert chat_view.
Proof. by split. Qed.
Lemma inert_process : inert process_view.
Proof. by split. Qed.

Lemma quiet_still {A} (m : M World A) : quiet m → still m.
Proof. intros Hm w. specialize (Hm w). unfold chat_view, process_view in *. congruence. Qed.

Lemma quiet_run {A} (m : M World A) w r w' :
  quiet m → m w = (r, w') → chat_tables (w_db w') = chat_tables (w_db w) ∧ w_now w' = w_now w.
Proof. intros Hm Hw. specialize (Hm w). rewrite Hw in Hm. unfold chat_view in Hm. simpl in Hm. split; congruence. Qed.

Section leaves.
Context {X : Type} (f : World → X).

Lemma leaves_ret {A} (a : A) : leaves f (mret a).
Proof. by intros w. Qed.
Lemma leaves_throw {A} e : leaves f (throw e : M World A).
Proof. by intros w. Qed.
Lemma leaves_lift {A} (r : result A) : leaves f (lift_result r).
Proof. by intros w. Qed.
Lemma leaves_get {A} (g : World → A) : leaves f (get g).
Proof. by intros w. Qed.

Lemma leaves_bind {A B} (m : M World A) (k : A → M World B) :
  leaves f m → (∀ a, leaves f (k a)) → leaves f (m ≫= k).
Proof.
  intros Hm Hk w. rewrite bind_run. specialize (Hm w). destruct (m w) as [[a|e] w1]; simpl in *; [|done].
  by rewrite Hk.
Qed.

Lemma leaves_try {A} (m : M World A) : leaves f m → leaves f (try m).
Proof. intros Hm w. specialize (Hm w). unfold try. by destruct (m w). Qed.

Lemma leaves_missing {A} e (m : M World A) : leaves f m → leaves f (missing e m).
Proof.
  intros Hm. apply leaves_bind; [by apply leaves_try|]. intros [a|e']; [apply leaves_ret|apply leaves_throw].
Qed.

Definition fault_blind : Prop := ∀ x w, f (with_faults x w) = f w.

Lemma leaves_io_blind {A} (m : M World A) : fault_blind → leaves f m → leaves f (io m).
Proof.
  intros Hf Hm w. unfold io; simpl. destruct (w_faults w) as [|[] fs]; simpl; [apply Hm|apply Hf|].
  rewrite Hm. apply Hf.
Qed.

(** A read changes nothing. *)
Lemma leaves_read {A} (q : M DB A) : fault_blind → read_only q → leaves f (query q).
Proof.
  intros Hf Hq. apply leaves_io_blind; [done|]. intros w. unfold on_db. destruct (q (w_db w)) as [r d] eqn:He.
  apply Hq in He as ->. by destruct w.
Qed.

Context (Hf : inert f).

Lemma leaves_io {A} (m : M World A) : leaves f m → leaves f (io m).
Proof. apply leaves_io_blind. intros x w. by apply inert_faults. Qed.

Lemma leaves_newv7 : leaves f NewV7.
Proof. intros w. unfold NewV7. destruct (w_ids w); [done|]. by apply inert_ids. Qed.
Lemma leaves_emit e : leaves f (emit e).
Proof. intros w. by apply inert_log. Qed.
Lemma leaves_banned x : leaves f (modify (with_banned x)).
Proof. intros w. by apply inert_banned. Qed.
End leaves.

Lemma leaves_now {X} (f : World → X) : leaves f Now.
Proof. by intros w. Qed.

Lemma quiet_query {A} (q : M DB A) :
  (∀ d, chat_tables (q d).2 = chat_tables d) → quiet (query q).
Proof.
  intros Hq. apply leaves_io; [apply inert_chat|]. intros w. unfold on_db, chat_view. specialize (Hq (w_db w)).
  destruct (q (w_db w)); simpl in *. by rewrite Hq.
Qed.

Lemma still_query {A} (q : M DB A) : still (query q).
Proof.
  apply leaves_io; [apply inert_process|]. intros w. unfold on_db. by destruct (q (w_db w)).
Qed.

Create HintDb quiet.
#[export] Hint Resolve leaves_ret leaves_throw leaves_lift leaves_get leaves_try leaves_io leaves_now
  leaves_newv7 leaves_emit leaves_banned quiet_still inert_chat inert_process still_query : quiet.

(** A statement that does not write to the message tables. *)
Ltac quiet_stmt :=
  intros ?;
  match goal with |- chat_tables (?q _).2 = _ => let h := get_head q in try unfold h end;
  repeat case_match; reflexivity.

(** Goes through a program, splitting its matches. *)
Ltac quiet :=
  repeat match goal with
  | |- ∀ _, leaves _ _ => intros ?
  | |- leaves _ (mbind _ _) => apply leaves_bind
  | |- leaves _ (try _) => apply leaves_try
  | |- leaves _ (missing _ _) => apply leaves_missing
  | |- quiet (query _) => apply quiet_query; quiet_stmt
  | |- leaves _ (match ?x with _ => _ end) => destruct x
  | |- leaves _ (let _ := _ in _) => cbv zeta
  | |- leaves _ _ => solve [eauto with quiet]
  end.

(** What the theorems ask of the collaborators. *)
Class Collaborators `{GroupMembership} `{FriendChecker} `{ChatService} := {
  quiet_IsMember g u : quiet (grp_IsMember g u);
  quiet_Members g : quiet (grp_Members g);
  quiet_CanDelete g a b : quiet (grp_CanDeleteMessage g a b);
  quiet_AreFriends a b : quiet (frd_AreFriends a b);
  quiet_media m : csv_media = Some m →
    (∀ o ids k c i, quiet (md_Attach m o ids k c i)) ∧ (∀ ids, quiet (md_ForMessages m ids)) ∧
    (∀ i, quiet (md_ExpireMessage m i)) ∧ (∀ o i, quiet (md_Duplicate m o i));
}.
#[export] Hint Resolve quiet_IsMember quiet_Members quiet_CanDelete quiet_AreFriends : quiet.

(** ** The service's reads *)

Section reads.
Context {ulib : UuidLib} {gm : GroupMembership} {fc : FriendChecker} {cs : ChatService} {collab : Collaborators}.

Lemma quiet_push targets ev p : quiet (push targets ev p).
Proof. unfold push, WriteToUsers. quiet. Qed.
Lemma quiet_notify j : quiet (notify j).
Proof. unfold notify, Notify. quiet. Qed.
Lemma quiet_send_targets from to kind : quiet (send_targets from to kind).
Proof. unfold send_targets. quiet. Qed.
Lemma quiet_parent kind p a b : quiet (parentInChat kind p a b).
Proof. unfold parentInChat, ParentInPrivate, ParentInGroup. quiet. Qed.
Lemma quiet_attach from ids kind to i : quiet (attach from ids kind to i).
Proof.
  unfold attach. destruct ids; [quiet|]. destruct csv_media as [m|] eqn:Hm; [|quiet].
  by destruct (quiet_media m Hm) as (? & _).
Qed.
Lemma quiet_ForMessages m ids : csv_media = Some m → quiet (md_ForMessages m ids).
Proof. intros Hm. by destruct (quiet_media m Hm) as (_ & ? & _). Qed.
Lemma quiet_Locate i : quiet (LocateMessage i).
Proof. unfold LocateMessage. quiet. Qed.
Lemma quiet_JoinedAt g u : quiet (JoinedAt g u).
Proof. unfold JoinedAt. quiet. Qed.
#[local] Hint Resolve quiet_push quiet_notify quiet_send_targets quiet_parent quiet_attach quiet_Locate
  quiet_JoinedAt : quiet.

Lemma quiet_authorize me i b : quiet (authorizeMessage me i b).
Proof. unfold authorizeMessage. quiet. Qed.
Lemma quiet_may_delete me ref : quiet (may_delete me ref).
Proof. unfold may_delete. quiet. Qed.
Lemma quiet_Suspended ids : quiet (Suspended ids).
Proof. unfold Suspended, banned_get. quiet. Qed.
Lemma quiet_Content kind i : quiet (MessageContent kind i).
Proof. unfold MessageContent. destruct (decide (kind = TypePrivate)); quiet. Qed.
End reads.
#[export] Hint Resolve quiet_push quiet_notify quiet_send_targets quiet_parent quiet_attach quiet_Locate
  quiet_JoinedAt quiet_authorize quiet_may_delete quiet_Suspended quiet_Content : quiet.

(** ** Sending *)

Section sending.
Context {ulib : UuidLib} {laws : UuidLaws ulib} {gm : GroupMembership} {fc : FriendChecker} {cs : ChatService} {collab : Collaborators}.

(** [from] may write to [to]: the friends or the groups said so in [w]. *)
Definition may_write (from to : uuid) (kind : string) (w : World) : Prop :=
  (kind = TypePrivate ∧ (frd_AreFriends from to w).1 = Ok true) ∨
  (kind = TypePublic ∧ ∃ members, (grp_Members to w).1 = Ok members ∧ from ∈ members).

(** The reply target, if any, is a message of the same chat. *)
Definition parent_in_chat (kind : string) (parent : option uuid) (from to : uuid) (d : DB) : Prop :=
  ∀ p, parent = Some p → p ≠ uuid_nil →
    (kind = TypePrivate → ∃ m, message d !! p = Some m ∧ between from to m = true) ∧
    (kind = TypePublic → ∃ m, groupmessage d !! p = Some m ∧ in_group to m = true).

(** The tables with the one new message. *)
Definition with_new (from to id : uuid) (inp : InCommingMessage) (now : time) (d d' : DB) : Prop :=
  let content := Some (TrimSpace (im_Content inp)) in
  let parent := uuid_parse (im_ParendID inp) in
  message_reactions d' = message_reactions d ∧ group_message_reactions d' = group_message_reactions d ∧
  ((im_Type inp = TypePrivate ∧ groupmessage d' = groupmessage d ∧ message d !! id = None ∧
    message d' = <[id := mk_Message content parent (Some from) (Some to) None (pgTime now) None (im_Forwarded inp)]> (message d)) ∨
   (im_Type inp = TypePublic ∧ message d' = message d ∧ groupmessage d !! id = None ∧ ∃ searchable,
    groupmessage d' = <[id := mk_Groupmessage content (Some to) (Some from) parent (pgTime now) None None searchable
                                (im_Forwarded inp)]> (groupmessage d))).

(** A message was written, and rightly so. *)
Definition written (from : uuid) (inp : InCommingMessage) (w w' : World) (id : uuid) : Prop :=
  ∃ to, uuid_parse (im_ToID inp) = Some to ∧ to ≠ from ∧ may_write from to (im_Type inp) w ∧
    (TrimSpace (im_Content inp) ≠ EmptyString ∨ im_Media inp ≠ []) ∧
    RuneCountInString (TrimSpace (im_Content inp)) <= maxMessageLen ∧
    parent_in_chat (im_Type inp) (uuid_parse (im_ParendID inp)) from to (w_db w) ∧
    with_new from to id inp (w_now w) (w_db w) (w_db w').

Lemma send_checks_ok from inp content to parentID :
  send_checks from inp = Ok (content, to, parentID) →
  content = TrimSpace (im_Content inp) ∧ uuid_parse (im_ToID inp) = Some to ∧ to ≠ from ∧
  (content ≠ EmptyString ∨ im_Media inp ≠ []) ∧ RuneCountInString content <= maxMessageLen ∧
  (im_ParendID inp = EmptyString ∧ parentID = uuid_nil ∨ uuid_parse (im_ParendID inp) = Some parentID).
Proof.
  unfold send_checks. cbv zeta.
  destruct (_ && bool_decide (im_Media inp = [])) eqn:Hempty; [done|]; cbn [orb].
  destruct (_ >? maxMessageLen) eqn:Hlen; [done|].
  destruct (negb _ && _); [done|].
  destruct (uuid_parse (im_ToID inp)) as [to'|]; [|done].
  destruct (decide (to' = from)) as [|Hne]; [done|].
  assert (TrimSpace (im_Content inp) ≠ EmptyString ∨ im_Media inp ≠ []) as Hsome.
  { apply andb_false_iff in Hempty as [Hn|Hm%bool_decide_eq_false]; [left|by right].
    intros Hc. rewrite Hc in Hn. by vm_compute in Hn. }
  destruct (decide (im_ParendID inp = EmptyString)) as [He|He].
  - intros [= <- <- <-]. repeat split; auto; lia.
  - destruct (uuid_parse (im_ParendID inp)) as [p|]; [|done]. intros [= <- <- <-]. repeat split; auto; lia.
Qed.

Lemma send_targets_ok from to kind w targets w' :
  send_targets from to kind w = (Ok targets, w') → may_write from to kind w.
Proof.
  unfold send_targets, may_write. repeat case_decide; [| |done]; intros Hsw; run_inv.
  - left. destruct a; [|done]. by rewrite Hrun.
  - right. destruct (slices_contains a from) eqn:Ha; [|done]. split; [done|]. exists a.
    rewrite Hrun. split; [done|]. by apply slices_contains_true.
Qed.

Lemma parentInChat_ok kind p from to w w' :
  parentInChat kind p from to w = (Ok true, w') →
  (kind = TypePrivate → ∃ m, message (w_db w) !! p = Some m ∧ between from to m = true) ∧
  (kind = TypePublic → ∃ m, groupmessage (w_db w) !! p = Some m ∧ in_group to m = true).
Proof.
  unfold parentInChat. case_decide as Hk.
  - intros (fs & d & Hq & _)%query_ok. split; [intros _|by subst].
    unfold PrivateMessageInChat in Hq. destruct (message (w_db w) !! p) as [m|]; simplify_eq/=. eauto.
  - intros (fs & d & Hq & _)%query_ok. split; [done|intros _].
    unfold GroupMessageInGroup in Hq. destruct (groupmessage (w_db w) !! p) as [m|]; simplify_eq/=. eauto.
Qed.

(** Telling the recipients never fails. *)
Lemma push_ok targets ev p w : (push targets ev p w).1 = Ok tt.
Proof. unfold push. rewrite bind_run. unfold try. by destruct (WriteToUsers _ _ w). Qed.

Lemma notify_ok j w : (notify j w).1 = Ok tt.
Proof. unfold notify. by destruct csv_notify. Qed.

Lemma told_ok targets ev p j (id : uuid) w :
  let m := push targets ev p ;; notify j ;; mret id in
  (m w).1 = Ok id ∧ chat_tables (w_db (m w).2) = chat_tables (w_db w).
Proof.
  intros m. split.
  2: { assert (quiet m) as Hq by (unfold m; quiet). specialize (Hq w). unfold chat_view in Hq. congruence. }
  unfold m. clear m.
  rewrite bind_run. pose proof (push_ok targets ev p w) as Hp. destruct (push _ _ _ w) as [r w1]; simpl in Hp; subst r.
  rewrite bind_run. pose proof (notify_ok j w1) as Hn. destruct (notify _ w1) as [r w2]; simpl in Hn; by subst r.
Qed.

(** The insert of the new message. *)
Lemma stored_ok from to id inp now w r w' :
  let stored := mk_InCommingMessage (TrimSpace (im_Content inp)) (im_ParendID inp) (im_ToID inp) (im_Type inp) []
                  (im_ClientMsgID inp) (im_Forwarded inp) in
  let msg := mk_MessageMetaDataRes id (mk_MessageCache stored from now) now None (im_Forwarded inp) false [] [] false in
  uuid_parse (im_ToID inp) = Some to →
  im_Type inp = TypePrivate ∨ im_Type inp = TypePublic →
  (if decide (im_Type inp = TypePrivate) then AddPrivate msg else AddPublic msg) w = (r, w') →
  match r with
  | Ok _ => with_new from to id inp now (w_db w) (w_db w')
  | Err _ => chat_tables (w_db w') = chat_tables (w_db w)
  end.
Proof.
  intros stored msg Hto Hkind Hrun. unfold with_new, AddPrivate, AddPublic in *. case_decide as Hk.
  - apply query_cases in Hrun as [(fs & d & Hq & ->)|(-> & fs & ->)]; [|done].
    apply AddMessagePrivate_cases in Hq. destruct r; [|by rewrite Hq]. destruct Hq as [Hid ->].
    simpl. unfold pgOptUUID. rewrite Hto. eauto 10.
  - destruct Hkind as [?|Hk']; [done|].
    apply query_cases in Hrun as [(fs & d & Hq & ->)|(-> & fs & ->)]; [|done].
    apply AddMessagePublic_cases in Hq. destruct r; [|by rewrite Hq]. destruct Hq as (Hid & searchable & ->).
    simpl. unfold pgOptUUID. rewrite Hto. split; [done|]. split; [done|]. right. eauto 10.
Qed.

Lemma send_targets_kind from to kind w targets w' :
  send_targets from to kind w = (Ok targets, w') → kind = TypePrivate ∨ kind = TypePublic.
Proof. intros [[? _]|[? _]]%send_targets_ok; auto. Qed.

Lemma tables_eq d d' :
  chat_tables d = chat_tables d' →
  message d = message d' ∧ groupmessage d = groupmessage d' ∧
  message_reactions d = message_reactions d' ∧ group_message_reactions d = group_message_reactions d' ∧
  member_table d = member_table d'.
Proof. unfold chat_tables. intros H. by simplify_eq. Qed.

Lemma parent_in_chat_tables kind parent from to d d' :
  chat_tables d = chat_tables d' → parent_in_chat kind parent from to d → parent_in_chat kind parent from to d'.
Proof. intros (H1 & H2 & _)%tables_eq. unfold parent_in_chat. by rewrite H1, H2. Qed.

Lemma with_new_tables from to id inp now d0 d d1 d' :
  chat_tables d0 = chat_tables d → chat_tables d' = chat_tables d1 →
  with_new from to id inp now d0 d1 → with_new from to id inp now d d'.
Proof.
  intros (H1 & H2 & H3 & H4 & _)%tables_eq (H5 & H6 & H7 & H8 & _)%tables_eq. unfold with_new.
  by rewrite H1, H2, H3, H4, H5, H6, H7, H8.
Qed.

(** [send] writes one message the sender was allowed to write, or nothing. *)
Lemma send_spec from inp w r w' :
  send from inp w = (r, w') →
  match r with
  | Ok id => written from inp w w' id
  | Err _ => chat_tables (w_db w') = chat_tables (w_db w)
  end.
Proof.
  unfold send. rewrite bind_run. unfold lift_result at 1.
  destruct (send_checks from inp) as [[[content to] parentID]|e] eqn:Hchecks; [|intros [= <- <-]; done].
  apply send_checks_ok in Hchecks as (-> & Hto & Hne & Hsome & Hlen & Hparent). cbv beta iota zeta.
  rewrite bind_run. destruct (send_targets from to (im_Type inp) w) as [[targets|e] w1] eqn:Htg.
  2: { intros [= <- <-]. by apply (quiet_run _ _ _ _ (quiet_send_targets _ _ _)) in Htg as [? _]. }
  pose proof (send_targets_ok _ _ _ _ _ _ Htg) as Hmay. pose proof (send_targets_kind _ _ _ _ _ _ Htg) as Hkind.
  apply (quiet_run _ _ _ _ (quiet_send_targets _ _ _)) in Htg as [Ht1 Hn1].
  rewrite bind_run. destruct (NewV7 w1) as [[id|e] w2] eqn:Hid; apply (quiet_run _ _ _ _ (leaves_newv7 _ inert_chat)) in Hid as [Ht2 Hn2].
  2: { intros [= <- <-]. congruence. }
  rewrite bind_run. cbn [Now get]. 
  assert (w_now w2 = w_now w) as Hnow by congruence. assert (chat_tables (w_db w2) = chat_tables (w_db w)) as Htab by congruence.
  clear Ht1 Hn1 Ht2 Hn2. unfold Now, get. rewrite Hnow.
  match goal with |- context [(if decide (parentID = uuid_nil) then ?a else ?b) ≫= ?k] =>
    assert (∀ r w3, (if decide (parentID = uuid_nil) then a else b) w2 = (r, w3) →
              chat_tables (w_db w3) = chat_tables (w_db w) ∧
              (is_ok r = true → parent_in_chat (im_Type inp) (uuid_parse (im_ParendID inp)) from to (w_db w))) as Hpar;
    [|rewrite bind_run; destruct ((if decide (parentID = uuid_nil) then a else b) w2) as [[[]|e] w3] eqn:H3;
      specialize (Hpar _ _ eq_refl) as [Ht3 Hpar]; [|intros [= <- <-]; done]]
  end.
  { intros r0 w3 Hrun. case_decide as Hnil.
    - injection Hrun as <- <-. split; [done|]. intros _ p Hp Hnp. exfalso.
      destruct Hparent as [[Hempty _]|Hp']; [|congruence]. by rewrite Hempty, uuid_parse_empty in Hp.
    - assert (quiet (ok ← parentInChat (im_Type inp) parentID from to;
                     if ok : bool then mret tt else throw ErrNotValidParentID)) as Hq by quiet.
      pose proof (quiet_run _ _ _ _ Hq Hrun) as [Ht3 _]. split; [congruence|]. intros Hok.
      destruct r0 as [[]|]; [|done]. apply bind_ok_inv in Hrun as (ok & w4 & Hp & Hk). destruct ok; [clear Hk|done].
      destruct Hparent as [[_ ?]|Hp']; [done|]. rewrite Hp'. intros p [= <-] _.
      apply parentInChat_ok in Hp. apply tables_eq in Htab as (H1 & H2 & _). by rewrite H1, H2 in Hp. }
  rewrite bind_run. destruct (attach _ _ _ _ _ w3) as [[att|e] w4] eqn:Hatt;
    apply (quiet_run _ _ _ _ (quiet_attach _ _ _ _ _)) in Hatt as [Ht4 _]; [|intros [= <- <-]; congruence].
  rewrite bind_run.
  match goal with |- context [(if decide (im_Type inp = TypePrivate) then ?a else ?b) w4] =>
    destruct ((if decide (im_Type inp = TypePrivate) then a else b) w4) as [[[]|e] w5] eqn:Hstore end;
    apply (stored_ok _ _ _ _ _ _ _ _ Hto Hkind) in Hstore; [|intros [= <- <-]; congruence].
  intros Htell. match type of Htell with (push ?a ?b ?c ≫= _) _ = _ =>
    destruct (told_ok a b c (if decide (im_Type inp = TypePublic)
        then mk_Job KindGroup targets from to id (mediaPreview (TrimSpace (im_Content inp)) att) uuid_nil
        else mk_Job KindPrivate targets from uuid_nil id (mediaPreview (TrimSpace (im_Content inp)) att) uuid_nil) id w5)
      as [Hr Ht] end.
  rewrite Htell in Hr, Ht. simpl in Hr, Ht. subst r.
  exists to. split_and!; auto.
  eapply with_new_tables; [|exact Ht|exact Hstore]. congruence.
Qed.

(** Through the table of recent sends: a repeat writes nothing. *)
Lemma dedupe_do_spec k (m : M World uuid) w r w' :
  dedupe_do k m w = (r, w') →
  chat_tables (w_db w') = chat_tables (w_db w) ∨
  ∃ d r0 w1, m (with_dedupe d w) = (r0, w1) ∧ w_db w' = w_db w1 ∧ r = match r0 with Ok id => Ok (id, false) | Err e => Err e end.
Proof.
  unfold dedupe_do. rewrite bind_run; cbn [Now get]. rewrite bind_run; unfold Now, get; cbv beta iota.
  destruct (enter k (w_now w) (w_dedupe w)) as [[a|a] d]; rewrite bind_run; unfold modify at 1; cbv beta iota.
  - rewrite bind_run. unfold try. destruct (m (with_dedupe d w)) as [r0 w1] eqn:Hm.
    rewrite bind_run. unfold modify at 1. cbv beta iota.
    destruct r0 as [id|e]; intros Hrun; right; exists d, (match r with Ok p => Ok p.1 | Err e => Err e end), w1.
    + unfold mret, M_ret in Hrun. by simplify_eq.
    + rewrite bind_run in Hrun. unfold modify, throw in Hrun. by simplify_eq.
  - rewrite bind_run. unfold get. cbv beta iota. intros Hrun. left.
    destruct (outcome _ a) as [[id|e]|]; unfold mret, M_ret, throw in Hrun; by simplify_eq.
Qed.

(** What SendMessage left. *)
Lemma SendMessage_outcome (from : uuid) (inp : InCommingMessage) (w : World) (r : result uuid) (w' : World) :
  SendMessage from inp w = (r, w') →
  match r with
  | Err _ => chat_tables (w_db w') = chat_tables (w_db w)
  | Ok id => chat_tables (w_db w') = chat_tables (w_db w) ∨
             ∃ d, written from inp (with_dedupe d w) w' id
  end.
Proof.
  unfold SendMessage. case_decide as Hc.
  { intros Hs%send_spec. destruct r; [right|done]. exists (w_dedupe w). by destruct w. }
  destruct (uuid_parse (im_ClientMsgID inp)) as [cid|]; [|intros [= <- <-]; done].
  rewrite bind_run. destruct (dedupe_do _ _ w) as [r1 w1] eqn:Hd.
  assert (r = match r1 with Ok p => Ok p.1 | Err e => Err e end →
          match r with Err _ => chat_tables (w_db w1) = chat_tables (w_db w)
          | Ok id => chat_tables (w_db w1) = chat_tables (w_db w) ∨ ∃ d, written from inp (with_dedupe d w) w1 id end) as Hgoal.
  { intros ->. apply dedupe_do_spec in Hd as [Hd|(d & r0 & w2 & Hs%send_spec & Hdb & ->)].
    - destruct r1; auto.
    - destruct r0 as [id|e]; simpl in *; [right; exists d|by rewrite Hdb].
      unfold written in *. by rewrite Hdb. }
  destruct r1; intros [= <- <-]; by apply Hgoal.
Qed.

(** C3. A message reaches a chat only from someone who may write there: unless
    the call was a repeat that writes nothing, a successful SendMessage adds
    exactly one message, not empty, of at most 500 characters, stamped with the
    sender and the server's clock, replying only to a message of the same chat,
    and the friends (for a private message) or the group's members (for a group
    message) said in the world the call started in that the sender may write; a
    failed one adds nothing. *)
Theorem messages_need_access (from : uuid) (inp : InCommingMessage) (w : World) (r : result uuid) (w' : World) :
  SendMessage from inp w = (r, w') →
  match r with
  | Err _ => chat_tables (w_db w') = chat_tables (w_db w)
  | Ok id => chat_tables (w_db w') = chat_tables (w_db w) ∨
             ∃ d, written from inp (with_dedupe d w) w' id
  end.
Proof. apply SendMessage_outcome. Qed.

(** ** Retries *)

Lemma still_send from inp : still (send from inp).
Proof.
  unfold send, AddPrivate, AddPublic. quiet.
Qed.

(** A first attempt leaves its result in the table. *)
Lemma first_attempt_recorded k (m : M World uuid) w id b w1 :
  still m →
  d_m (w_dedupe w) !! k = None →
  dedupe_do k m w = (Ok (id, b), w1) →
  ∃ a, d_m (w_dedupe w1) !! k = Some a ∧
       d_heap (w_dedupe w1) !! a = Some (mk_dedupeEntry (Some (Ok id)) (w_now w)).
Proof.
  intros Hm Hnone. unfold dedupe_do. rewrite bind_run. unfold Now, get at 1. cbv beta iota.
  rewrite bind_run. unfold get at 1. cbv beta iota.
  assert (d_m (gc (w_now w) (w_dedupe w)) !! k = None) as Hgc.
  { destruct (d_m (gc _ _) !! k) eqn:He; [|done]. apply gc_shrinks in He. congruence. }
  unfold enter. cbv zeta. rewrite Hgc. cbv beta iota. rewrite bind_run. unfold modify at 1. cbv beta iota.
  rewrite bind_run. unfold try.
  match goal with |- context [m (with_dedupe ?d w)] => specialize (Hm (with_dedupe d w)); destruct (m (with_dedupe d w)) as [r0 w2] end.
  unfold process_view in Hm. simpl in Hm. injection Hm as _ Hd.
  rewrite bind_run. unfold modify at 1. cbv beta iota.
  destruct r0 as [id0|e].
  - intros [= <- _ <-]. exists (d_next (gc (w_now w) (w_dedupe w))). simpl. rewrite Hd. simpl.
    by rewrite lookup_insert_eq, lookup_alter_eq, lookup_insert_eq.
  - rewrite bind_run. by unfold modify, throw.
Qed.

(** Retrying is safe: when the first attempt of a client id succeeded, the
    same request sent again within DedupeWindow, even if the answer to the first
    was lost, gets the same message id and neither writes nor announces
    anything. *)
Theorem retry_is_safe (from cid id : uuid) (inp : InCommingMessage) (w w1 w2 : World) :
  uuid_parse (im_ClientMsgID inp) = Some cid →
  d_m (w_dedupe w) !! (from, cid) = None →
  SendMessage from inp w = (Ok id, w1) →
  w_dedupe w2 = w_dedupe w1 → roomy (w_dedupe w1) → w_now w2 - w_now w <= DedupeWindow →
  ∃ w3, SendMessage from inp w2 = (Ok id, w3) ∧ w_db w3 = w_db w2 ∧ w_log w3 = w_log w2.
Proof.
  intros Hcid Hnone Hsend Hd2 Hroom Hwin. unfold SendMessage in *.
  case_decide as Hempty; [by rewrite Hempty, uuid_parse_empty in Hcid|]. rewrite Hcid in *.
  apply bind_ok_inv in Hsend as ([id0 b] & w1' & Hdo & [= -> ->]).
  apply first_attempt_recorded in Hdo as (a & Ha & He); [|apply still_send|done].
  assert (d_m (gc (w_now w2) (w_dedupe w1)) !! ((from, cid) : dedupeKey) = Some a) as Hgc.
  { apply gc_keeps; [done..|]. unfold collectable. rewrite He. simpl. by apply expired_false. }
  rewrite bind_run. unfold dedupe_do. rewrite bind_run. unfold Now, get at 1. cbv beta iota.
  rewrite bind_run. unfold get at 1. cbv beta iota. rewrite Hd2. unfold enter. cbv zeta.
  pose proof (proj1 (gc_frame (w_now w2) (w_dedupe w1))) as Hheap.
  rewrite Hgc, Hheap, He. rewrite (proj2 (expired_false _ _)) by done. cbv beta iota.
  rewrite bind_run. unfold modify at 1. cbv beta iota. rewrite bind_run. unfold get at 1. cbv beta iota.
  unfold outcome. simpl. rewrite Hheap, He. simpl. by eexists.
Qed.
End sending.

(** * Who may see, change, delete and react to a message

    Every operation on an existing message starts with [authorizeMessage]; its
    specification is proved once and shared. *)

(** ** What a user can see *)

(** [me] may read private message [m]: one of its two participants. *)
Definition reads_private (me : uuid) (m : Message) : Prop :=
  pm_DeletedAt m = None ∧ (pm_FromID m = Some me ∨ pm_ToID m = Some me).

(** [me] may read group message [m]: a member since before it was sent. *)
Definition reads_group (me : uuid) (m : Groupmessage) (d : DB) : Prop :=
  gm_DeletedAt m = None ∧
  ∃ mt, member_table d !! (uuidBytes (gm_GroupID m), me) = Some mt ∧ m_JoinedAt mt <= gm_CreatedAt m.

(** The message an id stands for: private messages are looked up first. *)
Definition live_private (id : uuid) (d : DB) (m : Message) : Prop :=
  message d !! id = Some m ∧ pm_DeletedAt m = None.
Definition live_group (id : uuid) (d : DB) (m : Groupmessage) : Prop :=
  groupmessage d !! id = Some m ∧ gm_DeletedAt m = None ∧ ∀ p, ¬ live_private id d p.

Definition visible (me id : uuid) (d : DB) : Prop :=
  (∃ m, live_private id d m ∧ reads_private me m) ∨ (∃ m, live_group id d m ∧ reads_group me m d).

Section messages.
Context {ulib : UuidLib} {gm : GroupMembership} {fc : FriendChecker} {cs : ChatService} {collab : Collaborators}.

Definition private_ref (m : Message) : messageRef :=
  mk_messageRef TypePrivate (uuidBytes (pm_FromID m)) (uuidBytes (pm_ToID m)) uuid_nil (pm_CreatedAt m).
Definition group_ref (m : Groupmessage) : messageRef :=
  mk_messageRef TypePublic (uuidBytes (gm_FromID m)) uuid_nil (uuidBytes (gm_GroupID m)) (gm_CreatedAt m).

(** [LocateMessage] finds the live message, or fails. *)
Lemma locate_spec id w r w' :
  LocateMessage id w = (r, w') →
  match r with
  | Ok ref => (∃ m, live_private id (w_db w) m ∧ ref = private_ref m) ∨ (∃ m, live_group id (w_db w) m ∧ ref = group_ref m)
  | Err e => e = ErrInfra ∨ e = ErrMessageNotFound
  end.
Proof.
  unfold LocateMessage. rewrite bind_run. unfold try.
  destruct (query (PrivateMessageParticipants id) w) as [r1 w1] eqn:H1.
  apply query_cases in H1 as [(fs & d & H1 & ->)|(-> & fs & ->)].
  2: { rewrite bool_decide_false by done. cbn [negb]. unfold throw. intros [= <- _]. by left. }
  assert (d = w_db w ∧ match r1 with
          | Ok (f, t, at_) => ∃ m, live_private id (w_db w) m ∧ f = pm_FromID m ∧ t = pm_ToID m ∧ at_ = pm_CreatedAt m
          | Err e => e = ErrNoRows ∧ ∀ p, ¬ live_private id (w_db w) p end) as [-> Hp].
  { unfold PrivateMessageParticipants, live_private in *. destruct (message (w_db w) !! id) as [m|]; [|naive_solver].
    destruct (bool_decide _) eqn:Hd; simplify_eq; (split; [done|]).
    - apply bool_decide_eq_true in Hd. by exists m.
    - apply bool_decide_eq_false in Hd. naive_solver. }
  destruct r1 as [[[f t] at_]|e].
  { destruct Hp as (m & Hm & -> & -> & ->). intros [= <- <-]. left. by exists m. }
  destruct Hp as [-> Hno]. rewrite bool_decide_true by done. cbn [negb].
  rewrite bind_run. unfold missing. rewrite bind_run. unfold try.
  destruct (query (GroupMessageGroup id) _) as [r2 w2] eqn:H2.
  apply query_cases in H2 as [(fs' & d & H2 & ->)|(-> & fs' & ->)].
  2: { rewrite decide_False by done. intros [= <- _]. by left. }
  simpl in H2. unfold GroupMessageGroup in H2. destruct (groupmessage (w_db w) !! id) as [m|] eqn:Hm.
  2: { simplify_eq. rewrite decide_True by done. intros [= <- _]. by right. }
  destruct (bool_decide _) eqn:Hd; simplify_eq.
  - apply bool_decide_eq_true in Hd. intros [= <- <-]. right. exists m. by split.
  - rewrite decide_True by done. intros [= <- _]. by right.
Qed.

Lemma uuidBytes_some (o : option uuid) u : u ≠ uuid_nil → u = uuidBytes o ↔ o = Some u.
Proof. intros Hu. destruct o as [v|]; simpl; [naive_solver|]. split; [done|by intros [=]]. Qed.

Lemma other_side_private me m other :
  me ≠ uuid_nil → other_side me (private_ref m) = Some other →
  (pm_FromID m = Some me ∧ other = uuidBytes (pm_ToID m)) ∨ (pm_ToID m = Some me ∧ other = uuidBytes (pm_FromID m)).
Proof.
  intros Hme. unfold other_side. simpl. case_decide as H1; [|case_decide as H2; [|done]].
  - apply uuidBytes_some in H1; naive_solver.
  - apply uuidBytes_some in H2; naive_solver.
Qed.

Lemma other_side_hidden me m :
  me ≠ uuid_nil → pm_DeletedAt m = None → ¬ reads_private me m → other_side me (private_ref m) = None.
Proof.
  intros Hme Hd Hno. unfold other_side, reads_private in *. simpl.
  case_decide as H1; [apply uuidBytes_some in H1; tauto|].
  case_decide as H2; [apply uuidBytes_some in H2; tauto|done].
Qed.

(** The join time of a member, as [JoinedAt] reports it. *)
Lemma joined_spec g u w r w' :
  JoinedAt g u w = (r, w') →
  match r with
  | Ok t => ∃ mt, member_table (w_db w) !! (g, u) = Some mt ∧ t = m_JoinedAt mt
  | Err e => e = ErrInfra ∨ e = ErrNotAuthorized ∧ member_table (w_db w) !! (g, u) = None
  end.
Proof.
  unfold JoinedAt, missing. rewrite bind_run. unfold try. destruct (query _ w) as [r1 w1] eqn:H1.
  apply query_cases in H1 as [(fs & d & H1 & ->)|(-> & fs & ->)].
  2: { rewrite decide_False by done. intros [= <- _]. by left. }
  unfold GroupJoinedAt in H1. destruct (member_table (w_db w) !! (g, u)) as [mt|] eqn:Hmt; simplify_eq.
  - intros [= <- <-]. eauto.
  - rewrite decide_True by done. intros [= <- _]. by right.
Qed.

Lemma untouched_Locate id : untouched (LocateMessage id).
Proof.
  assert (∀ A (q : M DB A) alt, read_only q → untouched (missing alt (query q))) as Hm.
  { intros A q alt Hq. apply untouched_bind; [auto with world|]. intros []; auto with world. }
  unfold LocateMessage. apply untouched_bind.
  - apply untouched_try, untouched_query. intros d r d'. unfold PrivateMessageParticipants. repeat case_match; by intros [= _ <-].
  - intros [[[f t] at_]|e]; [auto with world|]. destruct (negb _); [auto with world|].
    apply untouched_bind; [|auto with world]. apply Hm. intros d r d'. unfold GroupMessageGroup.
    repeat case_match; by intros [= _ <-].
Qed.

(** [authorizeMessage] lets through exactly those who may read the message; with
    [requireFriends], in a private chat, only friends. *)
Lemma authorize_spec me id b w r w' :
  me ≠ uuid_nil → authorizeMessage me id b w = (r, w') →
  match r with
  | Ok (ref, others) =>
      (∃ m other w1, live_private id (w_db w) m ∧ reads_private me m ∧ ref = private_ref m ∧ others = [other] ∧
         other_side me ref = Some other ∧ w_db w1 = w_db w ∧ (b = true → (frd_AreFriends me other w1).1 = Ok true)) ∨
      (∃ m members w1, live_group id (w_db w) m ∧ reads_group me m (w_db w) ∧ ref = group_ref m ∧
         others = without me members ∧ w_db w1 = w_db w ∧ (grp_Members (uuidBytes (gm_GroupID m)) w1).1 = Ok members)
  | Err e => ¬ visible me id (w_db w) →
      e = ErrInfra ∨ e = ErrMessageNotFound ∨ ∃ g w1, w_db w1 = w_db w ∧ (grp_Members g w1).1 = Err e
  end.
Proof.
  intros Hme. unfold authorizeMessage. rewrite bind_run.
  destruct (LocateMessage id w) as [[ref|e] w1] eqn:Hloc; pose proof (untouched_Locate _ _ _ _ Hloc) as Hdb;
    apply locate_spec in Hloc.
  2: { intros [= <- <-] _. tauto. }
  destruct Hloc as [(m & Hm & ->)|(m & Hm & ->)].
  - rewrite decide_True by done. destruct (other_side me (private_ref m)) as [other|] eqn:Ho.
    2: { intros [= <- <-] _. by right; left. }
    assert (reads_private me m) as Hr.
    { destruct Hm as [_ Hd]. split; [done|]. apply other_side_private in Ho as [[? _]|[? _]]; auto. }
    assert (visible me id (w_db w)) as Hv by (left; eauto).
    destruct b; [|intros [= <- <-]; left; by exists m, other, w1].
    rewrite bind_run. destruct (frd_AreFriends me other w1) as [[ok|e] w2] eqn:Hf.
    2: { intros [= <- <-] Hno. done. }
    destruct ok; intros [= <- <-]; [|done]. left. exists m, other, w1. by rewrite Hf.
  - rewrite decide_False by done. rewrite bind_run. simpl ref_Group.
    destruct (grp_Members (uuidBytes (gm_GroupID m)) w1) as [[members|e] w2] eqn:Hg.
    2: { intros [= <- <-] _. right; right. exists (uuidBytes (gm_GroupID m)), w1. by rewrite Hg. }
    apply (quiet_run _ _ _ _ (quiet_Members _)) in Hg as Hq. destruct Hq as [(_ & _ & _ & _ & Hmt)%tables_eq _].
    destruct (slices_contains members me) eqn:Hin; cbn [negb]; [|intros [= <- <-] _; by right; left].
    rewrite bind_run. unfold try. destruct (JoinedAt _ me w2) as [r3 w3] eqn:Hj. apply joined_spec in Hj.
    rewrite Hmt, Hdb in Hj. destruct r3 as [t|e].
    + destruct Hj as (mt & Hmt1 & ->). change (ref_CreatedAt (group_ref m)) with (gm_CreatedAt m).
      destruct (gm_CreatedAt m <? m_JoinedAt mt) eqn:Hlt; intros [= <- <-].
      * intros _. by right; left.
      * right. exists m, members, w1. rewrite Hg. split_and!; try done.
        split; [apply Hm|]. exists mt. apply Z.ltb_ge in Hlt. done.
    + destruct Hj as [->|[-> _]]; [rewrite decide_False by done|rewrite decide_True by done]; intros [= <- <-]; auto.
Qed.

(** ** Outsiders *)

(** The operations on an existing message. *)
Inductive mop : Type :=
  | MEdit (content : string)
  | MDelete
  | MReact (emoji : string)
  | MUnreact
  | MReactors
  | MReadBy
  | MForward (to : list ForwardTarget).

Definition run_mop (me id : uuid) (op : mop) : M World unit :=
  match op with
  | MEdit content => _ ← EditMessage me id content; mret tt
  | MDelete => DeleteMessage me id
  | MReact emoji => React me id emoji
  | MUnreact => Unreact me id
  | MReactors => _ ← Reactors me id; mret tt
  | MReadBy => _ ← ReadBy me id; mret tt
  | MForward to => _ ← Forward me id to; mret tt
  end.

(** The error of a request that is wrong whatever the message is. *)
Definition precheck (op : mop) : option error :=
  match op with
  | MEdit content =>
    let n := RuneCountInString (TrimSpace content) in
    if (n =? 0) || (n >? maxMessageLen) then Some ErrEmptyMessage else None
  | MReact emoji => match ValidateEmoji emoji with Err e => Some e | Ok _ => None end
  | MForward to => if bool_decide (to = []) || (Z.of_nat (length to) >? MaxForwardTargets) then Some ErrBadForward else None
  | _ => None
  end.

Definition hidden_outcome {A} (op : mop) (w : World) (r : result A) (w' : World) : Prop :=
  chat_tables (w_db w') = chat_tables (w_db w) ∧
  ∃ e, r = Err e ∧
    (precheck op = Some e ∨ e = ErrMessageNotFound ∨ e = ErrInfra ∨
     ∃ g w1, w_db w1 = w_db w ∧ (grp_Members g w1).1 = Err e).

Lemma hidden_bind {A} op me id b (k : messageRef * list uuid → M World A) w r w' :
  me ≠ uuid_nil → ¬ visible me id (w_db w) → (authorizeMessage me id b ≫= k) w = (r, w') →
  hidden_outcome op w r w'.
Proof.
  intros Hme Hno. rewrite bind_run. destruct (authorizeMessage me id b w) as [r1 w1] eqn:Ha.
  pose proof (quiet_run _ _ _ _ (quiet_authorize _ _ _) Ha) as [Ht _]. apply authorize_spec in Ha; [|done].
  destruct r1 as [[ref others]|e].
  - exfalso. apply Hno. destruct Ha as [(m & ? & ? & ? & ? & _)|(m & ? & ? & ? & ? & _)]; [left|right]; eauto.
  - intros [= <- <-]. split; [done|]. exists e. split; [done|]. specialize (Ha Hno). tauto.
Qed.

Lemma hidden_forget {A} op (m : M World A) w r w' :
  (∀ r w', m w = (r, w') → hidden_outcome op w r w') → (_ ← m; mret tt) w = (r, w') → hidden_outcome op w r w'.
Proof.
  intros Hm. rewrite bind_run. destruct (m w) as [r1 w1] eqn:H1. destruct (Hm _ _ eq_refl) as (Ht & e & -> & He).
  intros [= <- <-]. split; [done|]. by exists e.
Qed.

(** C34. What one may not read might as well not exist: for someone who is not a
    participant of the private chat, or was not in the group when the message was
    sent, or if the message is deleted, every operation on the message fails as
    it does for an id that was never used, changing nothing; apart from that only
    the failure of a call, or a request wrong in itself, is reported. *)
Theorem outsiders_learn_nothing (me id : uuid) (op : mop) (w : World) (r : result unit) (w' : World) :
  me ≠ uuid_nil → ¬ visible me id (w_db w) → run_mop me id op w = (r, w') → hidden_outcome op w r w'.
Proof.
  intros Hme Hno. destruct op as [content| |emoji| | | |to]; simpl run_mop;
    try (apply hidden_forget; clear r w'; intros r w'); try by apply hidden_bind.
  - unfold EditMessage. cbv zeta. destruct (_ || _) eqn:Hpre; [|by apply hidden_bind].
    intros [= <- <-]. split; [done|]. eexists. split; [done|]. left. unfold precheck. cbv zeta. by rewrite Hpre.
  - unfold React. rewrite bind_run. unfold lift_result. destruct (ValidateEmoji emoji) as [[]|e] eqn:Hpre.
    + by apply hidden_bind.
    + intros [= <- <-]. split; [done|]. exists e. split; [done|]. left. unfold precheck. by rewrite Hpre.
  - unfold Forward. destruct (_ || _) eqn:Hpre; [|by apply hidden_bind].
    intros [= <- <-]. split; [done|]. eexists. split; [done|]. left. unfold precheck. by rewrite Hpre.
Qed.

(** ** Editing *)

(** A statement that counts the rows it changed, as the repository reports it. *)
Lemma counted (q : M DB Z) (P : DB → Prop) w r w' :
  (∀ r d', q (w_db w) = (r, d') →
     (d' = w_db w ∧ (r = Ok 0 ∨ ∃ e, r = Err e)) ∨ (r = Ok 1 ∧ P d')) →
  (n ← query q; mret (n >? 0)) w = (r, w') →
  (r = Ok true ∧ P (w_db w')) ∨ ((r = Ok false ∨ ∃ e, r = Err e) ∧ w_db w' = w_db w).
Proof.
  intros Hq. rewrite bind_run. destruct (query q w) as [r1 w1] eqn:H1.
  apply query_cases in H1 as [(fs & d & H1 & ->)|(-> & fs & ->)].
  2: { intros [= <- <-]. right. eauto. }
  apply Hq in H1 as [[-> [->|[e ->]]]|[-> HP]]; intros [= <- <-]; simpl; eauto.
Qed.

Definition edited_pm (text : string) (now : time) (m : Message) : Message :=
  mk_Message (Some text) (pm_Parentid m) (pm_FromID m) (pm_ToID m) None (pm_CreatedAt m) (Some (pgTime now)) (pm_Forwarded m).
Definition edited_gm (text : string) (now : time) (m : Groupmessage) : Groupmessage :=
  mk_Groupmessage (Some text) (gm_GroupID m) (gm_FromID m) (gm_ParentID m) (gm_CreatedAt m) None (Some (pgTime now))
    (gm_Searchable m) (gm_Forwarded m).

Lemma edit_private id text now w r w' :
  EditMessage_ TypePrivate id text now w = (r, w') →
  (r = Ok true ∧ ∃ m, live_private id (w_db w) m ∧ w_db w' = set_message id (edited_pm text now m) (w_db w)) ∨
  ((r = Ok false ∨ ∃ e, r = Err e) ∧ w_db w' = w_db w).
Proof.
  unfold EditMessage_. rewrite decide_True by done.
  apply (counted _ (λ d', ∃ m, live_private id (w_db w) m ∧ d' = set_message id (edited_pm text now m) (w_db w))).
  intros r0 d' [?|(m & ? & ? & -> & ->)]%EditPrivateMessage_cases; [by left|right]. split; [done|]. by exists m.
Qed.

Lemma edit_group id text now w r w' :
  EditMessage_ TypePublic id text now w = (r, w') →
  (r = Ok true ∧ ∃ m, (groupmessage (w_db w) !! id = Some m ∧ gm_DeletedAt m = None) ∧
     w_db w' = set_groupmessage id (edited_gm text now m) (w_db w)) ∨
  ((r = Ok false ∨ ∃ e, r = Err e) ∧ w_db w' = w_db w).
Proof.
  unfold EditMessage_. rewrite decide_False by done.
  apply (counted _ (λ d', ∃ m, (groupmessage (w_db w) !! id = Some m ∧ gm_DeletedAt m = None) ∧
                               d' = set_groupmessage id (edited_gm text now m) (w_db w))).
  intros r0 d' [?|(m & ? & ? & -> & ->)]%EditGroupMessage_cases; [by left|right]. split; [done|]. by exists m.
Qed.

(** Announcing a change never fails. *)
Lemma announced {A} targets ev p (a : A) w r w' :
  (push targets ev p ;; mret a) w = (r, w') → r = Ok a ∧ chat_tables (w_db w') = chat_tables (w_db w).
Proof.
  rewrite bind_run. pose proof (push_ok targets ev p w) as Hp. destruct (push _ _ _ w) as [r1 w1] eqn:Hrun.
  apply (quiet_run _ _ _ _ (quiet_push _ _ _)) in Hrun as [Ht _].
  simpl in Hp. subst r1. by intros [= <- <-].
Qed.

(** [d'] is [d] with the text of [me]'s message [id] replaced, within the window
    and, in a private chat, while still friends with the other side. *)
Definition text_edited (me id : uuid) (text : string) (now : time) (d d' : DB) : Prop :=
  message_reactions d' = message_reactions d ∧ group_message_reactions d' = group_message_reactions d ∧
  ((groupmessage d' = groupmessage d ∧ ∃ m w1, live_private id d m ∧ pm_FromID m = Some me ∧
      now - pm_CreatedAt m <= EditWindow ∧
      w_db w1 = d ∧ (frd_AreFriends me (uuidBytes (pm_ToID m)) w1).1 = Ok true ∧
      message d' = <[id := edited_pm text now m]> (message d)) ∨
   (message d' = message d ∧ ∃ m, live_group id d m ∧ gm_FromID m = Some me ∧ reads_group me m d ∧
      now - gm_CreatedAt m <= EditWindow ∧
      groupmessage d' = <[id := edited_gm text now m]> (groupmessage d))).

(** Finding the row again, the tables being as they were. *)
Lemma live_private_tables id d d' m : chat_tables d = chat_tables d' → live_private id d m → live_private id d' m.
Proof. intros (H & _)%tables_eq. unfold live_private. by rewrite H. Qed.

(** What EditMessage left. *)
Lemma EditMessage_outcome (me id : uuid) (content : string) (w : World) (r : result EditedMessage) (w' : World) :
  me ≠ uuid_nil → EditMessage me id content w = (r, w') →
  match r with
  | Err _ => chat_tables (w_db w') = chat_tables (w_db w)
  | Ok em =>
    let text := TrimSpace content in
    em = mk_EditedMessage id text (w_now w) ∧ RuneCountInString text <> 0 ∧ RuneCountInString text <= maxMessageLen ∧
    text_edited me id text (w_now w) (w_db w) (w_db w')
  end.
Proof.
  intros Hme. unfold EditMessage. cbv zeta. destruct (_ || _) eqn:Hlen; [by intros [= <- <-]|].
  apply orb_false_iff in Hlen as [Hn0%Z.eqb_neq Hlen].
  rewrite bind_run. destruct (authorizeMessage me id true w) as [r1 w1] eqn:Ha.
  pose proof (quiet_run _ _ _ _ (quiet_authorize _ _ _) Ha) as [Ht Hnow]. apply authorize_spec in Ha; [|done].
  destruct r1 as [[ref others]|e]; [|by intros [= <- <-]].
  destruct (bool_decide (ref_From ref = me)) eqn:Hfrom; cbn [negb]; [|by intros [= <- <-]].
  apply bool_decide_eq_true in Hfrom. rewrite bind_run. unfold Now, get. rewrite Hnow.
  destruct (_ >? EditWindow) eqn:Hwin; [by intros [= <- <-]|].
  rewrite bind_run. destruct (EditMessage_ _ _ _ _ w1) as [r2 w2] eqn:Hedit.
  pose proof (tables_eq _ _ Ht) as (T1 & T2 & T3 & T4 & _).
  assert ((r2 = Ok true ∧ text_edited me id (TrimSpace content) (w_now w) (w_db w) (w_db w2)) ∨
          ((r2 = Ok false ∨ ∃ e, r2 = Err e) ∧ chat_tables (w_db w2) = chat_tables (w_db w))) as Hrow.
  { destruct Ha as [(m & other & wf & Hm & Hr & -> & -> & Ho & Hwf & Hf)|(m & members & wf & Hm & Hr & -> & _)].
    - apply edit_private in Hedit as [[-> (m' & Hm' & Hdb)]|[Hr2 Hdb]]; [left|right; by rewrite Hdb].
      apply (live_private_tables _ _ _ _ Ht) in Hm'. assert (m' = m) as -> by (unfold live_private in *; naive_solver).
      simpl in Hfrom. symmetry in Hfrom. apply uuidBytes_some in Hfrom; [|done].
      assert (other = uuidBytes (pm_ToID m)) as ->.
      { unfold other_side in Ho. rewrite decide_True in Ho by (simpl; by rewrite Hfrom). by simplify_eq. }
      unfold text_edited. rewrite Hdb. simpl. rewrite T1, T2, T3, T4. split; [done|]. split; [done|]. split; [done|].
      left. split; [done|]. exists m, wf. split_and!; auto. simpl in Hwin. lia.
    - apply edit_group in Hedit as [[-> (m' & Hm' & Hdb)]|[Hr2 Hdb]]; [left|right; by rewrite Hdb].
      rewrite T2 in Hm'. assert (m' = m) as -> by (unfold live_group in *; naive_solver).
      simpl in Hfrom. symmetry in Hfrom. apply uuidBytes_some in Hfrom; [|done].
      unfold text_edited. rewrite Hdb. simpl. rewrite T1, T2, T3, T4. split; [done|]. split; [done|]. split; [done|].
      right. split; [done|]. exists m. split_and!; auto. simpl in Hwin. lia. }
  destruct Hrow as [[-> Hok]|[[->|[e ->]] Hsame]]; cbn [negb]; [|by intros [= <- <-]..].
  intros [-> Hfin]%announced. split; [done|]. split; [done|]. split; [lia|].
  pose proof (tables_eq _ _ Hfin) as (F1 & F2 & F3 & F4 & _). unfold text_edited. by rewrite F1, F2, F3, F4.
Qed.

(** Only the author changes a text, and only for 15 minutes: when
    EditMessage succeeds the new text is trimmed, of 1 to 500 characters, the
    message was the caller's own, not deleted, sent at most EditWindow ago, and
    readable by the caller (in a private chat: still friends); exactly its text
    and edit time change.  When it fails nothing changes. *)
Theorem edit_rule (me id : uuid) (content : string) (w : World) (r : result EditedMessage) (w' : World) :
  me ≠ uuid_nil → EditMessage me id content w = (r, w') →
  match r with
  | Err _ => chat_tables (w_db w') = chat_tables (w_db w)
  | Ok em =>
    let text := TrimSpace content in
    em = mk_EditedMessage id text (w_now w) ∧ RuneCountInString text <> 0 ∧ RuneCountInString text <= maxMessageLen ∧
    text_edited me id text (w_now w) (w_db w) (w_db w')
  end.
Proof. apply EditMessage_outcome. Qed.

(** ** Deleting *)

Definition deleted_pm (now : time) (m : Message) : Message :=
  mk_Message None (pm_Parentid m) (pm_FromID m) (pm_ToID m) (Some (pgTime now)) (pm_CreatedAt m) (pm_EditedAt m) (pm_Forwarded m).
Definition deleted_gm (now : time) (m : Groupmessage) : Groupmessage :=
  mk_Groupmessage None (gm_GroupID m) (gm_FromID m) (gm_ParentID m) (gm_CreatedAt m) (Some (pgTime now)) (gm_EditedAt m)
    (gm_Searchable m) (gm_Forwarded m).

(** [d'] is [d] with message [id] wiped and its reactions gone: [me]'s own, or in
    a group one that the group lets [me] delete. *)
Definition wiped (me id : uuid) (now : time) (d d' : DB) : Prop :=
  (groupmessage d' = groupmessage d ∧ group_message_reactions d' = group_message_reactions d ∧
   ∃ m, live_private id d m ∧ pm_FromID m = Some me ∧
     message d' = <[id := deleted_pm now m]> (message d) ∧ message_reactions d' = drop_reactions id (message_reactions d)) ∨
  (message d' = message d ∧ message_reactions d' = message_reactions d ∧
   ∃ m, live_group id d m ∧ reads_group me m d ∧
     (gm_FromID m = Some me ∨ ∃ w1, chat_tables (w_db w1) = chat_tables d ∧
        (grp_CanDeleteMessage (uuidBytes (gm_GroupID m)) me (uuidBytes (gm_FromID m)) w1).1 = Ok true) ∧
     groupmessage d' = <[id := deleted_gm now m]> (groupmessage d) ∧
     group_message_reactions d' = drop_reactions id (group_message_reactions d)).

Lemma wiped_tables me id now d d1 d' : chat_tables d' = chat_tables d1 → wiped me id now d d1 → wiped me id now d d'.
Proof. intros (H1 & H2 & H3 & H4 & _)%tables_eq. unfold wiped. by rewrite H1, H2, H3, H4. Qed.

Lemma may_delete_spec me ref w r w' :
  may_delete me ref w = (r, w') →
  match r with
  | Ok _ => ref_From ref = me ∨
      (ref_Kind ref = TypePublic ∧ (grp_CanDeleteMessage (ref_Group ref) me (ref_From ref) w).1 = Ok true)
  | Err _ => True
  end.
Proof.
  unfold may_delete. case_decide as Hf; [by intros [= <- <-]; left|].
  case_bool_decide as Hk; cbn [negb]; [|by intros [= <- <-]].
  rewrite bind_run. destruct (grp_CanDeleteMessage _ _ _ w) as [[[]|e] w1]; intros [= <- <-]; auto.
Qed.

(** The statement on the row [ref] stands for. *)
Lemma delete_row me id now ref w0 w r w' :
  me ≠ uuid_nil → chat_tables (w_db w) = chat_tables (w_db w0) →
  (∃ m, live_private id (w_db w0) m ∧ ref = private_ref m ∧ ref_From ref = me) ∨
  (∃ m, live_group id (w_db w0) m ∧ reads_group me m (w_db w0) ∧ ref = group_ref m ∧
     (ref_From ref = me ∨ ∃ w1, chat_tables (w_db w1) = chat_tables (w_db w0) ∧
        (grp_CanDeleteMessage (ref_Group ref) me (ref_From ref) w1).1 = Ok true)) →
  DeleteMessage_ (ref_Kind ref) id now w = (r, w') →
  (r = Ok true ∧ wiped me id now (w_db w0) (w_db w')) ∨
  ((r = Ok false ∨ ∃ e, r = Err e) ∧ chat_tables (w_db w') = chat_tables (w_db w0)).
Proof.
  intros Hme Ht Href. pose proof (tables_eq _ _ Ht) as (T1 & T2 & T3 & T4 & _). unfold DeleteMessage_.
  destruct Href as [(m & Hm & -> & Hfrom)|(m & Hm & Hr & -> & Hmay)].
  - simpl ref_Kind. rewrite decide_True by done. intros Hq.
    simpl in Hfrom. symmetry in Hfrom. apply uuidBytes_some in Hfrom; [|done].
    apply (counted _ (wiped me id now (w_db w0))) in Hq; [|clear Hq r w'].
    + destruct Hq as [?|[? ->]]; [by left|by right].
    + intros r0 d' [?|(m' & Hm' & Hd' & -> & ->)]%DeletePrivateMessage_cases; [by left|right]. split; [done|].
      rewrite T1 in Hm'. assert (m' = m) as -> by (unfold live_private in *; naive_solver).
      left. unfold wiped. simpl. rewrite T1, T2, T3, T4. eauto 10.
  - simpl ref_Kind. rewrite decide_False by done. intros Hq. simpl ref_Group in Hmay. simpl ref_From in Hmay.
    apply (counted _ (wiped me id now (w_db w0))) in Hq; [|clear Hq r w'].
    + destruct Hq as [?|[? ->]]; [by left|by right].
    + intros r0 d' [?|(m' & Hm' & Hd' & -> & ->)]%DeleteGroupMessage_cases; [by left|right]. split; [done|].
      rewrite T2 in Hm'. assert (m' = m) as -> by (unfold live_group in *; naive_solver).
      right. simpl. rewrite T1, T2, T3, T4. split; [done|]. split; [done|]. exists m. split_and!; auto.
      destruct Hmay as [Hf|?]; [left|by right]. symmetry in Hf. by apply uuidBytes_some in Hf.
Qed.

(** After the row, the attachments and the announcement: nothing that fails. *)
Lemma expired_and_told m id targets ev p w r w' :
  csv_media = m →
  ((match m with Some m => _ ← try (md_ExpireMessage m id); mret tt | None => mret tt end) ;; push targets ev p) w = (r, w') →
  r = Ok tt ∧ chat_tables (w_db w') = chat_tables (w_db w).
Proof.
  intros Hm Hrun.
  assert (quiet (match m with Some m => _ ← try (md_ExpireMessage m id); mret tt | None => mret tt end)) as Hq.
  { destruct m as [m|]; [|quiet]. destruct (quiet_media m Hm) as (_ & _ & ? & _). quiet. }
  split; [|eapply (quiet_run _ _ _ _ (leaves_bind _ _ _ Hq (λ _, quiet_push _ _ _)) Hrun)].
  revert Hrun. rewrite bind_run.
  assert (∀ w, (match m with Some m => _ ← try (md_ExpireMessage m id); mret tt | None => mret tt end) w =
               (Ok tt, ((match m with Some m => _ ← try (md_ExpireMessage m id); mret tt | None => mret tt end) w).2)) as Hok.
  { intros w0. destruct m as [m|]; [|done]. rewrite bind_run. unfold try. by destruct (md_ExpireMessage m id w0). }
  rewrite Hok. intros Hp. match type of Hp with push _ _ _ ?w1 = _ => pose proof (push_ok targets ev p w1) as Hpo end.
  rewrite Hp in Hpo. exact Hpo.
Qed.

(** What DeleteMessage left. *)
Lemma DeleteMessage_outcome (me id : uuid) (w : World) (r : result unit) (w' : World) :
  me ≠ uuid_nil → DeleteMessage me id w = (r, w') →
  match r with
  | Ok _ => wiped me id (w_now w) (w_db w) (w_db w')
  | Err _ => chat_tables (w_db w') = chat_tables (w_db w)
  end.
Proof.
  intros Hme. unfold DeleteMessage. rewrite bind_run. destruct (authorizeMessage me id false w) as [r1 w1] eqn:Ha.
  pose proof (quiet_run _ _ _ _ (quiet_authorize _ _ _) Ha) as [Ht Hnow]. apply authorize_spec in Ha; [|done].
  destruct r1 as [[ref others]|e]; [|by intros [= <- <-]].
  rewrite bind_run. destruct (may_delete me ref w1) as [r2 w2] eqn:Hdel.
  pose proof (quiet_run _ _ _ _ (quiet_may_delete _ _) Hdel) as [Ht2 Hnow2]. apply may_delete_spec in Hdel.
  destruct r2 as [[]|e]; [|intros [= <- <-]; congruence].
  rewrite bind_run. unfold Now, get. rewrite Hnow2, Hnow.
  rewrite bind_run. destruct (DeleteMessage_ _ _ _ w2) as [r3 w3] eqn:Hrow.
  apply (delete_row me _ _ _ w) in Hrow; [|done|congruence|].
  - destruct Hrow as [[-> Hok]|[[->|[e ->]] Hsame]]; cbn [negb]; [|by intros [= <- <-]..].
    intros Htold. apply expired_and_told in Htold as [-> Htab]; [|done]. by eapply wiped_tables.
  - destruct Ha as [(m & other & wf & Hm & Hr & -> & -> & _)|(m & members & wf & Hm & Hr & -> & _)].
    + left. exists m. split_and!; try done. destruct Hdel as [|[[=] _]]. done.
    + right. exists m. split_and!; try done. destruct Hdel as [|[_ Hdel]]; [by left|right]. exists w1. by split.
Qed.

(** Who deletes what: when DeleteMessage succeeds, the message was the
    caller's own, or a group message the group's roles let the caller delete; its
    text is wiped, its reactions are gone, the row stays as a placeholder and
    nothing else changes.  When it fails nothing changes. *)
Theorem delete_rule (me id : uuid) (w : World) (r : result unit) (w' : World) :
  me ≠ uuid_nil → DeleteMessage me id w = (r, w') →
  match r with
  | Ok _ => wiped me id (w_now w) (w_db w) (w_db w')
  | Err _ => chat_tables (w_db w') = chat_tables (w_db w)
  end.
Proof. apply DeleteMessage_outcome. Qed.
End messages.
