(* ===== verification/Admin_Props.v ===== *)
(** * Admin_Props: a ban takes effect everywhere *)

From S2P Require Import Prelude GoLib Types Users_Model Db Sql_Groups Sql_Users Sql_Accounts Sql_Admin Groups_Model World Moves Groups_Repo Groups_Refine Groups_Props Sessions Auth_Deletion Auth_Rules Chat_Service Chat_Repo Chat_Access Admin.

#[local] Open Scope Z_scope.

(** ** One group *)

(** A banned member is out; whoever is alone in a group stays. *)
Definition ban_leaves (u : uuid) (ag : AGroup) : option AGroup :=
  if decide (size (ag_members ag) ≤ 1)%nat then Some ag else Auth_Deletion.without u ag.

Lemma groups_ok_step g o d d' : groups_ok d → group_is o g d' → (∀ g', g' ≠ g → same_group g' d d') →
  groups_ok d' ∧ abs d' g = o.
Proof.
  intros [Hrows Hmem] Hg Hother. split; [split|].
  - intros g' row Hrow. destruct (decide (g' = g)) as [->|Hne].
    + destruct o as [ag|]; simpl in Hg; [|destruct Hg; congruence]. destruct Hg as (Hag & Hm & row' & Hrow' & Hmax & Hcnt).
      rewrite Hrow in Hrow'. injection Hrow' as <-. rewrite Hmax, Hm. by destruct ag.
    + destruct (Hother g' Hne) as [H1 H2]. rewrite H2. apply Hrows. by rewrite <- H1.
  - intros g' v [m Hm]. destruct (decide (g' = g)) as [->|Hne].
    + rewrite <- lookup_members_of in Hm. destruct o as [ag|]; simpl in Hg.
      * destruct Hg as (_ & _ & row & Hrow & _). by exists row.
      * destruct Hg as [_ Hg]. by rewrite Hg, lookup_empty in Hm.
    + destruct (Hother g' Hne) as [H1 H2]. rewrite H1. apply (Hmem g' v). rewrite <- lookup_members_of, <- H2, lookup_members_of. by exists m.
  - unfold abs. destruct o as [ag|]; simpl in Hg.
    + destruct Hg as (_ & -> & row & -> & -> & _). by destruct ag.
    + by destruct Hg as [-> _].
Qed.

Lemma remove_member_of g u d g' : members_of (with_member_table (delete (g, u) (member_table d)) d) g' =
  if decide (g' = g) then delete u (members_of d g) else members_of d g'.
Proof.
  apply members_of_ext. intros v; simpl. destruct (decide (g' = g)) as [->|Hne].
  - destruct (decide (v = u)) as [->|]; [by rewrite !lookup_delete_eq|]. rewrite !lookup_delete_ne by congruence. by rewrite lookup_members_of.
  - rewrite lookup_delete_ne by congruence. by rewrite lookup_members_of.
Qed.

Lemma recount_only g w x w' : query (RecountGroupMembers g) w = (Ok x, w') → ∀ g', g' ≠ g → same_group g' (w_db w) (w_db w').
Proof.
  intros (fs & d & Hq & ->)%query_ok g' Hne. simpl. unfold RecountGroupMembers in Hq. destruct (negb _); [done|].
  injection Hq as _ <-. split; [|by apply members_of_table]. unfold update_group. simpl. by rewrite lookup_alter_ne.
Qed.

(** Taking [u] out of [g] and counting. *)
Lemma remove_and_count g u w x w' :
  (query (DeleteMemFromGroup g u) ;; query (RecountGroupMembers g)) w = (Ok x, w') →
  (∀ row, chat_groups (w_db w) !! g = Some row → ag_ok (mk_AGroup (g_MaxMember row) (delete u (members_of (w_db w) g))) →
    group_is (Some (mk_AGroup (g_MaxMember row) (delete u (members_of (w_db w) g)))) g (w_db w')) ∧
  ∀ g', g' ≠ g → same_group g' (w_db w) (w_db w').
Proof.
  intros H. run_inv. apply query_ok in Hrun as (fs & d & [= _ <-] & ->).
  pose proof (recount_only _ _ _ _ H) as Hother. apply recount_ok in H as [_ Hrec]. cbn [w_db with_db with_faults] in *. split.
  - intros row Hrow Hag. destruct (Hrec g) as [Hm Hr]. rewrite remove_member_of, decide_True in Hm, Hr by done.
    cbn [chat_groups with_member_table] in Hr. rewrite Hrow in Hr.
    destruct Hr as (row' & Hrow' & Hmax & Hyes & _). split; [done|]. split; [done|]. exists row'. split_and!; [done|done|by apply Hyes].
  - intros g' Hne. eapply same_group_trans; [|by apply Hother]. split; [done|]. by rewrite remove_member_of, decide_False.
Qed.

Section ban.
Context {ulib : UuidLib} {auth : AuthConfig} {pg : PgText} {fmt : TimeFormat}.

Lemma leave_group_ok u g row m w x w' :
  groups_ok (w_db w) → chat_groups (w_db w) !! g = Some row → members_of (w_db w) g !! u = Some m → 1 < g_CurrentMember row →
  leave_group u (mk_GroupMembershipsOfRow g (m_Role m) (g_CurrentMember row)) w = (Ok x, w') →
  group_is (Auth_Deletion.without u (ag_of (w_db w) g row)) g (w_db w') ∧ ∀ g', g' ≠ g → same_group g' (w_db w) (w_db w').
Proof.
  intros Hok Hrow Hm Hcnt. destruct (groups_ok_row _ _ _ Hok Hrow) as [Hag Hsize]. unfold leave_group.
  intros (fs & fs' & w2 & H & ->)%BeginFunc_ok. cbn [w_db with_faults mo_GroupID mo_Role] in *.
  unfold Auth_Deletion.without, a_leave, ag_of. cbn [ag_members ag_max]. rewrite Hm. rewrite bind_run in H.
  destruct (decide (m_Role m = RoleAdmin)) as [Hadm|Hnot].
  - rewrite decide_True by done. rewrite bind_run in H. unfold try in H.
    destruct (query (EarliestOtherMember g u) _) as [r1 w1] eqn:H1.
    pose proof (heir_agrees (w_db w) g u row Hrow) as Hheir. change (NextAdmin g u) with (EarliestOtherMember g u) in Hheir.
    destruct (a_heir u _) as [h|] eqn:Hh.
    2: { apply heir_none in Hh. simpl in Hh. assert (size (delete u (members_of (w_db w) g)) = 0)%nat as E by (by rewrite Hh).
         rewrite map_size_delete_Some in E by (by exists m). lia. }
    apply query_cases in H1 as [(fs1 & d & Hq & ->)|(-> & fs1 & ->)]; [|by rewrite decide_False in H].
    cbn [w_db with_faults] in Hq. rewrite Hq in Hheir. simpl in Hheir. subst r1.
    assert (d = w_db w) as -> by (unfold EarliestOtherMember in Hq; by injection Hq).
    destruct (heir_other _ _ _ Hh) as [Hne Hin]. simpl in Hin. rewrite bind_run in H.
    destruct (query (PromoteToLeader g h) _) as [[x0|e0] w3] eqn:H3; [|done].
    apply query_ok in H3 as (fs3 & d3 & [= _ <-] & ->). unfold mret at 1, M_ret at 1 in H.
    apply remove_and_count in H as [Hg Hother]. cbn [w_db with_db with_faults chat_groups with_member_table] in *.
    rewrite members_of_alter, decide_True in Hg by done. split.
    + apply Hg; [done|]. apply (ag_ok_handover u h _ Hag); simpl; try done. intros m' Hm'. congruence.
    + intros g' Hg'. eapply same_group_trans; [|by apply Hother]. split; [done|]. by rewrite members_of_alter, decide_False.
  - unfold mret at 1, M_ret at 1 in H. apply remove_and_count in H as [Hg Hother]. cbn [w_db with_faults] in *.
    split; [|done]. apply Hg; [done|]. apply (ag_ok_remove u _ Hag). simpl. intros m' Hm'. congruence.
Qed.

(** ** All the groups *)

(** The row read before still says what is in the tables. *)
Definition row_valid (u : uuid) (d : DB) (r : GroupMembershipsOfRow) : Prop := ∃ row m,
  chat_groups d !! mo_GroupID r = Some row ∧ members_of d (mo_GroupID r) !! u = Some m ∧
  r = mk_GroupMembershipsOfRow (mo_GroupID r) (m_Role m) (g_CurrentMember row).

Lemma row_valid_same u d d' r : same_group (mo_GroupID r) d d' → row_valid u d r → row_valid u d' r.
Proof. intros [H1 H2] (row & m & Hrow & Hm & Hr). exists row, m. by rewrite H1, H2. Qed.

Lemma memberships u w l w' : query (GroupMembershipsOf u) w = (Ok l, w') → w_db w' = w_db w ∧ NoDup (mo_GroupID <$> l) ∧
  (∀ r, r ∈ l → row_valid u (w_db w) r) ∧
  ∀ g row m, chat_groups (w_db w) !! g = Some row → members_of (w_db w) g !! u = Some m → g ∈ mo_GroupID <$> l.
Proof.
  intros (fs & d & [= Hl <-] & ->)%query_ok. cbn [w_db with_db with_faults]. split; [done|]. subst l.
  set (sel := select _ _). assert (∀ k m, (k, m) ∈ sel ↔ member_table (w_db w) !! k = Some m ∧ k.2 = u) as Hsel.
  { intros k m. unfold sel. rewrite elem_of_select. by rewrite bool_decide_eq_true. }
  split_and!.
  - assert (NoDup (fst ∘ fst <$> sel)) as Hnd.
    { apply NoDup_fmap_2_strong; [|apply NoDup_select]. intros [[g1 u1] m1] [[g2 u2] m2] [H1 E1]%Hsel [H2 E2]%Hsel.
      simpl in *. subst. intros ->. congruence. }
    clear Hsel. induction sel as [|[[g v] m] sel IH]; [constructor|]. simpl in *. apply NoDup_cons in Hnd as [Hg Hnd].
    destruct (chat_groups (w_db w) !! g) as [row|]; simpl; [|by apply IH]. apply NoDup_cons. split; [|by apply IH].
    intros Hin. apply Hg. apply list_elem_of_fmap in Hin as (r & -> & Hr). apply list_elem_of_omap in Hr as ([[g' v'] m'] & Hk & Hr).
    simpl in Hr. destruct (chat_groups (w_db w) !! g') as [row'|]; [|done]. injection Hr as <-. simpl.
    apply list_elem_of_fmap. by exists ((g', v'), m').
  - intros r. rewrite list_elem_of_omap. intros ([[g v] m] & [Hk Hv]%Hsel & Hr). simpl in *. subst v.
    destruct (chat_groups (w_db w) !! g) as [row|] eqn:Hrow; [|done]. injection Hr as <-. simpl.
    exists row, m. rewrite lookup_members_of. by split_and!.
  - intros g row m Hrow Hm. rewrite lookup_members_of in Hm. apply list_elem_of_fmap.
    exists (mk_GroupMembershipsOfRow g (m_Role m) (g_CurrentMember row)). split; [done|]. apply list_elem_of_omap.
    exists ((g, u), m). split; [by apply Hsel|]. simpl. by rewrite Hrow.
Qed.

(** The groups are as they were. *)
Definition groups_same : relation World := λ w w',
  chat_groups (w_db w') = chat_groups (w_db w) ∧ member_table (w_db w') = member_table (w_db w).
#[export] Instance groups_same_preorder : PreOrder groups_same.
Proof. split; [by intros w|]. intros w1 w2 w3 [] []. split; congruence. Qed.
#[export] Instance groups_same_blind : Blind groups_same.
Proof. by split. Qed.

Lemma groups_same_group w w' g : groups_same w w' → same_group g (w_db w) (w_db w').
Proof. intros [H1 H2]. split; [by rewrite H1|by apply members_of_table]. Qed.

Lemma groups_query {A} (q : M DB A) :
  (∀ d, chat_groups (q d).2 = chat_groups d ∧ member_table (q d).2 = member_table d) → moves groups_same (query q).
Proof. intros Hq. apply (moves_query _). intros w. apply (Hq (w_db w)). Qed.
#[local] Hint Extern 2 (moves groups_same NewV7) => apply (moves_NewV7 _) : moves.
#[local] Hint Extern 2 (moves groups_same (io _)) => (apply (moves_io _); by intros w) : moves.

Lemma groups_Log a b c d e : moves groups_same (Log a b c d e).
Proof. unfold Log, nowUTC. walk_program. apply groups_query. intros d'. unfold LogAdminAction. by repeat case_match. Qed.
Lemma groups_changed g : moves groups_same (changed g).
Proof. unfold changed, Versioned.Invalidate. walk_program. Qed.
Lemma groups_bansChanged u : moves groups_same (bansChanged u).
Proof. by intros w. Qed.
Lemma groups_EndSessions u : moves groups_same (EndSessions u).
Proof.
  unfold EndSessions, Revoke.RevokeAll, Revoke.set_recent, Disconnect, ForgetDevices.
  walk_program; first [apply groups_query; by intros d|by intros w].
Qed.

Lemma groups_ok_same w w' : groups_same w w' → groups_ok (w_db w) → groups_ok (w_db w').
Proof.
  intros S [Hrows Hmem]. split.
  - intros g row Hrow. destruct (groups_same_group _ _ g S) as [H1 H2]. rewrite H2. apply Hrows. congruence.
  - destruct S as [S1 S2]. rewrite S1, S2. exact Hmem.
Qed.

Lemma users_EndSessions u : leaves (λ w, users (w_db w)) (EndSessions u).
Proof.
  unfold EndSessions, Revoke.RevokeAll, Revoke.set_recent, Disconnect, ForgetDevices.
  repeat (apply leaves_bind; [|intros ?]); try (by intros w); apply leaves_io_blind; try done; by intros w.
Qed.

(** What a ban leaves of the accounts once the sessions are ended. *)
Definition account_view (w : World) :=
  (users (w_db w), refresh_tokens (w_db w), user_devices (w_db w), w_revocations w, w_now w, w_log w).

Lemma accounts_query {A} (q : M DB A) :
  (∀ d, users (q d).2 = users d ∧ refresh_tokens (q d).2 = refresh_tokens d ∧ user_devices (q d).2 = user_devices d) →
  leaves account_view (query q).
Proof.
  intros Hq. apply leaves_io_blind; [done|]. intros w. unfold on_db, account_view. specialize (Hq (w_db w)).
  destruct (q (w_db w)) as [r d]. simpl in *. destruct Hq as (-> & -> & ->). done.
Qed.

Lemma accounts_BeginFunc {A} (fn : M World A) : leaves account_view fn → leaves account_view (BeginFunc fn).
Proof.
  intros Hfn w. unfold BeginFunc.
  assert (∀ w, account_view (io (mret tt) w).2 = account_view w ∧ w_db (io (mret tt) w).2 = w_db w) as Hio.
  { intros w'. unfold io; simpl. by destruct (w_faults w') as [|[] fs]. }
  assert (∀ w1 w2, account_view w2 = account_view w1 → account_view (with_db (w_db w1) w2) = account_view w1) as Hback.
  { intros w1 w2. unfold account_view. simpl. congruence. }
  destruct (Hio w) as [H1 D1]. destruct (io (mret tt) w) as [[[]|e] w1]; simpl in *; [|done].
  specialize (Hfn w1). destruct (fn w1) as [[a|e] w2]; simpl in *.
  - destruct (Hio w2) as [H2 _]. destruct (io (mret tt) w2) as [[[]|e] w3]; simpl in *; [congruence|].
    rewrite <- H1. apply Hback. congruence.
  - rewrite <- H1. apply Hback. congruence.
Qed.

Lemma accounts_leave_group u m : leaves account_view (leave_group u m).
Proof.
  apply accounts_BeginFunc. apply leaves_bind.
  - case_match; [|apply leaves_ret]. apply leaves_bind; [apply leaves_try, leaves_read; [done|by apply read_only_pure]|].
    intros [next|e0]; [|case_match; [apply leaves_ret|apply leaves_throw]].
    apply leaves_bind; [by apply accounts_query|intros; apply leaves_ret].
  - intros []; [apply leaves_ret|]. apply leaves_bind; [by apply accounts_query|]. intros _. apply accounts_query.
    intros d. unfold RecountGroupMembers. by destruct (negb _).
Qed.

Lemma accounts_Log a b c d e : leaves account_view (Log a b c d e).
Proof.
  unfold Log, nowUTC. apply leaves_bind; [apply leaves_try; intros w; unfold NewV7; by destruct (w_ids w)|]. intros r.
  apply leaves_bind; [apply leaves_bind; [apply leaves_now|intros; apply leaves_ret]|]. intros now.
  apply leaves_bind; [|intros; apply leaves_ret]. apply leaves_try, accounts_query. intros d'. unfold LogAdminAction. by repeat case_match.
Qed.

Lemma accounts_changed g : leaves account_view (changed g).
Proof. apply leaves_bind; [apply leaves_try, leaves_io_blind; [done|by intros w]|intros; apply leaves_ret]. Qed.

Lemma accounts_for_each {A} (l : list A) f : (∀ a, leaves account_view (f a)) → leaves account_view (for_each l f).
Proof. intros Hf. induction l as [|a l IH]; [apply leaves_ret|]. apply leaves_bind; [apply Hf|intros []; exact IH]. Qed.

Lemma accounts_leaveGroups u : leaves account_view (leaveGroups u).
Proof.
  apply leaves_bind; [apply leaves_read; [done|by apply read_only_pure]|]. intros l. apply accounts_for_each. intros m.
  destruct (_ <=? 1); [apply leaves_ret|]. apply leaves_bind; [apply accounts_leave_group|]. intros _.
  apply leaves_bind; [apply accounts_changed|]. intros _. apply accounts_Log.
Qed.

(** ** Every group of the user *)

Lemma leave_row_ok u r w x w' : groups_ok (w_db w) → row_valid u (w_db w) r →
  (if mo_CurrentMember r <=? 1 then mret tt
   else leave_group u r ;; changed (mo_GroupID r) ;; Log uuid_nil "ban_removed_from_group" u (mo_GroupID r) EmptyString) w = (Ok x, w') →
  groups_ok (w_db w') ∧ abs (w_db w') (mo_GroupID r) = (abs (w_db w) (mo_GroupID r) ≫= ban_leaves u) ∧
  ∀ g, g ≠ mo_GroupID r → same_group g (w_db w) (w_db w').
Proof.
  intros Hok (row & m & Hrow & Hm & Hr) H. destruct (groups_ok_row _ _ _ Hok Hrow) as [Hag Hsize].
  assert (mo_CurrentMember r = g_CurrentMember row) as Hcnt by (by rewrite Hr).
  rewrite (abs_row _ _ _ Hrow). cbn [mbind option_bind]. unfold ban_leaves. cbn [ag_members].
  destruct (mo_CurrentMember r <=? 1) eqn:Hle.
  - injection H as _ <-. rewrite decide_True by lia. rewrite (abs_row _ _ _ Hrow). split_and!; [done|done|]. intros g _. apply same_group_refl.
  - rewrite decide_False by lia. run_inv. rewrite Hr in Hrun. apply (leave_group_ok _ _ row m) in Hrun as [Hg Hother]; [|done..|lia].
    run_of @changed Hc. pose proof (moves_at _ _ _ _ _ (groups_changed _) Hc) as S1. pose proof (moves_at _ _ _ _ _ (groups_Log _ _ _ _ _) H) as S2.
    assert (groups_same s w') as S by (by etrans).
    pose proof (groups_same_group _ _ (mo_GroupID r) S) as Hsame. destruct (groups_ok_step _ _ _ _ Hok Hg Hother) as [Hok1 Habs].
    split; [|split].
    + by apply (groups_ok_same _ _ S).
    + change (mk_AGroup (g_MaxMember row) (members_of (w_db w) (mo_GroupID r))) with (ag_of (w_db w) (mo_GroupID r) row). rewrite <- Habs. destruct Hsame as [H1 H2]. unfold abs. by rewrite H1, H2.
    + intros g Hne. eapply same_group_trans; [by apply Hother|by apply groups_same_group].
Qed.

Lemma leave_rows_ok u l w x w' : groups_ok (w_db w) → NoDup (mo_GroupID <$> l) → (∀ r, r ∈ l → row_valid u (w_db w) r) →
  for_each l (λ m, if mo_CurrentMember m <=? 1 then mret tt
                   else leave_group u m ;; changed (mo_GroupID m) ;; Log uuid_nil "ban_removed_from_group" u (mo_GroupID m) EmptyString) w
    = (Ok x, w') →
  groups_ok (w_db w') ∧ ∀ g, (g ∈ mo_GroupID <$> l → abs (w_db w') g = (abs (w_db w) g ≫= ban_leaves u)) ∧
                             (g ∉ mo_GroupID <$> l → abs (w_db w') g = abs (w_db w) g).
Proof.
  revert w. induction l as [|r l IH]; intros w Hok Hnd Hvalid H.
  { injection H as _ <-. split; [done|]. intros g. split; [set_solver|done]. }
  cbn [fmap list_fmap] in Hnd. apply NoDup_cons in Hnd as [Hr Hnd]. cbn [for_each] in H. run_inv.
  apply leave_row_ok in Hrun as (Hok1 & Habs1 & Hother1); [|done|by apply Hvalid; left].
  destruct (IH _ Hok1 Hnd) as [Hok' Hall]; [|exact H|].
  { intros r' Hr'. eapply row_valid_same; [|by apply Hvalid; right]. apply Hother1. intros E. apply Hr. rewrite <- E.
    by apply list_elem_of_fmap_2. }
  split; [done|]. assert (∀ g, g ≠ mo_GroupID r → abs (w_db s) g = abs (w_db w) g) as Habs.
  { intros g Hne. destruct (Hother1 g Hne) as [H1 H2]. unfold abs. by rewrite H1, H2. }
  intros g. cbn [fmap list_fmap]. destruct (Hall g) as [Hin Hout]. split.
  - intros [->|Hg]%elem_of_cons; [by rewrite Hout|]. rewrite Hin by done. rewrite Habs; [done|]. by intros ->.
  - intros [Hne Hg]%not_elem_of_cons. by rewrite Hout, Habs.
Qed.

Lemma leaveGroups_ok u w x w' : groups_ok (w_db w) → leaveGroups u w = (Ok x, w') →
  groups_ok (w_db w') ∧ ∀ g, abs (w_db w') g =
    (abs (w_db w) g ≫= λ ag, if decide (is_Some (ag_members ag !! u)) then ban_leaves u ag else Some ag).
Proof.
  intros Hok H. unfold leaveGroups in H. run_inv. apply memberships in Hrun as (D & Hnd & Hvalid & Hall).
  rewrite <- D in Hok, Hvalid, Hall. apply leave_rows_ok in H as [Hok' H]; [|done..]. split; [done|]. intros g. rewrite <- D.
  destruct (H g) as [Hin Hout]. destruct (chat_groups (w_db s) !! g) as [row|] eqn:Hrow.
  - rewrite (abs_row _ _ _ Hrow) in *. cbn [mbind option_bind ag_members] in *. case_decide as Hu.
    + destruct Hu as [m Hm]. by apply Hin, (Hall g row m).
    + apply Hout. intros (r & -> & Hr)%list_elem_of_fmap. destruct (Hvalid r Hr) as (row' & m & _ & Hm & _). apply Hu. by exists m.
  - assert (abs (w_db s) g = None) as E by (unfold abs; by rewrite Hrow). rewrite E in *. apply Hout.
    intros (r & -> & Hr)%list_elem_of_fmap. destruct (Hvalid r Hr) as (row' & m & Hrow' & _). congruence.
Qed.

(** C13. A ban takes effect everywhere.  Only someone else, who is no admin, can be banned;
    when it succeeds the account is marked with the reason and the end and no other account
    changes, every session and phone of theirs is cut off, every group that has other
    members goes on without them, led by the heir that leaving names if they led it, a group
    they are alone in stays, every group stays well-formed, and the chat no longer trusts
    the bans it had cached. *)
Theorem ban_takes_effect admin target reason until w x w' :
  groups_ok (w_db w) → Ban admin target reason until w = (Ok x, w') →
  target ≠ admin ∧
  (∃ u, users (w_db w) !! target = Some u ∧ u_is_admin u = false ∧
     users (w_db w') = <[target := set_ban (Some (pgTime (w_now w))) (pgTime <$> until) (Some (TrimSpace reason)) (pgTime (w_now w)) u]>
                         (users (w_db w))) ∧
  signed_out target w w' ∧
  groups_ok (w_db w') ∧
  (∀ g, abs (w_db w') g =
     (abs (w_db w) g ≫= λ ag, if decide (is_Some (ag_members ag !! target)) then ban_leaves target ag else Some ag)) ∧
  w_banned w' = None.
Proof.
  intros Hok H. unfold Ban in H. run_inv. unfold Now in Hrun. run_inv.
  assert (target ≠ admin ∧ a0 = TrimSpace reason) as [Hne ->].
  { unfold check_ban in H0. case_decide; [done|]. destruct (_ || _); [done|]. by injection H0 as <-. }
  apply query_ok in Hrun1 as (fs & d & Hban & ->). unfold BanUser in Hban.
  destruct (users (w_db s0) !! target) as [u|] eqn:Hu; [|injection Hban as <- <-; cbn [Z.eqb] in H; run_inv; by destruct a].
  destruct (u_is_admin u) eqn:Hadm; [injection Hban as <- <-; cbn [Z.eqb] in H; run_inv; by destruct a|].
  injection Hban as <- <-. cbn [Z.eqb] in H. run_inv. run_of @EndSessions Hend. run_of @leaveGroups Hleave. run_of @Log Hlog.
  injection H as _ <-. match type of Hend with _ ?w0 = (_, ?w1) => set (wb := w0) in *; rename w1 into we end.
  pose proof (moves_at _ _ _ _ _ (groups_EndSessions _) Hend) as Send.
  assert (groups_ok (w_db we)) as Hok1 by (apply (groups_ok_same _ _ Send); exact Hok).
  destruct (leaveGroups_ok _ _ _ _ Hok1 Hleave) as [Hok2 Habs2].
  pose proof (moves_at _ _ _ _ _ (groups_Log _ _ _ _ _) Hlog) as Slog.
  assert (∀ w1 w2 g, groups_same w1 w2 → abs (w_db w2) g = abs (w_db w1) g) as Habs.
  { intros w1 w2 g S. destruct (groups_same_group _ _ g S) as [H1 H2]. unfold abs. by rewrite H1, H2. }
  pose proof (accounts_leaveGroups target we) as A1. rewrite Hleave in A1. cbn [snd] in A1.
  match type of Hlog with _ ?w0 = _ => pose proof (accounts_Log admin "ban" target uuid_nil
      (match until with Some t => "until " +:+ RFC3339 t +:+ ": " +:+ TrimSpace reason | None => "permanent: " +:+ TrimSpace reason end) w0) as A2 end.
  rewrite Hlog in A2. cbn [snd] in A2. rewrite A1 in A2. clear A1. injection A2 as Eu Et Ed Er En El.
  assert (users (w_db we) = users (w_db wb)) as Eub.
  { pose proof (users_EndSessions target wb) as E. by rewrite Hend in E. }
  split; [done|]. split; [|split; [|split; [|split]]].
  - exists u. split_and!; [done|done|]. cbn [w_db with_banned]. by rewrite Eu, Eub.
  - apply (signed_out_now _ _ wb); [done|]. apply (end_sessions_later _ _ _ _ _ Hend). split_and!; try done. intros e. cbn [w_log with_banned]. by rewrite El.
  - by apply (groups_ok_same _ _ Slog).
  - intros g. cbn [w_db with_banned]. rewrite (Habs _ _ g Slog), Habs2. by rewrite (Habs wb we g Send).
  - done.
Qed.
End ban.
