(* ===== verification/Chat_Invariant.v ===== *)
(** * Chat_Invariant: what always holds of the stored messages

    [said_ok] is kept by every operation of the chat service that can write to
    the message tables, whatever fails on the way. *)

From S2P Require Import Prelude GoLib Types Users_Model Db Groups_Model Sql_Chat Chat_Dedupe World Chat_Emoji Chat_Model Chat_Repo Chat_Service Chat_Access Demo.

#[local] Open Scope Z_scope.

(** A stored text: at most 500 characters, and wiped once deleted. *)
Definition text_ok (content : option string) (deleted : option time) : Prop :=
  (deleted ≠ None → content = None) ∧
  ∀ c, content = Some c → RuneCountInString c <= maxMessageLen.

(** Both messages are between the same two people. *)
Definition same_chat (m p : Message) : Prop :=
  ∀ a b, pm_FromID m = Some a → pm_ToID m = Some b → between a b p = true.

Record said_ok (d : DB) : Prop := {
  s_text id m : message d !! id = Some m → text_ok (pm_Content m) (pm_DeletedAt m);
  s_gtext id m : groupmessage d !! id = Some m → text_ok (gm_Content m) (gm_DeletedAt m);
  (** nobody writes to themselves *)
  s_self id m a : message d !! id = Some m → pm_FromID m = Some a → pm_ToID m ≠ Some a;
  (** a reply stays in its chat *)
  s_parent id m p : message d !! id = Some m → pm_Parentid m = Some p → p ≠ uuid_nil →
    ∃ mp, message d !! p = Some mp ∧ same_chat m mp;
  s_gparent id m p : groupmessage d !! id = Some m → gm_ParentID m = Some p → p ≠ uuid_nil →
    ∃ mp, groupmessage d !! p = Some mp ∧ gm_GroupID mp = gm_GroupID m;
  (** only messages that are there and not deleted have reactions *)
  s_react id u : is_Some (message_reactions d !! (id, u)) → ∃ m, live_private id d m;
  s_greact id u : is_Some (group_message_reactions d !! (id, u)) →
    ∃ m, groupmessage d !! id = Some m ∧ gm_DeletedAt m = None;
}.

Lemma said_ok_tables d d' : chat_tables d' = chat_tables d → said_ok d → said_ok d'.
Proof.
  intros (H1 & H2 & H3 & H4 & _)%tables_eq [? ? ? ? ? ? ?].
  split; unfold live_private in *; rewrite ?H1, ?H2, ?H3, ?H4; assumption.
Qed.

(** Replacing the row of a message by one of the same people and parent. *)
Lemma said_ok_update d d' id m m' :
  said_ok d → message d !! id = Some m →
  pm_FromID m' = pm_FromID m → pm_ToID m' = pm_ToID m → pm_Parentid m' = pm_Parentid m →
  text_ok (pm_Content m') (pm_DeletedAt m') →
  message d' = <[id := m']> (message d) → groupmessage d' = groupmessage d →
  group_message_reactions d' = group_message_reactions d →
  (∀ i u, is_Some (message_reactions d' !! (i, u)) → is_Some (message_reactions d !! (i, u))) →
  (∀ u, is_Some (message_reactions d' !! (id, u)) → pm_DeletedAt m' = None) →
  said_ok d'.
Proof.
  intros [S1 S2 S3 S4 S5 S6 S7] Hm Hf Ht Hp Htext E1 E2 E4 Hr Hri.
  assert (∀ i x, message d' !! i = Some x → ∃ y, message d !! i = Some y ∧
            pm_FromID x = pm_FromID y ∧ pm_ToID x = pm_ToID y ∧ pm_Parentid x = pm_Parentid y) as Hback.
  { rewrite E1. intros i x. rewrite lookup_insert_Some. intros [[<- <-]|[_ Hx]]; eauto. }
  split; rewrite ?E2, ?E4; try assumption.
  - rewrite E1. intros i x. rewrite lookup_insert_Some. intros [[<- <-]|[_ Hx]]; eauto.
  - intros i x a Hx Hxf.
    destruct (Hback _ _ Hx) as (y & Hy & F & T & _). rewrite F in Hxf. rewrite T. by eapply S3.
  - intros i x p Hx Hxp Hnil. destruct (Hback _ _ Hx) as (y & Hy & F & T & P). rewrite P in Hxp.
    destruct (S4 _ _ _ Hy Hxp Hnil) as (z & Hz & Hsame).
    assert (same_chat x z) as Hxz by (unfold same_chat in *; by rewrite F, T).
    rewrite E1. destruct (decide (p = id)) as [->|]; [|rewrite lookup_insert_ne by done; eauto].
    rewrite lookup_insert_eq. exists m'. split; [done|]. intros a b Ha Hb.
    rewrite Hm in Hz. simplify_eq. specialize (Hxz a b Ha Hb). unfold between in *. by rewrite Hf, Ht.
  - intros i u Hu. unfold live_private. rewrite E1.
    destruct (decide (i = id)) as [->|]; [rewrite lookup_insert_eq; eauto|].
    rewrite lookup_insert_ne by done. by eapply S6, Hr.
Qed.

Lemma said_ok_gupdate d d' id m m' :
  said_ok d → groupmessage d !! id = Some m →
  gm_GroupID m' = gm_GroupID m → gm_ParentID m' = gm_ParentID m →
  text_ok (gm_Content m') (gm_DeletedAt m') →
  groupmessage d' = <[id := m']> (groupmessage d) → message d' = message d →
  message_reactions d' = message_reactions d →
  (∀ i u, is_Some (group_message_reactions d' !! (i, u)) → is_Some (group_message_reactions d !! (i, u))) →
  (∀ u, is_Some (group_message_reactions d' !! (id, u)) → gm_DeletedAt m' = None) →
  said_ok d'.
Proof.
  intros [S1 S2 S3 S4 S5 S6 S7] Hm Hg Hp Htext E1 E2 E3 Hr Hri.
  assert (∀ i x, groupmessage d' !! i = Some x → ∃ y, groupmessage d !! i = Some y ∧
            gm_GroupID x = gm_GroupID y ∧ gm_ParentID x = gm_ParentID y) as Hback.
  { rewrite E1. intros i x. rewrite lookup_insert_Some. intros [[<- <-]|[_ Hx]]; eauto. }
  split; unfold live_private in *; rewrite ?E2, ?E3; try assumption.
  - rewrite E1. intros i x. rewrite lookup_insert_Some. intros [[<- <-]|[_ Hx]]; eauto.
  - intros i x p Hx Hxp Hnil. destruct (Hback _ _ Hx) as (y & Hy & G & P). rewrite P in Hxp.
    destruct (S5 _ _ _ Hy Hxp Hnil) as (z & Hz & Hsame).
    rewrite E1. destruct (decide (p = id)) as [->|]; [|rewrite lookup_insert_ne by done; exists z; by rewrite G].
    rewrite lookup_insert_eq. exists m'. split; [done|]. congruence.
  - intros i u Hu. rewrite E1.
    destruct (decide (i = id)) as [->|]; [rewrite lookup_insert_eq; eauto|].
    rewrite lookup_insert_ne by done. by eapply S7, Hr.
Qed.

(** One more message. *)
Lemma said_ok_new d d' id m :
  said_ok d → message d !! id = None → text_ok (pm_Content m) (pm_DeletedAt m) →
  (∀ a, pm_FromID m = Some a → pm_ToID m ≠ Some a) →
  (∀ p, pm_Parentid m = Some p → p ≠ uuid_nil → ∃ mp, message d !! p = Some mp ∧ same_chat m mp) →
  message d' = <[id := m]> (message d) → groupmessage d' = groupmessage d →
  message_reactions d' = message_reactions d → group_message_reactions d' = group_message_reactions d →
  said_ok d'.
Proof.
  intros [S1 S2 S3 S4 S5 S6 S7] Hnew Htext Hself Hparent E1 E2 E3 E4.
  assert (∀ p mp, message d !! p = Some mp → message d' !! p = Some mp) as Hfwd.
  { intros p mp Hp. rewrite E1, lookup_insert_ne; [done|]. intros <-. congruence. }
  split; rewrite ?E2, ?E3, ?E4; try assumption.
  - rewrite E1. intros i x. rewrite lookup_insert_Some. intros [[<- <-]|[_ Hx]]; eauto.
  - rewrite E1. intros i x a. rewrite lookup_insert_Some. intros [[<- <-]|[_ Hx]]; eauto.
  - intros i x p Hx Hxp Hnil. rewrite E1, lookup_insert_Some in Hx.
    assert (∃ mp, message d !! p = Some mp ∧ same_chat x mp) as (mp & Hmp & Hs)
      by (destruct Hx as [[<- <-]|[_ Hx]]; eauto).
    eauto.
  - intros i u Hu. destruct (S6 _ _ Hu) as (x & Hx & Hd). exists x. split; [by apply Hfwd|done].
Qed.

Lemma said_ok_gnew d d' id m :
  said_ok d → groupmessage d !! id = None → text_ok (gm_Content m) (gm_DeletedAt m) →
  (∀ p, gm_ParentID m = Some p → p ≠ uuid_nil → ∃ mp, groupmessage d !! p = Some mp ∧ gm_GroupID mp = gm_GroupID m) →
  groupmessage d' = <[id := m]> (groupmessage d) → message d' = message d →
  message_reactions d' = message_reactions d → group_message_reactions d' = group_message_reactions d →
  said_ok d'.
Proof.
  intros [S1 S2 S3 S4 S5 S6 S7] Hnew Htext Hparent E1 E2 E3 E4.
  assert (∀ p mp, groupmessage d !! p = Some mp → groupmessage d' !! p = Some mp) as Hfwd.
  { intros p mp Hp. rewrite E1, lookup_insert_ne; [done|]. intros <-. congruence. }
  split; unfold live_private in *; rewrite ?E2, ?E3, ?E4; try assumption.
  - rewrite E1. intros i x. rewrite lookup_insert_Some. intros [[<- <-]|[_ Hx]]; eauto.
  - intros i x p Hx Hxp Hnil. rewrite E1, lookup_insert_Some in Hx.
    assert (∃ mp, groupmessage d !! p = Some mp ∧ gm_GroupID mp = gm_GroupID x) as (mp & Hmp & Hs)
      by (destruct Hx as [[<- <-]|[_ Hx]]; eauto).
    eauto.
  - intros i u Hu. destruct (S7 _ _ Hu) as (x & Hx & Hd). exists x. split; [by apply Hfwd|done].
Qed.

(** One more reaction on a live message, or some less. *)
Lemma said_ok_reactions d d' :
  said_ok d → message d' = message d → groupmessage d' = groupmessage d →
  (∀ i u, is_Some (message_reactions d' !! (i, u)) →
     is_Some (message_reactions d !! (i, u)) ∨ ∃ m, live_private i d m) →
  (∀ i u, is_Some (group_message_reactions d' !! (i, u)) →
     is_Some (group_message_reactions d !! (i, u)) ∨ ∃ m, groupmessage d !! i = Some m ∧ gm_DeletedAt m = None) →
  said_ok d'.
Proof.
  intros [S1 S2 S3 S4 S5 S6 S7] E1 E2 Hr Hg. split; unfold live_private in *; rewrite ?E1, ?E2; try assumption.
  - intros i u [Hu|?]%Hr; eauto.
  - intros i u [Hu|?]%Hg; eauto.
Qed.

Section service.
Context {ulib : UuidLib} {laws : UuidLaws ulib} {gm : GroupMembership} {fc : FriendChecker} {cs : ChatService} {collab : Collaborators}.

(** [keeps_said m]: whatever fails, [m] keeps [said_ok]. *)
Definition keeps_said {A} (m : M World A) : Prop := ∀ w, said_ok (w_db w) → said_ok (w_db (m w).2).

Lemma keeps_said_run {A} (m : M World A) w r w' : keeps_said m → m w = (r, w') → said_ok (w_db w) → said_ok (w_db w').
Proof. intros Hm Hw. specialize (Hm w). by rewrite Hw in Hm. Qed.

Lemma keeps_said_quiet {A} (m : M World A) : quiet m → keeps_said m.
Proof.
  intros Hm w. apply said_ok_tables. destruct (m w) as [r w'] eqn:H. by apply (quiet_run _ _ _ _ Hm H).
Qed.

Lemma keeps_said_bind {A B} (m : M World A) (k : A → M World B) :
  keeps_said m → (∀ a, keeps_said (k a)) → keeps_said (m ≫= k).
Proof.
  intros Hm Hk w Hw. rewrite bind_run. specialize (Hm w Hw). destruct (m w) as [[a|e] w1]; [|done]. by apply Hk.
Qed.

Lemma keeps_said_try {A} (m : M World A) : keeps_said m → keeps_said (try m).
Proof. intros Hm w Hw. specialize (Hm w Hw). unfold try. by destruct (m w). Qed.

Lemma text_ok_live c : RuneCountInString c <= maxMessageLen → text_ok (Some c) None.
Proof. intros Hc. split; [done|]. by intros ? [= <-]. Qed.

Lemma said_ok_written from inp w w' id : written from inp w w' id → said_ok (w_db w) → said_ok (w_db w').
Proof.
  intros (to & _ & Hne & _ & _ & Hlen & Hparent & E3 & E4 & [(Hk & E2 & Hid & E1)|(Hk & E1 & Hid & s & E2)]) Hok.
  - eapply said_ok_new; try done; simpl; [by apply text_ok_live|by intros a [= <-] [=]|].
    intros p Hp Hnil. destruct (Hparent p Hp Hnil) as [Hpar _]. destruct (Hpar Hk) as (mp & Hmp & Hb).
    exists mp. split; [done|]. by intros a b [= <-] [= <-].
  - eapply said_ok_gnew; try done; simpl; [by apply text_ok_live|].
    intros p Hp Hnil. destruct (Hparent p Hp Hnil) as [_ Hpar]. destruct (Hpar Hk) as (mp & Hmp & Hb).
    exists mp. split; [done|]. unfold in_group in Hb. by apply bool_decide_eq_true in Hb.
Qed.

Lemma keeps_said_send from inp : keeps_said (SendMessage from inp).
Proof.
  intros w Hw. destruct (SendMessage from inp w) as [r w'] eqn:Hs. apply SendMessage_outcome in Hs.
  destruct r as [id|e]; [destruct Hs as [Ht|[d Hwr]]|]; simpl; [by eapply said_ok_tables| |by eapply said_ok_tables].
  by eapply said_ok_written.
Qed.

Lemma keeps_said_edit me id c : me ≠ uuid_nil → keeps_said (EditMessage me id c).
Proof.
  intros Hme w Hw. destruct (EditMessage me id c w) as [r w'] eqn:Hs. apply EditMessage_outcome in Hs; [|done]. simpl.
  destruct r as [em|e]; [|by eapply said_ok_tables]. destruct Hs as (_ & _ & Hlen & E3 & E4 & [Hs|Hs]).
  - destruct Hs as (E2 & m & w1 & [Hm Hd] & _ & _ & _ & _ & E1).
    eapply (said_ok_update _ _ id m (edited_pm _ _ m)); try done; [by apply text_ok_live|by rewrite E3].
  - destruct Hs as (E1 & m & (Hm & Hd & _) & _ & _ & _ & E2).
    eapply (said_ok_gupdate _ _ id m (edited_gm _ _ m)); try done; [by apply text_ok_live|by rewrite E4].
Qed.

Lemma drop_reactions_some id i u t :
  is_Some (drop_reactions id t !! (i, u)) → i ≠ id ∧ is_Some (t !! (i, u)).
Proof. intros [x [Hx Hi]%map_lookup_filter_Some]. eauto. Qed.

Lemma keeps_said_delete me id : me ≠ uuid_nil → keeps_said (DeleteMessage me id).
Proof.
  intros Hme w Hw. destruct (DeleteMessage me id w) as [r w'] eqn:Hs. apply DeleteMessage_outcome in Hs; [|done]. simpl.
  destruct r as [[]|e]; [|by eapply said_ok_tables].
  destruct Hs as [(E2 & E4 & m & [Hm _] & _ & E1 & E3)|(E1 & E3 & m & (Hm & _) & _ & _ & E2 & E4)].
  - eapply (said_ok_update _ _ id m (deleted_pm _ m)); try done; simpl; rewrite ?E3.
    + by intros i u [_ ?]%drop_reactions_some.
    + by intros u [? _]%drop_reactions_some.
  - eapply (said_ok_gupdate _ _ id m (deleted_gm _ m)); try done; simpl; rewrite ?E4.
    + by intros i u [_ ?]%drop_reactions_some.
    + by intros u [? _]%drop_reactions_some.
Qed.

Lemma keeps_said_quiet_bind {A B} (m : M World A) (k : A → M World B) :
  quiet m → (∀ a, keeps_said (k a)) → keeps_said (m ≫= k).
Proof. intros Hm. apply keeps_said_bind. by apply keeps_said_quiet. Qed.

(** Setting a reaction on a live message. *)
Lemma said_ok_SetReaction kind id u e w r w' :
  (kind = TypePrivate → ∃ m, live_private id (w_db w) m) →
  (kind = TypePublic → ∃ m, groupmessage (w_db w) !! id = Some m ∧ gm_DeletedAt m = None) →
  kind = TypePrivate ∨ kind = TypePublic →
  SetReaction kind id u e w = (r, w') → said_ok (w_db w) → said_ok (w_db w').
Proof.
  intros Hp Hg Hk Hrun Hok. unfold SetReaction in Hrun. case_decide as Hkind;
    [specialize (Hp Hkind)|destruct Hk as [?|Hk]; [done|]; specialize (Hg Hk)].
  - apply query_cases in Hrun as [(fs & d & Hq & ->)|(-> & fs & ->)]; [|done]. simpl.
    unfold SetPrivateReaction in Hq. repeat case_match; simplify_eq; try done.
    eapply said_ok_reactions; try done; simpl; [|by left].
    intros i v Hi. destruct (decide ((i, v) = (id, u))) as [[= -> ->]|Hne]; [by right|].
    rewrite lookup_insert_ne in Hi by congruence. by left.
  - apply query_cases in Hrun as [(fs & d & Hq & ->)|(-> & fs & ->)]; [|done]. simpl.
    unfold SetGroupReaction in Hq. repeat case_match; simplify_eq; try done.
    eapply said_ok_reactions; try done; simpl; [by left|].
    intros i v Hi. destruct (decide ((i, v) = (id, u))) as [[= -> ->]|Hne]; [right; congruence || by rewrite <- H0 in Hg|].
    rewrite lookup_insert_ne in Hi by congruence. by left.
Qed.

(** An authorized reference is to a live message of its kind. *)
Lemma authorized_live me id b w ref others w' :
  me ≠ uuid_nil → authorizeMessage me id b w = (Ok (ref, others), w') →
  (ref_Kind ref = TypePrivate → ∃ m, live_private id (w_db w') m) ∧
  (ref_Kind ref = TypePublic → ∃ m, groupmessage (w_db w') !! id = Some m ∧ gm_DeletedAt m = None) ∧
  (ref_Kind ref = TypePrivate ∨ ref_Kind ref = TypePublic).
Proof.
  intros Hme Ha. pose proof (quiet_run _ _ _ _ (quiet_authorize _ _ _) Ha) as [Ht _].
  pose proof (tables_eq _ _ Ht) as (H1 & H2 & _). apply authorize_spec in Ha; [|done].
  unfold live_private, live_group in *. rewrite H1, H2.
  destruct Ha as [(m & ? & ? & Hm & _ & -> & _)|(m & ? & ? & Hm & _ & -> & _)]; simpl; (split; [|split]);
    first [by left|by right|done|intros _; exists m; tauto].
Qed.

Lemma keeps_said_react me id e : me ≠ uuid_nil → keeps_said (React me id e).
Proof.
  intros Hme. unfold React. apply keeps_said_quiet_bind; [quiet|intros _].
  intros w Hw. rewrite bind_run. destruct (authorizeMessage me id true w) as [[[ref others]|err] w1] eqn:Ha;
    pose proof (keeps_said_run _ _ _ _ (keeps_said_quiet _ (quiet_authorize _ _ _)) Ha Hw) as Hw1; [|done].
  apply authorized_live in Ha as (Hp & Hg & Hk); [|done]. cbv beta iota.
  rewrite bind_run. destruct (SetReaction _ _ _ _ w1) as [[[]|err] w2] eqn:Hs;
    pose proof (said_ok_SetReaction _ _ _ _ _ _ _ Hp Hg Hk Hs Hw1) as Hw2; [|done].
  revert w2 Hw2 Hs. assert (∀ w2, said_ok (w_db w2) → said_ok (w_db
    ((pushReaction ref (withMe others me) me id e ;;
      if negb (bool_decide (ref_From ref = me)) && negb (bool_decide (ref_From ref = uuid_nil))
      then notify (mk_Job KindReaction [ref_From ref] me
                 (if decide (ref_Kind ref = TypePublic) then ref_Group ref else uuid_nil) id e uuid_nil)
      else mret tt) w2).2)) as Htell; [|intros; by apply Htell].
  apply keeps_said_quiet. unfold pushReaction. quiet.
Qed.

Lemma keeps_said_unreact me id : keeps_said (Unreact me id).
Proof.
  unfold Unreact. apply keeps_said_quiet_bind; [quiet|intros [ref others]].
  apply keeps_said_bind; [|intros []; apply keeps_said_quiet; unfold pushReaction; quiet].
  apply keeps_said_bind; [|intros n; by apply keeps_said_quiet, leaves_ret].
  intros w Hw. destruct (query _ w) as [r w'] eqn:Hq. simpl.
  apply query_cases in Hq as [(fs & d & Hq & ->)|(-> & fs & ->)]; [|done]. simpl.
  case_decide; unfold DeletePrivateReaction, DeleteGroupReaction in Hq; case_match; simplify_eq; try done;
    eapply said_ok_reactions; try done; simpl; try (by left); intros i u Hi; left;
    rewrite lookup_delete_is_Some in Hi; tauto.
Qed.

Lemma quiet_duplicate m me src copied : csv_media = Some m → quiet (duplicate_all m me src copied).
Proof.
  intros Hm. destruct (quiet_media m Hm) as (_ & _ & _ & Hd). revert copied.
  induction src as [|a src IH]; intros copied; simpl; quiet.
Qed.

Lemma keeps_said_forward_all me content src to : keeps_said (forward_all me content src to).
Proof.
  induction to as [|t to IH]; simpl; [by apply keeps_said_quiet, leaves_ret|].
  apply keeps_said_bind; [|intros r; apply keeps_said_bind; [done|intros; by apply keeps_said_quiet, leaves_ret]].
  unfold forward_one. cbv zeta. apply keeps_said_quiet_bind.
  { destruct csv_media as [m|] eqn:Hm; [by apply quiet_duplicate|quiet]. }
  intros [ids|e]; [|by apply keeps_said_quiet, leaves_ret].
  apply keeps_said_bind; [apply keeps_said_try, keeps_said_send|intros; by apply keeps_said_quiet, leaves_ret].
Qed.

Lemma keeps_said_forward me id to : keeps_said (Forward me id to).
Proof.
  unfold Forward. destruct (_ || _); [by apply keeps_said_quiet, leaves_throw|].
  apply keeps_said_quiet_bind; [quiet|intros [ref others]].
  apply keeps_said_quiet_bind; [quiet|intros [content []]]; [by apply keeps_said_quiet, leaves_throw|].
  apply keeps_said_quiet_bind; [quiet|intros _].
  apply keeps_said_quiet_bind; [|intros src; apply keeps_said_forward_all].
  destruct csv_media as [m|] eqn:Hm; [|quiet]. pose proof (quiet_ForMessages m [id] Hm). quiet.
Qed.

(** ** The service's operations on messages *)

Inductive cop : Type :=
  | CSend (from : uuid) (inp : InCommingMessage)
  | CMsg (me id : uuid) (op : mop).

Definition run_cop (op : cop) : M World unit :=
  match op with
  | CSend from inp => _ ← SendMessage from inp; mret tt
  | CMsg me id op => run_mop me id op
  end.

(** Users are authenticated: the caller's id is not the zero uuid. *)
Definition caller_ok (op : cop) : Prop :=
  match op with CSend _ _ => True | CMsg me _ _ => me ≠ uuid_nil end.

(** A request is served; its error, if any, only goes back to its sender. *)
Inductive cstep (w : World) : World → Prop :=
  | c_serve op : caller_ok op → cstep w (run_cop op w).2
  | c_elapse w' : w_db w' = w_db w → cstep w w'.

(** C22. Whatever requests to send, edit, delete, forward and react are served
    in turn, and whatever fails in them, the stored messages stay well formed: a
    text is never longer than 500 characters, a deleted message has neither text
    nor reactions, nobody has written to themselves, a reply is to a message of
    the same chat, and only messages that exist carry reactions. *)
Theorem messages_well_formed (w w' : World) :
  said_ok (w_db w) → reachable cstep w w' → said_ok (w_db w').
Proof.
  intros Hw. apply (reachable_invariant cstep (λ w, said_ok (w_db w))); [done|]. clear w w' Hw.
  intros w w' Hw [op Hop|w1 ->]; [|done].
  assert (∀ A (m : M World A), keeps_said m → keeps_said (_ ← m; mret tt)) as Hforget.
  { intros A m Hm. apply keeps_said_bind; [done|]. intros _. by apply keeps_said_quiet, leaves_ret. }
  revert w Hw. change (keeps_said (run_cop op)). destruct op as [from inp|me id op]; simpl in *.
  { apply Hforget, keeps_said_send. }
  destruct op; simpl; try apply Hforget;
    auto using keeps_said_edit, keeps_said_delete, keeps_said_react, keeps_said_unreact, keeps_said_forward.
  - apply keeps_said_quiet. unfold Reactors, Reactors_. quiet.
  - apply keeps_said_quiet. unfold ReadBy, GroupReadBy_. quiet.
Qed.
End service.
