(* ===== verification/Chat_Pages.v ===== *)
(** * Chat_Pages: what a page of history may show

    The messages of a page are those of the chat, without what was deleted, what
    suspended accounts wrote, and, in a group, what was said before the reader
    joined. *)

From S2P Require Import Prelude GoLib Types Users_Model Db Groups_Model Sql_Chat Chat_Dedupe World Chat_Emoji Chat_Model Chat_Repo Chat_Service Chat_Access.

#[local] Open Scope Z_scope.

(** ** Suspended accounts *)

(** What decides who counts as suspended: the accounts, the cached list, the
    clock. *)
Definition ban_view (w : World) := (users (w_db w), w_banned w, w_now w).

Definition banned_now (d : DB) : gset uuid :=
  list_to_set (fst <$> select (λ _ u, bool_decide (is_Some (u_banned_at u))) (users d)).

(** The accounts taken for suspended: the list read at most [bannedTTL] ago. *)
Definition banned_view (w : World) : gset uuid :=
  match w_banned w with
  | Some (ids, fetched) => if w_now w - fetched <? bannedTTL then ids else banned_now (w_db w)
  | None => banned_now (w_db w)
  end.

Lemma banned_view_eq w w' : ban_view w' = ban_view w → banned_view w' = banned_view w.
Proof. unfold ban_view, banned_view, banned_now. intros [= -> -> ->]. done. Qed.

Lemma ban_blind : fault_blind ban_view.
Proof. by intros x w. Qed.

(** [Suspended] picks the suspended accounts out of the ones asked for. *)
Lemma suspended_spec ids w s w' :
  Suspended ids w = (Ok s, w') → ∀ u, u ∈ s ↔ u ∈ ids ∧ u ∈ banned_view w.
Proof.
  unfold Suspended. case_decide as Hids.
  { intros [= <- _] u. subst ids. rewrite elem_of_nil. set_solver. }
  intros (banned & w1 & Hb & [= <- _])%bind_ok_inv u.
  rewrite elem_of_list_to_set, list_elem_of_In, List.filter_In, <- list_elem_of_In, bool_decide_eq_true.
  enough (banned = banned_view w) as -> by tauto. revert Hb. unfold banned_get, banned_view.
  rewrite bind_run. unfold get at 1. cbv beta iota. rewrite bind_run. unfold Now, get. cbv beta iota.
  assert (∀ w0 b w2, (rows ← query AllBannedUsers; now ← Now;
            modify (with_banned (Some (list_to_set rows, now))) ;; mret (list_to_set rows)) w0 = (Ok b, w2) →
          b = banned_now (w_db w0)) as Hfetch.
  { intros w0 b w2 (rows & w3 & (fs & d & Hq & ->)%query_ok & Hr)%bind_ok_inv. unfold AllBannedUsers in Hq. simplify_eq.
    unfold banned_now. by run_inv. }
  destruct (w_banned w) as [[ids' fetched]|]; [|apply Hfetch].
  destruct (_ <? _); [by intros [= <- _]|apply Hfetch].
Qed.

(** ** What one message shows *)

(** [m] shows the row with this sender and content, or what is left of it when it
    was deleted or its sender is suspended. *)
Record shows (banned : gset uuid) (from : option uuid) (content : option string) (deleted : bool)
    (m : MessageMetaDataRes) : Prop := {
  shows_from : mc_FromID (mr_MsgInfo m) = uuidBytes from;
  shows_deleted : mr_Deleted m = deleted;
  shows_suspended : mr_SenderSuspended m = true ↔ uuidBytes from ≠ uuid_nil ∧ uuidBytes from ∈ banned;
  shows_content : im_Content (mc_Msg (mr_MsgInfo m)) =
    if deleted || mr_SenderSuspended m then EmptyString else default EmptyString content;
  shows_media : deleted || mr_SenderSuspended m = true → mr_Media m = [];
  shows_reactions : mr_SenderSuspended m = true → mr_Reactions m = [];
}.

Lemma elem_of_page_senders msgs u :
  u ∈ page_senders msgs ↔ u ≠ uuid_nil ∧ ∃ m, m ∈ msgs ∧ mc_FromID (mr_MsgInfo m) = u.
Proof.
  unfold page_senders. induction msgs as [|m l IH] using rev_ind.
  { simpl. rewrite elem_of_nil. split; [done|]. by intros (_ & m & Hm%elem_of_nil & _). }
  assert (∀ v : uuid, (v ≠ uuid_nil ∧ ∃ x, x ∈ l ++ [m] ∧ mc_FromID (mr_MsgInfo x) = v) ↔
          (v ≠ uuid_nil ∧ v = mc_FromID (mr_MsgInfo m)) ∨ (v ≠ uuid_nil ∧ ∃ x, x ∈ l ∧ mc_FromID (mr_MsgInfo x) = v)) as Hcons.
  { intros v. setoid_rewrite elem_of_app. setoid_rewrite list_elem_of_singleton. naive_solver. }
  rewrite Hcons, <- IH, foldl_app. clear Hcons. simpl. set (senders := foldl _ _ l) in *. clearbody senders.
  destruct (bool_decide (mc_FromID (mr_MsgInfo m) = uuid_nil)) eqn:Hn; simpl.
  - apply bool_decide_eq_true in Hn. naive_solver.
  - apply bool_decide_eq_false in Hn. destruct (slices_contains senders _) eqn:Hc; simpl.
    + apply slices_contains_true in Hc. naive_solver.
    + rewrite elem_of_app, list_elem_of_singleton. naive_solver.
Qed.

Section pages.
Context {ulib : UuidLib} {gm : GroupMembership} {fc : FriendChecker} {cs : ChatService} {collab : Collaborators}.

(** Media and memberships are no matter of suspensions. *)
Class BanBlind : Prop := {
  blind_ForMessages m ids : csv_media = Some m → leaves ban_view (md_ForMessages m ids);
  blind_IsMember g u : leaves ban_view (grp_IsMember g u);
}.

Context {blind : BanBlind}.

Lemma withState_spec kind me msgs w ms w' :
  withState kind me msgs w = (Ok ms, w') →
  ∃ counts att banned, ms = shown counts att banned <$> msgs ∧
    ∀ u, u ∈ banned ↔ u ∈ page_senders msgs ∧ u ∈ banned_view w.
Proof.
  unfold withState. cbv zeta. intros (counts & w1 & Hc & Hrun)%bind_ok_inv.
  apply bind_ok_inv in Hrun as (att & w2 & Ha & Hrun). apply bind_ok_inv in Hrun as (banned & w3 & Hb & Hrun).
  unfold mret, M_ret in Hrun. simplify_eq. exists counts, att, banned. split; [done|].
  intros u. rewrite (suspended_spec _ _ _ _ Hb u). f_equiv.
  assert (leaves ban_view (ReactionCounts kind me (mr_ID <$> msgs))) as H1.
  { unfold ReactionCounts. destruct (decide _); [apply leaves_ret|]. apply leaves_bind; [|intros; apply leaves_ret].
    destruct (decide (kind = TypePrivate)); apply leaves_read; try apply ban_blind; intros d r d' [= _ <-]; done. }
  assert (leaves ban_view (match csv_media with Some m => md_ForMessages m (mr_ID <$> msgs) | None => mret ∅ end)) as H2.
  { destruct csv_media as [m|] eqn:Hm; [by apply blind_ForMessages|apply leaves_ret]. }
  specialize (H1 w). rewrite Hc in H1. specialize (H2 w1). rewrite Ha in H2. simpl in *.
  rewrite (banned_view_eq w w2); [done|congruence].
Qed.

(** The state added to a message that shows its row keeps it so. *)
Lemma shown_shows counts att banned view msgs (from : option uuid) content deleted m :
  m ∈ msgs →
  (∀ u, u ∈ banned ↔ u ∈ page_senders msgs ∧ u ∈ view) →
  mc_FromID (mr_MsgInfo m) = uuidBytes from → mr_Deleted m = deleted → mr_SenderSuspended m = false →
  im_Content (mc_Msg (mr_MsgInfo m)) = default EmptyString content →
  shows view from content deleted (shown counts att banned m).
Proof.
  intros Hm Hb Hf Hd Hs Hc. unfold shown. cbv zeta. rewrite Hs, Hd.
  set (suspended := bool_decide (mc_FromID (mr_MsgInfo m) ∈ banned)).
  assert (suspended = true ↔ uuidBytes from ≠ uuid_nil ∧ uuidBytes from ∈ view) as Hsus.
  { unfold suspended. rewrite bool_decide_eq_true, Hb, elem_of_page_senders, Hf. naive_solver. }
  clearbody suspended. split; simpl; try done.
  - rewrite Hc. by destruct deleted, suspended.
  - by intros ->.
  - by intros ->.
Qed.

Lemma parse_limit q before n : HistoryQuery_parse q = Ok (before, n) → 0 < n <= maxPage.
Proof.
  unfold HistoryQuery_parse. destruct (_ && _); [done|]. cbv zeta. unfold maxPage, pageSize.
  repeat case_match; intros [= _ <-]; lia.
Qed.

(** Rows selected, ordered, cut and reversed. *)
Lemma page_rows {K V} `{Countable K} (p : K → V → bool) (t : gmap K V) le n r :
  r ∈ limit n (order_by le (select p t)) → t !! r.1 = Some r.2 ∧ p r.1 r.2 = true.
Proof. unfold limit. intros Hr%elem_of_take. destruct Hr as (i & Hr%list_elem_of_lookup_2 & _). rewrite elem_of_order_by in Hr. destruct r. by apply elem_of_select. Qed.

Lemma page_length {A} n (l : list A) : (length (limit n l) ≤ Z.to_nat n)%nat.
Proof. unfold limit. rewrite length_take. lia. Qed.

(** ** The pages *)

Lemma private_page_rows {tp : TimeParse} me other q w msgs w1 :
  privateHistory me other q w = (Ok msgs, w1) →
  ban_view w1 = ban_view w ∧
  ∃ rows, msgs = fromPrivate rows ∧ (length rows ≤ 200)%nat ∧
    ∀ r, r ∈ rows → message (w_db w) !! r.1 = Some r.2 ∧ between me other r.2 = true.
Proof.
  intros Hrun. split.
  { assert (∀ A (q : M DB A), read_only q → leaves ban_view (query q)) as Hread by (intros; by apply leaves_read).
    assert (leaves ban_view (privateHistory me other q)) as Hl; [|by specialize (Hl w); rewrite Hrun in Hl].
    unfold privateHistory, PrivateBefore, PrivateSince, RecentPrivate.
    repeat first [apply leaves_lift | apply leaves_ret | apply leaves_missing | apply leaves_bind; [|intros ?] | case_match
      | apply Hread; intros d r d'; (unfold PrivateMessageCursor; repeat case_match; by intros [= _ <-]) ]. }
  unfold privateHistory in Hrun. apply bind_ok_inv in Hrun as ([before n] & w2 & Hp & Hrun).
  unfold lift_result in Hp. injection Hp as Hp <-. apply parse_limit in Hp. unfold maxPage in Hp.
  assert (∀ p le n (f : list (uuid * Message) → list (uuid * Message)), n <= 200 →
            (∀ l r, r ∈ f l ↔ r ∈ l) → (∀ l, length (f l) = length l) → (∀ i m, p i m = true → between me other m = true) →
            ∃ rows, fromPrivate (f (limit n (order_by le (select p (message (w_db w)))))) = fromPrivate rows ∧
              (length rows ≤ 200)%nat ∧
              ∀ r, r ∈ rows → message (w_db w) !! r.1 = Some r.2 ∧ between me other r.2 = true) as Hpage.
  { intros p le k f Hk Hin Hlen Hpb. eexists. split; [done|]. split.
    - rewrite Hlen. pose proof (page_length k (order_by le (select p (message (w_db w))))). lia.
    - intros r Hr%Hin%page_rows. destruct Hr. eauto. }
  assert (∀ l, reverse (fromPrivate l) = fromPrivate (reverse l)) as Hrev by (intros l; unfold fromPrivate; by rewrite fmap_reverse).
  destruct (negb _).
  - unfold PrivateBefore in Hrun. apply bind_ok_inv in Hrun as (at_ & w3 & Hc & Hrun).
    apply bind_ok_inv in Hrun as (rows & w4 & Hq & [= <- _]).
    assert (w_db w3 = w_db w) as Hdb.
    { revert Hc. apply untouched_bind; [|intros []; auto with world]. apply untouched_try, untouched_query.
      intros d r d'. unfold PrivateMessageCursor. repeat case_match; by intros [= _ <-]. }
    apply query_ok_db in Hq. unfold GetPrivateMessagesBefore in Hq. injection Hq as <- _. rewrite Hdb, Hrev.
    apply Hpage; [lia|intros; apply elem_of_reverse|intros; apply length_reverse|]. intros i m [? _]%andb_true_iff. done.
  - apply bind_ok_inv in Hrun as (since & w3 & [= _ <-] & Hrun). destruct (negb _).
    + unfold PrivateSince in Hrun. apply bind_ok_inv in Hrun as (rows & w4 & Hq & [= <- _]).
      apply query_ok_db in Hq. unfold GetPrivateMessagesSince in Hq. injection Hq as <- _.
      apply (Hpage _ _ streamCap (λ l, l)); [done..|]. intros i m [? _]%andb_true_iff. done.
    + unfold RecentPrivate in Hrun. apply bind_ok_inv in Hrun as (rows & w4 & Hq & [= <- _]).
      apply query_ok_db in Hq. unfold GetRecentPrivateMessages in Hq. injection Hq as <- _. rewrite Hrev.
      apply Hpage; [lia|intros; apply elem_of_reverse|intros; apply length_reverse|done].
Qed.

(** A page of a private chat shows at most 200 messages, each of them between
    the caller and the other user; of a deleted message neither text nor media,
    of a message of a suspended account nothing at all. *)
Theorem private_page_hides {tp : TimeParse} (me other : uuid) (q : HistoryQuery) (w : World)
    (ms : list MessageMetaDataRes) (w' : World) :
  PrivateMessages me other q w = (Ok ms, w') →
  (length ms ≤ 200)%nat ∧
  ∀ m, m ∈ ms → ∃ row, message (w_db w) !! mr_ID m = Some row ∧ between me other row = true ∧
    shows (banned_view w) (pm_FromID row) (pm_Content row) (bool_decide (is_Some (pm_DeletedAt row))) m.
Proof.
  intros (msgs & w1 & Hh & Hs)%bind_ok_inv. apply private_page_rows in Hh as (Hban & rows & -> & Hlen & Hrows).
  apply withState_spec in Hs as (counts & att & banned & -> & Hb). rewrite (banned_view_eq _ _ Hban) in Hb.
  split; [by rewrite length_fmap; unfold fromPrivate; rewrite length_fmap|].
  intros m (m0 & -> & Hm0)%list_elem_of_fmap. pose proof Hm0 as (r & -> & Hr)%list_elem_of_fmap.
  destruct (Hrows r Hr) as [Hrow Hbtw]. exists r.2. split; [done|]. split; [done|].
  eapply shown_shows; try done.
Qed.

Lemma group_page_rows me g q w msgs w1 :
  groupHistory me g q w = (Ok msgs, w1) →
  ban_view w1 = ban_view w ∧ (grp_IsMember g me w).1 = Ok true ∧
  ∃ rows, msgs = fromPublic rows ∧ (length rows ≤ 100)%nat ∧
    ∀ r, r ∈ rows → groupmessage (w_db w) !! r.1 = Some r.2 ∧ in_group g r.2 = true ∧
      ∃ mt, member_table (w_db w) !! (g, me) = Some mt ∧ m_JoinedAt mt <= gm_CreatedAt r.2.
Proof.
  intros Hrun.
  assert (ban_view w1 = ban_view w) as Hban.
  { assert (∀ A (q : M DB A), read_only q → leaves ban_view (query q)) as Hread by (intros; by apply leaves_read).
    assert (leaves ban_view (groupHistory me g q)) as Hl; [|by specialize (Hl w); rewrite Hrun in Hl].
    unfold groupHistory, GroupBefore, RecentPublic.
    repeat first [apply leaves_lift | apply leaves_ret | apply leaves_throw | apply blind_IsMember | apply leaves_missing
      | apply leaves_bind; [|intros ?] | case_match
      | apply Hread; intros d r d'; (unfold GroupMessageCursor; repeat case_match; by intros [= _ <-]) ]. }
  split; [done|]. unfold groupHistory in Hrun. destruct (negb _); [done|].
  apply bind_ok_inv in Hrun as ([before n] & w2 & Hp & Hrun). unfold lift_result in Hp. injection Hp as Hp <-.
  apply parse_limit in Hp. unfold maxPage in Hp. apply bind_ok_inv in Hrun as (ok & w2 & Hmem & Hrun).
  destruct ok; cbn [negb] in Hrun; [|done]. split; [by rewrite Hmem|].
  apply (quiet_run _ _ _ _ (quiet_IsMember _ _)) in Hmem as [(_ & Hg & _ & _ & Hmt)%tables_eq _].
  assert (∀ p le (w0 : World), groupmessage (w_db w0) = groupmessage (w_db w) → member_table (w_db w0) = member_table (w_db w) →
            (∀ i m, p i m = true → in_group g m = true ∧ since_joined g me (w_db w0) m = true) →
            ∃ rows, reverse (fromPublic (limit n (order_by le (select p (groupmessage (w_db w0)))))) = fromPublic rows ∧
              (length rows ≤ 100)%nat ∧
              ∀ r, r ∈ rows → groupmessage (w_db w) !! r.1 = Some r.2 ∧ in_group g r.2 = true ∧
                ∃ mt, member_table (w_db w) !! (g, me) = Some mt ∧ m_JoinedAt mt <= gm_CreatedAt r.2) as Hpage.
  { intros p le w0 Hg0 Hm0 Hpb. unfold fromPublic. rewrite <- fmap_reverse. eexists. split; [done|]. split.
    - rewrite length_reverse. pose proof (page_length n (order_by le (select p (groupmessage (w_db w0))))). lia.
    - intros r Hr%elem_of_reverse%page_rows. rewrite Hg0 in Hr. destruct Hr as [Hr [Hin Hsince]%Hpb]. split; [done|].
      split; [done|]. unfold since_joined in Hsince. rewrite Hm0 in Hsince.
      destruct (member_table (w_db w) !! (g, me)) as [mt|]; [|done]. exists mt. split; [done|]. lia. }
  destruct (negb _).
  - unfold GroupBefore in Hrun. apply bind_ok_inv in Hrun as (at_ & w3 & Hc & Hrun).
    apply bind_ok_inv in Hrun as (rows & w4 & Hq & [= <- _]).
    assert (w_db w3 = w_db w2) as Hdb.
    { revert Hc. apply untouched_bind; [|intros []; auto with world]. apply untouched_try, untouched_query.
      intros d r d'. unfold GroupMessageCursor. repeat case_match; by intros [= _ <-]. }
    apply query_ok_db in Hq. unfold GetGroupMessagesBefore in Hq. injection Hq as <- _.
    apply Hpage; [congruence..|]. intros i m [[? _]%andb_true_iff ?]%andb_true_iff. done.
  - unfold RecentPublic in Hrun. apply bind_ok_inv in Hrun as (rows & w4 & Hq & [= <- _]).
    apply query_ok_db in Hq. unfold GetRecentGroupMessages in Hq. injection Hq as <- _.
    apply Hpage; [congruence..|]. intros i m [? ?]%andb_true_iff. done.
Qed.

(** A page of a group is served only to someone the groups call a member; it
    shows at most 100 messages, each of the group and none from before the caller
    joined it, with the same hiding of deleted and suspended ones. *)
Theorem group_page_hides (me g : uuid) (q : HistoryQuery) (w : World) (ms : list MessageMetaDataRes) (w' : World) :
  GroupMessages me g q w = (Ok ms, w') →
  (grp_IsMember g me w).1 = Ok true ∧ (length ms ≤ 100)%nat ∧
  ∀ m, m ∈ ms → ∃ row, groupmessage (w_db w) !! mr_ID m = Some row ∧ in_group g row = true ∧
    (∃ mt, member_table (w_db w) !! (g, me) = Some mt ∧ m_JoinedAt mt <= gm_CreatedAt row) ∧
    shows (banned_view w) (gm_FromID row) (gm_Content row) (bool_decide (is_Some (gm_DeletedAt row))) m.
Proof.
  intros (msgs & w1 & Hh & Hs)%bind_ok_inv. apply group_page_rows in Hh as (Hban & Hmem & rows & -> & Hlen & Hrows).
  apply withState_spec in Hs as (counts & att & banned & -> & Hb). rewrite (banned_view_eq _ _ Hban) in Hb.
  split; [done|]. split; [by rewrite length_fmap; unfold fromPublic; rewrite length_fmap|].
  intros m (m0 & -> & Hm0)%list_elem_of_fmap. pose proof Hm0 as (r & -> & Hr)%list_elem_of_fmap.
  destruct (Hrows r Hr) as (Hrow & Hin & Hmt). exists r.2. split; [done|]. split; [done|]. split; [done|].
  eapply shown_shows; try done.
Qed.
End pages.
