(* ===== verification/Search.v ===== *)
(** * Search: finding messages, groups and people (src/internal/search/search.go,
    src/internal/discover/discover.go, and the searches of groups and users) *)

From S2P Require Import Prelude GoLib Types Db Users_Model Groups_Model World Groups_Repo Groups_Service.
From S2P Require Import Sql_Chat Sql_Users Sql_Admin Sql_Search Friends_Props Chat_Model Chat_Repo Chat_Access Chat_Pages.

#[local] Open Scope Z_scope.

(** ** Messages: search.go *)

Definition defaultLimit : Z := 20.
Definition maxLimit : Z := 50.
Definition maxQuery : Z := 100.
Definition minGlobalQuery : Z := 3.
Definition minChatQuery : Z := 2.

Definition ErrBadQuery : error := ErrNew "search" "q must be 3-100 characters (2 when searching one chat)".
Definition ErrBadParams : error := ErrNew "search"
  "type must be private or public with chat_id; after and before must be RFC3339 (after earlier than before); limit 1-50".

Record Hit := mk_Hit {
  hit_MessageID : uuid;
  hit_Type : string;
  hit_ChatID : uuid;
  hit_FromID : uuid;
  hit_Content : string;
  hit_CreatedAt : time;
}.

Record Query := mk_Query {
  qu_Q : string;
  qu_Type : string;
  qu_ChatID : uuid;
  qu_Before : time;       (* zero_time: newest *)
  qu_BeforeID : uuid;
  qu_After : time;        (* zero_time: no lower bound *)
  qu_Limit : Z;
}.

(** uuid.Max *)
Definition maxID : uuid := (2 ^ 128 - 1)%N.

Section search.
Context {ulib : UuidLib} {lower : GoLower} {pgt : PgText} {pgs : PgSearch}.

(** The checks of [Search]: the text, and the limit. *)
Definition check_query (q : Query) : result (string * Z) :=
  let text := ToLower (TrimSpace (qu_Q q)) in
  let n := RuneCountInString text in
  let min := if decide (qu_Type q = EmptyString) then minGlobalQuery else minChatQuery in
  let lim := if qu_Limit q =? 0 then defaultLimit else qu_Limit q in
  if (n <? min) || (n >? maxQuery) then Err ErrBadQuery
  else if negb (qu_After q =? zero_time) && negb (qu_Before q =? zero_time) && negb (qu_After q <? qu_Before q) then Err ErrBadParams
  else if (lim <? 1) || (lim >? maxLimit) ||
          (negb (bool_decide (qu_Type q = EmptyString)) && negb (bool_decide (qu_Type q = "private")) &&
           negb (bool_decide (qu_Type q = "public"))) ||
          xorb (negb (bool_decide (qu_Type q = EmptyString))) (negb (bool_decide (qu_ChatID q = uuid_nil)))
  then Err ErrBadParams
  else Ok (text, lim).

(** What both statements are asked; a few more rows than wanted, since those of suspended
    senders are dropped. *)
Definition params (me : uuid) (q : Query) (text : string) (lim : Z) (now : time) (only : string) : SearchParams :=
  mk_SearchParams me (escapeLike text) (if decide (qu_Type q = only) then Some (qu_ChatID q) else None)
    (pgTime (if qu_Before q =? zero_time then now + hour else qu_Before q))
    (if decide (qu_BeforeID q = uuid_nil) then maxID else qu_BeforeID q)
    (if qu_After q =? zero_time then None else Some (pgTime (qu_After q)))
    (lim + 5).

Definition private_hit (me : uuid) (e : uuid * Message) : Hit :=
  let from := uuidBytes (pm_FromID e.2) in let to := uuidBytes (pm_ToID e.2) in
  mk_Hit e.1 "private" (if decide (to = me) then from else to) from (default EmptyString (pm_Content e.2)) (pm_CreatedAt e.2).
Definition group_hit (e : uuid * Groupmessage) : Hit :=
  mk_Hit e.1 "public" (uuidBytes (gm_GroupID e.2)) (uuidBytes (gm_FromID e.2)) (default EmptyString (gm_Content e.2)) (gm_CreatedAt e.2).

(** Newest first, then by the text of the id, the greatest first. *)
Definition hit_le (a b : Hit) : bool :=
  (hit_CreatedAt b <? hit_CreatedAt a) ||
  ((hit_CreatedAt a =? hit_CreatedAt b) && String.leb (uuid_string (hit_MessageID b)) (uuid_string (hit_MessageID a))).

Definition Search (me : uuid) (q : Query) : M World (list Hit) :=
  checked ← lift_result (check_query q);
  let '(text, lim) := checked in
  now ← Now;
  priv ← (if bool_decide (qu_Type q = EmptyString) || bool_decide (qu_Type q = "private")
          then query (SearchPrivateMessages (params me q text lim now "private")) else mret []);
  pub ← (if bool_decide (qu_Type q = EmptyString) || bool_decide (qu_Type q = "public")
         then query (SearchGroupMessages (params me q text lim now "public")) else mret []);
  let hits := (private_hit me <$> priv) ++ (group_hit <$> pub) in
  banned ← Suspended (List.filter (λ u, negb (bool_decide (u = uuid_nil))) (hit_FromID <$> hits));
  mret (take (Z.to_nat lim) (order_by hit_le (slices_delete (λ h, bool_decide (hit_FromID h ∈ banned)) hits))).

(** ** Groups *)

(** [groupRepo.Search] *)
Definition Groups_SearchPublic (viewer : uuid) (q : string) : M World (list GroupPreview) :=
  rows ← query (SearchPublicGroups viewer q);
  mret ((λ e : uuid * ChatGroup * bool,
           let g := e.1.2 in
           let p := preview e.1.1 (g_Name g) (g_Description g) (g_MaxMember g) (g_CurrentMember g) Public (g_AvatarAt g) in
           mk_GroupPreview (gp_ID p) (gp_Name p) (gp_Description p) (gp_MaxMembers p) (gp_MemberCount p) (gp_Visibility p)
             (gp_AvatarURL p) (Some e.2)) <$> rows).

(** [groupService.Search] *)
Definition Groups_Search (viewer : uuid) (q : string) : M World (list GroupPreview) :=
  let q := ToLower (TrimSpace q) in
  let n := RuneCountInString q in
  if (n <? 2) || (n >? maxGroupNameLen) then throw ErrBadSearch
  else Groups_SearchPublic viewer (escapeLike q).

(** [groupRepo.ListForUser], [groupService.MyGroups] *)
Definition MyGroups (userID : uuid) : M World (list GroupSummary) :=
  rows ← query (ListGroupsForUser userID);
  mret ((λ e : uuid * ChatGroup * MemberTable,
           let g := e.1.2 in
           mk_GroupSummary e.1.1 (g_Name g) (g_Description g) (g_MaxMember g) (g_CurrentMember g) (g_Visibility g)
             (m_Role e.2) (m_Permissions e.2) (AvatarURL e.1.1 (g_AvatarAt g))) <$> rows).

(** ** People *)

Record PublicUser := mk_PublicUser { pu_ID : uuid; pu_Name : string; pu_DisplayName : string; pu_AvatarURL : option string }.

(** [userRepo.SearchByName] *)
Definition SearchByName (me : uuid) (q : string) : M World (list PublicUser) :=
  rows ← query (SearchNameSiml q me);
  mret ((λ e : uuid * User, mk_PublicUser e.1 (u_name e.2) (ShownName (u_name e.2) (u_display_name e.2))
                              (AvatarURLFrom e.1 (u_avatar_at e.2))) <$> rows).

Definition maxNameLen : Z := 25.

(** [userService.SearchUser] *)
Definition SearchUser (me : uuid) (q : string) : M World (list PublicUser) :=
  let q := TrimSpace q in
  if bool_decide (q = EmptyString) || (RuneCountInString q >? maxNameLen) then throw ErrInvalidInput
  else SearchByName me q.

(** ** Suggestions: discover.go *)

Definition ErrNotDiscoverable : error :=
  ErrNew "discover" ("turn on " +:+ quoted "discoverable" +:+ " in your profile to see suggestions")%string.

Record Suggestion := mk_Suggestion {
  sg_ID : uuid;
  sg_Name : string;
  sg_DisplayName : string;
  sg_AvatarURL : option string;
  sg_Location : option Catalog.Place;
  sg_SharedInterests : list string;
  sg_MutualFriends : Z;
}.

Definition suggestion (r : DiscoverSuggestionsRow) : Suggestion :=
  let u := ds_User r in
  mk_Suggestion (ds_ID r) (u_name u) (ShownName (u_name u) (u_display_name u)) (AvatarURLFrom (ds_ID r) (u_avatar_at u))
    (PlaceOf (default EmptyString (u_location_id u))) (ds_SharedInterests r) (ds_MutualFriends r).

Definition Suggestions (me : uuid) (limit page : Z) : M World (list Suggestion) :=
  u ← no_rows_as ErrUserNotFound (query (GetUserInfoByID me));
  if negb (u_discoverable u) then throw ErrNotDiscoverable
  else
    rows ← query (DiscoverSuggestions (wrap 32 (page * limit)) (wrap 32 limit) me);
    mret (suggestion <$> rows).
End search.

(** ** LIKE on an escaped text *)

(** [t] occurs in [s]. *)
Definition contains_text (s t : string) : Prop := ∃ a b, s = (a +:+ t +:+ b)%string.

Lemma match_any s p : like_matches s (37 :: p) ↔ ∃ a s', s = a ++ s' ∧ like_matches s' p.
Proof.
  split; [|intros (a & s' & -> & H); by constructor].
  intros H. inversion H; subst; [by eexists _, _|set_solver].
Qed.

Lemma match_escaped_byte c s p : like_matches s (escape_byte c ++ p) ↔ ∃ s', s = c :: s' ∧ like_matches s' p.
Proof.
  unfold escape_byte. destruct ((c =? 92) || (c =? 37) || (c =? 95)) eqn:E; simpl; split.
  - intros H. inversion H; subst; [by eexists|set_solver].
  - intros (s' & -> & H). by constructor.
  - intros H. inversion H; subst; simpl in E; try discriminate. by eexists.
  - intros (s' & -> & H). constructor; [|done]. rewrite !elem_of_cons, elem_of_nil. lia.
Qed.

Lemma match_escaped t s p : like_matches s (mbind (M := list) escape_byte t ++ p) ↔ ∃ s', s = t ++ s' ∧ like_matches s' p.
Proof.
  revert s. induction t as [|c t IH]; intros s; simpl; [naive_solver|].
  rewrite <- (assoc_L app), match_escaped_byte. setoid_rewrite IH. naive_solver.
Qed.

Lemma like_contains `{PgSearchLaws} s t : like s ("%" +:+ escapeLike t +:+ "%")%string = true ↔ contains_text s t.
Proof.
  rewrite like_documented, !bytes_of_app. unfold escapeLike. rewrite byte_string_byte.
  2: { apply Forall_bind. eapply Forall_impl; [apply bytes_of_byte|]. intros b Hb. unfold compose, escape_byte.
       destruct ((b =? 92) || (b =? 37) || (b =? 95)); rewrite !Forall_cons, Forall_nil; cbn beta in *; lia. }
  change (bytes_of "%") with [37]. cbn [app]. rewrite match_any. setoid_rewrite match_escaped. setoid_rewrite match_any.
  split.
  - intros (a & s1 & Hs & s2 & -> & b & s3 & -> & Hend). inversion Hend; subst s3. rewrite app_nil_r in Hs.
    assert (∀ x y z, bytes_of s = x ++ y ++ z → Forall (λ b, 0 <= b < 256) x ∧ Forall (λ b, 0 <= b < 256) z) as Hr.
    { intros x y z E. pose proof (bytes_of_byte s) as R. rewrite E in R. apply Forall_app in R as [? R]. by apply Forall_app in R as [? ?]. }
    destruct (Hr _ _ _ Hs) as [Ha Hb]. exists (string_of a), (string_of b). apply bytes_of_inj.
    by rewrite !bytes_of_app, !byte_string_byte.
  - intros (a & b & ->). rewrite !bytes_of_app. eexists _, _. split; [done|]. eexists. split; [done|].
    exists (bytes_of b), []. split; [by rewrite app_nil_r|constructor].
Qed.

(** ** The newest of a list *)

Section newest.
Context {A : Type} (key : A → Z).

Lemma order_by_newest (le : A → A → bool) l : (∀ x y, le x y = true ∨ le y x = true) → (∀ x y, le x y = true → key y <= key x) →
  StronglySorted (λ x y, key y <= key x) (order_by le l).
Proof.
  intros Htot Hle. apply Sorted_StronglySorted; [intros x y z; lia|].
  assert (Total (le_rel le)) by exact Htot. pose proof (Sorted_merge_sort (le_rel le) l) as Hs.
  unfold order_by. induction Hs as [|x l' Hs IH Hhd]; constructor; [done|].
  destruct Hhd; constructor. by apply Hle.
Qed.

Lemma sorted_split l1 l2 : StronglySorted (λ x y, key y <= key x) (l1 ++ l2) → ∀ x y, x ∈ l1 → y ∈ l2 → key y <= key x.
Proof.
  induction l1 as [|a l1 IH]; simpl; intros Hs x y Hx Hy; [by apply not_elem_of_nil in Hx|].
  apply StronglySorted_inv in Hs as [Hs Ha]. apply elem_of_cons in Hx as [->|Hx]; [|by apply IH].
  rewrite Forall_forall in Ha. apply Ha, elem_of_app. by right.
Qed.

Lemma filter_none (p : A → bool) (l : list A) : (∀ x, x ∈ l → p x = false) → List.filter p l = [].
Proof.
  induction l as [|x l IH]; simpl; intros H; [done|]. rewrite H by by left. apply IH. intros y Hy. apply H. by right.
Qed.

(** With [n] elements no older than [k], the [n] newest are no older than [k]. *)
Lemma newest_taken l n k : StronglySorted (λ x y, key y <= key x) l → (n ≤ length (List.filter (λ x, (k <=? key x)%Z) l))%nat →
  length (take n l) = n ∧ ∀ y, y ∈ take n l → k <= key y.
Proof.
  intros Hs Hn. pose proof (List.filter_length_le (λ x, (k <=? key x)%Z) l). split; [rewrite length_take; lia|].
  intros y Hy. apply elem_of_take in Hy as (i & Hi & Hin). destruct (Z.le_gt_cases k (key y)) as [|Hlt]; [done|].
  rewrite <- (take_drop i l), List.filter_app, length_app in Hn.
  assert (List.filter (λ x, (k <=? key x)%Z) (drop i l) = []) as Hnil.
  { rewrite <- (take_drop i l) in Hs. rewrite (drop_S _ _ _ Hi) in *. apply filter_none. intros z Hz.
    apply elem_of_cons in Hz as [->|Hz]; [lia|].
    rewrite (cons_middle y), (assoc_L app) in Hs. pose proof (sorted_split _ _ Hs y z) as Hle.
    assert (key z <= key y) by (apply Hle; [apply elem_of_app; right; by left|done]). lia. }
  rewrite Hnil in Hn. pose proof (List.filter_length_le (λ x, (k <=? key x)%Z) (take i l)). rewrite length_take in *. simpl in Hn. lia.
Qed.

(** Of the [n + k] newest at least [n] are good when at most [k] of them are bad; and an element
    that is not among them is no newer than they are. *)
Lemma taken_newer l m x y : StronglySorted (λ x y, key y <= key x) l → x ∈ drop m l → y ∈ take m l → key x <= key y.
Proof. intros Hs Hx Hy. rewrite <- (take_drop m l) in Hs. by apply (sorted_split _ _ Hs). Qed.

Lemma good_taken l (bad : A → bool) n k x : StronglySorted (λ x y, key y <= key x) l → x ∈ drop (n + k) l →
  (length (List.filter bad (take (n + k) l)) ≤ k)%nat →
  (n ≤ length (List.filter (λ y, (key x <=? key y)%Z) (List.filter (λ y, negb (bad y)) (take (n + k) l))))%nat.
Proof.
  intros Hs Hx Hbad.
  assert (length (take (n + k) l) = (n + k)%nat) as Hlen.
  { rewrite length_take. destruct (decide (n + k ≤ length l)%nat); [lia|]. rewrite drop_ge in Hx by lia. by apply not_elem_of_nil in Hx. }
  assert (List.filter (λ y, (key x <=? key y)%Z) (List.filter (λ y, negb (bad y)) (take (n + k) l)) = List.filter (λ y, negb (bad y)) (take (n + k) l)) as ->.
  { apply List.forallb_filter_id, List.forallb_forall. intros y Hy%list_elem_of_In. apply list_elem_of_In, List.filter_In in Hy as [Hy%list_elem_of_In _].
    apply Z.leb_le. by apply (taken_newer l (n + k)). }
  pose proof (List.filter_length bad (take (n + k) l)). lia.
Qed.
End newest.


Lemma filter_permuted {A} (p : A → bool) (l l' : list A) : l ≡ₚ l' → length (List.filter p l) = length (List.filter p l').
Proof. induction 1 as [|x l l' _ IH|x y l|l1 l2 l3 _ IH1 _ IH2]; simpl; [done| | |congruence]; [destruct (p x); simpl; congruence|by destruct (p x), (p y)]. Qed.

(** ** What a search may find *)

Section finds.
Context {ulib : UuidLib} {lower : GoLower} {pgt : PgText} {pgs : PgSearch} {plaws : PgSearchLaws pgs}.

(** Before the cursor, and not before the lower bound. *)
Definition within (q : Query) (now : time) (id : uuid) (created : time) : Prop :=
  let before := pgTime (if qu_Before q =? zero_time then now + hour else qu_Before q) in
  let last := if decide (qu_BeforeID q = uuid_nil) then maxID else qu_BeforeID q in
  (created < before ∨ (created = before ∧ (id < last)%N)) ∧ (qu_After q ≠ zero_time → pgTime (qu_After q) <= created).

(** The text asked for is in the message, and the message was not deleted. *)
Definition says (q : Query) (content : option string) (deleted : option time) : Prop :=
  deleted = None ∧ ∃ s, content = Some s ∧ contains_text (pg_lower s) (ToLower (TrimSpace (qu_Q q))).

(** A private message of mine, with the other of the chat if one was named. *)
Definition private_findable (me : uuid) (q : Query) (now : time) (id : uuid) (m : Message) : Prop :=
  (pm_FromID m = Some me ∨ pm_ToID m = Some me) ∧
  (qu_Type q = "private" → (pm_FromID m = Some me ∧ pm_ToID m = Some (qu_ChatID q)) ∨
                           (pm_ToID m = Some me ∧ pm_FromID m = Some (qu_ChatID q))) ∧
  says q (pm_Content m) (pm_DeletedAt m) ∧ within q now id (pm_CreatedAt m).

(** A message of a group I am in, sent since I joined, of the group named if one was. *)
Definition group_findable (me : uuid) (q : Query) (now : time) (d : DB) (id : uuid) (m : Groupmessage) : Prop :=
  (∃ g mt, gm_GroupID m = Some g ∧ member_table d !! (g, me) = Some mt ∧ m_JoinedAt mt <= gm_CreatedAt m ∧
           (qu_Type q = "public" → g = qu_ChatID q)) ∧
  gm_Searchable m = true ∧ says q (gm_Content m) (gm_DeletedAt m) ∧ within q now id (gm_CreatedAt m).

Inductive findable (me : uuid) (q : Query) (now : time) (d : DB) : Hit → Prop :=
  | find_private id m : qu_Type q ≠ "public" → message d !! id = Some m → private_findable me q now id m →
      findable me q now d (private_hit me (id, m))
  | find_public id m : qu_Type q ≠ "private" → groupmessage d !! id = Some m → group_findable me q now d id m →
      findable me q now d (group_hit (id, m)).

(** Messages of suspended senders are left out. *)
Definition hidden (w : World) (h : Hit) : Prop := hit_FromID h ≠ uuid_nil ∧ hit_FromID h ∈ banned_view w.
#[export] Instance hidden_dec w h : Decision (hidden w h).
Proof. unfold hidden. apply _. Defined.

Lemma search_row_says me q text lim now only id content deleted created : text = ToLower (TrimSpace (qu_Q q)) →
  search_row (sp_Q (params me q text lim now only))
    (sp_BeforeAt (params me q text lim now only), sp_BeforeID (params me q text lim now only))
    (sp_AfterAt (params me q text lim now only)) id content deleted created = true ↔
  says q content deleted ∧ within q now id created.
Proof.
  intros ->. unfold search_row, says, within. rewrite !andb_true_iff, bool_decide_eq_true. cbn [params sp_Q sp_BeforeAt sp_BeforeID sp_AfterAt].
  assert (from_option (λ s, lower_like s (escapeLike (ToLower (TrimSpace (qu_Q q))))) false content = true ↔
          ∃ s, content = Some s ∧ contains_text (pg_lower s) (ToLower (TrimSpace (qu_Q q)))) as ->.
  { destruct content as [s|]; simpl; [|naive_solver]. unfold lower_like. rewrite like_contains. naive_solver. }
  assert (∀ a b, row_lt (created, id) (a, b) = true ↔ created < a ∨ (created = a ∧ (id < b)%N)) as ->.
  { intros a b. unfold row_lt; simpl. rewrite orb_true_iff, andb_true_iff, Z.ltb_lt, Z.eqb_eq, N.ltb_lt. done. }
  assert (from_option (λ a, a <=? created) true (if qu_After q =? zero_time then None else Some (pgTime (qu_After q))) = true ↔
          (qu_After q ≠ zero_time → pgTime (qu_After q) <= created)) as ->.
  { destruct (Z.eqb_spec (qu_After q) zero_time); simpl; [naive_solver|]. rewrite Z.leb_le. naive_solver. }
  tauto.
Qed.

Lemma private_match_iff me q lim now id m : 
  private_match (params me q (ToLower (TrimSpace (qu_Q q))) lim now "private") id m = true ↔ private_findable me q now id m.
Proof.
  unfold private_match, private_findable. cbv zeta.
  rewrite !andb_true_iff, orb_true_iff, !bool_decide_eq_true, (search_row_says _ _ _ _ _ _ _ _ _ _ eq_refl).
  cbn [params sp_Me sp_Chat]. destruct (decide (qu_Type q = "private")) as [E|E]; simpl.
  - rewrite orb_true_iff, !andb_true_iff, !bool_decide_eq_true. tauto.
  - tauto.
Qed.

Lemma group_match_iff me q lim now d id m :
  group_match (params me q (ToLower (TrimSpace (qu_Q q))) lim now "public") d id m = true ↔ group_findable me q now d id m.
Proof.
  unfold group_match, group_findable. destruct (gm_GroupID m) as [g|] eqn:Hg; cbn [mbind option_bind]; [|naive_solver].
  change (sp_Me (params _ _ _ _ _ _)) with me.
  destruct (member_table d !! (g, me)) as [mt|] eqn:Hmt; [|naive_solver].
  rewrite !andb_true_iff, (search_row_says _ _ _ _ _ _ _ _ _ _ eq_refl), Z.leb_le.
  cbn [params sp_Chat]. split.
  - intros [[[Hs H] Hj] Hc]. split; [|done]. exists g, mt. split_and!; try done. intros E. rewrite decide_True in Hc by done.
    simpl in Hc. apply bool_decide_eq_true in Hc. congruence.
  - intros [(g' & mt' & E1 & E2 & Hj & Hc) (Hs & H)]. simplify_eq. split; [by split; [split|]|]. destruct (decide (qu_Type q = "public")) as [E|E]; simpl; [|done].
    apply bool_decide_eq_true. f_equal. by apply Hc.
Qed.

(** The rows asked of the two tables. *)
Definition private_rows (me : uuid) (q : Query) (lim : Z) (now : time) (d : DB) : list (uuid * Message) :=
  if bool_decide (qu_Type q = EmptyString) || bool_decide (qu_Type q = "private")
  then order_by (newest_id pm_key) (select (private_match (params me q (ToLower (TrimSpace (qu_Q q))) lim now "private")) (message d)) else [].
Definition group_rows (me : uuid) (q : Query) (lim : Z) (now : time) (d : DB) : list (uuid * Groupmessage) :=
  if bool_decide (qu_Type q = EmptyString) || bool_decide (qu_Type q = "public")
  then order_by (newest_id gm_key) (select (group_match (params me q (ToLower (TrimSpace (qu_Q q))) lim now "public") d) (groupmessage d)) else [].

Lemma type_checked q text lim : check_query q = Ok (text, lim) →
  text = ToLower (TrimSpace (qu_Q q)) ∧ 1 <= lim <= maxLimit ∧ lim = (if qu_Limit q =? 0 then defaultLimit else qu_Limit q) ∧
  (bool_decide (qu_Type q = EmptyString) || bool_decide (qu_Type q = "private") = true ↔ qu_Type q ≠ "public") ∧
  (bool_decide (qu_Type q = EmptyString) || bool_decide (qu_Type q = "public") = true ↔ qu_Type q ≠ "private").
Proof.
  unfold check_query. cbv zeta. set (lim0 := if qu_Limit q =? 0 then _ else _).
  destruct ((_ <? _) || _); [done|]. destruct (negb _ && _ && _); [done|].
  destruct ((lim0 <? 1) || (lim0 >? maxLimit)) eqn:Hl; simpl; [done|].
  destruct (decide (qu_Type q = EmptyString)) as [E|E]; [|destruct (decide (qu_Type q = "private")) as [E'|E'];
    [|destruct (decide (qu_Type q = "public")) as [E''|E'']]].
  all: repeat match goal with |- context [bool_decide ?P] => destruct (bool_decide_reflect P); try congruence end; simpl.
  all: destruct (xorb _ _) || idtac; try done; intros E0; injection E0 as <- <-.
  all: split_and!; try done; try (split; intros; congruence); lia.
Qed.

Lemma elem_of_rows me q lim now d h : check_query q = Ok (ToLower (TrimSpace (qu_Q q)), lim) →
  findable me q now d h ↔ h ∈ (private_hit me <$> private_rows me q lim now d) ++ (group_hit <$> group_rows me q lim now d).
Proof.
  intros (_ & _ & _ & Hp & Hg)%type_checked. unfold private_rows, group_rows.
  rewrite elem_of_app, !list_elem_of_fmap. split.
  - intros [id m Ht Hm Hf|id m Ht Hm Hf]; [left|right]; exists (id, m); split; try done.
    + apply Hp in Ht as ->. by rewrite elem_of_order_by, elem_of_select, private_match_iff.
    + apply Hg in Ht as ->. by rewrite elem_of_order_by, elem_of_select, group_match_iff.
  - destruct (bool_decide (qu_Type q = EmptyString) || bool_decide (qu_Type q = "private"));
      destruct (bool_decide (qu_Type q = EmptyString) || bool_decide (qu_Type q = "public"));
      intros [([id m] & -> & He)|([id m] & -> & He)]; try by apply not_elem_of_nil in He.
    all: rewrite elem_of_order_by, elem_of_select in He; simpl in He; rewrite ?private_match_iff, ?group_match_iff in He; destruct He as [? ?].
    all: constructor; naive_solver.
Qed.

(** What [Search] answers, from the rows. *)
Definition found (me : uuid) (q : Query) (lim : Z) (now : time) (w : World) : list Hit :=
  List.filter (λ h, negb (bool_decide (hidden w h)))
    ((private_hit me <$> limit (lim + 5) (private_rows me q lim now (w_db w))) ++
     (group_hit <$> limit (lim + 5) (group_rows me q lim now (w_db w)))).

Lemma list_filter_ext_in {A} (p p' : A → bool) l : (∀ x, x ∈ l → p x = p' x) → List.filter p l = List.filter p' l.
Proof. intros H. apply List.filter_ext_in. intros x Hx%list_elem_of_In. by apply H. Qed.

Lemma suspended_reads ids : leaves w_db (Suspended ids).
Proof.
  assert (inert w_db) as Hi by by split. unfold Suspended, banned_get.
  repeat match goal with |- leaves _ (query AllBannedUsers) => apply leaves_read; [by intros x w|by intros d r d' [= _ <-]] | _ => quiet end.
Qed.

Lemma Search_ok me q w hits w' : Search me q w = (Ok hits, w') →
  ∃ lim, check_query q = Ok (ToLower (TrimSpace (qu_Q q)), lim) ∧ w_db w' = w_db w ∧
    hits = take (Z.to_nat lim) (order_by hit_le (found me q lim (w_now w) w)).
Proof.
  unfold Search. intros ([text lim] & w1 & Hc & Hrun)%bind_ok_inv.
  assert (check_query q = Ok (text, lim) ∧ w1 = w) as [Hq ->] by (unfold lift_result in Hc; destruct (check_query q); by simplify_eq).
  pose proof (type_checked _ _ _ Hq) as (-> & _). exists lim. split; [done|]. clear Hc.
  apply bind_ok_inv in Hrun as (now & w1 & Hn & Hrun). unfold Now, get in Hn. injection Hn as <- <-.
  apply bind_ok_inv in Hrun as (priv & w1 & Hp & Hrun). apply bind_ok_inv in Hrun as (pub & w2 & Hg & Hrun).
  assert (priv = limit (lim + 5) (private_rows me q lim (w_now w) (w_db w)) ∧ w_db w1 = w_db w ∧ ban_view w1 = ban_view w) as (-> & Hd1 & Hv1).
  { unfold private_rows. destruct (bool_decide (qu_Type q = EmptyString) || bool_decide (qu_Type q = "private")).
    - apply query_ok in Hp as (fs & d & Hq' & ->). unfold SearchPrivateMessages in Hq'. by simplify_eq.
    - unfold mret, M_ret in Hp. injection Hp as <- <-. split; [|done]. unfold limit. by rewrite take_nil. }
  assert (pub = limit (lim + 5) (group_rows me q lim (w_now w) (w_db w)) ∧ w_db w2 = w_db w ∧ ban_view w2 = ban_view w) as (-> & Hd2 & Hv2).
  { unfold group_rows. rewrite <- Hd1, <- Hv1.
    destruct (bool_decide (qu_Type q = EmptyString) || bool_decide (qu_Type q = "public")).
    - apply query_ok in Hg as (fs & d & Hq' & ->). unfold SearchGroupMessages in Hq'. by simplify_eq.
    - unfold mret, M_ret in Hg. injection Hg as <- <-. split; [|done]. unfold limit. by rewrite take_nil. }
  cbv zeta in Hrun. apply bind_ok_inv in Hrun as (banned & w3 & Hb & Hrun). unfold mret, M_ret in Hrun. injection Hrun as <- <-.
  pose proof (suspended_spec _ _ _ _ Hb) as Hspec. epose proof (suspended_reads _ w2) as Hd3. erewrite Hb in Hd3. simpl in Hd3.
  split; [congruence|]. do 2 f_equal. unfold found, slices_delete. apply list_filter_ext_in. intros h Hh. f_equal.
  apply bool_decide_ext. unfold hidden. rewrite Hspec, <- (banned_view_eq _ _ Hv2), list_elem_of_In, List.filter_In, <- list_elem_of_In.
  rewrite negb_true_iff, bool_decide_eq_false. split; [tauto|]. intros [Hn Hb']. split; [|done]. split; [|done].
  apply list_elem_of_fmap. by exists h.
Qed.

Lemma hit_le_total a b : hit_le a b = true ∨ hit_le b a = true.
Proof.
  unfold hit_le. destruct (Z.lt_trichotomy (hit_CreatedAt a) (hit_CreatedAt b)) as [H|[H|H]].
  - right. apply orb_true_iff. left. lia.
  - rewrite H, Z.ltb_irrefl, Z.eqb_refl. apply or_comm, String.leb_total.
  - left. apply orb_true_iff. left. lia.
Qed.

Lemma hit_le_newest a b : hit_le a b = true → hit_CreatedAt b <= hit_CreatedAt a.
Proof. unfold hit_le. intros [H|[H _]%andb_true_iff]%orb_true_iff; lia. Qed.

Lemma elem_of_found me q lim w h : check_query q = Ok (ToLower (TrimSpace (qu_Q q)), lim) →
  h ∈ found me q lim (w_now w) w → findable me q (w_now w) (w_db w) h ∧ ¬ hidden w h.
Proof.
  intros Hq. unfold found. rewrite list_elem_of_In, List.filter_In, <- list_elem_of_In, negb_true_iff, bool_decide_eq_false.
  intros [Hh Hn]. split; [|done]. apply (elem_of_rows _ _ _ _ _ _ Hq). unfold limit in Hh.
  rewrite elem_of_app, !list_elem_of_fmap in Hh |- *.
  destruct Hh as [(e & -> & He)|(e & -> & He)]; [left|right]; exists e; (split; [done|]); by eapply subseteq_take.
Qed.

(** More than five matches of suspended senders, no older than [h], among those in [all]. *)
Definition crowded_out (w : World) (all : Hit → Prop) (h : Hit) : Prop :=
  ∃ l, NoDup l ∧ (5 < length l)%nat ∧ ∀ x, x ∈ l → all x ∧ hidden w x ∧ hit_CreatedAt h <= hit_CreatedAt x.

(** One table: a row that is not hidden is among those read, or as many as wanted that are no
    older are, or more than five hidden ones are in the way. *)
Lemma rows_enough {R} (f : R → Hit) (rows : list R) lim w h : 0 <= lim → NoDup (hit_MessageID ∘ f <$> rows) →
  StronglySorted (λ x y, hit_CreatedAt (f y) <= hit_CreatedAt (f x)) rows → h ∈ f <$> rows →
  h ∈ f <$> limit (lim + 5) rows ∨
  (Z.to_nat lim ≤ length (List.filter (λ x, (hit_CreatedAt h <=? hit_CreatedAt x)%Z)
     (List.filter (λ x, negb (bool_decide (hidden w x))) (f <$> limit (lim + 5) rows))))%nat ∨
  crowded_out w (λ x, x ∈ f <$> rows) h.
Proof.
  intros Hlim Hnd Hs (e & -> & He)%list_elem_of_fmap.
  assert (limit (lim + 5) rows = take (Z.to_nat lim + 5) rows) as E by (unfold limit; f_equal; lia). rewrite E.
  rewrite <- (take_drop (Z.to_nat lim + 5) rows) in He. apply elem_of_app in He as [He|He]; [left; by apply list_elem_of_fmap_2|right].
  set (bad := List.filter (λ r, bool_decide (hidden w (f r))) (take (Z.to_nat lim + 5) rows)).
  destruct (decide (length bad ≤ 5)%nat) as [Hfew|Hmany]; [left|right].
  - assert (∀ (p : Hit → bool) m, List.filter p (f <$> m) = f <$> List.filter (λ r, p (f r)) m) as Hcomm.
    { intros p m. induction m as [|r m IH]; [done|]. rewrite fmap_cons. cbn [List.filter]. rewrite IH. by destruct (p (f r)). }
    rewrite !Hcomm, length_fmap.
    apply (good_taken (λ r, hit_CreatedAt (f r)) rows (λ r, bool_decide (hidden w (f r))) (Z.to_nat lim) 5 e Hs He Hfew).
  - exists (f <$> bad). split_and!; [|rewrite length_fmap; lia|].
    + apply (NoDup_fmap_1 hit_MessageID). rewrite <- list_fmap_compose. unfold bad. clear -Hnd.
      rewrite <- (take_drop (Z.to_nat lim + 5) rows), fmap_app in Hnd. apply NoDup_app in Hnd as (Hnd & _).
      induction (take _ rows) as [|r l IH]; cbn [List.filter]; [constructor|]. apply NoDup_cons in Hnd as [Hr Hnd]. specialize (IH Hnd).
      destruct (bool_decide _); [|done]. constructor; [|done]. intros (x & E & Hx)%list_elem_of_fmap. apply Hr, list_elem_of_fmap.
      apply list_elem_of_In, List.filter_In in Hx as [Hx%list_elem_of_In _]. by exists x.
    + intros x (r & -> & Hr)%list_elem_of_fmap. apply list_elem_of_In, List.filter_In in Hr as [Hr%list_elem_of_In Hb%bool_decide_eq_true].
      split_and!; [apply list_elem_of_fmap_2; by eapply subseteq_take|done|]. by apply (taken_newer (λ r, hit_CreatedAt (f r)) rows _ _ _ Hs He).
Qed.

Lemma crowded_mono w (all all' : Hit → Prop) h : (∀ x, all x → all' x) → crowded_out w all h → crowded_out w all' h.
Proof. intros H (l & Hn & Hl & Hall). exists l. split_and!; [done..|]. intros x Hx. destruct (Hall x Hx) as (? & ? & ?). auto. Qed.

Lemma NoDup_ids {V} (f : uuid * V → Hit) (p : uuid → V → bool) (t : gmap uuid V) :
  (∀ e, hit_MessageID (f e) = e.1) → NoDup (hit_MessageID ∘ f <$> select p t).
Proof.
  intros Hf. rewrite (list_fmap_ext _ fst) by (intros i e _; apply Hf). unfold select.
  pose proof (NoDup_fst_map_to_list t) as Hn. induction (map_to_list t) as [|[k v] l IH]; simpl; [constructor|].
  apply NoDup_cons in Hn as [Hk Hn]. specialize (IH Hn). destruct (p k v); [|done]. simpl. constructor; [|done].
  intros ([k' v'] & E & Hx)%list_elem_of_fmap. simpl in E. subst k'. apply Hk, list_elem_of_fmap.
  apply list_elem_of_In, List.filter_In in Hx as [Hx%list_elem_of_In _]. by exists (k, v').
Qed.

Lemma newest_id_sorted {R} (key : R → time * uuid) rows : StronglySorted (λ x y, (key y).1 <= (key x).1) (order_by (newest_id key) rows).
Proof.
  apply (order_by_newest (λ x, (key x).1)); intros x y; unfold newest_id; [apply row_le_total|rewrite row_le_iff; lia].
Qed.

Lemma private_rows_ok me q lim now d : NoDup (hit_MessageID ∘ private_hit me <$> private_rows me q lim now d) ∧
  StronglySorted (λ x y, hit_CreatedAt (private_hit me y) <= hit_CreatedAt (private_hit me x)) (private_rows me q lim now d).
Proof.
  unfold private_rows. destruct (_ || _); [|split; constructor]. split; [|apply (newest_id_sorted pm_key)].
  rewrite order_by_permutation. by apply NoDup_ids.
Qed.

Lemma group_rows_ok me q lim now d : NoDup (hit_MessageID ∘ group_hit <$> group_rows me q lim now d) ∧
  StronglySorted (λ x y, hit_CreatedAt (group_hit y) <= hit_CreatedAt (group_hit x)) (group_rows me q lim now d).
Proof.
  unfold group_rows. destruct (_ || _); [|split; constructor]. split; [|apply (newest_id_sorted gm_key)].
  rewrite order_by_permutation. by apply NoDup_ids.
Qed.

Lemma found_enough me q lim w h : check_query q = Ok (ToLower (TrimSpace (qu_Q q)), lim) →
  findable me q (w_now w) (w_db w) h → ¬ hidden w h → h ∈ found me q lim (w_now w) w ∨
  (Z.to_nat lim ≤ length (List.filter (λ x, (hit_CreatedAt h <=? hit_CreatedAt x)%Z) (found me q lim (w_now w) w)))%nat ∨
  crowded_out w (findable me q (w_now w) (w_db w)) h.
Proof.
  intros Hq Hf Hn. pose proof (type_checked _ _ _ Hq) as (_ & Hlim & _).
  pose proof (λ x, proj2 (elem_of_rows me q lim (w_now w) (w_db w) x Hq)) as Hback. apply (elem_of_rows _ _ _ _ _ _ Hq) in Hf.
  unfold found. rewrite !List.filter_app, length_app, list_elem_of_In, in_app_iff, !List.filter_In, <- !list_elem_of_In, negb_true_iff, bool_decide_eq_false.
  destruct (private_rows_ok me q lim (w_now w) (w_db w)) as [Np Sp]. destruct (group_rows_ok me q lim (w_now w) (w_db w)) as [Ng Sg].
  apply elem_of_app in Hf as [Hf|Hf].
  - destruct (rows_enough (private_hit me) _ lim w h ltac:(lia) Np Sp Hf) as [?|[?|Hc]]; [tauto|right; left; lia|right; right].
    revert Hc. apply crowded_mono. intros x Hx. apply Hback, elem_of_app. by left.
  - destruct (rows_enough group_hit _ lim w h ltac:(lia) Ng Sg Hf) as [?|[?|Hc]]; [tauto|right; left; lia|right; right].
    revert Hc. apply crowded_mono. intros x Hx. apply Hback, elem_of_app. by right.
Qed.

(** C17. A search only reads.  Its page holds at most as many messages as were asked for
    (50 at most), newest first, and only messages that say the text in any case, lie within
    the cursor and the lower bound, were not deleted, are not those of a suspended account,
    and that the reader may read: the reader's own private chats, and the groups the reader is
    in, from the moment of joining.  A match that is not on the page is no newer than anything
    on a full page; or more than five matches no older than it are those of suspended
    accounts, which are read with the rest and left out afterwards: then the page can be
    short, or empty. *)
Theorem search_finds_what_may_be_read me q w hits w' : Search me q w = (Ok hits, w') →
  w_db w' = w_db w ∧
  ∃ lim, check_query q = Ok (ToLower (TrimSpace (qu_Q q)), lim) ∧ 1 <= lim <= maxLimit ∧ (length hits ≤ Z.to_nat lim)%nat ∧
    StronglySorted (λ a b, hit_CreatedAt b <= hit_CreatedAt a) hits ∧
    (∀ h, h ∈ hits → findable me q (w_now w) (w_db w) h ∧ ¬ hidden w h) ∧
    ∀ h, findable me q (w_now w) (w_db w) h → ¬ hidden w h →
      h ∈ hits ∨ (length hits = Z.to_nat lim ∧ ∀ h', h' ∈ hits → hit_CreatedAt h <= hit_CreatedAt h') ∨
      crowded_out w (findable me q (w_now w) (w_db w)) h.
Proof.
  intros (lim & Hq & Hdb & ->)%Search_ok. split; [done|]. exists lim. pose proof (type_checked _ _ _ Hq) as (_ & Hlim & _).
  pose proof (order_by_newest hit_CreatedAt hit_le (found me q lim (w_now w) w) hit_le_total hit_le_newest) as Hsorted.
  split_and!; [done|lia|lia|rewrite length_take; lia| | |].
  - rewrite <- (take_drop (Z.to_nat lim) (order_by _ _)) in Hsorted. by apply StronglySorted_app_1_l in Hsorted.
  - intros h Hh%subseteq_take. rewrite elem_of_order_by in Hh. by apply (elem_of_found _ _ _ _ _ Hq).
  - intros h Hf Hn. set (sorted := order_by hit_le (found me q lim (w_now w) w)) in *.
    assert (h ∈ sorted ∨ (Z.to_nat lim ≤ length (List.filter (λ x, (hit_CreatedAt h <=? hit_CreatedAt x)%Z) sorted))%nat ∨
            crowded_out w (findable me q (w_now w) (w_db w)) h) as [Hin|[Henough|Hcrowd]].
    { unfold sorted. rewrite elem_of_order_by, (filter_permuted _ _ _ (order_by_permutation _ _)).
      by apply (found_enough _ _ _ _ _ Hq). }
    + rewrite <- (take_drop (Z.to_nat lim) sorted) in Hin, Hsorted. apply elem_of_app in Hin as [Hin|Hin]; [by left|right; left]. split.
      * rewrite length_take. destruct (decide (Z.to_nat lim ≤ length sorted)%nat); [lia|]. rewrite drop_ge in Hin by lia. by apply not_elem_of_nil in Hin.
      * intros h' Hh'. by apply (sorted_split _ _ _ Hsorted).
    + right; left. by apply (newest_taken hit_CreatedAt).
    + by right; right.
Qed.
End finds.

(** ** Who is suggested *)

Section suggested.
Context {ulib : UuidLib} {pgt : PgText}.

(** Nobody I have a request or a friendship with, in either direction. *)
Definition no_tie (me u : uuid) (d : DB) : Prop :=
  ∀ id r, user_relationships d !! id = Some r →
    ¬ (rel_UserID r = me ∧ rel_OtheruserID r = u) ∧ ¬ (rel_UserID r = u ∧ rel_OtheruserID r = me).

Lemma connected_no_tie me u d : u ≠ me → u ∉ connected me d → no_tie me u d.
Proof.
  intros Hne Hu id r Hr. split; intros [H1 H2]; apply Hu; unfold connected; apply list_elem_of_omap; exists (id, r).
  all: rewrite elem_of_map_to_list; split; [done|]; unfold other_end; simpl.
  - by rewrite decide_True, H2.
  - rewrite decide_False by congruence. by rewrite decide_True, H1.
Qed.

(** Someone [me] may be shown, and why: people both know, an interest of both, the place. *)
Record may_suggest (me : uuid) (m : User) (d : DB) (s : Suggestion) (u : User) : Prop := {
  ms_wants : u_discoverable u = true;
  ms_active : u_banned_at u = None;
  ms_other : sg_ID s ≠ me;
  ms_no_tie : no_tie me (sg_ID s) d;
  ms_not_blocked : user_blocks d !! (sg_ID s, me) = None ∧ user_blocks d !! (me, sg_ID s) = None;
  ms_mutual : sg_MutualFriends s = mutual me (sg_ID s) d;
  ms_shared i : i ∈ sg_SharedInterests s → (sg_ID s, i) ∈ user_interests d ∧ (me, i) ∈ user_interests d;
  ms_why : 0 < sg_MutualFriends s ∨ sg_SharedInterests s ≠ [] ∨
           (is_Some (u_location_id u) ∧ u_location_id u = u_location_id m) ∨
           (u_location_country u ≠ EmptyString ∧ u_location_country u = u_location_country m);
}.

Lemma elem_of_shared me u d i : i ∈ shared me u d → (u, i) ∈ user_interests d ∧ (me, i) ∈ user_interests d.
Proof.
  unfold shared. case_decide; [by intros ?%not_elem_of_nil|]. rewrite elem_of_order_by.
  intros ([v j] & -> & Hin)%list_elem_of_fmap. apply list_elem_of_In, List.filter_In in Hin as [Hin%list_elem_of_In%elem_of_elements Hp].
  simpl in *. apply andb_true_iff in Hp as [->%bool_decide_eq_true Hme%bool_decide_eq_true]. done.
Qed.

Lemma suggested_ok me m d r : r ∈ suggested me m d → users d !! ds_ID r = Some (ds_User r) ∧ may_suggest me m d (suggestion r) (ds_User r).
Proof.
  unfold suggested. rewrite elem_of_order_by, list_elem_of_In, List.filter_In, <- list_elem_of_In.
  intros [([id u] & -> & He)%list_elem_of_fmap Hin]. apply elem_of_select in He as [Hu Hs]. simpl in *.
  split; [done|]. unfold suggestible in Hs. rewrite !andb_true_iff, !negb_true_iff, !bool_decide_eq_true, !bool_decide_eq_false in Hs.
  destruct Hs as [[[[Hw Hb] Hne] Hc] Hbl]. split; simpl; try done.
  - by apply connected_no_tie.
  - unfold blocked_pair in Hbl. apply orb_false_iff in Hbl as [Hb1%bool_decide_eq_false Hb2%bool_decide_eq_false].
    by rewrite !eq_None_not_Some.
  - apply elem_of_shared.
  - unfold in_common in Hin. simpl in Hin. rewrite !orb_true_iff, negb_true_iff, bool_decide_eq_false, Z.ltb_lt in Hin.
    destruct Hin as [[[H|H]|H]|H]; [by left|by right; left|right; right; left|right; right; right].
    + unfold same_place in H. destruct (u_location_id u), (u_location_id m); simpl in H; try done. apply bool_decide_eq_true in H. by rewrite H.
    + unfold same_country in H. apply andb_true_iff in H as [H1%negb_true_iff%bool_decide_eq_false H2%bool_decide_eq_true]. done.
Qed.

Lemma score_le_total a b : score_le a b = true ∨ score_le b a = true.
Proof. unfold score_le. rewrite !orb_true_iff, !andb_true_iff, !Z.ltb_lt, !Z.eqb_eq, !N.leb_le. lia. Qed.

Lemma wrap32_small z : -2147483648 <= z < 2147483648 → wrap 32 z = z.
Proof.
  intros H. unfold wrap. change (2 ^ (32 - 1)) with 2147483648. change (2 ^ 32) with 4294967296. rewrite Z.mod_small; lia.
Qed.

Lemma no_rows_ok {A} e (m : M World A) w a w' : no_rows_as e m w = (Ok a, w') → m w = (Ok a, w').
Proof.
  unfold no_rows_as, try. rewrite bind_run. destruct (m w) as [[b|e'] w1]; [done|].
  by unfold throw.
Qed.

(** For any page the handler asks for: suggestions only read; the person asking is
    discoverable; the pages are consecutive parts of one list, the best matches first; and
    everybody on it is discoverable and not suspended, is not the person asking, has neither
    a request nor a friendship with them, did not block them and is not blocked, shares the
    interests that are named, and has something in common with them. *)
Theorem suggestions_are_wanted me lim page w l w' : 1 <= lim <= 50 → 0 <= page < 10 → Suggestions me lim page w = (Ok l, w') →
  w_db w' = w_db w ∧
  ∃ m, users (w_db w) !! me = Some m ∧ u_discoverable m = true ∧
    l = suggestion <$> take (Z.to_nat lim) (drop (Z.to_nat (page * lim)) (suggested me m (w_db w))) ∧
    StronglySorted (λ r s, ds_Score s <= ds_Score r) (suggested me m (w_db w)) ∧
    ∀ s, s ∈ l → ∃ u, users (w_db w) !! sg_ID s = Some u ∧ may_suggest me m (w_db w) s u.
Proof.
  intros Hlim Hpage. assert (0 <= page * lim < 500) as Hoff by nia. unfold Suggestions. intros (m & w1 & Hm & Hrun)%bind_ok_inv.
  assert (users (w_db w) !! me = Some m ∧ w_db w1 = w_db w) as [Hme Hdb].
  { apply no_rows_ok, query_ok in Hm as (fs & d & Hq & ->). unfold GetUserInfoByID in Hq.
    destruct (users (w_db w) !! me) eqn:E; simplify_eq. done. }
  destruct (u_discoverable m) eqn:Hd; simpl in Hrun; [|by unfold throw in Hrun].
  apply bind_ok_inv in Hrun as (rows & w2 & (fs & d & Hq & ->)%query_ok & Hr). injection Hr as <- <-.
  unfold DiscoverSuggestions in Hq. rewrite Hdb, Hme, !wrap32_small in Hq by lia. case_decide; [|done]. injection Hq as <- <-. split; [done|].
  exists m. split_and!; try done.
  - apply order_by_newest; [apply score_le_total|]. intros x y. unfold score_le. rewrite orb_true_iff, andb_true_iff. lia.
  - intros s (r & -> & Hr)%list_elem_of_fmap. apply subseteq_take, subseteq_drop in Hr. exists (ds_User r).
    by apply suggested_ok.
Qed.
End suggested.
