(* ===== verification/Wiring.v ===== *)
(** * Wiring: the chat service on the real groups and friends

    src/internal/app/app.go hands the group service and the friends service to
    the chat service as its GroupMembership and FriendChecker.  The instances do
    the same, the interface's requirements are discharged, and what the chat
    promises in terms of its collaborators' answers becomes a statement about the
    tables. *)

From S2P Require Import Prelude GoLib Types Users_Model Db Sql_Groups Sql_Friends Sql_Chat Groups_Model Friends_Model Versioned Chat_Dedupe World Groups_Repo.
From S2P Require Import Groups_Service Groups_Refine Groups_Service_Props Friends_Service Friends_Props Chat_Emoji Chat_Model Chat_Repo Chat_Service Chat_Access Chat_Pages Demo Sql_Media Moves.
From S2P Require Import Media Media_Rules.

#[local] Open Scope Z_scope.

Section wiring.
Context {ulib : UuidLib} {laws : UuidLaws ulib} {coll : Collation}.

#[export] Instance app_groups : Chat_Service.GroupMembership := {|
  grp_IsMember := Groups_Service.IsMember;
  grp_Members := Groups_Service.Members;
  grp_CanDeleteMessage := Groups_Service.CanDeleteMessage;
|}.

#[export] Instance app_friends : Chat_Service.FriendChecker := {| frd_AreFriends := Friends_Service.AreFriends_ |}.

(** The group service's own checker. *)
#[export] Instance app_group_friends : Groups_Service.FriendChecker := {| AreFriends := Friends_Service.AreFriends_ |}.

(** Reading through a cache leaves what its loader leaves, but for the cache. *)
Lemma leaves_Load {X T} (f : World → X) `{HasCache World T} id (load : M World T) :
  fault_blind f → (∀ c w, f (set_cache c w) = f w) → leaves f load → leaves f (Load id load).
Proof.
  intros Hf Hlaw Hload.
  assert (∀ c, leaves f (modify (λ w, set_cache (c (cache_of w)) w))) as Hmod by (intros c w; apply Hlaw).
  unfold Load, Get, Versioned.Version, Put.
  repeat first [apply leaves_bind; [|intros ?] | apply leaves_try | apply leaves_io_blind; [done|] | apply leaves_ret
    | apply leaves_get | apply Hmod | done | case_match].
Qed.

Lemma leaves_group_snapshot {X} (f : World → X) g :
  fault_blind f → (∀ c w, f (with_groups c w) = f w) → leaves f (Groups_Service.snapshot g).
Proof.
  intros Hf Hlaw. apply leaves_Load; [done..|]. unfold Groups_Repo.Snapshot_, no_rows_as.
  repeat first [apply leaves_bind; [|intros ?] | apply leaves_try | apply leaves_ret | apply leaves_throw | case_match
    | apply leaves_read; [done|intros d r d'; (try unfold GetGroupInfoByID; try unfold GetGroupLeader; repeat case_match; by intros [= _ <-])]].
Qed.

Lemma quiet_group_snapshot g : quiet (Groups_Service.snapshot g).
Proof. by apply leaves_group_snapshot. Qed.

Lemma leaves_relationships {X} (f : World → X) u :
  fault_blind f → (∀ c w, f (with_friends c w) = f w) → leaves f (Relationships u).
Proof.
  intros Hf Hlaw. apply leaves_Load; [done..|]. unfold Friends_Service.Repo.Snapshot_.
  repeat first [apply leaves_bind; [|intros ?] | apply leaves_ret
    | apply leaves_read; [done|by intros d r d' [= _ <-]]].
Qed.

Lemma quiet_relationships u : quiet (Relationships u).
Proof. by apply leaves_relationships. Qed.

Lemma leaves_friends {X} (f : World → X) a b :
  fault_blind f → (∀ c w, f (with_friends c w) = f w) → leaves f (AreFriends_ a b).
Proof. intros Hf Hlaw. apply leaves_bind; [by apply leaves_relationships|]. intros; apply leaves_ret. Qed.

Lemma leaves_members {X} (f : World → X) g :
  fault_blind f → (∀ c w, f (with_groups c w) = f w) → leaves f (Members g).
Proof. intros Hf Hlaw. apply leaves_bind; [by apply leaves_group_snapshot|]. intros; apply leaves_ret. Qed.

#[export] Instance app_collaborators {cs : ChatService} (media_quiet : ∀ m, csv_media = Some m →
    (∀ o ids k c i, quiet (md_Attach m o ids k c i)) ∧ (∀ ids, quiet (md_ForMessages m ids)) ∧
    (∀ i, quiet (md_ExpireMessage m i)) ∧ (∀ o i, quiet (md_Duplicate m o i))) : Collaborators.
Proof.
  split; [intros g u|intros g|intros g a b|intros a b|done]; simpl;
    unfold Groups_Service.IsMember, Members, CanDeleteMessage, AreFriends_.
  - apply leaves_bind; [apply quiet_group_snapshot|quiet].
  - apply leaves_bind; [apply quiet_group_snapshot|quiet].
  - apply leaves_bind; [apply quiet_group_snapshot|]. intros s. destruct (snapshot_Role s a) as [role perms].
    case_decide; [quiet|]. destruct (negb _); quiet.
  - apply leaves_bind; [apply quiet_relationships|quiet].
Qed.

(** Memberships have nothing to do with suspensions. *)
#[export] Instance app_ban_blind {cs : ChatService}
    (media_blind : ∀ m ids, csv_media = Some m → leaves ban_view (md_ForMessages m ids)) : BanBlind.
Proof.
  split; [intros m ids Hm; by apply media_blind|]. intros g u. simpl. unfold Groups_Service.IsMember.
  apply leaves_bind; [by apply leaves_group_snapshot|]. intros; apply leaves_ret.
Qed.

(** The members the cache names are those of the table. *)
Lemma members_agree g w ms :
  Groups_Service_Props.coherent w → (Members g w).1 = Ok ms → ∀ u, u ∈ ms → is_Some (member_table (w_db w) !! (g, u)).
Proof.
  intros Hc Hms u Hu.
  assert (may_fail (w_faults w ≠ []) w) as Hf by (unfold may_fail; destruct (w_faults w); [by right|by left]).
  pose proof (snapshot_run (w_faults w ≠ []) (w_db w) g w (conj eq_refl (conj Hc Hf))) as Hsnap.
  unfold Members in Hms. rewrite bind_run in Hms. destruct (snapshot g w) as [[s|e] w1]; [|done].
  destruct Hsnap as [_ (row & _ & _ & _ & Hs)]. simpl in Hms. injection Hms as <-. specialize (Hs u).
  destruct (snapshot_Role s u) as [role perms]. rewrite lookup_members_of in Hs.
  destruct (member_table (w_db w) !! (g, u)); [by eexists|]. destruct Hs as [Hs _]. done.
Qed.

(** C4. End to end, the caches being coherent: a message is stored only if, in
    the tables, sender and receiver are friends (private) or the sender is a
    member of the group (public).  So once someone is blocked, unfriended, or
    removed from a group, nothing of theirs reaches the chat, although the checks
    read cached answers. *)
Theorem stored_only_between_friends_and_members {cs : ChatService}
    (media_quiet : ∀ m, csv_media = Some m →
      (∀ o ids k c i, quiet (md_Attach m o ids k c i)) ∧ (∀ ids, quiet (md_ForMessages m ids)) ∧
      (∀ i, quiet (md_ExpireMessage m i)) ∧ (∀ o i, quiet (md_Duplicate m o i)))
    (from : uuid) (inp : InCommingMessage) (w : World) (r : result uuid) (w' : World) :
  Friends_Props.coherent w → Groups_Service_Props.coherent w →
  SendMessage from inp w = (r, w') →
  chat_tables (w_db w') = chat_tables (w_db w) ∨
  ∃ to, uuid_parse (im_ToID inp) = Some to ∧
    ((im_Type inp = TypePrivate ∧ friends_of from (w_db w) to = true) ∨
     (im_Type inp = TypePublic ∧ is_Some (member_table (w_db w) !! (to, from)))).
Proof.
  intros Hfr Hgr Hs. pose proof (app_collaborators media_quiet) as Hcollab. apply SendMessage_outcome in Hs.
  destruct r as [id|e]; [|by left]. destruct Hs as [Hs|(d & to & Hto & _ & Hmay & _)]; [by left|right].
  exists to. split; [done|]. destruct Hmay as [[Hk Hf]|(Hk & ms & Hms & Hin)]; [left|right]; (split; [done|]).
  - simpl in Hf. destruct (AreFriends_ from to (with_dedupe d w)) as [r w1] eqn:Ha. simpl in Hf. subst r.
    apply AreFriends_outcome in Ha; [symmetry; exact (proj1 (proj2 Ha))|]. split; apply Hfr.
  - eapply (members_agree to (with_dedupe d w)); [|done..]. split; apply Hgr.
Qed.
End wiring.

(** * The media service behind the chat (src/internal/app/app.go)

    The chat's interface to media is met by the media service, whose members of a group are
    the group service's; what the chat asks of the interface is proved. *)

Section wiring.
Context {ulib : UuidLib} {laws : UuidLaws ulib} {coll : Collation} {lower : GoLower} {images : ImageLib}.

(** The storage and its links are the configuration's, the members the group service's. *)
Definition app_media_config (store : bool) (put : string → string → Z → duration → time → result string)
    (get : string → string → string → duration → time → result string) : MediaConfig :=
  {| mc_store := store; PresignPut := put; PresignGet := get; mc_Members := Groups_Service.Members |}.

Definition app_media {cfg : MediaConfig} : MediaStore := {|
  md_Attach := Attach;
  md_ForMessages := ForMessages;
  md_ExpireMessage := ExpireMessage;
  md_Duplicate := Duplicate;
|}.

Definition chat_same : relation World := λ w w', chat_view w' = chat_view w.
#[export] Instance chat_same_preorder : PreOrder chat_same.
Proof. split; [by intros w|]. intros w1 w2 w3. unfold chat_same. congruence. Qed.
#[export] Instance chat_same_blind : Blind chat_same.
Proof. by split. Qed.

Lemma same_query {A} (q : M DB A) : (∀ d, chat_tables (q d).2 = chat_tables d) → moves chat_same (query q).
Proof. intros Hq. apply (moves_query _). intros w. unfold chat_same, chat_view. simpl. by rewrite Hq. Qed.

Lemma same_AttachMedia t c g id o : moves chat_same (query (AttachMedia t c g id o)).
Proof. apply same_query. intros d. unfold AttachMedia. by repeat case_match. Qed.
Lemma same_CreateMedia a : moves chat_same (query (CreateMedia a)).
Proof. apply same_query. intros d. unfold CreateMedia. by repeat case_match. Qed.
Lemma same_SetThumbnail id o : moves chat_same (query (SetThumbnail id o)).
Proof. apply same_query. intros d. unfold SetThumbnail. by repeat case_match. Qed.
Lemma same_ExpireMessage now g : moves chat_same (query (ExpireMediaOfMessage now g)).
Proof. by apply same_query. Qed.
Lemma same_Size k : moves chat_same (store_Size k).
Proof. by apply (moves_io _). Qed.
Lemma same_Copy a b : moves chat_same (store_Copy a b).
Proof. apply (moves_io _). intros w. by destruct (w_store w !! a). Qed.
#[local] Hint Resolve same_AttachMedia same_CreateMedia same_SetThumbnail same_ExpireMessage same_Size same_Copy : moves.
#[local] Hint Extern 2 (moves chat_same (query _)) => (apply (moves_read _); by apply read_only_pure) : moves.
#[local] Hint Extern 2 (moves chat_same NewV7) => apply (moves_NewV7 _) : moves.

Lemma same_no_rows {A} e (m : M World A) : moves chat_same m → moves chat_same (no_rows e m).
Proof. intros Hm. unfold no_rows. walk_program. Qed.
#[local] Hint Resolve same_no_rows : moves.
Lemma same_create o s n r : moves chat_same (create o s n r).
Proof. unfold create, overQuota. walk_program. Qed.

Context {cfg : MediaConfig}.
Lemma same_check_all o ids : moves chat_same (check_all o ids).
Proof. induction ids as [|id ids IH]; simpl; walk_program. Qed.
Lemma same_attach_all o ids t c m : moves chat_same (attach_all o ids t c m).
Proof. induction ids as [|id ids IH]; simpl; walk_program. Qed.
#[local] Hint Resolve same_create same_check_all same_attach_all : moves.

(** The media service leaves the messages, the clock and the recent sends alone. *)
Lemma app_media_quiet :
  (∀ o ids k c i, quiet (md_Attach app_media o ids k c i)) ∧ (∀ ids, quiet (md_ForMessages app_media ids)) ∧
  (∀ i, quiet (md_ExpireMessage app_media i)) ∧ (∀ o i, quiet (md_Duplicate app_media o i)).
Proof.
  assert (∀ A (m : M World A), moves chat_same m → quiet m) as H by done.
  split_and!; intros; apply H; simpl; unfold Attach, ForMessages, ExpireMessage, Duplicate; walk_program.
Qed.
End wiring.
