(* ===== verification/Handlers.v ===== *)
(** * Handlers: what each route does (the handler.go files under src/internal)

    One definition per handler, in the order of its checks: who calls, the path, the body, the
    service, the answer.  Bodies of anonymous struct types have a record here.  The ICE
    servers Cloudflare answers with are a parameter. *)

From S2P Require Import Prelude GoLib Types Users_Model Db Sql_Groups Sql_Friends Sql_Users Sql_Calls Sql_Chat Sql_Admin Sql_Search Groups_Model Friends_Model World.
From S2P Require Import Groups_Repo Groups_Invite Groups_Service Friends_Service Chat_Emoji Chat_Model Chat_Service Secure Sessions Users_Repo Users_Service.
From S2P Require Import Auth_Session Auth_Accounts Media Push Presence Reports Admin Catalog Search Ws_Ticket Http Wiring.

#[local] Open Scope Z_scope.

(** ** Bodies *)

Record userBody := mk_userBody { ub_UserID : uuid }.
Record inviteRequest := mk_inviteRequest { ir_Code : string }.
Record StatusFriendParameters := mk_StatusFriendParameters { sf_ToID : uuid; sf_Status : string }.
Record forwardBody := mk_forwardBody { fb_MessageID : uuid; fb_To : list ForwardTarget }.
Record PayloadForSeen := mk_PayloadForSeen { ps_MsgID : string }.
Record emojiBody := mk_emojiBody { eb_Emoji : string }.
Record contentBody := mk_contentBody { cb_Content : string }.
Record PasswordUpdateStruct := mk_PasswordUpdateStruct { pw_OldPass : string; pw_NewPass : string }.
Record DefaultUsersParameters := mk_DefaultUsersParameters { du_Name : string; du_Email : string; du_Password : string }.
Record emailBody := mk_emailBody { em_Email : string; em_Code : string; em_NewPassword : string }.
Record idTokenBody := mk_idTokenBody { it_IDToken : string }.
Record signupBody := mk_signupBody { sb_SignupToken : string; sb_Name : string }.
Record proofBody := mk_proofBody { pb_Email : string; pb_Password : string; pb_GoogleIDToken : string }.
Record codeBody := mk_codeBody { co_Email : string; co_Code : string }.
Record loginBody := mk_loginBody { lb_Email : string; lb_Password : string }.
Record banBody := mk_banBody { bb_Reason : string; bb_Until : option time }.
Record resolveBody := mk_resolveBody { rb_Status : string; rb_Note : string }.
Record deviceBody := mk_deviceBody { db_Token : string; db_Platform : string }.
Record privacyBody := mk_privacyBody { pv_Hide : option bool }.

Class Decoders := {
  #[export] decode_createGroup :: JsonDecode createGroupRequest;
  #[export] decode_updateGroup :: JsonDecode updateGroupRequest;
  #[export] decode_role :: JsonDecode roleRequest;
  #[export] decode_invite :: JsonDecode inviteRequest;
  #[export] decode_user :: JsonDecode userBody;
  #[export] decode_status :: JsonDecode StatusFriendParameters;
  #[export] decode_message :: JsonDecode InCommingMessage;
  #[export] decode_forward :: JsonDecode forwardBody;
  #[export] decode_seen :: JsonDecode PayloadForSeen;
  #[export] decode_emoji :: JsonDecode emojiBody;
  #[export] decode_content :: JsonDecode contentBody;
  #[export] decode_passwords :: JsonDecode PasswordUpdateStruct;
  #[export] decode_profile :: JsonDecode UpdateProfileRequest;
  #[export] decode_register :: JsonDecode DefaultUsersParameters;
  #[export] decode_email :: JsonDecode emailBody;
  #[export] decode_id_token :: JsonDecode idTokenBody;
  #[export] decode_signup :: JsonDecode signupBody;
  #[export] decode_proof :: JsonDecode proofBody;
  #[export] decode_code :: JsonDecode codeBody;
  #[export] decode_login :: JsonDecode loginBody;
  #[export] decode_ban :: JsonDecode banBody;
  #[export] decode_resolve :: JsonDecode resolveBody;
  #[export] decode_device :: JsonDecode deviceBody;
  #[export] decode_prefs :: JsonDecode NotificationPref;
  #[export] decode_mute :: JsonDecode Push.Mute;
  #[export] decode_upload :: JsonDecode NewUploadRequest;
  #[export] decode_report :: JsonDecode Reports.Request;
  #[export] decode_privacy :: JsonDecode privacyBody;
}.

(** ** Parts several handlers share *)

Definition MaxAvatarUpload : Z := 5 * 2 ^ 20.
Definition MaxThumbnailUpload : Z := 2 * 2 ^ 20.

Definition given (id : uuid) : bool := negb (bool_decide (id = uuid_nil)).

(** The upload of a picture, at most [MaxAvatarUpload]. *)
Definition read_picture (r : HttpRequest) : Handling (list Z) :=
  match ReadAll r MaxAvatarUpload with
  | TooBig => answer (Error 413 (error_text ErrImageTooLarge))
  | CutOff => answer (Error 400 "could not read the upload")
  | Whole raw => mret raw
  end.

(** A picture by its versioned URL: [more] are the headers sent with the picture itself. *)
Definition send_picture (r : HttpRequest) (img : list Z) (at_ : time) (more : list (string * string)) : Response :=
  let etag := quoted (pretty (UnixMilli at_)) in
  let headers := [("ETag", etag); ("Cache-Control", "private, max-age=31536000, immutable")] in
  if decide (hr_Header r "If-None-Match" = etag) then with_headers headers (WriteHeader 304)
  else mk_Response 200 (headers ++ ("Content-Type", "image/jpeg") :: more) (RawBody img).

(** ** Groups: groups/handler.go *)

Module Groups.
Section handlers.
Context {ulib : UuidLib} {lower : GoLower} {pgt : PgText} {pgs : PgSearch} {images : ImageLib} {coll : Collation}.
Context {gs : GroupService} {fsv : FriendsService} {dec : Decoders}.

Definition writeGroupError (err : error) : Response :=
  if is_one_of err [ErrNotFoundGroup; ErrNoAvatar] then Error 404 (error_text err)
  else if is_one_of err [ErrAlreadyMember; ErrGroupFull] then Error 409 (error_text err)
  else if is_one_of err [ErrNotMember; ErrInvalidGroupReq; ErrBadPathParam; ErrKickSelf; ErrAlreadyAdmin; ErrNothingToUpdate;
                         ErrInvalidGroupInfo; ErrBadRole; ErrSelfRole; ErrBadSearch] then Error 400 (error_text err)
  else if is_one_of err [ErrBadImage] then Error 400 (error_text err)
  else if is_one_of err [ErrImageTooLarge] then Error 413 (error_text err)
  else if is_one_of err [ErrInvalidInviteCode] then Error 404 "invalid invite code"
  else if is_one_of err [ErrNoPermission; ErrNotFriend; ErrCantRemoveAdmin] then Error 403 (error_text err)
  else ServerError err.

(** The same answer for a code that is unknown and one that cannot be a code. *)
Definition writeInviteError (err : error) : Response :=
  writeGroupError (if decide (err = ErrNotFoundGroup) then ErrInvalidInviteCode else err).

Definition group_id (r : HttpRequest) : Handling uuid := PathUUID r "group_id" "invalid group id".

Definition CreateGroup (r : HttpRequest) : Handling Response :=
  params ← Decode (T := createGroupRequest) r no_check "invalid parameters";
  creatorID ← caller r;
  res ← ask writeGroupError (CreateGroup_ creatorID params);
  mret (JSON 201 res).

Definition LeaveGroup (r : HttpRequest) : Handling Response :=
  groupID ← group_id r;
  userID ← caller r;
  let v := hr_Query r "successor" in
  successor ← (if decide (v = EmptyString) then mret uuid_nil
               else match uuid_parse v with Some id => mret id | None => answer (Error 400 "successor must be a user id") end);
  ask writeGroupError (Groups_Service.LeaveGroup groupID userID successor) ;;
  mret (WriteHeader 204).

Definition MyGroups (r : HttpRequest) : Handling Response :=
  userID ← caller r;
  list ← ask writeGroupError (Search.MyGroups userID);
  mret (JSON 200 list).

Definition Detail (r : HttpRequest) : Handling Response :=
  groupID ← group_id r;
  userID ← caller r;
  d ← ask writeGroupError (GroupDetail_ groupID userID);
  mret (JSON 200 d).

Definition JoinByInvite (r : HttpRequest) : Handling Response :=
  userID ← caller r;
  req ← Decode (T := inviteRequest) r no_check "invalid parameters";
  id ← ask writeInviteError (Groups_Service.JoinByInvite userID (ir_Code req));
  mret (JSON 201 id).

Definition PreviewInvite (r : HttpRequest) : Handling Response :=
  p ← ask writeInviteError (Groups_Service.PreviewInvite (hr_Path r "code"));
  mret (JSON 200 p).

Definition invite (fn : uuid → uuid → M World string) (r : HttpRequest) : Handling Response :=
  groupID ← group_id r;
  userID ← caller r;
  code ← ask writeGroupError (fn groupID userID);
  mret (JSON 200 code).

Definition InviteCode : HttpRequest → Handling Response := invite InviteCode_.
Definition RegenerateInvite : HttpRequest → Handling Response := invite Groups_Service.RegenerateInvite.

Definition groupAction (r : HttpRequest) : Handling (uuid * uuid) :=
  groupID ← group_id r;
  me ← caller r;
  mret (groupID, me).

Definition UpdateGroup (r : HttpRequest) : Handling Response :=
  ids ← groupAction r;
  req ← Decode (T := updateGroupRequest) r no_check "invalid parameters";
  g ← ask writeGroupError (Update_ ids.1 ids.2 req);
  mret (JSON 200 g).

Definition DeleteGroup (r : HttpRequest) : Handling Response :=
  ids ← groupAction r;
  ask writeGroupError (Delete_ ids.1 ids.2) ;;
  mret (WriteHeader 204).

Definition KickMember (r : HttpRequest) : Handling Response :=
  ids ← groupAction r;
  target ← PathUUID r "user_id" "invalid user id";
  ask writeGroupError (Kick_ ids.1 ids.2 target) ;;
  mret (WriteHeader 204).

Definition TransferAdmin (r : HttpRequest) : Handling Response :=
  ids ← groupAction r;
  body ← Decode (T := userBody) r (λ b, given (ub_UserID b)) "user_id is required";
  ask writeGroupError (TransferAdmin_ ids.1 ids.2 (ub_UserID body)) ;;
  mret (WriteHeader 204).

Definition AddMember (r : HttpRequest) : Handling Response :=
  ids ← groupAction r;
  body ← Decode (T := userBody) r (λ b, given (ub_UserID b)) "user_id is required";
  ask writeGroupError (AddFriend ids.1 ids.2 (ub_UserID body)) ;;
  mret (WriteHeader 201).

Definition UploadAvatar (r : HttpRequest) : Handling Response :=
  ids ← groupAction r;
  raw ← read_picture r;
  url ← ask writeGroupError (Groups_Service.SetAvatar_ ids.1 ids.2 (ProcessAvatar raw));
  mret (JSON 200 url).

Definition DeleteAvatar (r : HttpRequest) : Handling Response :=
  ids ← groupAction r;
  ask writeGroupError (Groups_Service.DeleteAvatar_ ids.1 ids.2) ;;
  mret (WriteHeader 204).

Definition Avatar (r : HttpRequest) : Handling Response :=
  ids ← groupAction r;
  img ← ask writeGroupError (Groups_Repo.Avatar ids.1 ids.2);
  mret (send_picture r img.1 img.2 []).

Definition SetRole (r : HttpRequest) : Handling Response :=
  ids ← groupAction r;
  target ← PathUUID r "user_id" "invalid user id";
  req ← Decode (T := roleRequest) r no_check (error_text ErrBadRole);
  ask writeGroupError (SetRole_ ids.1 ids.2 target req) ;;
  mret (WriteHeader 204).

Definition JoinPublic (r : HttpRequest) : Handling Response :=
  ids ← groupAction r;
  ask writeGroupError (Groups_Service.JoinPublic ids.1 ids.2) ;;
  mret (JSON 201 ids.1).

Definition Search (r : HttpRequest) : Handling Response :=
  me ← caller r;
  list ← ask writeGroupError (Groups_Search me (hr_Query r "q"));
  mret (JSON 200 list).
End handlers.
End Groups.

(** ** Friends: friends/handler.go *)

Module Friends.
Section handlers.
Context {ulib : UuidLib} {coll : Collation} {look : NameLookup} {fsv : FriendsService} {dec : Decoders}.

Definition writeErr (err : error) : Response :=
  if is_one_of err [ErrSelfRequest; ErrSelfBlock] then Error 400 (error_text err)
  else if is_one_of err [Friends_Model.ErrUnknownUser; Friends_Model.ErrNotFound; Friends_Model.ErrNotFriends] then Error 404 (error_text err)
  else if is_one_of err [ErrRequestExists; ErrAlreadyFriends; ErrYouBlocked] then Error 409 (error_text err)
  else ServerError err.

Definition Send (r : HttpRequest) : Handling Response :=
  me ← caller r;
  p ← Decode (T := StatusFriendParameters) r (λ p, given (sf_ToID p)) "to_id is required";
  reqID ← ask writeErr (Friends_Service.Send me (sf_ToID p));
  mret (JSON 200 reqID).

Definition Update (r : HttpRequest) : Handling Response :=
  me ← caller r;
  reqID ← PathUUID r "request_id" "invalid request id";
  p ← Decode (T := StatusFriendParameters) r no_check "invalid parameters";
  (if decide (sf_Status p = "confirm") then ask writeErr (Friends_Service.Accept me reqID)
   else if decide (sf_Status p = "cancel") then ask writeErr (Friends_Service.Deny me reqID)
   else answer (Error 400 ("status must be " +:+ quoted "confirm" +:+ " or " +:+ quoted "cancel"))) ;;
  mret (WriteHeader 201).

Definition Cancel (r : HttpRequest) : Handling Response :=
  me ← caller r;
  reqID ← PathUUID r "request_id" "invalid request id";
  ask writeErr (Friends_Service.Cancel me reqID) ;;
  mret (WriteHeader 204).

Definition Requests (r : HttpRequest) : Handling Response :=
  me ← caller r;
  snap ← ask writeErr (Relationships me);
  mret (JSON 200 (sn_Incoming snap, sn_Outgoing snap)).

Definition List (r : HttpRequest) : Handling Response :=
  me ← caller r;
  snap ← ask writeErr (Relationships me);
  mret (JSON 200 (sn_Friends snap)).

Definition Unfriend (r : HttpRequest) : Handling Response :=
  me ← caller r;
  other ← PathUUID r "user_id" "invalid user id";
  ask writeErr (Friends_Service.Unfriend_ me other) ;;
  mret (WriteHeader 204).

Definition Block (r : HttpRequest) : Handling Response :=
  me ← caller r;
  p ← Decode (T := userBody) r (λ b, given (ub_UserID b)) "user_id is required";
  ask writeErr (Friends_Service.Block me (ub_UserID p)) ;;
  mret (WriteHeader 204).

Definition Unblock (r : HttpRequest) : Handling Response :=
  me ← caller r;
  other ← PathUUID r "user_id" "invalid user id";
  ask writeErr (Friends_Service.Unblock me other) ;;
  mret (WriteHeader 204).

Definition Blocked (r : HttpRequest) : Handling Response :=
  me ← caller r;
  list ← ask writeErr (Friends_Service.Blocked me);
  mret (JSON 200 list).
End handlers.
End Friends.

(** ** Chat: chat/handler.go *)

Module Chat.
Section handlers.
Context {ulib : UuidLib} {lower : GoLower} {collow : LowerCollation} {tp : TimeParse} {gm : GroupMembership}.
Context {fc : Chat_Service.FriendChecker} {cs : ChatService} {dec : Decoders} {coll : Collation}.

Definition writeErr (err : error) : Response :=
  if is_one_of err [ErrMediaDisabled] then Error 503 (error_text err)
  else if is_one_of err [ErrBadAttachment] then Error 400 (error_text err)
  else if is_one_of err [ErrMessageNotFound] then Error 404 (error_text err)
  else if is_one_of err [Chat_Model.ErrNotAuthorized; Chat_Model.ErrNotFriends; ErrNotYourMessage; ErrEditWindowClosed] then Error 403 (error_text err)
  else if is_one_of err [ErrNotValidToID; ErrNotValidParentID; ErrNotSupportedTypeMsg; ErrEmptyMessage; ErrNotValidTimeFmt; ErrNotValidUUID;
                         ErrMessageNotInChat; ErrBadCursor; ErrSinceAndBefore; ErrSinceNotSupported; ErrNotAnEmoji; ErrNotGroupMessage;
                         ErrGroupTooBig; ErrBadClientID] then Error 400 (error_text err)
  else ServerError err.

(** Of the handshake, which is the upgrader's, only the one that succeeds is here; then
    nothing can fail. *)
Definition ServeWs (on awaited : uuid → bool) (r : HttpRequest) : Handling Response :=
  userID ← caller r;
  ask ServerError (ServeSocket on awaited userID) ;;
  mret (mk_Response 101 [] (Upgraded userID)).

Definition historyQuery (r : HttpRequest) : HistoryQuery :=
  mk_HistoryQuery (hr_Query r "since") (hr_Query r "before") (Atoi (hr_Query r "limit")).1.

Definition GetMesagesForPrivateID (r : HttpRequest) : Handling Response :=
  me ← caller r;
  other ← PathUUID r "otherUser_id" "invalid id";
  msgs ← ask writeErr (PrivateMessages me other (historyQuery r));
  mret (JSON 200 (PrivateChatID me other, msgs)).

Definition GetMessagesForPublicID (r : HttpRequest) : Handling Response :=
  me ← caller r;
  groupID ← PathUUID r "group_id" "invalid id";
  msgs ← ask writeErr (GroupMessages me groupID (historyQuery r));
  mret (JSON 200 (uuid_string groupID, msgs)).

Definition SendMessage (r : HttpRequest) : Handling Response :=
  me ← caller r;
  inp ← Decode (T := InCommingMessage) r no_check "invalid parameters";
  msgID ← ask writeErr (Chat_Service.SendMessage me inp);
  mret (JSON 200 msgID).

Definition Forward (r : HttpRequest) : Handling Response :=
  me ← caller r;
  b ← Decode (T := forwardBody) r (λ b, given (fb_MessageID b)) "message_id and to are required";
  res ← ask (λ err, if decide (err = ErrBadForward) then Error 400 (error_text err) else writeErr err)
          (Chat_Service.Forward me (fb_MessageID b) (fb_To b));
  mret (JSON 200 res).

Definition UpdateSeen (r : HttpRequest) : Handling Response :=
  me ← caller r;
  other ← PathUUID r "otherUser_id" "invalid id";
  body ← Decode (T := PayloadForSeen) r no_check "invalid parameters";
  ask writeErr (MarkSeen me other (ps_MsgID body)) ;;
  mret (WriteHeader 201).

Definition Conversations (r : HttpRequest) : Handling Response :=
  me ← caller r;
  list ← ask writeErr (Chat_Service.Conversations me);
  mret (JSON 200 list).

Definition MarkGroupRead (r : HttpRequest) : Handling Response :=
  me ← caller r;
  groupID ← PathUUID r "group_id" "invalid id";
  body ← Decode (T := PayloadForSeen) r no_check "invalid parameters";
  ask writeErr (MarkGroupRead_s me groupID (ps_MsgID body)) ;;
  mret (WriteHeader 201).

Definition messageTarget (r : HttpRequest) : Handling (uuid * uuid) :=
  me ← caller r;
  msgID ← PathUUID r "msg_id" "invalid message id";
  mret (me, msgID).

Definition React (r : HttpRequest) : Handling Response :=
  ids ← messageTarget r;
  body ← Decode (T := emojiBody) r no_check "invalid parameters";
  ask writeErr (Chat_Service.React ids.1 ids.2 (eb_Emoji body)) ;;
  mret (WriteHeader 204).

Definition Unreact (r : HttpRequest) : Handling Response :=
  ids ← messageTarget r;
  ask writeErr (Chat_Service.Unreact ids.1 ids.2) ;;
  mret (WriteHeader 204).

Definition Reactors (r : HttpRequest) : Handling Response :=
  ids ← messageTarget r;
  list ← ask writeErr (Chat_Service.Reactors ids.1 ids.2);
  mret (JSON 200 list).

Definition ReadBy (r : HttpRequest) : Handling Response :=
  ids ← messageTarget r;
  list ← ask writeErr (Chat_Service.ReadBy ids.1 ids.2);
  mret (JSON 200 list).

Definition EditMessage (r : HttpRequest) : Handling Response :=
  ids ← messageTarget r;
  body ← Decode (T := contentBody) r no_check "invalid parameters";
  res ← ask writeErr (Chat_Service.EditMessage ids.1 ids.2 (cb_Content body));
  mret (JSON 200 res).

Definition DeleteMessage (r : HttpRequest) : Handling Response :=
  ids ← messageTarget r;
  ask writeErr (Chat_Service.DeleteMessage ids.1 ids.2) ;;
  mret (WriteHeader 204).
End handlers.
End Chat.

(** ** Users: users/handler.go *)

Module Users.
Section handlers.
Context {ulib : UuidLib} {lower : GoLower} {mails : MailParse} {argon : Argon} {ender : SessionEnder} {images : ImageLib}.
Context {coll : Collation} {pgt : PgText} {pgs : PgSearch} {fmt : TimeFormat} {fsv : FriendsService} {dec : Decoders}.

(** [a.users.OnRename(a.friends.ForgetNames)] *)
Definition onRename : list (uuid → M World unit) := [Friends_Service.ForgetNames].

Definition passwordError (err : error) : Response :=
  if is_one_of err [ErrInvalidInput] then Error 400 "password must be 8-128 characters with at least one of @$!%*?&"
  else if is_one_of err [ErrPassNotMatch] then unauthorized
  else if is_one_of err [ErrNoPassword]
  then Error 409 "this account signs in with Google and has no password; set one with password reset"
  else if is_one_of err [Users_Model.ErrUserNotFound] then Error 404 "no user found"
  else ServerError err.

Definition UpdatePassword (r : HttpRequest) : Handling Response :=
  userID ← caller r;
  p ← Decode (T := PasswordUpdateStruct) r no_check "invalid params";
  user ← ask passwordError (UpdatePassword_ userID (pw_OldPass p) (pw_NewPass p));
  mret (JSON 200 user).

Definition SearchUser (r : HttpRequest) : Handling Response :=
  me ← caller r;
  list ← ask (λ err, if is_one_of err [ErrInvalidInput] then Error 400 "q must be 1-25 characters" else ServerError err)
           (Search.SearchUser me (hr_Query r "q"));
  mret (JSON 200 list).

(** The account may have been deleted while its token is still valid. *)
Definition goneError (err : error) : Response :=
  if is_one_of err [Users_Model.ErrUserNotFound] then unauthorized else ServerError err.

Definition Me (r : HttpRequest) : Handling Response :=
  userID ← caller r;
  u ← ask goneError (Users_Service.Me userID);
  mret (JSON 200 u).

(** [soon.Error()] *)
Definition renameText (until : time) : string := "you can change your username again after " +:+ RFC3339 until.

Definition profileError (err : error) : Response :=
  if is_one_of err [ErrInvalidInput]
  then Error 400 "send at least one field; username is 3-25 characters: a-z, 0-9, _ and ."
  else if is_one_of err [ErrBioTooLong; ErrBadPlace; ErrBadInterests; ErrBadDisplayName] then Error 400 (error_text err)
  else if is_one_of err [ErrDuplicateName] then Error 409 "username taken"
  else match err with
       | ErrUntil _ _ until => Error 403 (renameText until)
       | _ => goneError err
       end.

Definition UpdateMe (r : HttpRequest) : Handling Response :=
  me ← caller r;
  req ← Decode (T := UpdateProfileRequest) r no_check "invalid parameters";
  u ← ask profileError (UpdateProfile onRename me req);
  mret (JSON 200 u).

Definition Profile (r : HttpRequest) : Handling Response :=
  me ← caller r;
  id ← PathUUID r "user_id" "invalid user id";
  p ← ask (λ err, if is_one_of err [Users_Model.ErrUserNotFound] then Error 404 "no user found" else ServerError err)
        (Profile_ me id);
  mret (JSON 200 p).

Definition pictureError (err : error) : Response :=
  if is_one_of err [ErrBadImage] then Error 400 (error_text err)
  else if is_one_of err [ErrImageTooLarge] then Error 413 (error_text err)
  else ServerError err.

Definition UploadAvatar (r : HttpRequest) : Handling Response :=
  me ← caller r;
  raw ← read_picture r;
  u ← ask pictureError (SetMyAvatar onRename me raw);
  mret (JSON 200 u).

Definition DeleteAvatar (r : HttpRequest) : Handling Response :=
  me ← caller r;
  ask ServerError (DeleteMyAvatar onRename me) ;;
  mret (WriteHeader 204).

Definition Avatar (r : HttpRequest) : Handling Response :=
  me ← caller r;
  id ← PathUUID r "user_id" "invalid user id";
  img ← ask (λ err, if is_one_of err [Users_Model.ErrUserNotFound] then Error 404 "no avatar" else ServerError err)
          (Users_Service.Avatar me id);
  mret (send_picture r img.1 img.2
          [("Content-Length", pretty (Z.of_nat (length img.1))); ("X-Content-Type-Options", "nosniff")]).

Definition LogoutAll (r : HttpRequest) : Handling Response :=
  me ← caller r;
  ask ServerError (Users_Service.LogoutAll me) ;;
  mret (WriteHeader 204).
End handlers.
End Users.

(** ** Calls: calls/handler.go *)

Module CallLog.
Record ICEServer := mk_ICEServer { ice_URLs : list string; ice_Username : string; ice_Credential : string }.

(** Whether there is a TURN key, and what Cloudflare answers: the servers of a 200 or 201. *)
Class TurnClient := { turn_on : bool; turn_answer : result (list ICEServer) }.

Definition stunOnly : list ICEServer :=
  [mk_ICEServer ["stun:stun.cloudflare.com:3478"; "stun:stun.l.google.com:19302"] EmptyString EmptyString].
Definition TURNCredentialTTL : duration := 4 * hour.

Definition has_suffix (p bs : list Z) : bool := has_prefix (reverse p) (reverse bs).

Definition port53 (u : string) : bool := contains_bytes (bytes_of ":53?") (bytes_of u) || has_suffix (bytes_of ":53") (bytes_of u).

(** [TURN.ICEServers] *)
Definition ICEServers `{TurnClient} : result (list ICEServer) :=
  match turn_answer with
  | Err e => Err e
  | Ok [] => Err (ErrNew "calls" "cloudflare turn: unexpected response")
  | Ok l => Ok ((λ s, mk_ICEServer (List.filter (λ u, negb (port53 u)) (ice_URLs s)) (ice_Username s) (ice_Credential s)) <$> l)
  end.

Record Peer := mk_Peer { pe_UserID : option uuid; pe_Name : string; pe_DisplayName : string; pe_AvatarURL : option string }.

Record Entry := mk_Entry {
  le_ID : uuid;
  le_Direction : string;
  le_State : string;
  le_Reason : string;
  le_Peer : Peer;
  le_StartedAt : time;
  le_AnsweredAt : option time;
  le_EndedAt : option time;
  le_DurationMs : Z;
}.

Section handlers.
Context {ulib : UuidLib} {turn : TurnClient}.

Definition ICE (r : HttpRequest) : Handling Response :=
  _ ← caller r;
  let '(servers, relay) := if turn_on then match ICEServers with Ok s => (s, true) | Err _ => (stunOnly, false) end else (stunOnly, false) in
  mret (with_headers [("Cache-Control", "no-store")] (JSON 200 (servers, relay, TURNCredentialTTL / second))).

Definition entry (me : uuid) (r : ListCallsRow) : Entry :=
  let c := lc_Call r in
  mk_Entry (lc_ID r) (if decide (call_CallerID c = Some me) then "outgoing" else "incoming") (call_State c)
    (default EmptyString (call_EndReason c))
    (match lc_Peer r with
     | Some (id, u) => mk_Peer (Some id) (u_name u) (ShownName (u_name u) (u_display_name u)) (AvatarURLFrom id (u_avatar_at u))
     | None => mk_Peer None EmptyString EmptyString None
     end)
    (call_StartedAt c) (call_AnsweredAt c) (call_EndedAt c)
    (match call_AnsweredAt c, call_EndedAt c with Some a, Some e => Z.quot (e - a) millisecond | _, _ => 0 end).

(** A limit in the query: [default] when there is none. *)
Definition limit_param (r : HttpRequest) (def max : Z) (msg : string) : Handling Z :=
  let v := hr_Query r "limit" in
  if decide (v = EmptyString) then mret def
  else let '(n, ok) := Atoi v in
       if negb ok || (n <? 1) || (n >? max) then answer (Error 400 msg) else mret n.

Definition bad_before : Response := Error 400 "before must be a call id from your log".

Definition List (r : HttpRequest) : Handling Response :=
  me ← caller r;
  lim ← limit_param r 30 100 "limit must be 1-100";
  let v := hr_Query r "before" in
  before ← (if decide (v = EmptyString) then mret None
            else match uuid_parse v with
                 | None => answer bad_before
                 | Some id =>
                   at_ ← ask (λ err, if decide (err = ErrNoRows) then bad_before else ServerError err) (query (CallStartedAt id me));
                   mret (Some (at_, id))
                 end);
  rows ← ask ServerError (query (ListCalls me before (wrap 32 lim)));
  mret (JSON 200 (fmap (M := list) (entry me) rows)).
End handlers.
End CallLog.

(** ** Search and suggestions: search/search.go, discover/discover.go *)

Module Find.
Section handlers.
Context {ulib : UuidLib} {lower : GoLower} {pgt : PgText} {pgs : PgSearch} {tp : TimeParse}.

Definition bad_params : Response := Error 400 (error_text ErrBadParams).

(** A parameter of the query; [none] when it is empty. *)
Definition param {A} (r : HttpRequest) (name : string) (none : A) (parse : string → option A) : Handling A :=
  let v := hr_Query r name in
  if decide (v = EmptyString) then mret none
  else match parse v with Some a => mret a | None => answer bad_params end.

Definition Search (r : HttpRequest) : Handling Response :=
  me ← caller r;
  chat ← param r "chat_id" uuid_nil uuid_parse;
  before ← param r "before" zero_time parse_rfc3339;
  after ← param r "after" zero_time parse_rfc3339;
  before_id ← param r "before_id" uuid_nil (λ s, if before =? zero_time then None else uuid_parse s);
  lim ← param r "limit" 0 (λ s, let '(n, ok) := Atoi s in if negb ok || (n =? 0) then None else Some n);
  hits ← ask (λ err, if is_one_of err [ErrBadQuery; ErrBadParams] then Error 400 (error_text err) else ServerError err)
           (Search.Search me (mk_Query (hr_Query r "q") (hr_Query r "type") chat before before_id after lim));
  mret (JSON 200 (hits, fmap (M := option) (λ h, (hit_CreatedAt h, hit_MessageID h)) (last hits))).

Definition maxPage : Z := 10.

Definition Suggest (r : HttpRequest) : Handling Response :=
  me ← caller r;
  lim ← CallLog.limit_param r defaultLimit maxLimit "limit must be 1-50";
  let v := hr_Query r "page" in
  page ← (if decide (v = EmptyString) then mret 0
          else let '(n, ok) := Atoi v in
               if negb ok || (n <? 0) || (n >=? maxPage) then answer (Error 400 "page must be 0-9") else mret n);
  list ← ask (λ err, if decide (err = ErrNotDiscoverable) then Error 403 (error_text err)
                     else if decide (err = Users_Model.ErrUserNotFound) then unauthorized else ServerError err)
           (Suggestions me lim page);
  mret (JSON 200 list).
End handlers.

(** [catalog.AllOptions] *)
Definition Options (r : HttpRequest) : Handling Response :=
  mret (with_headers [("Cache-Control", "private, max-age=86400")] (JSON 200 (countries, regions, interests, MaxInterests))).
End Find.

(** ** Accounts and sessions: auth/account_handler.go, auth/auth_handler.go *)

Module Accounts.
Section handlers.
Context {ulib : UuidLib} {lower : GoLower} {mails : MailParse} {argon : Argon} {jwt : JwtLib} {idtok : IdToken} {auth : AuthConfig}.
Context {fmt : TimeFormat} {dec : Decoders}.

(** [writeSession] *)
Definition writeSession (s : Session) : Response :=
  let u := se_User s in
  JSON 200 (ac_ID u, ac_Email u, ac_Name u, RFC3339 (ac_CreatedAt u), RFC3339 (ac_UpdatedAt u), se_AccessToken s, se_RefreshToken s).

Definition writeErr (err : error) : Response :=
  if is_one_of err [ErrInvalidInput]
  then Error 400 "username must be 3-25 characters: a-z, 0-9, _ and . (email must be valid, and password 8-128 characters with one of @$!%*?&)"
  else if is_one_of err [ErrDuplicateName] then Error 409 "the user name already exists"
  else if is_one_of err [ErrInvalidCode] then Error 400 (error_text err)
  else if is_one_of err [ErrSuspended] then Error 403 "account suspended"
  else if is_one_of err [ErrInvalidGoogle; ErrReauthRequired] then Error 401 (error_text err)
  else if is_one_of err [ErrMailUnavailable; ErrGoogleUnavailable] then Error 503 (error_text err)
  else ServerError err.

Definition accepted : Response := JSON 202 [("status", "check_your_email")].

Definition Register (r : HttpRequest) : Handling Response :=
  p ← Decode (T := DefaultUsersParameters) r no_check "invalid params";
  ask writeErr (Register_ (du_Name p) (du_Email p) (du_Password p)) ;;
  mret accepted.

Definition VerifyEmail (r : HttpRequest) : Handling Response :=
  b ← Decode (T := emailBody) r no_check "invalid params";
  s ← ask writeErr (Auth_Accounts.VerifyEmail (em_Email b) (em_Code b));
  mret (writeSession s).

Definition emailOnly (fn : string → M World unit) (r : HttpRequest) : Handling Response :=
  b ← Decode (T := emailBody) r no_check "invalid params";
  ask writeErr (fn (em_Email b)) ;;
  mret accepted.

Definition ResendVerification : HttpRequest → Handling Response := emailOnly Auth_Accounts.ResendVerification.
Definition RequestPasswordReset : HttpRequest → Handling Response := emailOnly Auth_Accounts.RequestPasswordReset.

Definition ResetPassword (r : HttpRequest) : Handling Response :=
  b ← Decode (T := emailBody) r no_check "invalid params";
  ask writeErr (Auth_Accounts.ResetPassword (em_Email b) (em_Code b) (em_NewPassword b)) ;;
  mret (WriteHeader 204).

Definition Google (r : HttpRequest) : Handling Response :=
  b ← Decode (T := idTokenBody) r (λ b, negb (bool_decide (it_IDToken b = EmptyString))) "id_token is required";
  res ← ask writeErr (Auth_Accounts.Google (it_IDToken b));
  mret (match gr_Session res with
        | None => JSON 200 [("status", "username_required"); ("signup_token", gr_SignupToken res)]
        | Some s => writeSession s
        end).

Definition CompleteGoogle (r : HttpRequest) : Handling Response :=
  b ← Decode (T := signupBody) r no_check "invalid params";
  s ← ask writeErr (CompleteGoogleSignup (sb_SignupToken b) (sb_Name b));
  mret (writeSession s).

Definition DeleteAccount (r : HttpRequest) : Handling Response :=
  userID ← caller r;
  b ← Decode (T := proofBody) r no_check "invalid params";
  ask writeErr (Auth_Accounts.DeleteAccount userID (pb_Password b) (pb_GoogleIDToken b)) ;;
  mret (WriteHeader 204).

Definition emailChangeError (err : error) : Response :=
  if is_one_of err [ErrInvalidInput] then Error 400 "email must be a valid address"
  else if is_one_of err [ErrSameEmail] then Error 400 (error_text err)
  else if is_one_of err [ErrCodeTooSoon] then with_headers [("Retry-After", "60")] (Error 429 (error_text err))
  else writeErr err.

Definition StartEmailChange (r : HttpRequest) : Handling Response :=
  userID ← caller r;
  b ← Decode (T := proofBody) r no_check "invalid params";
  ask emailChangeError (Auth_Accounts.StartEmailChange userID (pb_Email b) (pb_Password b) (pb_GoogleIDToken b)) ;;
  mret accepted.

Definition ConfirmEmailChange (r : HttpRequest) : Handling Response :=
  userID ← caller r;
  b ← Decode (T := codeBody) r no_check "invalid params";
  sess ← ask (λ err, if is_one_of err [ErrEmailTaken] then Error 409 (error_text err) else writeErr err)
           (Auth_Accounts.ConfirmEmailChange userID (co_Code b));
  mret (writeSession sess).

Definition AdminLogin (r : HttpRequest) : Handling Response :=
  b ← Decode (T := loginBody) r no_check "invalid parameters";
  ask (λ err, if is_one_of err [ErrInvalidCredentials] then Error 401 "invalid credentials" else writeErr err)
    (AdminStart (lb_Email b) (lb_Password b)) ;;
  mret accepted.

Definition AdminVerify (r : HttpRequest) : Handling Response :=
  b ← Decode (T := codeBody) r no_check "invalid parameters";
  tok ← ask writeErr (Auth_Accounts.AdminVerify (co_Email b) (co_Code b));
  mret (JSON 200 (tok, AdminSessionTTL / second)).

(** *** auth_handler.go *)

Definition loginError (err : error) : Response :=
  if is_one_of err [ErrSuspended] then Error 403 "account suspended"
  else if is_one_of err [ErrEmailNotVerified] then Error 403 "email not verified"
  else if decide (err = ErrInvalidCredentials) then Error 401 (error_text ErrInvalidCredentials)
  else ServerError err.

(** The body is decoded without a limit on its size. *)
Definition Login (r : HttpRequest) : Handling Response :=
  params ← (match decode_json (T := loginBody) (hr_Body r) with Some p => mret p | None => answer (Error 400 "invalid params") end);
  t ← ask loginError (Auth_Session.Login (lb_Email params) (lb_Password params));
  mret (writeSession (mk_Session t.1.1 t.1.2 t.2)).

Definition bearer (r : HttpRequest) : Handling string :=
  match GetBearerToken (hr_Header r "Authorization") with Ok t => mret t | Err _ => answer unauthorized end.

Definition refreshError (err : error) : Response :=
  if decide (err = Auth_Session.ErrNotAuthorized) then unauthorized else ServerError err.

Definition Revoke (r : HttpRequest) : Handling Response :=
  token ← bearer r;
  ask refreshError (Auth_Session.Revoke token) ;;
  mret (WriteHeader 204).

Definition RefreshToken (r : HttpRequest) : Handling Response :=
  token ← bearer r;
  t ← ask (λ err, if is_one_of err [ErrSuspended] then Error 403 "account suspended" else refreshError err)
        (Auth_Session.Refresh token);
  mret (JSON 200 t).
End handlers.
End Accounts.

(** ** The admin page: admin/handler.go *)

Module AdminPage.
Section handlers.
Context {ulib : UuidLib} {auth : AuthConfig} {pgt : PgText} {fmt : TimeFormat} {dec : Decoders}.

Definition fail (err : error) : Response :=
  if is_one_of err [Admin.ErrUserNotFound; ErrReportNotFound] then Error 404 (error_text err)
  else if is_one_of err [ErrBanSelf; ErrBanAdmin; ErrBadBan; ErrNotBanned; ErrBadResolution; ErrReportClosed] then Error 400 (error_text err)
  else ServerError err.

Definition intParam (r : HttpRequest) (k : string) : Z := (Atoi (hr_Query r k)).1.

(** [h.svc.Log] returns nothing. *)
Definition log (m : M World unit) : Handling unit := λ w, (inr tt, (m w).2).

Definition Overview (r : HttpRequest) : Handling Response :=
  o ← ask fail Overview_;
  mret (JSON 200 o).

Definition Users (r : HttpRequest) : Handling Response :=
  let q := hr_Query r "q" in
  list ← ask fail (Admin.Users q (intParam r "limit") (intParam r "offset"));
  (if decide (q = EmptyString) then mret tt else log (Log (hr_Admin r) "search_users" uuid_nil uuid_nil q)) ;;
  mret (JSON 200 list).

Definition User (r : HttpRequest) : Handling Response :=
  id ← PathUUID r "user_id" "invalid user id";
  u ← ask fail (User_ id);
  log (Log (hr_Admin r) "view_user" id uuid_nil EmptyString) ;;
  mret (JSON 200 u).

Definition Groups (r : HttpRequest) : Handling Response :=
  let q := hr_Query r "q" in
  list ← ask fail (Admin.Groups q (intParam r "limit") (intParam r "offset"));
  (if decide (q = EmptyString) then mret tt else log (Log (hr_Admin r) "search_groups" uuid_nil uuid_nil q)) ;;
  mret (JSON 200 list).

Definition Audit (r : HttpRequest) : Handling Response :=
  list ← ask fail (Admin.Audit (intParam r "limit"));
  mret (JSON 200 list).

Definition Ban (r : HttpRequest) : Handling Response :=
  id ← PathUUID r "user_id" "invalid user id";
  b ← Decode (T := banBody) r no_check (error_text ErrBadBan);
  ask fail (Admin.Ban (hr_Admin r) id (bb_Reason b) (bb_Until b)) ;;
  mret (WriteHeader 204).

Definition Unban (r : HttpRequest) : Handling Response :=
  id ← PathUUID r "user_id" "invalid user id";
  ask fail (Admin.Unban (hr_Admin r) id) ;;
  mret (WriteHeader 204).

Definition Reports (r : HttpRequest) : Handling Response :=
  list ← ask fail (Admin.Reports (hr_Query r "status") (intParam r "limit") (intParam r "offset"));
  mret (JSON 200 list).

Definition Report (r : HttpRequest) : Handling Response :=
  id ← PathUUID r "report_id" "invalid report id";
  d ← ask fail (Admin.Report_ (hr_Admin r) id);
  mret (JSON 200 d).

Definition Resolve (r : HttpRequest) : Handling Response :=
  id ← PathUUID r "report_id" "invalid report id";
  b ← Decode (T := resolveBody) r no_check (error_text ErrBadResolution);
  ask fail (Admin.Resolve (hr_Admin r) id (rb_Status b) (rb_Note b)) ;;
  mret (WriteHeader 204).
End handlers.
End AdminPage.

(** ** Push, media, reports, presence *)

Module Devices.
Section handlers.
Context {ulib : UuidLib} {dec : Decoders}.

Definition fail (err : error) : Response :=
  if is_one_of err [ErrBadDevice; ErrBadMute] then Error 400 (error_text err) else ServerError err.

Definition RegisterDevice (r : HttpRequest) : Handling Response :=
  me ← caller r;
  b ← Decode (T := deviceBody) r no_check "invalid parameters";
  ask fail (Push.RegisterDevice me (db_Token b) (db_Platform b)) ;;
  mret (WriteHeader 204).

Definition RemoveDevice (r : HttpRequest) : Handling Response :=
  me ← caller r;
  b ← Decode (T := deviceBody) r (λ b, negb (bool_decide (db_Token b = EmptyString))) "token is required";
  ask fail (Push.RemoveDevice me (db_Token b)) ;;
  mret (WriteHeader 204).

Definition GetPrefs (r : HttpRequest) : Handling Response :=
  me ← caller r;
  p ← ask fail (Prefs me);
  mret (JSON 200 p).

Definition SetPrefs (r : HttpRequest) : Handling Response :=
  me ← caller r;
  p ← Decode (T := NotificationPref) r no_check "invalid parameters";
  ask fail (Push.SetPrefs me p) ;;
  mret (JSON 200 p).

Definition ListMutes (r : HttpRequest) : Handling Response :=
  me ← caller r;
  list ← ask fail (Mutes me);
  mret (JSON 200 list).

Definition Mute (r : HttpRequest) : Handling Response :=
  me ← caller r;
  m ← Decode (T := Push.Mute) r no_check (error_text ErrBadMute);
  ask fail (Mute_ me m) ;;
  mret (WriteHeader 204).

Definition Unmute (r : HttpRequest) : Handling Response :=
  me ← caller r;
  m ← Decode (T := Push.Mute) r (λ m, given (mute_ID m)) (error_text ErrBadMute);
  ask fail (Push.Unmute me (mute_Type m) (mute_ID m)) ;;
  mret (WriteHeader 204).
End handlers.
End Devices.

Module Files.
Section handlers.
Context {ulib : UuidLib} {lower : GoLower} {images : ImageLib} {cfg : MediaConfig} {dec : Decoders}.

Definition fail (err : error) : Response :=
  if is_one_of err [ErrMediaDisabled] then Error 503 (error_text err)
  else if is_one_of err [ErrBadMedia; ErrBadThumbnail; ErrBadFile] then Error 400 (error_text err)
  else if is_one_of err [ErrThumbnailSet] then Error 409 (error_text err)
  else if is_one_of err [ErrDailyQuota] then Error 429 (error_text err)
  else if is_one_of err [ErrStorageFull] then Error 507 (error_text err)
  else if is_one_of err [Media.ErrNotFound; ErrNotVideo] then Error 404 (error_text err)
  else if is_one_of err [ErrExpired] then Error 410 (error_text err)
  else ServerError err.

Definition Create (r : HttpRequest) : Handling Response :=
  me ← caller r;
  b ← Decode (T := NewUploadRequest) r no_check (error_text ErrBadMedia);
  up ← ask fail (NewUpload me b);
  mret (JSON 201 up).

Definition Get (r : HttpRequest) : Handling Response :=
  me ← caller r;
  id ← PathUUID r "media_id" "invalid media id";
  d ← ask fail (Download_ me id);
  mret (JSON 200 d).

Definition PutThumbnail (r : HttpRequest) : Handling Response :=
  me ← caller r;
  id ← PathUUID r "media_id" "invalid media id";
  raw ← (match ReadAll r MaxThumbnailUpload with Whole raw => mret raw | _ => answer (Error 413 (error_text ErrBadThumbnail)) end);
  ask fail (SetThumbnail_ me id raw) ;;
  mret (WriteHeader 204).

Definition GetThumbnail (r : HttpRequest) : Handling Response :=
  me ← caller r;
  id ← PathUUID r "media_id" "invalid media id";
  d ← ask fail (Thumbnail me id);
  mret (JSON 200 d).
End handlers.
End Files.

Module ReportUsers.
Section handlers.
Context {ulib : UuidLib} {dec : Decoders}.

Definition fail (err : error) : Response :=
  if is_one_of err [ErrBadReport; ErrSelf; ErrBadEvidence] then Error 400 (error_text err)
  else if is_one_of err [Reports.ErrUnknownUser] then Error 404 (error_text err)
  else ServerError err.

Definition Create (r : HttpRequest) : Handling Response :=
  me ← caller r;
  req ← Decode (T := Reports.Request) r (λ q, given (rq_UserID q)) (error_text ErrBadReport);
  id ← ask fail (Reports.Report_ me req);
  mret (JSON 201 id).
End handlers.
End ReportUsers.

Module Seen.
Section handlers.
Context {ulib : UuidLib} {coll : Collation} {dec : Decoders} (on : uuid → bool).

Definition Friends (r : HttpRequest) : Handling Response :=
  me ← caller r;
  res ← ask ServerError (Presence.Friends on me);
  mret (JSON 200 res).

Definition SetPrivacy (r : HttpRequest) : Handling Response :=
  me ← caller r;
  b ← Decode (T := privacyBody) r (λ b, bool_decide (is_Some (pv_Hide b))) "hide_last_seen must be true or false";
  let hide := default false (pv_Hide b) in
  ask ServerError (SetHidden on me hide) ;;
  mret (JSON 200 hide).
End handlers.
End Seen.

(** ** The application's own: app/wsauth.go, app/routes.go, app/admin.go *)

Module Own.
Section handlers.
Context {ulib : UuidLib} {auth : AuthConfig}.

(** A ticket depends on the server's key only. *)
Definition wsTicket (r : HttpRequest) : Handling Response :=
  me ← caller r;
  nonce ← ask ServerError rand_Read;
  now ← ask ServerError Now;
  mret (with_headers [("Cache-Control", "no-store")]
          (JSON 200 (Issue me now nonce (NewTickets cfg_JWTSecret), TicketTTL / second))).

(** A ping of Postgres, one of Redis. *)
Definition ping : Handling bool := λ w, let '(r, w) := io (mret tt) w in (inr (is_ok r), w).

Definition health (r : HttpRequest) : Handling Response :=
  postgres ← ping;
  redis ← ping;
  let up (b : bool) : string := if b then "ok" else "down" in
  mret (JSON (if (postgres && redis)%bool then 200 else 503) [("postgres", up postgres); ("redis", up redis)]).

Definition livez (r : HttpRequest) : Handling Response := mret (WriteHeader 204).
Definition root (r : HttpRequest) : Handling Response := mret (JSON 200 [("name", "Chirpy API")]).
End handlers.
End Own.
