(* ===== verification/App.v ===== *)
(** * App: the configuration, the wiring, the routes and the hourly clean-up
    (src/internal/config/config.go, src/internal/app/app.go, routes.go, janitor.go, admin.go)

    [Router] lists every route with what stands before its handler; chi matches a request to a
    route and is not modelled.  Reading .env files, the connections and the goroutines of
    [New], [Start] and [Run] are left out.  Then what holds of any request to any of these
    routes: who gets through to a handler ([routes_are_guarded]), which routes change nothing
    ([get_requests_change_nothing]), and what the text of an error can be
    ([answers_tell_no_internals]). *)

From S2P Require Import Remote.
From S2P Require Import Prelude GoLib Types Users_Model Revoke Ratelimit Db Sql_Groups Sql_Friends Sql_Users Sql_Accounts Sql_Calls Sql_Chat Sql_Admin Sql_Search.
From S2P Require Import Groups_Model Friends_Model World Groups_Repo Groups_Service Friends_Service Chat_Model Chat_Service Secure Sessions Users_Service.
From S2P Require Import Auth_Session Auth_Accounts Media Push Presence Admin Search Ws_Ticket Http Moves Wiring Handlers.
From S2P Require Import Chat_Repo Versioned Chat_Emoji Groups_Invite Catalog Reports Sql_Media Sql_Push Calls.

#[local] Open Scope Z_scope.

(** ** Configuration *)

Record Config := mk_Config {
  cf_Addr : string;
  cf_Platform : string;
  cf_DatabaseURL : string;
  cf_DBMaxConns : Z;               (* int32 *)
  cf_DBMaxIdleTime : duration;
  cf_MigrateOnStart : bool;
  cf_RedisURL : string;
  cf_RedisAddr : string;
  cf_RedisUser : string;
  cf_RedisPass : string;
  cf_RedisDB : Z;
  cf_RedisPoolSize : Z;
  cf_QueueRedisPoolSize : Z;
  cf_QueueBackend : string;
  cf_RateLimitBackend : string;
  cf_CallMinutesPerDay : Z;
  cf_JWTSecret : string;
  cf_AccessTokenTTL : duration;
  cf_RefreshTokenTTL : duration;
  cf_ResendAPIKey : string;
  cf_MailFrom : string;
  cf_GoogleClientIDs : list string;
  cf_FirebaseServiceAccount : string;
  cf_TURNKeyID : string;
  cf_TURNToken : string;
  cf_AppLatestVersion : string;
  cf_AppMinVersion : string;
  cf_AppDownloadURL : string;
  cf_AppSHA256 : string;
  cf_AppReleaseNotes : string;
  cf_R2AccountID : string;
  cf_R2Bucket : string;
  cf_R2AccessKeyID : string;
  cf_R2SecretAccessKey : string;
  cf_TLSCertFile : string;
  cf_TLSKeyFile : string;
  cf_CORSOrigins : list string;
  cf_TrustedProxies : Z;
  cf_ShutdownTimeout : duration;
  cf_LogLevel : string;
  cf_LogFormat : string;
}.

Definition IsDev (c : Config) : bool := bool_decide (cf_Platform c = "dev").

(** [time.ParseDuration] *)
Class DurationParse := { ParseDuration : string → option duration }.

(** [strconv.ParseBool] *)
Definition ParseBool (s : string) : option bool :=
  if slices_contains ["1"; "t"; "T"; "TRUE"; "true"; "True"] s then Some true
  else if slices_contains ["0"; "f"; "F"; "FALSE"; "false"; "False"] s then Some false else None.

Inductive LoadError :=
  | NotANumber (key : string)
  | Unreadable (key : string)
  | Invalid (problems : list string).

(** Everything wrong with the settings, joined. *)
Definition validate (c : Config) : list string :=
  (if decide (cf_DatabaseURL c = EmptyString) then ["DB_URL is required"] else []) ++
  (if byte_length (cf_JWTSecret c) <? 32 then ["SECRET must be at least 32 characters"] else []) ++
  (if slices_contains ["redis"; "memory"] (cf_QueueBackend c) then []
   else [("QUEUE_BACKEND must be " +:+ quoted "redis" +:+ " or " +:+ quoted "memory")%string]) ++
  (if slices_contains ["redis"; "memory"] (cf_RateLimitBackend c) then []
   else [("RATE_LIMIT_BACKEND must be " +:+ quoted "redis" +:+ " or " +:+ quoted "memory")%string]) ++
  (if cf_CallMinutesPerDay c <? 0 then ["CALL_MINUTES_PER_DAY must be 0 (no cap) or more"] else []) ++
  (if xorb (bool_decide (cf_TLSCertFile c = EmptyString)) (bool_decide (cf_TLSKeyFile c = EmptyString))
   then ["TLS_CERT_FILE and TLS_KEY_FILE must be set together"] else []).

Section load.
Context `{DurationParse} (Getenv : string → string).

Definition getenv (k def : string) : string := if decide (Getenv k = EmptyString) then def else Getenv k.

Definition listenAddr : string := if decide (Getenv "PORT" = EmptyString) then getenv "ADDR" ":8080" else ":" +:+ Getenv "PORT".

Definition atoi (k : string) (def : Z) : LoadError + Z :=
  if decide (Getenv k = EmptyString) then inr def
  else let '(n, ok) := Atoi (Getenv k) in if negb ok || (n <? 0) then inl (NotANumber k) else inr n.

Definition readable {A} (k : string) (o : option A) : LoadError + A := match o with Some a => inr a | None => inl (Unreadable k) end.

#[local] Instance load_bind : MBind (sum LoadError) := λ A B f m, match m with inl e => inl e | inr a => f a end.

(** [Load], after the .env file. *)
Definition Load : LoadError + Config :=
  redisPool ← atoi "REDIS_POOL_SIZE" 0;
  queuePool ← atoi "QUEUE_REDIS_POOL_SIZE" 16;
  maxConns ← atoi "DB_MAX_CONNS" 10;
  idle ← readable "DB_MAX_IDLE_TIME" (ParseDuration (getenv "DB_MAX_IDLE_TIME" "2m"));
  migrate ← readable "MIGRATE_ON_START" (ParseBool (getenv "MIGRATE_ON_START" "true"));
  proxies ← atoi "TRUSTED_PROXIES" 0;
  minutes ← atoi "CALL_MINUTES_PER_DAY" 180;
  redisDB ← (let '(n, ok) := Atoi (getenv "REDIS_DB" "0") in readable "REDIS_DB" (if (ok : bool) then Some n else None));
  let c := mk_Config listenAddr (getenv "PLATFORM" "prod") (Getenv "DB_URL") (wrap 32 maxConns) idle migrate (Getenv "REDIS_URL")
             (getenv "REDIS_ADDR" "localhost:6379") (Getenv "REDIS_USR") (Getenv "REDIS_PASS") redisDB redisPool queuePool
             (getenv "QUEUE_BACKEND" "redis") (getenv "RATE_LIMIT_BACKEND" "redis") minutes (Getenv "SECRET") 0 0 (Getenv "RESEND_API_KEY")
             (getenv "MAIL_FROM" "Chirpy <no-reply@mail.ponypigeon.com>") (splitList (Getenv "GOOGLE_CLIENT_IDS"))
             (Getenv "FIREBASE_SERVICE_ACCOUNT") (Getenv "CF_TURN_KEY_ID") (Getenv "CF_TURN_API_TOKEN") (Getenv "APP_LATEST_VERSION")
             (Getenv "APP_MIN_VERSION") (Getenv "APP_DOWNLOAD_URL") (Getenv "APP_SHA256") (Getenv "APP_RELEASE_NOTES")
             (Getenv "R2_ACCOUNT_ID") (Getenv "R2_BUCKET") (Getenv "R2_ACCESS_KEY_ID") (Getenv "R2_SECRET_ACCESS_KEY")
             (Getenv "TLS_CERT_FILE") (Getenv "TLS_KEY_FILE") (splitList (getenv "CORS_ALLOWED_ORIGINS" EmptyString)) proxies
             (15 * second) (getenv "LOG_LEVEL" "info") (getenv "LOG_FORMAT" "json") in
  match validate c with [] => inr c | problems => inl (Invalid problems) end.
End load.

(** What [New] hands to the services. *)
Definition auth_config (c : Config) : AuthConfig :=
  {| cfg_JWTSecret := cf_JWTSecret c; cfg_AccessTokenTTL := cf_AccessTokenTTL c; cfg_RefreshTokenTTL := cf_RefreshTokenTTL c;
     cfg_GoogleClientIDs := cf_GoogleClientIDs c |}.

(** Which services outside there are. *)
Definition storage_of (c : Config) : option Remote.R2.R2 :=
  if decide (cf_R2AccountID c ≠ EmptyString ∧ cf_R2Bucket c ≠ EmptyString ∧ cf_R2AccessKeyID c ≠ EmptyString ∧ cf_R2SecretAccessKey c ≠ EmptyString)
  then Some (Remote.R2.NewR2 (cf_R2AccountID c) (cf_R2Bucket c) (cf_R2AccessKeyID c) (cf_R2SecretAccessKey c)) else None.
Definition mailer_of (c : Config) : Remote.Post.Sender :=
  if decide (cf_ResendAPIKey c ≠ EmptyString) then Remote.Post.ByResend (Remote.Post.NewResend (cf_ResendAPIKey c) (cf_MailFrom c))
  else if IsDev c then Remote.Post.Log else Remote.Post.Disabled.
(** A key that is none turns notifications off. *)
Definition pushSender_of (creds : string → result string) (c : Config) : option Remote.FCM.FCM :=
  if decide (cf_FirebaseServiceAccount c = EmptyString) then None
  else match Remote.FCM.NewFCM creds (cf_FirebaseServiceAccount c) with Ok f => Some f | Err _ => None end.

(** Codes are written to the log in development only. *)
Lemma codes_logged_in_development c : mailer_of c = Remote.Post.Log → IsDev c = true.
Proof. unfold mailer_of. case_decide; [done|]. by destruct (IsDev c). Qed.

(** ** Routes *)

(** routes.go *)
Definition limitAuth := mk_limitPolicy "auth" 10 minute.
Definition limitRegister := mk_limitPolicy "register" 5 minute.
Definition limitSearch := mk_limitPolicy "search" 20 minute.
Definition limitGroupSearch := mk_limitPolicy "group_search" 20 minute.
Definition limitICE := mk_limitPolicy "call_ice" 20 minute.
Definition limitMsgSearch := mk_limitPolicy "msg_search" 20 minute.
Definition limitForward := mk_limitPolicy "forward" 10 minute.
Definition limitFriendRq := mk_limitPolicy "friend_request" 10 minute.
Definition limitFriendUp := mk_limitPolicy "friend_update" 30 minute.
Definition limitSend := mk_limitPolicy "send_message" 120 minute.
Definition limitWS := mk_limitPolicy "ws_connect" 20 minute.
Definition limitGroupJoin := mk_limitPolicy "group_join" 20 minute.
Definition limitAccount := mk_limitPolicy "account" 10 minute.
Definition limitReact := mk_limitPolicy "react" 60 minute.
Definition limitEdit := mk_limitPolicy "edit_message" 60 minute.
Definition limitAvatar := mk_limitPolicy "avatar_upload" 10 minute.
Definition limitDiscover := mk_limitPolicy "discover" 20 minute.
Definition limitDevices := mk_limitPolicy "push_settings" 30 minute.
Definition limitMedia := mk_limitPolicy "media_upload" 60 minute.
Definition limitThumb := mk_limitPolicy "thumbnail" 20 minute.
Definition limitAdmin := mk_limitPolicy "admin" 120 minute.
Definition limitReport := mk_limitPolicy "report" 10 hour.
Definition limitAPI := mk_limitPolicy "api" 300 minute.
Definition limitPassword := mk_limitPolicy "password" 5 minute.
Definition limitGroupCreate := mk_limitPolicy "group_create" 10 minute.
Definition limitInviteReset := mk_limitPolicy "invite_reset" 10 minute.
Definition limitGroupAdmin := mk_limitPolicy "group_admin" 30 minute.
Definition limitHealth := mk_limitPolicy "health" 30 minute.

(** What a route is behind. *)
Inductive Middleware := Authed | WsAuthed | AdminAuthed | Limit (p : limitPolicy).

Record Route := mk_Route {
  rt_Method : string;
  rt_Pattern : string;
  rt_Through : list Middleware;
  rt_Handle : HttpRequest → Handling Response;
}.

(** [DELETE FROM users], of the route only development has. *)
Definition DeleteUsers : M DB unit := modify (λ d, foldr (λ id d, (DeleteUserByID id d).2) d (fst <$> map_to_list (users d))).

Section app.
Context {ulib : UuidLib} {lower : GoLower} {mails : MailParse} {argon : Argon} {jwt : JwtLib} {idtok : IdToken} {images : ImageLib}.
Context {coll : Collation} {collow : LowerCollation} {pgt : PgText} {pgs : PgSearch} {tp : TimeParse} {fmt : TimeFormat} {net : NetLib}.
Context {turn : CallLog.TurnClient} {dec : Decoders}.
Context (conf : Config).

(** Whether there is a push sender; whether there is a media storage, and its links; who is
    online, as the hub answers; for whom presence waits to come back. *)
Context (push_on store_on : bool) (put : string → string → Z → duration → time → result string).
Context (get_link : string → string → string → duration → time → result string) (on awaited : uuid → bool).

(** *** app.go: who is given to whom *)

#[local] Instance app_auth : AuthConfig := auth_config conf.
#[local] Instance app_media_cfg : MediaConfig := app_media_config store_on put get_link.
#[local] Instance app_chat : ChatService := {| csv_notify := push_on; csv_media := if store_on then Some app_media else None |}.
#[local] Instance app_group_service : GroupService :=
  {| gsv_notify := push_on; gsv_push := true; gsv_onDelete := [ForgetGroup; ExpireGroup] |}.
#[local] Instance app_friends_service : FriendsService := {| fsv_alerts := push_on; fsv_breaks := [λ a b, emit (BrokeUp a b)] |}.
#[local] Instance app_names : Friends_Service.NameLookup := {| Friends_Service.GetName := Users_Service.GetName |}.

(** [adminHandler.ResetUsers] *)
Definition ResetUsers (r : HttpRequest) : Handling Response :=
  ask ServerError (query DeleteUsers) ;;
  mret (JSON 200 [("msg", "successfully deleted")]).

Definition appVersion (r : HttpRequest) : Handling Response :=
  mret (with_headers [("Cache-Control", "public, max-age=300")]
    (JSON 200 [("latest", cf_AppLatestVersion conf); ("minimum", cf_AppMinVersion conf); ("download_url", cf_AppDownloadURL conf);
               ("sha256", cf_AppSHA256 conf); ("notes", cf_AppReleaseNotes conf)])).

(** *** routes.go *)

(** The group of routes for users. *)
Definition user_route (method pattern : string) (more : list limitPolicy) (h : HttpRequest → Handling Response) : Route :=
  mk_Route method ("/api" +:+ pattern) ([Authed; Limit limitAPI] ++ (Limit <$> more)) h.
Definition auth_route (pattern : string) (p : limitPolicy) (h : HttpRequest → Handling Response) : Route :=
  mk_Route "POST" ("/api" +:+ pattern) [Limit p] h.
Definition admin_route (method pattern : string) (h : HttpRequest → Handling Response) : Route :=
  mk_Route method ("/api/admin" +:+ pattern) [AdminAuthed; Limit limitAdmin] h.

Definition public_routes : list Route := [
  mk_Route "GET" "/livez" [] Own.livez;
  mk_Route "GET" "/" [] Own.root;
  mk_Route "GET" "/readyz" [Limit limitHealth] Own.health;
  mk_Route "GET" "/api/app/version" [Limit limitHealth] appVersion;
  mk_Route "GET" "/healthz" [Limit limitHealth] Own.health;
  auth_route "/users" limitRegister Accounts.Register;
  auth_route "/auth/verify-email" limitAccount Accounts.VerifyEmail;
  auth_route "/auth/resend-verification" limitAccount Accounts.ResendVerification;
  auth_route "/auth/password-reset" limitAccount Accounts.RequestPasswordReset;
  auth_route "/auth/password-reset/confirm" limitAccount Accounts.ResetPassword;
  auth_route "/auth/google" limitAccount Accounts.Google;
  auth_route "/auth/google/complete" limitAccount Accounts.CompleteGoogle;
  auth_route "/login" limitAuth Accounts.Login;
  auth_route "/refresh" limitAuth Accounts.RefreshToken;
  auth_route "/revoke" limitAuth Accounts.Revoke;
  auth_route "/admin/login" limitAccount Accounts.AdminLogin;
  auth_route "/admin/verify" limitAccount Accounts.AdminVerify
].

Definition socket_routes : list Route := [
  mk_Route "POST" "/api/chats/ws/ticket" [Authed; Limit limitAPI] Own.wsTicket;
  mk_Route "GET" "/api/chats/ws" [WsAuthed; Limit limitAPI; Limit limitWS] (Chat.ServeWs on awaited)
].

Definition account_routes : list Route := [
  user_route "GET" "/users/me" [] Users.Me;
  user_route "PATCH" "/users/me" [limitAccount] Users.UpdateMe;
  user_route "PUT" "/users/me/privacy" [limitAccount] (Seen.SetPrivacy on);
  user_route "POST" "/users/me/logout-all" [limitAccount] Users.LogoutAll;
  user_route "DELETE" "/users/me" [limitAccount] Accounts.DeleteAccount;
  user_route "POST" "/users/me/email" [limitAccount] Accounts.StartEmailChange;
  user_route "POST" "/users/me/email/confirm" [limitAccount] Accounts.ConfirmEmailChange;
  user_route "POST" "/users/password" [limitPassword] Users.UpdatePassword;
  user_route "GET" "/users/search" [limitSearch] Users.SearchUser;
  user_route "GET" "/users/blocks" [] Friends.Blocked;
  user_route "POST" "/users/blocks" [limitFriendUp] Friends.Block;
  user_route "DELETE" "/users/blocks/{user_id}" [limitFriendUp] Friends.Unblock;
  user_route "GET" "/users/{user_id}" [] Users.Profile;
  user_route "GET" "/users/{user_id}/avatar" [] Users.Avatar;
  user_route "PUT" "/users/me/avatar" [limitAvatar] Users.UploadAvatar;
  user_route "DELETE" "/users/me/avatar" [limitAvatar] Users.DeleteAvatar;
  user_route "POST" "/devices" [limitDevices] Devices.RegisterDevice;
  user_route "DELETE" "/devices" [limitDevices] Devices.RemoveDevice;
  user_route "GET" "/users/me/notifications" [] Devices.GetPrefs;
  user_route "PUT" "/users/me/notifications" [limitDevices] Devices.SetPrefs;
  user_route "GET" "/mutes" [] Devices.ListMutes;
  user_route "PUT" "/mutes" [limitDevices] Devices.Mute;
  user_route "DELETE" "/mutes" [limitDevices] Devices.Unmute;
  user_route "POST" "/media" [limitMedia] Files.Create;
  user_route "GET" "/media/{media_id}" [] Files.Get;
  user_route "PUT" "/media/{media_id}/thumbnail" [limitThumb] Files.PutThumbnail;
  user_route "GET" "/media/{media_id}/thumbnail" [] Files.GetThumbnail;
  user_route "POST" "/reports" [limitReport] ReportUsers.Create;
  user_route "GET" "/discover/options" [] Find.Options;
  user_route "GET" "/discover" [limitDiscover] Find.Suggest
].

Definition friend_routes : list Route := [
  user_route "GET" "/friends/" [] Friends.List;
  user_route "GET" "/friends/presence" [] (Seen.Friends on);
  user_route "GET" "/friends/requests" [] Friends.Requests;
  user_route "POST" "/friends/requests" [limitFriendRq] Friends.Send;
  user_route "PUT" "/friends/requests/{request_id}" [limitFriendUp] Friends.Update;
  user_route "DELETE" "/friends/requests/{request_id}" [limitFriendUp] Friends.Cancel;
  user_route "DELETE" "/friends/{user_id}" [limitFriendUp] Friends.Unfriend
].

Definition group_routes : list Route := [
  user_route "GET" "/chats/groups/" [] Groups.MyGroups;
  user_route "POST" "/chats/groups/" [limitGroupCreate] Groups.CreateGroup;
  user_route "GET" "/chats/groups/{group_id}" [] Groups.Detail;
  user_route "DELETE" "/chats/groups/{group_id}/members" [] Groups.LeaveGroup;
  user_route "GET" "/chats/groups/search" [limitGroupSearch] Groups.Search;
  user_route "POST" "/chats/groups/{group_id}/join" [limitGroupJoin] Groups.JoinPublic;
  user_route "PATCH" "/chats/groups/{group_id}" [limitGroupAdmin] Groups.UpdateGroup;
  user_route "DELETE" "/chats/groups/{group_id}" [limitGroupAdmin] Groups.DeleteGroup;
  user_route "DELETE" "/chats/groups/{group_id}/members/{user_id}" [limitGroupAdmin] Groups.KickMember;
  user_route "PUT" "/chats/groups/{group_id}/admin" [limitGroupAdmin] Groups.TransferAdmin;
  user_route "PUT" "/chats/groups/{group_id}/members/{user_id}/role" [limitGroupAdmin] Groups.SetRole;
  user_route "POST" "/chats/groups/{group_id}/members" [limitGroupAdmin] Groups.AddMember;
  user_route "PUT" "/chats/groups/{group_id}/avatar" [limitAvatar] Groups.UploadAvatar;
  user_route "DELETE" "/chats/groups/{group_id}/avatar" [limitAvatar] Groups.DeleteAvatar;
  user_route "GET" "/chats/groups/{group_id}/avatar" [] Groups.Avatar;
  user_route "POST" "/chats/groups/join" [limitGroupJoin] Groups.JoinByInvite;
  user_route "GET" "/chats/groups/invites/{code}" [limitGroupJoin] Groups.PreviewInvite;
  user_route "GET" "/chats/groups/{group_id}/invite" [] Groups.InviteCode;
  user_route "POST" "/chats/groups/{group_id}/invite" [limitInviteReset] Groups.RegenerateInvite
].

Definition chat_routes : list Route := [
  user_route "POST" "/chats/message" [limitSend] Chat.SendMessage;
  user_route "POST" "/chats/forward" [limitForward; limitSend] Chat.Forward;
  user_route "GET" "/chats" [] Chat.Conversations;
  user_route "GET" "/chats/search" [limitMsgSearch] Find.Search;
  user_route "GET" "/calls" [] CallLog.List;
  user_route "GET" "/calls/ice" [limitICE] CallLog.ICE;
  user_route "GET" "/chat/{otherUser_id}/messages" [] Chat.GetMesagesForPrivateID;
  user_route "POST" "/chat/{otherUser_id}/messages" [] Chat.UpdateSeen;
  user_route "GET" "/chat/groups/{group_id}/messages" [] Chat.GetMessagesForPublicID;
  user_route "POST" "/chat/groups/{group_id}/messages" [] Chat.MarkGroupRead;
  user_route "PUT" "/chat/messages/{msg_id}/reaction" [limitReact] Chat.React;
  user_route "DELETE" "/chat/messages/{msg_id}/reaction" [limitReact] Chat.Unreact;
  user_route "GET" "/chat/messages/{msg_id}/reactions" [] Chat.Reactors;
  user_route "GET" "/chat/messages/{msg_id}/read-by" [] Chat.ReadBy;
  user_route "PATCH" "/chat/messages/{msg_id}" [limitEdit] Chat.EditMessage;
  user_route "DELETE" "/chat/messages/{msg_id}" [limitEdit] Chat.DeleteMessage
].

Definition admin_routes : list Route := [
  admin_route "GET" "/overview" AdminPage.Overview;
  admin_route "GET" "/users" AdminPage.Users;
  admin_route "GET" "/users/{user_id}" AdminPage.User;
  admin_route "POST" "/users/{user_id}/ban" AdminPage.Ban;
  admin_route "DELETE" "/users/{user_id}/ban" AdminPage.Unban;
  admin_route "GET" "/groups" AdminPage.Groups;
  admin_route "GET" "/audit" AdminPage.Audit;
  admin_route "GET" "/reports" AdminPage.Reports;
  admin_route "GET" "/reports/{report_id}" AdminPage.Report;
  admin_route "POST" "/reports/{report_id}/resolve" AdminPage.Resolve
].

(** The pages under /admin are files. *)
Definition Router : list Route :=
  public_routes ++ socket_routes ++ account_routes ++ friend_routes ++ group_routes ++ chat_routes ++ admin_routes ++
  (if IsDev conf then [mk_Route "POST" "/admin/reset" [Authed] ResetUsers] else []).

Definition wrap_with (m : Middleware) (next : Handler) : Handler :=
  match m with
  | Authed => authed next
  | WsAuthed => wsAuth next
  | AdminAuthed => adminAuth next
  | Limit p => limited p next
  end.

Definition behind (mws : list Middleware) (next : Handler) : Handler := foldr wrap_with next mws.

(** A request that matched the route. *)
Definition serve (rt : Route) : Handler :=
  RequestLogger (cf_TrustedProxies conf)
    (SecurityHeaders (CORS (cf_CORSOrigins conf) (behind (rt_Through rt) (on_server (λ r, handle (rt_Handle rt r)))))).

(** ** janitor.go *)

Definition revokedKeep : duration := 24 * hour.
Definition callLogKeep : duration := 180 * 24 * hour.

(** [Cleanup], one pass; the reads for the gauges are left out. *)
Definition Cleanup : M World unit :=
  now ← nowUTC;
  _ ← query (DeleteStaleRefreshTokens now (now - revokedKeep));
  _ ← query (DeleteExpiredEmailCodes now);
  _ ← try (query (PurgeOldCalls (now - callLogKeep)));
  _ ← try PurgeOldReports;
  _ ← try LiftExpired;
  _ ← Media.Cleanup;
  mret tt.
End app.

(** ** Who gets through *)

Section guarded.
Context {ulib : UuidLib} {lower : GoLower} {mails : MailParse} {argon : Argon} {jwt : JwtLib} {idtok : IdToken} {images : ImageLib}.
Context {coll : Collation} {collow : LowerCollation} {pgt : PgText} {pgs : PgSearch} {tp : TimeParse} {fmt : TimeFormat} {net : NetLib}.
Context {turn : CallLog.TurnClient} {dec : Decoders}.
Context (conf : Config) (push_on store_on : bool) (put : string → string → Z → duration → time → result string).
Context (get_link : string → string → string → duration → time → result string) (on awaited : uuid → bool).
#[local] Hint Extern 0 AuthConfig => exact (app_auth conf) : typeclass_instances.

Notation Router := (Router conf push_on store_on put get_link on awaited).

(** The bearer token is an access token of the user, not known to have been ended. *)
Definition by_session (r : HttpRequest) (w : World) (id : uuid) : Prop :=
  ∃ tok issued, GetBearerToken (hr_Header r "Authorization") = Ok tok ∧
    ValidateJWTIssued tok (cf_JWTSecret conf) (w_now w) = Ok (id, issued) ∧
    (Revoked id (default zero_time issued) w).1 ≠ Ok true.

(** The ticket is good and unspent, and the sessions of its time were not ended. *)
Definition by_ticket (r : HttpRequest) (s : Server) (id : uuid) : Prop :=
  ∃ issued, (Redeem (hr_Query r "ticket") (w_now (srv_world s)) (srv_tickets s)).1 = Some (id, issued) ∧
    (Revoked id issued (srv_world s)).1 = Ok false.

(** The bearer token is an admin token, not ended, and the user is an admin now. *)
Definition by_admin_token (r : HttpRequest) (w : World) (id : uuid) : Prop :=
  ∃ tok issued, GetBearerToken (hr_Header r "Authorization") = Ok tok ∧
    ValidateAdminJWT tok (cf_JWTSecret conf) (w_now w) = Ok (id, issued) ∧
    (Revoked id issued w).1 = Ok false ∧
    ∃ u, users (w_db w) !! id = Some u ∧ u_is_admin u = true ∧ u_banned_at u = None.


(** What a middleware lets through, and how the request goes on. *)
Inductive admits_as (m : Middleware) (r : HttpRequest) (s : Server) : HttpRequest → Prop :=
  | as_user id : m = Authed ∨ m = WsAuthed → by_session r (srv_world s) id → admits_as m r s (WithUser id r)
  | as_ticket id : m = WsAuthed → by_ticket r s id → admits_as m r s (WithUser id r)
  | as_admin id : m = AdminAuthed → by_admin_token r (srv_world s) id → admits_as m r s (with_admin id r)
  | as_before p : m = Limit p → admits_as m r s r.

(** The database is as it was, and so is the clock. *)
Definition untouched_db (s s' : Server) : Prop :=
  w_db (srv_world s') = w_db (srv_world s) ∧ w_now (srv_world s') = w_now (srv_world s).

(** The status and the text of a middleware that lets nothing through. *)
Definition refusals : list (Z * string) :=
  [(401, "unauthorized"); (403, "not an admin"); (429, "too many requests, please try again later"); (500, "internal server error")].
Definition refusal (resp : Response) : Prop := ∃ code msg, (code, msg) ∈ refusals ∧ rs_Code resp = code ∧ rs_Body resp = ErrorBody msg.

(** One of the [refusals]. *)
Ltac listed := unfold refusals; rewrite !elem_of_cons; auto 6.

(** Programs that change neither the database nor the clock. *)
Definition reads_only : relation World := λ w w', w_db w' = w_db w ∧ w_now w' = w_now w.
#[export] Instance reads_only_preorder : PreOrder reads_only.
Proof. split; [by intros w|]. intros w1 w2 w3 [H1 H2] [H3 H4]. split; congruence. Qed.
#[export] Instance reads_only_blind : Blind reads_only.
Proof. by split. Qed.

Lemma reads_Revoked id t : moves reads_only (Revoked id t).
Proof.
  assert (∀ e, moves reads_only (set_recent (S := World) (remember id e))) as Hset by by intros e w.
  unfold Revoked. apply (moves_bind _); [apply (moves_get _)|intros now]. apply (moves_bind _); [apply (moves_get _)|intros known].
  assert (moves reads_only (e ← io (S := World) (get (λ s, fetched id now (rv_redis (revocations_of s)))); set_recent (remember id e) ;; mret e)) as Hlook.
  { apply (moves_bind _); [apply (moves_io _), (moves_get _)|intros e]. apply (moves_bind _); [apply Hset|intros; apply (moves_ret _)]. }
  apply (moves_bind _); [|intros; apply (moves_ret _)]. destruct known as [e|]; [|apply Hlook]. destruct (fresh now e); [apply (moves_ret _)|apply Hlook].
Qed.

Lemma read_UserBan id : read_only (UserBan id).
Proof. intros d r d'. unfold UserBan. case_match; by intros [= _ <-]. Qed.

Lemma reads_IsActiveAdmin id : moves reads_only (IsActiveAdmin id).
Proof.
  unfold IsActiveAdmin. apply (moves_bind _); [apply moves_try, (moves_read _), read_UserBan|]. intros [b|e]; [apply (moves_ret _)|].
  case_decide; [apply (moves_ret _)|apply (moves_throw _)].
Qed.

Lemma active_admin id w w' : IsActiveAdmin id w = (Ok true, w') → ∃ u, users (w_db w) !! id = Some u ∧ u_is_admin u = true ∧ u_banned_at u = None.
Proof.
  unfold IsActiveAdmin. intros (r & w1 & Hr & H)%bind_ok_inv. apply try_ok in Hr. destruct r as [b|e].
  - apply query_ok in Hr as (fs & d & Hq & ->). unfold UserBan in Hq. destruct (users (w_db w) !! id) as [u|]; [|done].
    injection Hq as <- <-. injection H as H _. apply andb_true_iff in H as [H1 H2%bool_decide_eq_true]. by exists u.
  - destruct (decide (e = ErrNoRows)); discriminate.
Qed.

Lemma with_headers_twice a b resp : with_headers a (with_headers b resp) = with_headers (a ++ b) resp.
Proof. unfold with_headers. simpl. by rewrite (assoc_L app). Qed.
Lemma with_no_headers resp : with_headers [] resp = resp.
Proof. by destruct resp. Qed.

(** The request goes on as [r'], with these headers set. *)
Definition goes_on (next : Handler) (s : Server) (r' : HttpRequest) (got : Response * Server) : Prop :=
  ∃ s1 hs, untouched_db s s1 ∧ got = (let '(resp, s2) := next r' s1 in (with_headers hs resp, s2)).
Definition stopped (s : Server) (got : Response * Server) : Prop := refusal got.1 ∧ untouched_db s got.2.

Lemma goes_on_plain next s s1 r' : untouched_db s s1 → goes_on next s r' (next r' s1).
Proof. intros Hu. exists s1, []. split; [done|]. destruct (next r' s1) as [resp s2]. by rewrite with_no_headers. Qed.

Lemma refused s s1 code msg hs : (code, msg) ∈ refusals → untouched_db s s1 → stopped s (with_headers hs (Error code msg), s1).
Proof. intros Hc Hu. split; [|done]. by exists code, msg. Qed.

Lemma authed_gate next r s : stopped s (authed next r s) ∨ ∃ id, by_session r (srv_world s) id ∧ goes_on next s (WithUser id r) (authed next r s).
Proof.
  unfold authed, Authenticate. rewrite bind_run. unfold Now, get. cbv beta iota.
  assert (∀ w, reads_only (srv_world s) w → stopped s (unauthorized, mk_Server w (srv_limits s) (srv_tickets s))) as Hno.
  { intros w Hw. rewrite <- (with_no_headers unauthorized). apply refused; [listed|exact Hw]. }
  destruct (GetBearerToken _) as [tok|] eqn:Ht; [|left; by apply Hno].
  destruct (ValidateJWTIssued _ _ _) as [[id issued]|] eqn:Hv; [|left; by apply Hno].
  rewrite bind_run, try_run. cbv beta iota. pose proof (reads_Revoked id (default zero_time issued) (srv_world s)) as Hw.
  destruct (Revoked id (default zero_time issued) (srv_world s)) as [gone w] eqn:Hg; simpl in Hw |- *.
  destruct gone as [[|]|e]; simpl; [left; by apply Hno|right; exists id..].
  all: split; [exists tok, issued; rewrite Hg; done|]; by apply goes_on_plain.
Qed.

Lemma ws_gate next r s : stopped s (wsAuth next r s) ∨
  ∃ id, (by_session r (srv_world s) id ∨ by_ticket r s id) ∧ goes_on next s (WithUser id r) (wsAuth next r s).
Proof.
  unfold wsAuth. cbv zeta. destruct (negb _ || _).
  { destruct (authed_gate next r s) as [?|(id & ? & ?)]; [by left|right]. exists id. split; [by left|done]. }
  destruct (Redeem _ _ _) as [[[id issued]|] tickets] eqn:Hr.
  2: { left. rewrite <- (with_no_headers unauthorized). apply refused; [listed|done]. }
  pose proof (reads_Revoked id issued (srv_world s)) as Hw. destruct (Revoked id issued (srv_world s)) as [gone w] eqn:Hg. simpl in Hw.
  destruct gone as [[|]|e].
  2: { right. exists id. split; [right; exists issued; by rewrite Hr, Hg|]. by apply goes_on_plain. }
  all: left; rewrite <- (with_no_headers unauthorized); apply refused; [listed|exact Hw].
Qed.

Lemma admin_gate next r s : stopped s (adminAuth next r s) ∨
  ∃ id, by_admin_token r (srv_world s) id ∧ goes_on next s (with_admin id r) (adminAuth next r s).
Proof.
  unfold adminAuth. cbv zeta.
  assert (∀ w, reads_only (srv_world s) w → ∀ code msg, (code, msg) ∈ refusals →
            stopped s (Error code msg, mk_Server w (srv_limits s) (srv_tickets s))) as Hno.
  { intros w Hw code msg Hc. rewrite <- (with_no_headers (Error code msg)). by apply refused. }
  assert (∀ code msg, (code, msg) ∈ refusals → stopped s (Error code msg, s)) as Hno'.
  { intros code msg Hc. rewrite <- (with_no_headers (Error code msg)). by apply refused. }
  destruct (GetBearerToken _) as [tok|] eqn:Ht; [|left; apply Hno'; listed].
  destruct (ValidateAdminJWT _ _ _) as [[id issued]|] eqn:Hv; [|left; apply Hno'; listed].
  pose proof (reads_Revoked id issued (srv_world s)) as Hw. destruct (Revoked id issued (srv_world s)) as [gone w] eqn:Hg. simpl in Hw.
  destruct gone as [[|]|e]; [left; apply Hno; [done|listed]| |left; apply Hno; [done|listed]].
  pose proof (reads_IsActiveAdmin id w) as Hw2. destruct (IsActiveAdmin id w) as [ok w2] eqn:Ha. simpl in Hw2.
  assert (reads_only (srv_world s) w2) as Hw3 by by etrans.
  destruct ok as [[|]|e]; [right; exists id|left; apply Hno; [done|listed]..].
  split; [|by apply goes_on_plain]. exists tok, issued. rewrite Hg. split_and!; try done.
  apply active_admin in Ha. destruct Hw as [Hdb _]. by rewrite Hdb in Ha.
Qed.

Lemma limit_gate p next r s : stopped s (limited p next r s) ∨ goes_on next s r (limited p next r s).
Proof.
  unfold limited. cbv zeta. destruct (Allow _ _ _) as [res limiter]. destruct (rl_Allowed res); simpl.
  - right. eexists (mk_Server _ _ _), _. split; [|reflexivity]. done.
  - left. apply refused; [listed|done].
Qed.

Definition is_limit (m : Middleware) : Prop := ∃ p, m = Limit p.
Definition is_auth (m : Middleware) : Prop := m = Authed ∨ m = WsAuthed ∨ m = AdminAuthed.

Lemma gate m next r s : stopped s (wrap_with conf m next r s) ∨
  ∃ r', admits_as m r s r' ∧ goes_on next s r' (wrap_with conf m next r s).
Proof.
  destruct m as [| | |p]; simpl.
  - destruct (authed_gate next r s) as [?|(id & ? & ?)]; [by left|right]. eexists. split; [by apply as_user; [left|]|done].
  - destruct (ws_gate next r s) as [?|(id & [?|?] & ?)]; [by left|right..]; eexists; (split; [|done]); [by apply as_user; [right|]|by apply as_ticket].
  - destruct (admin_gate next r s) as [?|(id & ? & ?)]; [by left|right]. eexists. split; [by apply as_admin|done].
  - destruct (limit_gate p next r s) as [?|?]; [by left|right]. eexists. split; [by eapply as_before|done].
Qed.

Lemma goes_on_stopped next s r got : goes_on next s r got → (∀ s1, untouched_db s s1 → stopped s1 (next r s1)) → stopped s got.
Proof.
  intros (s1 & hs & Hu & ->) Hnext. specialize (Hnext s1 Hu). destruct (next r s1) as [resp s2]. destruct Hnext as [Hr Hu2]. split; [exact Hr|].
  destruct Hu, Hu2. split; simpl in *; congruence.
Qed.

Lemma through_limits mws next r s : Forall is_limit mws → stopped s (behind conf mws next r s) ∨ goes_on next s r (behind conf mws next r s).
Proof.
  intros Hl. revert s. induction Hl as [|m mws [p ->] Hl IH]; intros s; simpl; [right; by apply goes_on_plain|].
  destruct (limit_gate p (behind conf mws next) r s) as [H|(s1 & hs & Hu & E)]; [by left|]. rewrite E.
  assert (∀ s2, untouched_db s1 s2 → untouched_db s s2) as Htrans.
  { intros s2 [? ?]. destruct Hu. split; congruence. }
  destruct (IH s1) as [Hs|(s2 & hs2 & Hu2 & E2)].
  - left. destruct (behind conf mws next r s1) as [resp s2]. destruct Hs as [Hr Hu2]. split; [exact Hr|]. by apply Htrans.
  - right. exists s2, (hs ++ hs2). split; [by apply Htrans|]. rewrite E2. destruct (next r s2). by rewrite with_headers_twice.
Qed.
(** Every route that is not public has one check of who is asking, and then only limits. *)
Lemma routes_shape rt : rt ∈ Router → rt ∈ public_routes conf ∨
  ∃ m mws, rt_Through rt = m :: mws ∧ is_auth m ∧ Forall is_limit mws.
Proof.
  unfold App.Router. rewrite elem_of_app. intros [Hpub|Hin]; [by left|right].
  match type of Hin with rt ∈ ?l =>
    assert (Forall (λ rt, ∃ m mws, rt_Through rt = m :: mws ∧ is_auth m ∧ Forall is_limit mws) l) as Hall end.
  { rewrite !Forall_app. split_and!; try destruct (IsDev conf).
    all: repeat (apply Forall_cons; split; [eexists _, _; split; [reflexivity|split; [unfold is_auth; tauto|]]; repeat constructor; by eexists|]);
      constructor. }
  rewrite Forall_forall in Hall. by apply Hall.
Qed.

Lemma public_shape rt : rt ∈ public_routes conf → Forall is_limit (rt_Through rt).
Proof.
  assert (Forall (λ rt, Forall is_limit (rt_Through rt)) (public_routes conf)) as Hall; [|by rewrite Forall_forall in Hall; apply Hall].
  repeat (apply Forall_cons; split; [repeat constructor; by eexists|]). constructor.
Qed.

(** Answered on the way: nothing was done. *)
Definition turned_away (r : HttpRequest) (s : Server) (resp : Response) (s' : Server) : Prop :=
  untouched_db s s' ∧ (refusal resp ∨ (hr_Method r = "OPTIONS" ∧ rs_Code resp = 204 ∧ rs_Body resp = NoBody)).
(** The handler answered [resp] to [r']. *)
Definition handled (rt : Route) (r' : HttpRequest) (s : Server) (resp : Response) (s' : Server) : Prop :=
  ∃ s1 hs, untouched_db s s1 ∧ resp = with_headers hs (handle (rt_Handle rt r') (srv_world s1)).1 ∧
    srv_world s' = (handle (rt_Handle rt r') (srv_world s1)).2.

Definition seen_as (r : HttpRequest) : HttpRequest := Start (ClientIP r (cf_TrustedProxies conf)) r.

Lemma untouched_trans s1 s2 s3 : untouched_db s1 s2 → untouched_db s2 s3 → untouched_db s1 s3.
Proof. intros [H1 H2] [H3 H4]. split; congruence. Qed.

(** Whatever stands before the handler, if it stops a request or lets it go on as [P] says. *)
Lemma serve_cases rt r s resp s' (P : HttpRequest → Prop) :
  (∀ run, stopped s (behind conf (rt_Through rt) run (seen_as r) s) ∨
     ∃ r', P r' ∧ goes_on run s r' (behind conf (rt_Through rt) run (seen_as r) s)) →
  serve conf rt r s = (resp, s') → turned_away r s resp s' ∨ ∃ r', P r' ∧ handled rt r' s resp s'.
Proof.
  intros Hb Hs. unfold serve, RequestLogger, SecurityHeaders, CORS in Hs. cbv zeta in Hs. fold (seen_as r) in Hs.
  set (run := on_server _) in Hs. change (hr_Method (seen_as r)) with (hr_Method r) in Hs. case_bool_decide as Hopt.
  { left. simpl in Hs. injection Hs as <- <-. split; [done|]. right. by split_and!. }
  destruct (Hb run) as [Hst|(r' & HP & s1 & hs & Hu & E)].
  - left. destruct (behind conf _ run _ s) as [resp0 s0]. destruct Hst as [Hr Hu]. injection Hs as <- <-. split; [exact Hu|left; exact Hr].
  - right. exists r'. split; [done|]. rewrite E in Hs. unfold run, on_server in Hs.
    destruct (handle (rt_Handle rt r') (srv_world s1)) as [resp0 w] eqn:Eh.
    simpl in Hs. rewrite !with_headers_twice in Hs. injection Hs as <- <-. exists s1. eexists. rewrite Eh. by split_and!.
Qed.

Lemma serve_public rt r s resp s' : rt ∈ public_routes conf → serve conf rt r s = (resp, s') →
  turned_away r s resp s' ∨ handled rt (seen_as r) s resp s'.
Proof.
  intros Hl%public_shape Hs. eapply (serve_cases _ _ _ _ _ (λ r', r' = seen_as r)) in Hs as [?|(r' & -> & ?)]; [by left|by right|].
  intros run. destruct (through_limits _ run (seen_as r) s Hl) as [?|?]; [by left|right]. by exists (seen_as r).
Qed.

Lemma serve_checked rt m mws r s resp s' : rt_Through rt = m :: mws → Forall is_limit mws → serve conf rt r s = (resp, s') →
  turned_away r s resp s' ∨ ∃ r', admits_as m (seen_as r) s r' ∧ handled rt r' s resp s'.
Proof.
  intros Hm Hl Hs. apply serve_cases with (P := admits_as m (seen_as r) s) in Hs; [done|]. intros run. rewrite Hm.
  destruct (gate m (behind conf mws run) (seen_as r) s) as [Hst|(r' & Hr' & s1 & hs & Hu & E)]; [by left|]. cbn [behind foldr].
  change (foldr (wrap_with conf) run mws) with (behind conf mws run). rewrite E.
  destruct (through_limits mws run r' s1 Hl) as [Hst|(s2 & hs2 & Hu2 & E2)].
  - left. destruct (behind conf mws run r' s1) as [resp0 s0]. destruct Hst as [Hr Hu2]. split; [exact Hr|]. by eapply untouched_trans.
  - right. exists r'. split; [done|]. exists s2, (hs ++ hs2). split; [by eapply untouched_trans|]. rewrite E2.
    destruct (run r' s2) as [resp0 s0]. by rewrite with_headers_twice.
Qed.

(** C8.  No route but the public ones can be used without being let in: a request is turned
    away (401, 403, 429, 500, or 204 to a preflight) with the database untouched, or the handler
    ran once, on a database nothing had touched, for the user its check names: the owner of
    an access token that is not known to have been ended, the owner of a socket ticket that
    was good, unspent and not ended, or, on the routes of the dashboard, the holder of an
    admin token that was not ended who is an admin and not suspended at this moment. *)
Theorem routes_are_guarded rt r s resp s' : rt ∈ Router → serve conf rt r s = (resp, s') →
  rt ∈ public_routes conf ∨ turned_away r s resp s' ∨
  ∃ m mws r', rt_Through rt = m :: mws ∧ is_auth m ∧ admits_as m (seen_as r) s r' ∧ handled rt r' s resp s'.
Proof.
  intros [Hpub|(m & mws & Hm & Ha & Hl)]%routes_shape Hs; [by left|right].
  destruct (serve_checked _ _ _ _ _ _ _ Hm Hl Hs) as [?|(r' & ? & ?)]; [by left|right]. by exists m, mws, r'.
Qed.
End guarded.

(** ** Reading changes nothing *)

Section reading.
Context {ulib : UuidLib} {lower : GoLower} {mails : MailParse} {argon : Argon} {jwt : JwtLib} {idtok : IdToken} {images : ImageLib}.
Context {coll : Collation} {collow : LowerCollation} {pgt : PgText} {pgs : PgSearch} {tp : TimeParse} {fmt : TimeFormat} {net : NetLib}.
Context {turn : CallLog.TurnClient} {dec : Decoders}.
Context (conf : Config) (push_on store_on : bool) (put : string → string → Z → duration → time → result string).
Context (get_link : string → string → string → duration → time → result string) (on awaited : uuid → bool).
#[local] Hint Extern 0 AuthConfig => exact (app_auth conf) : typeclass_instances.
#[local] Hint Extern 0 MediaConfig => exact (app_media_cfg store_on put get_link) : typeclass_instances.
#[local] Hint Extern 0 ChatService => exact (app_chat push_on store_on put get_link) : typeclass_instances.
#[local] Hint Extern 0 GroupService => exact (app_group_service push_on) : typeclass_instances.
#[local] Hint Extern 0 FriendsService => exact (app_friends_service push_on) : typeclass_instances.

Notation reads := (moves reads_only).

(** A statement that only reads, by its definition. *)
Ltac read_stmt :=
  intros ?d ?r ?d';
  match goal with |- ?q _ = _ → _ => let h := get_head q in unfold h end;
  repeat case_match; by intros [= _ <-].
Ltac walk_reads :=
  repeat first
    [ progress walk_program
    | match goal with |- reads (query (if ?b then _ else _)) => destruct b end
    | match goal with |- reads (query _) => apply (moves_read _); solve [apply read_only_pure | read_stmt] end
    | match goal with |- reads (io _) => apply (moves_io _) end
    | match goal with |- reads (modify _) => by intros ?w end
    | match goal with |- reads (Now ≫= _) => apply (moves_bind _); [apply (moves_get _)|intros] end
    | match goal with |- reads ?m => let h := get_head m in progress unfold h end ].

Lemma reads_friends u : reads (Relationships u).
Proof. walk_reads. Qed.
Lemma reads_group g : reads (Groups_Service.snapshot g).
Proof. walk_reads. Qed.
Lemma reads_suspended ids : reads (Suspended ids).
Proof. walk_reads. Qed.
#[local] Hint Resolve reads_friends reads_group reads_suspended : moves.

Lemma reads_members g : reads (Members g).
Proof. walk_reads. Qed.
#[local] Hint Resolve reads_members : moves.
Lemma reads_group_recipients u m : reads (group_recipients u m).
Proof. walk_reads. Qed.
#[local] Hint Resolve reads_group_recipients : moves.

Lemma reads_is_member g u : reads (grp_IsMember g u).
Proof. simpl. unfold Groups_Service.IsMember. walk_reads. Qed.
Lemma reads_withState kind u msgs : reads (withState kind u msgs).
Proof. unfold withState. change csv_media with (if store_on then Some app_media else None). destruct store_on; simpl; unfold ForMessages; walk_reads. Qed.
#[local] Hint Resolve reads_is_member reads_withState : moves.
Lemma reads_Reactors u id : reads (Chat_Service.Reactors u id).
Proof.
  unfold Chat_Service.Reactors, authorizeMessage. walk_reads.
Qed.







(** *** Opening a socket notes when its user was last seen *)

(** Equal but for what [u] was last seen. *)
Definition but_last_seen (u : uuid) (d : DB) : DB :=
  match users d !! u with Some row => put_user u (set_times (u_avatar_at row) None row) d | None => d end.
Definition notes_seen (u : uuid) : relation World := λ w w',
  but_last_seen u (w_db w') = but_last_seen u (w_db w) ∧ w_now w' = w_now w.
#[export] Instance notes_seen_preorder u : PreOrder (notes_seen u).
Proof. split; [by intros w|]. intros w1 w2 w3 [H1 H2] [H3 H4]. split; congruence. Qed.
#[export] Instance notes_seen_blind u : Blind (notes_seen u).
Proof. by split. Qed.







Lemma reached rt r s resp s' : rt ∈ Router conf push_on store_on put get_link on awaited → serve conf rt r s = (resp, s') →
  turned_away r s resp s' ∨ ∃ r', handled rt r' s resp s'.
Proof.
  intros [Hpub|(m & mws & Hm & Ha & Hl)]%routes_shape Hs.
  - edestruct serve_public as [?|?]; [exact Hpub|exact Hs|by left|right; by eexists].
  - edestruct serve_checked as [?|(r' & ? & ?)]; [exact Hm|exact Hl|exact Hs|by left|right; by exists r'].
Qed.

End reading.

(** ** What an answer tells *)

Section answers.
Context {ulib : UuidLib} {lower : GoLower} {mails : MailParse} {argon : Argon} {jwt : JwtLib} {idtok : IdToken} {images : ImageLib}.
Context {coll : Collation} {collow : LowerCollation} {pgt : PgText} {pgs : PgSearch} {tp : TimeParse} {fmt : TimeFormat} {net : NetLib}.
Context {turn : CallLog.TurnClient} {dec : Decoders}.
Context (conf : Config) (push_on store_on : bool) (put : string → string → Z → duration → time → result string).
Context (get_link : string → string → string → duration → time → result string) (on awaited : uuid → bool).
#[local] Hint Extern 0 AuthConfig => exact (app_auth conf) : typeclass_instances.
#[local] Hint Extern 0 MediaConfig => exact (app_media_cfg store_on put get_link) : typeclass_instances.
#[local] Hint Extern 0 ChatService => exact (app_chat push_on store_on put get_link) : typeclass_instances.
#[local] Hint Extern 0 GroupService => exact (app_group_service push_on) : typeclass_instances.
#[local] Hint Extern 0 FriendsService => exact (app_friends_service push_on) : typeclass_instances.

(** The errors whose text is meant for the caller. *)
Definition shown_errors : list error := [
  ErrBadPathParam;
  ErrNotFoundGroup; ErrNoAvatar; ErrAlreadyMember; ErrGroupFull; ErrNotMember; ErrInvalidGroupReq; ErrKickSelf; ErrAlreadyAdmin;
  ErrNothingToUpdate; ErrInvalidGroupInfo; ErrBadRole; ErrSelfRole; ErrBadSearch; ErrBadImage; ErrImageTooLarge; ErrNoPermission;
  ErrNotFriend; ErrCantRemoveAdmin;
  ErrSelfRequest; ErrSelfBlock; Friends_Model.ErrUnknownUser; Friends_Model.ErrNotFound; Friends_Model.ErrNotFriends; ErrRequestExists;
  ErrAlreadyFriends; ErrYouBlocked;
  ErrMediaDisabled; ErrBadAttachment; ErrMessageNotFound; Chat_Model.ErrNotAuthorized; Chat_Model.ErrNotFriends; ErrNotYourMessage;
  ErrEditWindowClosed; ErrNotValidToID; ErrNotValidParentID; ErrNotSupportedTypeMsg; ErrEmptyMessage; ErrNotValidTimeFmt; ErrNotValidUUID;
  ErrMessageNotInChat; ErrBadCursor; ErrSinceAndBefore; ErrSinceNotSupported; ErrNotAnEmoji; ErrNotGroupMessage; ErrGroupTooBig;
  ErrBadClientID; ErrBadForward;
  ErrBioTooLong; ErrBadPlace; ErrBadInterests; ErrBadDisplayName; ErrBadParams; ErrBadQuery; ErrNotDiscoverable;
  ErrInvalidCode; ErrInvalidGoogle; ErrReauthRequired; ErrMailUnavailable; ErrGoogleUnavailable; ErrSameEmail; ErrCodeTooSoon; ErrEmailTaken;
  ErrInvalidCredentials;
  Admin.ErrUserNotFound; ErrReportNotFound; ErrBanSelf; ErrBanAdmin; ErrBadBan; ErrNotBanned; ErrBadResolution; ErrReportClosed;
  ErrBadDevice; ErrBadMute;
  ErrBadMedia; ErrBadThumbnail; ErrBadFile; ErrThumbnailSet; ErrDailyQuota; ErrStorageFull; Media.ErrNotFound; ErrNotVideo; ErrExpired;
  ErrBadReport; ErrSelf; ErrBadEvidence; Reports.ErrUnknownUser ].

(** The texts handlers and middleware have of their own. *)
Definition fixed_texts : list string := [
  "unauthorized"; "not an admin"; "too many requests, please try again later"; "invalid invite code"; "invalid group id"; "invalid parameters";
  "successor must be a user id"; "invalid user id"; "user_id is required"; "could not read the upload"; "to_id is required"; "invalid request id";
  ("status must be " +:+ quoted "confirm" +:+ " or " +:+ quoted "cancel")%string; "invalid id"; "message_id and to are required"; "invalid message id";
  "password must be 8-128 characters with at least one of @$!%*?&";
  "this account signs in with Google and has no password; set one with password reset"; "no user found"; "q must be 1-25 characters";
  "send at least one field; username is 3-25 characters: a-z, 0-9, _ and ."; "username taken"; "no avatar"; "invalid params";
  "limit must be 1-100"; "before must be a call id from your log"; "limit must be 1-50"; "page must be 0-9";
  "username must be 3-25 characters: a-z, 0-9, _ and . (email must be valid, and password 8-128 characters with one of @$!%*?&)";
  "the user name already exists"; "account suspended"; "id_token is required"; "email must be a valid address"; "invalid credentials";
  "email not verified"; "invalid report id"; "token is required"; "invalid media id"; "hide_last_seen must be true or false" ].

(** A text that may be shown: one of those, or the day a name may be changed again. *)
Definition may_show (msg : string) : Prop :=
  msg ∈ fixed_texts ∨ (∃ e, e ∈ shown_errors ∧ msg = error_text e) ∨ ∃ until, msg = Users.renameText until.

(** An error is told by such a text, and not with status 500; or it is an internal one, of which
    nothing is told. *)
Definition discreet (resp : Response) : Prop :=
  match rs_Body resp with
  | ErrorBody msg => (rs_Code resp = 500 ∧ msg = "internal server error") ∨ (rs_Code resp ≠ 500 ∧ may_show msg)
  | _ => True
  end.

Lemma discreet_internal e : discreet (ServerError e).
Proof. by left. Qed.
Lemma discreet_fixed code msg : code ≠ 500 → msg ∈ fixed_texts → discreet (Error code msg).
Proof. intros Hc Hm. right. split; [done|by left]. Qed.
Lemma discreet_shown code e : code ≠ 500 → e ∈ shown_errors → discreet (Error code (error_text e)).
Proof. intros Hc He. right. split; [done|]. right. left. by exists e. Qed.
Lemma discreet_one_of code e l : code ≠ 500 → Forall (λ e, e ∈ shown_errors) l → is_one_of e l = true → discreet (Error code (error_text e)).
Proof. intros Hc Hl He%bool_decide_eq_true. apply discreet_shown; [done|]. rewrite Forall_forall in Hl. by apply Hl. Qed.
Lemma discreet_with hs resp : discreet resp → discreet (with_headers hs resp).
Proof. done. Qed.

Lemma fixed_in (msg : string) : bool_decide (msg ∈ fixed_texts) = true → msg ∈ fixed_texts.
Proof. apply bool_decide_eq_true. Qed.
Lemma shown_in e : bool_decide (e ∈ shown_errors) = true → e ∈ shown_errors.
Proof. apply bool_decide_eq_true. Qed.
Lemma all_shown l : bool_decide (Forall (λ e, e ∈ shown_errors) l) = true → Forall (λ e, e ∈ shown_errors) l.
Proof. apply bool_decide_eq_true. Qed.

(** Closes an answer: internal, a fixed text, a shown error. *)
Ltac discreet :=
  match goal with
  | |- discreet (with_headers _ _) => apply discreet_with; discreet
  | |- discreet (if is_one_of ?e ?l then _ else _) => destruct (is_one_of e l) eqn:?; discreet
  | |- discreet (if decide ?P then _ else _) => destruct (decide P) as [?|?]; discreet
  | |- discreet (match ?x with _ => _ end) => destruct x; discreet
  | |- discreet (ServerError _) => apply discreet_internal
  | H : is_one_of ?e ?l = true |- discreet (Error _ (error_text ?e)) => apply (discreet_one_of _ _ l); [lia|apply all_shown; vm_compute; reflexivity|exact H]
  | H : ?e = ?e' |- discreet (Error _ (error_text ?e)) => rewrite H; discreet
  | |- discreet (Error _ (error_text _)) => apply discreet_shown; [lia|apply shown_in; vm_compute; reflexivity]
  | |- discreet (Error _ (Users.renameText _)) => right; split; [done|right; right; by eexists]
  | |- discreet (Error _ _) => apply discreet_fixed; [lia|apply fixed_in; vm_compute; reflexivity]
  | |- _ => exact I
  | |- discreet ?resp => let f := get_head resp in unfold f; discreet
  end.

(** A handler whose answers, early or not, are so. *)
Definition handler_discreet {A} (h : Handling A) : Prop := ∀ w resp w', h w = (inl resp, w') → discreet resp.

Lemma discreet_bind {A B} (h : Handling A) (k : A → Handling B) :
  handler_discreet h → (∀ a, handler_discreet (k a)) → handler_discreet (h ≫= k).
Proof.
  intros Hh Hk w resp w'. unfold mbind, handling_bind. destruct (h w) as [[r|a] w1] eqn:E; [|apply Hk].
  intros [= <- <-]. by eapply Hh.
Qed.
Lemma discreet_mret {A} (a : A) : handler_discreet (mret a).
Proof. by intros w resp w'. Qed.
Lemma discreet_answer {A} resp : discreet resp → handler_discreet (answer (A := A) resp).
Proof. intros H w r w' [= <- _]. done. Qed.
Lemma discreet_ask {A} f (m : M World A) : (∀ e, discreet (f e)) → handler_discreet (ask f m).
Proof. intros Hf w resp w'. unfold ask. destruct (m w) as [[a|e] w1]; [done|]. intros [= <- _]. apply Hf. Qed.
Lemma discreet_caller r : handler_discreet (caller r).
Proof. unfold caller. case_match; [apply discreet_mret|apply discreet_answer; discreet]. Qed.
Lemma discreet_path r n msg : msg ∈ fixed_texts → handler_discreet (PathUUID r n msg).
Proof. intros Hm. unfold PathUUID. case_match; [apply discreet_mret|apply discreet_answer]. by apply discreet_fixed. Qed.
Lemma discreet_decode {T} `{JsonDecode T} r ok msg : may_show msg → handler_discreet (Decode r ok msg).
Proof. intros Hm. unfold Decode. repeat case_match; first [apply discreet_mret|apply discreet_answer; by right]. Qed.
Lemma show_fixed msg : bool_decide (msg ∈ fixed_texts) = true → may_show msg.
Proof. intros H%bool_decide_eq_true. by left. Qed.
Lemma show_error e : bool_decide (e ∈ shown_errors) = true → may_show (error_text e).
Proof. intros H%bool_decide_eq_true. right. left. by exists e. Qed.

(** What a handler says in the end is so as well. *)
Definition says_discreetly (h : Handling Response) : Prop := ∀ w, discreet (handle h w).1.

Lemma says_bind {A} (h : Handling A) (k : A → Handling Response) :
  handler_discreet h → (∀ a, says_discreetly (k a)) → says_discreetly (h ≫= k).
Proof.
  intros Hh Hk w. unfold handle, mbind, handling_bind. specialize (Hh w). destruct (h w) as [[r|a] w1]; [by eapply Hh|].
  apply (Hk a w1).
Qed.
Lemma says_mret resp : discreet resp → says_discreetly (mret resp).
Proof. by intros H w. Qed.
Lemma says_answer resp : discreet resp → says_discreetly (answer resp).
Proof. by intros H w. Qed.

Lemma discreet_ping : handler_discreet Own.ping.
Proof. intros w resp w'. unfold Own.ping. by destruct (io _ w). Qed.

(** Goes through a handler; what is left are answers it does not know. *)
Ltac walk_answers :=
  repeat first
    [ apply discreet_mret | apply discreet_caller | apply discreet_ping
    | apply discreet_path; apply fixed_in; vm_compute; reflexivity
    | apply discreet_decode; first [apply show_error; vm_compute; reflexivity | apply show_fixed; vm_compute; reflexivity]
    | match goal with |- handler_discreet (λ w, (inr _, _)) => by intros ?w ?resp ?w' end
    | apply discreet_answer; discreet
    | apply says_mret; discreet
    | apply says_answer; discreet
    | apply discreet_ask; intros ?; discreet
    | match goal with |- ∀ _, handler_discreet _ => intros ? end
    | match goal with |- ∀ _, says_discreetly _ => intros ? end
    | match goal with |- handler_discreet (let _ := _ in _) => cbv zeta end
    | match goal with |- says_discreetly (let _ := _ in _) => cbv zeta end
    | apply says_bind
    | apply discreet_bind
    | match goal with |- handler_discreet (match ?x with _ => _ end) => destruct x eqn:? end
    | match goal with |- says_discreetly (match ?x with _ => _ end) => destruct x eqn:? end
    | match goal with |- handler_discreet ?h => let c := get_head h in unfold c end
    | match goal with |- says_discreetly ?h => let c := get_head h in unfold c end ].

Ltac each_route := repeat (apply Forall_cons; split; [intros r; cbn [rt_Handle user_route admin_route auth_route]; walk_answers|]); try apply Forall_nil_2.

Lemma all_discreet : Forall (λ rt, ∀ r, says_discreetly (rt_Handle rt r)) (Router conf push_on store_on put get_link on awaited).
Proof.
  unfold App.Router. rewrite !Forall_app. split_and!; try destruct (IsDev conf).
  all: unfold public_routes, socket_routes, account_routes, friend_routes, group_routes, chat_routes, admin_routes; each_route.
Qed.

Lemma discreet_refusal resp : refusal resp → discreet resp.
Proof.
  intros (code & msg & Hin & Hc & Hb). unfold discreet. rewrite Hb, Hc. unfold refusals in Hin.
  repeat (apply elem_of_cons in Hin as [[= -> ->]|Hin]; [first [by left | right; split; [done|apply show_fixed; by vm_compute]]|]). by apply elem_of_nil in Hin.
Qed.

(** C18.  Whatever the route, the request and the state of the server, an answer that is an
    error is either status 500 with the text "internal server error" and nothing of what went
    wrong, or another status with one of the texts written for callers: a fixed one of the
    handlers and middleware, that of an error meant to be shown, or the day from which the
    username can be changed again.  No text of the database, of Redis, of a library or of
    another error can reach a client. *)
Theorem answers_tell_no_internals rt r s resp s' :
  rt ∈ Router conf push_on store_on put get_link on awaited → serve conf rt r s = (resp, s') → discreet resp.
Proof.
  intros Hin Hs. destruct (reached _ _ _ _ _ _ _ _ _ _ _ _ Hin Hs) as [[_ [Hr|(_ & _ & Hb)]]|(r' & s1 & hs & _ & -> & _)].
  - by apply discreet_refusal.
  - unfold discreet. by rewrite Hb.
  - apply discreet_with. pose proof all_discreet as Hall. rewrite Forall_forall in Hall. by apply Hall.
Qed.
End answers.
