(* ===== verification/Push_Props.v ===== *)
(** * Push_Props: who is told, and what becomes of the devices *)

From S2P Require Import Prelude GoLib Types Users_Model Db Sql_Friends Sql_Accounts Sql_Media Sql_Push Groups_Model Friends_Model World Users_Repo Groups_Service Users_Service Chat_Access Wiring Media_Rules Push.

#[local] Open Scope Z_scope.

(** ** The service *)

Section handle.
Context {ulib : UuidLib} {sender : PushSender} {names : PushNames} {online : HubOnline}.

(** The hub answers at once who is connected; looking a name up sends and stores
    nothing. *)
Variable on : uuid → bool.
Hypothesis hub_answers : ∀ u w, hub_Online u w = (Ok (on u), w).
Definition outside (w : World) := (w_db w, w_log w, w_now w).
Hypothesis names_read : ∀ u, leaves outside (pn_GetName u).
Hypothesis group_names_read : ∀ g, leaves outside (pn_GroupName g).

(** Someone else the job is for, who is not connected, wants this kind, and has not muted
    the chat. *)
Definition should_tell (j : Job) (d : DB) (now : time) (u : uuid) : Prop :=
  u ∈ job_To j ∧ u ≠ job_From j ∧ on u = false ∧ wants (prefKind (job_Kind j)) (notification_prefs d !! u) = true ∧
  muted d u (mute_chat j).1 (mute_chat j).2 now = false.

Lemma offline_run from ids w : offline from ids w = (Ok (List.filter (λ u, negb (bool_decide (u = from)) && negb (on u)) ids), w).
Proof.
  induction ids as [|u ids IH]; [done|]. simpl. case_decide as Hu.
  - rewrite IH. by rewrite bool_decide_true.
  - rewrite bind_run, hub_answers, bind_run, IH. rewrite bool_decide_false by done. simpl. by destruct (on u).
Qed.

Lemma send_all_run msg targets w : ∃ dead w', send_all msg targets w = (Ok dead, w') ∧ w_db w' = w_db w ∧
  w_log w' = w_log w ++ ((λ t, Phoned (for_device t msg)) <$> targets.*2) ∧
  ∀ t, t ∈ dead → t ∈ targets.*2 ∧ ∃ sent, send_reply sent (for_device t msg) = Some ErrDeadToken.
Proof.
  revert w. induction targets as [|[u t] targets IH]; intros w; simpl.
  { exists [], w. split_and!; [done|done|by rewrite app_nil_r|set_solver]. }
  rewrite bind_run. unfold try at 1, Send.
  destruct (IH (with_log (w_log w ++ [Phoned (for_device t msg)]) w)) as (dead & w' & E & D & L & Hdead).
  exists (match send_reply (w_log w) (for_device t msg) with
          | Some e => if decide (e = ErrDeadToken) then t :: dead else dead | None => dead end), w'.
  split_and!; [|done|by rewrite L; simpl; rewrite <- app_assoc|].
  - destruct (send_reply _ _) as [e|]; by rewrite bind_run, E.
  - intros k Hk. destruct (send_reply (w_log w) (for_device t msg)) as [e|] eqn:Hr; [case_decide as He; subst|].
    + apply elem_of_cons in Hk as [->|Hk]; [split; [left|by eexists]|]. apply Hdead in Hk as [? ?]. split; [by right|done].
    + apply Hdead in Hk as [? ?]. split; [by right|done].
    + apply Hdead in Hk as [? ?]. split; [by right|done].
Qed.

Lemma render_run j w r w' : render j w = (r, w') →
  outside w' = outside w ∧ (∀ msg, r = Ok msg → ∃ from group, msg = contents j from group).
Proof.
  unfold render. rewrite bind_run. pose proof (names_read (job_From j) w) as H1.
  destruct (pn_GetName _ w) as [[from|e] w1]; [|intros [= <- <-]; by split]. rewrite bind_run. simpl in H1.
  assert (outside ((if decide (job_Group j = uuid_nil) then mret EmptyString else pn_GroupName (job_Group j)) w1).2 = outside w1) as H2.
  { case_decide; [done|apply group_names_read]. }
  destruct ((if decide (job_Group j = uuid_nil) then mret EmptyString else pn_GroupName (job_Group j)) w1) as [[group|e] w2]; simpl in H2; [|intros [= <- <-]; split; [congruence|done]].
  intros [= <- <-]. split; [congruence|]. intros msg [= <-]. by eexists _, _.
Qed.

(** The tokens [PushTargets] names. *)
Definition told (j : Job) (now : time) (d : DB) : list string :=
  fst <$> select (λ _ dev, slices_contains (List.filter (λ u, negb (bool_decide (u = job_From j)) && negb (on u)) (job_To j)) (ud_UserID dev) &&
                    wants (prefKind (job_Kind j)) (notification_prefs d !! ud_UserID dev) &&
                    negb (muted d (ud_UserID dev) (mute_chat j).1 (mute_chat j).2 now)) (user_devices d).

Lemma elem_of_told j now d t : t ∈ told j now d ↔ ∃ dev, user_devices d !! t = Some dev ∧ should_tell j d now (ud_UserID dev).
Proof.
  unfold told. rewrite list_elem_of_fmap. split.
  - intros ([k dev] & -> & [Hk Hp]%elem_of_select). exists dev. split; [done|].
    apply andb_true_iff in Hp as [[Hp Hw]%andb_true_iff Hm]. apply negb_true_iff in Hm.
    apply slices_contains_true, list_elem_of_In, List.filter_In in Hp as [Hin Hp].
    apply andb_true_iff in Hp as [Hne Hon]. apply negb_true_iff in Hne, Hon. apply bool_decide_eq_false in Hne.
    apply list_elem_of_In in Hin. by split_and!.
  - intros (dev & Hk & Hto & Hne & Hon & Hw & Hm). exists (t, dev). split; [done|]. apply elem_of_select. split; [done|].
    rewrite Hw, Hm, andb_true_r, andb_true_r. apply slices_contains_true, list_elem_of_In, List.filter_In.
    rewrite Hon, bool_decide_false by done. split; [by apply list_elem_of_In|done].
Qed.

Lemma NoDup_told j now d : NoDup (told j now d).
Proof.
  unfold told. apply NoDup_fmap_fst; [|apply NoDup_select]. intros t d1 d2 [H1 _]%elem_of_select [H2 _]%elem_of_select. congruence.
Qed.

(** What became of a job: the tokens told, those forgotten, and the message. *)
Record handled (j : Job) (w : World) (r : result unit) (w' : World) (tokens dead : list string) (msg : PushMessage) : Prop := {
  hd_log : w_log w' = w_log w ++ ((λ t, Phoned (for_device t msg)) <$> tokens);
  hd_once : NoDup tokens;
  hd_message : tokens ≠ [] → ∃ from group, msg = contents j from group;
  hd_right t : t ∈ tokens → ∃ dev, user_devices (w_db w) !! t = Some dev ∧ should_tell j (w_db w) (pgTime (w_now w)) (ud_UserID dev);
  hd_all : r = Ok tt → send_on = true → ∀ t dev,
    user_devices (w_db w) !! t = Some dev → should_tell j (w_db w) (pgTime (w_now w)) (ud_UserID dev) → t ∈ tokens;
  hd_retry : r ≠ Ok tt → tokens = [];
  hd_db : w_db w' = with_user_devices (filter (λ kv, kv.1 ∉ dead) (user_devices (w_db w))) (w_db w);
  hd_dead t : t ∈ dead → t ∈ tokens ∧ ∃ sent, send_reply sent (for_device t msg) = Some ErrDeadToken;
}.

Lemma forget_none d : with_user_devices (filter (λ kv : string * UserDevice, kv.1 ∉ ([] : list string)) (user_devices d)) d = d.
Proof. rewrite map_filter_id; [by destruct d|]. intros; set_solver. Qed.

(** Nobody was told. *)
Lemma handled_none j w r w' : w_db w' = w_db w → w_log w' = w_log w →
  (r = Ok tt → send_on = true → told j (pgTime (w_now w)) (w_db w) = []) → ∃ tokens dead msg, handled j w r w' tokens dead msg.
Proof.
  intros D L Hall. exists [], [], (contents j EmptyString EmptyString).
  split; [by rewrite app_nil_r|constructor|done|set_solver| |done|by rewrite forget_none|set_solver].
  intros Hr Hs t dev Hdev Htell. rewrite <- (Hall Hr Hs). apply elem_of_told. by exists dev.
Qed.

Lemma told_targets j now d : told j now d = snd <$> ((λ e : string * UserDevice, (ud_UserID e.2, e.1)) <$>
  select (λ _ dev, slices_contains (List.filter (λ u, negb (bool_decide (u = job_From j)) && negb (on u)) (job_To j)) (ud_UserID dev) &&
                    wants (prefKind (job_Kind j)) (notification_prefs d !! ud_UserID dev) &&
                    negb (muted d (ud_UserID dev) (mute_chat j).1 (mute_chat j).2 now)) (user_devices d)).
Proof. unfold told. by rewrite <- list_fmap_compose. Qed.

(** C11. A notification goes to those it is for.  What the worker sends for a job are
    messages with the job's contents, one per device, each to a device of someone the job
    is for, who is not the sender, is not connected, wants this kind and has not muted the
    chat; when it succeeds no such device is left out, and when it fails nothing was sent,
    so that a retry tells nobody twice.  A device is forgotten only if Google says its token
    is dead; nothing else is written. *)
Theorem told_who_should_be j w r w' : Handle j w = (r, w') → ∃ tokens dead msg, handled j w r w' tokens dead msg.
Proof.
  unfold Handle. destruct send_on eqn:Hon; cbn [negb].
  2: { intros [= <- <-]. apply handled_none; try done. congruence. }
  rewrite bind_run, offline_run. match goal with |- context [decide (?l = [])] => destruct (decide (l = [])) as [Hto|Hto] end.
  { intros [= <- <-]. apply handled_none; try done. intros _ _. unfold told. rewrite Hto.
    apply elem_of_nil_inv. intros t. rewrite list_elem_of_fmap. by intros ([k dev] & _ & [_ ?]%elem_of_select). }
  destruct (mute_chat j) as [chatType chatID] eqn:Hchat. rewrite bind_run. unfold nowUTC. rewrite bind_run. cbn [Now get]. unfold mret at 1, M_ret at 1.
  rewrite bind_run. destruct (query _ w) as [r1 w1] eqn:H1. pose proof (told_targets j (pgTime (w_now w)) (w_db w)) as Htold.
  rewrite Hchat in Htold. cbn [fst snd] in Htold.
  apply query_cases in H1 as [(fs & d & H1 & ->)|(-> & fs & ->)]; [|intros [= <- <-]; by apply handled_none].
  injection H1 as <- <-. match goal with |- context [decide (?l = [])] => destruct (decide (l = [])) as [Hnone|Hsome]; set (targets := l) in * end.
  { intros [= <- <-]. apply handled_none; try done. intros _ _. by rewrite Htold, Hnone. }
  rewrite bind_run. destruct (render j _) as [r2 w2] eqn:H2. apply render_run in H2 as [H2 Hmsg]. injection H2 as D2 L2 _.
  destruct r2 as [msg|e]; [|intros [= <- <-]; by apply handled_none].
  rewrite bind_run. destruct (send_all_run msg targets w2) as (dead & w3 & -> & D3 & L3 & Hdead).
  intros Hend.
  assert (r = Ok tt ∧ w_log w' = w_log w3 ∧ ∃ gone : list string, (∀ t, t ∈ gone → t ∈ dead) ∧
          w_db w' = with_user_devices (filter (λ kv : string * UserDevice, kv.1 ∉ gone) (user_devices (w_db w))) (w_db w)) as (-> & L & gone & Hgone & D).
  { case_decide as Hd.
    - injection Hend as <- <-. split_and!; try done. exists []. rewrite forget_none. split; [set_solver|congruence].
    - rewrite bind_run in Hend. unfold try in Hend. destruct (query (DeleteDeadTokens dead) w3) as [r4 w4] eqn:H4.
      injection Hend as <- <-. apply query_cases in H4 as [(fs' & d' & H4 & ->)|(_ & fs' & ->)].
      + injection H4 as _ <-. split_and!; try done. exists dead. split; [done|]. simpl. by rewrite D3, D2.
      + split_and!; try done. exists []. rewrite forget_none. split; [set_solver|simpl; congruence]. }
  exists (told j (pgTime (w_now w)) (w_db w)), gone, msg. rewrite L2 in L3. rewrite <- Htold in L3, Hdead.
  split; [congruence|apply NoDup_told|intros _; by apply Hmsg|intros t Ht; by apply elem_of_told| |done|done|by intros t Ht%Hgone; apply Hdead].
  intros _ _ t dev Hdev Htell. apply elem_of_told. by exists dev.
Qed.
End handle.

(** The names of the users and groups services are read. *)
Lemma app_names_read {ulib : UuidLib} {laws : UuidLaws ulib} u : leaves outside (pn_GetName (PushNames := app_names) u).
Proof.
  simpl. unfold Users_Service.DisplayName, Users_Repo.DisplayName_, Users_Repo.orNotFound.
  apply leaves_bind; [apply leaves_try, leaves_read; [done|intros d r d'; by intros [= _ <-]]|].
  intros [a|e]; [apply leaves_ret|apply leaves_throw].
Qed.

Lemma app_group_names_read {ulib : UuidLib} {laws : UuidLaws ulib} g : leaves outside (pn_GroupName (PushNames := app_names) g).
Proof. simpl. unfold GroupName. apply leaves_bind; [by apply leaves_group_snapshot|intros; apply leaves_ret]. Qed.
