(* ===== verification/Ws_Client.v ===== *)
(** * Ws_Client: events clients send (src/internal/ws/client.go, hub.go)

    What a connection's ReadPump does with an event: typing and read receipts go where
    the policy says, calls to the call handler, and the rest is dropped.  The policy is
    the chat service (app/app.go), on the real groups and friends of Wiring.  The table
    of last typings belongs to the connection. *)

From stdpp Require Import gmap.
From S2P Require Import Prelude GoLib Types Users_Model Db Sql_Groups Sql_Friends Sql_Chat Groups_Model Friends_Model Versioned World.
From S2P Require Import Groups_Repo Groups_Service Groups_Service_Props Friends_Service Friends_Props Chat_Model Chat_Service Chat_Access Wiring.

#[local] Open Scope Z_scope.

Definition typingInterval : duration := 3 * second.

(** [allowTyping]: whether the event may go out, and the table. *)
Definition allowTyping (lastTyping : gmap uuid time) (to : uuid) (now : time) : bool * gmap uuid time :=
  if match lastTyping !! to with Some last => now - last <? typingInterval | None => false end
  then (false, lastTyping)
  else (true, <[to := now]> (if decide (256 < size lastTyping)%nat then ∅ else lastTyping)).

(** [ws.EventPolicy] *)
Class EventPolicy := {
  pol_TypingTargets : uuid → uuid → bool → M World (list uuid);
  pol_SeenAllowed : uuid → uuid → M World bool;
}.

(** encoding/json on what a client sends: to_id and type, to_id and msg_id. *)
Class ClientJson := {
  unmarshal_typing : string → option (string * string);
  unmarshal_seen : string → option (string * string);
}.

(** [Hub.calls], when it is set. *)
Class CallHandler := { HandleCall : option (Conn → string → string → M World unit) }.

Section client.
Context {ulib : UuidLib} {policy : EventPolicy} {json : ClientJson} {calls : CallHandler}.

(** [handleEvent]: the table after it. *)
Definition handleEvent (c : Conn) (lastTyping : gmap uuid time) (event payload : string) : M World (gmap uuid time) :=
  if String.prefix "Call" event then
    match HandleCall with
    | Some handle => handle c event payload ;; mret lastTyping
    | None => mret lastTyping
    end
  else if decide (event = EventTyping) then
    match (p ← unmarshal_typing payload; to ← uuid_parse p.1; Some (to, p.2)) with
    | None => mret lastTyping
    | Some (to, type) =>
      now ← Now;
      let r := allowTyping lastTyping to now in
      if negb r.1 then mret r.2
      else
        let group := bool_decide (type = "public") in
        targets ← try (pol_TypingTargets (conn_User c) to group);
        match targets with
        | Err _ => mret r.2
        | Ok targets =>
          _ ← try (WriteToUsers targets (mk_Event EventTyping (PTyping
                (mk_OutGoingEventForTyping (uuid_string (conn_User c)) (if group then uuid_string to else EmptyString)))));
          mret r.2
        end
    end
  else if decide (event = EventSeen) then
    match (p ← unmarshal_seen payload; to ← uuid_parse p.1; Some (to, p.2)) with
    | None => mret lastTyping
    | Some (to, msgID) =>
      ok ← try (pol_SeenAllowed (conn_User c) to);
      match ok with
      | Ok true =>
        _ ← try (WriteToUsers [to] (mk_Event EventSeen (PSeen (mk_OutGoingEventForSeen msgID (uuid_string (conn_User c))))));
        mret lastTyping
      | _ => mret lastTyping
      end
    end
  else mret lastTyping.
End client.

(** [hub.SetPolicy(chatSvc)] *)
#[export] Instance app_policy {ulib : UuidLib} {coll : Collation} : EventPolicy := {|
  pol_TypingTargets := TypingTargets;
  pol_SeenAllowed := SeenAllowed;
|}.

(** ** The throttle *)

(** The typing events of one connection, and which went out. *)
Fixpoint typings (lastTyping : gmap uuid time) (events : list (uuid * time)) : list (uuid * time) :=
  match events with
  | [] => []
  | (to, now) :: events =>
    let r := allowTyping lastTyping to now in (if r.1 then [(to, now)] else []) ++ typings r.2 events
  end.

Lemma allowTyping_size m to now : (size m ≤ 257)%nat → (size (allowTyping m to now).2 ≤ 257)%nat.
Proof.
  intros Hs. unfold allowTyping. match goal with |- context [if ?b then _ else _] => destruct b end; cbn [snd]; [done|].
  destruct (decide _) as [Hd|Hd].
  - rewrite insert_empty, map_size_singleton. lia.
  - rewrite map_size_insert. destruct (m !! to); simpl; lia.
Qed.

(** Nothing is cleared while the chats are few. *)
Lemma typings_spaced (chats : gset uuid) m events : (size chats ≤ 256)%nat → dom m ⊆ chats → (∀ e, e ∈ events → e.1 ∈ chats) →
  (∀ to t, m !! to = Some t → ∀ e, e ∈ typings m events → e.1 = to → t + typingInterval <= e.2) ∧
  StronglySorted (λ e e', e.1 = e'.1 → e.2 + typingInterval <= e'.2) (typings m events).
Proof.
  intros Hsz. revert m. induction events as [|[to now] events IH]; intros m Hm Hev; simpl.
  { split; [intros * _ e He; by apply elem_of_nil in He|constructor]. }
  assert (∀ e, e ∈ events → e.1 ∈ chats) as Hev' by (intros e He; apply Hev; by right).
  assert (to ∈ chats) as Hto by (apply (Hev (to, now)); by left).
  unfold allowTyping. assert (¬ (256 < size m)%nat) as Hfew.
  { assert (size m ≤ size chats)%nat; [|lia]. rewrite <- (size_dom (D := gset uuid)). by apply subseteq_size. }
  rewrite (decide_False (P := (256 < size m)%nat)) by done.
  match goal with |- context [if ?b then (false, _) else _] => destruct b eqn:Hlast end; cbn [fst snd app]; [by apply IH|].
  destruct (IH (<[to := now]> m)) as [I1 I2]; [rewrite dom_insert; set_solver|done|]. split.
  - intros to' t Ht e [->|He]%elem_of_cons Heq.
    + simpl in *. subst to'. rewrite Ht in Hlast. lia.
    + destruct (decide (to' = to)) as [->|Hne].
      * rewrite Ht in Hlast. specialize (I1 to now ltac:(by rewrite lookup_insert_eq) e He Heq). unfold typingInterval, second in *. lia.
      * apply (I1 to' t); [by rewrite lookup_insert_ne|done|done].
  - constructor; [done|]. apply Forall_forall. intros e He Heq. simpl in *.
    apply (I1 to now); [by rewrite lookup_insert_eq|done|by symmetry].
Qed.

(** A connection's typing events are rate limited: among at most 256 chats, two that
    go out to one chat are three seconds apart; and whatever it sends, its table never has
    more than 257 entries. *)
Theorem typing_throttled (events : list (uuid * time)) :
  (∀ chats : gset uuid, (size chats ≤ 256)%nat → (∀ e, e ∈ events → e.1 ∈ chats) →
     StronglySorted (λ e e', e.1 = e'.1 → e.2 + typingInterval <= e'.2) (typings ∅ events)) ∧
  (size (foldl (λ m e, (allowTyping m e.1 e.2).2) (∅ : gmap uuid time) events) ≤ 257)%nat.
Proof.
  split.
  - intros chats Hsz Hev. apply (typings_spaced chats); [done|set_solver|done].
  - assert (∀ m, (size m ≤ 257)%nat → (size (foldl (λ m e, (allowTyping m e.1 e.2).2) m events) ≤ 257)%nat) as H; [|apply H; rewrite map_size_empty; lia].
    induction events as [|e events IH]; intros m Hm; [done|]. simpl. by apply IH, allowTyping_size.
Qed.

(** ** The policy *)

Section policed.
Context {ulib : UuidLib} {laws : UuidLaws ulib} {coll : Collation} {json : ClientJson} {calls : CallHandler}.

(** What a client's event may lead to, [from] being its user. *)
Definition policed (d : DB) (from : uuid) (targets : list uuid) (ev : Event) : Prop :=
  (∃ to, targets = [to] ∧ friends_of from d to = true ∧
     ev = mk_Event EventTyping (PTyping (mk_OutGoingEventForTyping (uuid_string from) EmptyString))) ∨
  (∃ g, is_Some (member_table d !! (g, from)) ∧ (∀ v, v ∈ targets → v ≠ from ∧ is_Some (member_table d !! (g, v))) ∧
     ev = mk_Event EventTyping (PTyping (mk_OutGoingEventForTyping (uuid_string from) (uuid_string g)))) ∨
  (∃ to msgID, targets = [to] ∧ from ≠ to ∧ friends_of from d to = true ∧
     ev = mk_Event EventSeen (PSeen (mk_OutGoingEventForSeen msgID (uuid_string from)))).

(** An event is sent or not. *)
Lemma pushed_or_not {A} targets ev (a : A) w r w' :
  (_ ← try (WriteToUsers targets ev); mret a) w = (r, w') →
  w_db w' = w_db w ∧ (w_log w' = w_log w ∨ w_log w' = w_log w ++ [Pushed targets ev]).
Proof.
  rewrite bind_run. unfold try, WriteToUsers. destruct (io _ w) as [r1 w1] eqn:Hw. intros [= _ <-].
  apply io_cases in Hw as [(fs & [= _ <-])|[_ (fs & ->)]]; simpl; auto.
Qed.

Lemma friends_asked a b w r w1 : Friends_Props.coherent w → AreFriends_ a b w = (r, w1) →
  w_db w1 = w_db w ∧ w_log w1 = w_log w ∧ (r = Ok true → friends_of a (w_db w) b = true).
Proof.
  intros Hc H. pose proof (leaves_friends w_log a b ltac:(done) ltac:(done) w) as Hl. rewrite H in Hl.
  apply AreFriends_outcome in H as [Hd Hr]; [|done]. split_and!; [done|done|]. intros ->. by destruct Hr as [<- _].
Qed.

Lemma members_asked g w r w1 : Groups_Service_Props.coherent w → Members g w = (r, w1) →
  w_db w1 = w_db w ∧ w_log w1 = w_log w ∧ ∀ ms, r = Ok ms → ∀ u, u ∈ ms → is_Some (member_table (w_db w) !! (g, u)).
Proof.
  intros Hc H. pose proof (leaves_members w_log g ltac:(done) ltac:(done) w) as Hl.
  pose proof (leaves_members w_db g ltac:(done) ltac:(done) w) as Hd. pose proof (members_agree g w) as Hm.
  rewrite H in Hl, Hd, Hm. split_and!; [done|done|]. intros ms ->. by apply Hm.
Qed.

(** The policy on typing. *)
Lemma typing_targets from to group w r w1 : Friends_Props.coherent w → Groups_Service_Props.coherent w →
  try (TypingTargets from to group) w = (r, w1) →
  w_db w1 = w_db w ∧ w_log w1 = w_log w ∧
  ∃ r', r = Ok r' ∧ ∀ targets, r' = Ok targets →
    targets = [] ∨ policed (w_db w) from targets (mk_Event EventTyping (PTyping
                     (mk_OutGoingEventForTyping (uuid_string from) (if group then uuid_string to else EmptyString)))).
Proof.
  intros Hf Hg. unfold try, TypingTargets. destruct group; cbn [negb].
  - rewrite bind_run. unfold try. cbn [grp_Members app_groups]. destruct (Members to w) as [rm wm] eqn:Hm.
    apply members_asked in Hm as (Hd & Hl & Hms); [|done].
    destruct rm as [ms|e].
    + destruct (slices_contains ms from) eqn:Hin; intros [= <- <-]; (split_and!; [done..|]); eexists; (split; [done|]); intros targets [= <-].
      * right. right. left. exists to. apply slices_contains_true in Hin. split; [by eapply Hms|]. split; [|done].
        intros v Hv. unfold without in Hv. apply elem_of_slices_delete in Hv as [Hne Hv]. apply bool_decide_eq_false in Hne.
        split; [done|by eapply Hms].
      * by left.
    + destruct (ignoreNotFound e); intros [= <- <-]; (split_and!; [done..|]); eexists; (split; [done|]); intros targets H; [done|].
      injection H as <-. by left.
  - rewrite bind_run. cbn [frd_AreFriends app_friends]. destruct (AreFriends_ from to w) as [rf wf] eqn:Ha.
    apply friends_asked in Ha as (Hd & Hl & Hfr); [|done].
    destruct rf as [[]|e]; intros [= <- <-]; (split_and!; [done..|]); eexists; (split; [done|]); intros targets [= <-].
    + right. left. exists to. split_and!; [done|by apply Hfr|done].
    + by left.
Qed.

(** C31. What a client sends over its socket is policed.  An event other than a call
    leads to nothing, or to one event: typing in a private chat, to a friend; typing in a
    group the sender is in, to other members of it; a read receipt, to a friend.  It names
    the connection's own user, whatever the client wrote, and the database is not
    touched. *)
Theorem client_events_policed (c : Conn) lastTyping event payload w r w' :
  Friends_Props.coherent w → Groups_Service_Props.coherent w → String.prefix "Call" event = false →
  handleEvent c lastTyping event payload w = (r, w') →
  w_db w' = w_db w ∧
  (w_log w' = w_log w ∨ ∃ targets ev, w_log w' = w_log w ++ [Pushed targets ev] ∧
     (targets = [] ∨ policed (w_db w) (conn_User c) targets ev)).
Proof.
  intros Hf Hg Hcall. unfold handleEvent. rewrite Hcall.
  assert (∀ (m : gmap uuid time), (mret m : M World _) w = (r, w') →
            w_db w' = w_db w ∧ (w_log w' = w_log w ∨ ∃ targets ev, w_log w' = w_log w ++ [Pushed targets ev] ∧
              (targets = [] ∨ policed (w_db w) (conn_User c) targets ev))) as Hnone by (intros m [= _ <-]; auto).
  destruct (decide (event = EventTyping)) as [->|Hne].
  - destruct (p ← unmarshal_typing payload; _) as [[to type]|]; [|by apply Hnone].
    rewrite bind_run. cbn [Now get]. destruct (allowTyping lastTyping to (w_now w)) as [[] tbl]; cbn [fst snd negb]; [|by apply Hnone].
    cbn [pol_TypingTargets app_policy]. rewrite bind_run.
    destruct (try (TypingTargets _ _ _) w) as [rt w1] eqn:Ht. apply typing_targets in Ht as (Hd1 & Hl1 & rt' & -> & Hpol); [|done..].
    destruct rt' as [targets|e]; [|intros [= _ <-]; rewrite Hd1, Hl1; auto].
    intros (Hd2 & Hlog)%pushed_or_not. split; [congruence|]. rewrite <- Hl1. destruct Hlog as [Hlog|Hlog]; [by left|right].
    eexists _, _. split; [exact Hlog|]. destruct (Hpol targets eq_refl) as [->|Hp]; [by left|right]. by rewrite Hd1 in *.
  - destruct (decide (event = EventSeen)) as [->|Hne2]; [|by apply Hnone].
    destruct (p ← unmarshal_seen payload; _) as [[to msgID]|]; [|by apply Hnone].
    cbn [pol_SeenAllowed app_policy]. rewrite bind_run. unfold try at 1, SeenAllowed.
    destruct (decide (conn_User c = to)) as [Heq|Hto]; [by apply Hnone|]. cbn [frd_AreFriends app_friends].
    destruct (AreFriends_ (conn_User c) to w) as [rf wf] eqn:Ha. apply friends_asked in Ha as (Hd1 & Hl1 & Hfr); [|done].
    destruct rf as [[]|e]; [|intros [= _ <-]; rewrite Hd1, Hl1; auto..].
    intros (Hd2 & Hlog)%pushed_or_not. split; [congruence|]. rewrite <- Hl1. destruct Hlog as [Hlog|Hlog]; [by left|right].
    eexists _, _. split; [exact Hlog|]. right. right. right. exists to, msgID. split_and!; [done|done|by apply Hfr|done].
Qed.
End policed.
