(* ===== verification/Presence_Props.v ===== *)
(** * Presence_Props: what presence tells whom *)

From stdpp Require Import gmap.
From S2P Require Import Prelude GoLib Threads Types Ws_Hub Db Friends_Model World Sql_Groups Sql_Friends Sql_Users Friends_Service Friends_Props.
From S2P Require Import Presence Chat_Access Wiring Versioned Chat_Dedupe Revoke Demo.

#[local] Open Scope Z_scope.

(** ** Rows *)

Lemma row_of_elem id rows x : row_of id rows = Some x → (id, x) ∈ rows.
Proof.
  unfold row_of. rewrite fmap_Some. intros ([k y] & Hf & ->). apply List.find_some in Hf as [Hin Hk].
  apply bool_decide_eq_true in Hk. simpl in *. subst. by apply list_elem_of_In.
Qed.

Lemma row_of_none id rows : row_of id rows = None → ∀ x, (id, x) ∉ rows.
Proof.
  unfold row_of. rewrite fmap_None. intros Hf x Hin%list_elem_of_In. pose proof (List.find_none _ _ Hf _ Hin) as Hk.
  simpl in Hk. by rewrite bool_decide_true in Hk.
Qed.

(** What PresenceOf says of one of the users asked for. *)
Definition presence_row (d : DB) (u : uuid) : option (option time * bool) :=
  (λ x, (u_last_seen_at x, u_hide_last_seen x)) <$> users d !! u.

Lemma row_of_PresenceOf (ids : list uuid) d u : u ∈ ids →
  row_of u ((λ r : uuid * User, (r.1, (u_last_seen_at r.2, u_hide_last_seen r.2))) <$> select (λ k _, bool_decide (k ∈ ids)) (users d))
  = presence_row d u.
Proof.
  intros Hu. set (rows := _ <$> _).
  assert (∀ x, (u, x) ∈ rows ↔ presence_row d u = Some x) as Hrows.
  { intros x. unfold rows, presence_row. rewrite list_elem_of_fmap. split.
    - intros ([k y] & [= -> ->] & [Hy _]%elem_of_select). simpl in *. by rewrite Hy.
    - intros (y & Hy & ->)%fmap_Some. exists (u, y). split; [done|]. apply elem_of_select. by rewrite bool_decide_true. }
  destruct (row_of u rows) as [x|] eqn:E.
  - symmetry. by apply Hrows, row_of_elem.
  - symmetry. apply eq_None_not_Some. intros [x Hx%Hrows]. by destruct (row_of_none u rows E x).
Qed.

Definition hidden (d : DB) (u : uuid) : bool := match presence_row d u with Some (_, h) => h | None => false end.

Section presence.
Context {ulib : UuidLib} {laws : UuidLaws ulib} {coll : Collation}.

Lemma shows_rows d u snap : shows d u snap → ∀ v, v ∈ fmd_UserID <$> sn_Friends snap ↔ friends_of u d v = true ∧ is_Some (users d !! v).
Proof. by intros [H _]. Qed.

(** Relationships, run. *)
Lemma relationships_cases u w : coherent w →
  (∃ w1, Relationships u w = (Err ErrInfra, w1) ∧ w_faults w ≠ [] ∧ w_db w1 = w_db w ∧ w_log w1 = w_log w) ∨
  ∃ snap w1, Relationships u w = (Ok snap, w1) ∧ shows (w_db w) u snap ∧ w_db w1 = w_db w ∧ w_log w1 = w_log w ∧
    (w_faults w = [] → w_faults w1 = []).
Proof.
  intros Hc. assert (may_fail (w_faults w ≠ []) w) as Hf by (unfold may_fail; destruct (w_faults w); [by right|by left]).
  pose proof (relationships_run (w_faults w ≠ []) (w_db w) u w (conj eq_refl (conj Hc Hf))) as Hrel.
  pose proof (leaves_relationships w_log u ltac:(done) ltac:(done) w) as Hlog.
  destruct (Relationships u w) as [[snap|e] w1]; cbn [snd] in Hlog.
  - right. destruct Hrel as [(Hd & _ & Hf') Hs]. exists snap, w1. split; [done|]. split; [done|]. split; [done|]. split; [done|].
    intros E. destruct Hf' as [Hf'|Hf']; [by destruct Hf'|done].
  - left. destruct Hrel as [(Hd & _) [Hne ->]]. by exists w1.
Qed.

(** A statement that only reads, run. *)
Lemma read_cases {A} (q : M DB A) w a : q (w_db w) = (Ok a, w_db w) →
  (∃ w1, query q w = (Err ErrInfra, w1) ∧ w_faults w ≠ [] ∧ w_db w1 = w_db w ∧ w_log w1 = w_log w) ∨
  ∃ w1, query q w = (Ok a, w1) ∧ w_db w1 = w_db w ∧ w_log w1 = w_log w ∧ (w_faults w = [] → w_faults w1 = []).
Proof.
  intros Hq. unfold query, io. simpl. destruct (w_faults w) as [|[] fs] eqn:E.
  - right. unfold on_db. rewrite Hq. exists (with_db (w_db w) w). by split_and!.
  - left. exists (with_faults fs w). by split_and!.
  - right. unfold on_db. simpl. rewrite Hq. exists (with_db (w_db w) (with_faults fs w)). by split_and!.
Qed.

(** The friends who are told about [u]. *)
Definition told_about (on : uuid → bool) (u : uuid) (d : DB) (v : uuid) : Prop :=
  friends_of u d v = true ∧ is_Some (users d !! v) ∧ on v = true ∧ hidden d v = false.

(** What they are told. *)
Definition presence_event (on : uuid → bool) (u : uuid) (seen : option time) (hide : bool) : Event :=
  mk_Event EventPresence (PPresence (mk_OutPresenceEvent (uuid_string u) (negb hide && on u)
    (if hide || on u then None else seen) hide)).

Lemma broadcast_run on u w : coherent w →
  let r := broadcast on u w in
  (w_log r.2 = w_log w ∧ (w_faults w = [] → r.1 = Ok tt ∧ (users (w_db w) !! u = None ∨ ∀ v, ¬ told_about on u (w_db w) v))) ∨
  ∃ seen hide to, presence_row (w_db w) u = Some (seen, hide) ∧
    w_log r.2 = w_log w ++ [Pushed to (presence_event on u seen hide)] ∧
    ∀ v, v ∈ to ↔ told_about on u (w_db w) v.
Proof.
  intros Hc. cbv zeta. unfold broadcast.
  rewrite bind_run. destruct (relationships_cases u w Hc) as [(w1 & -> & Hf & _ & Hl)|(snap & w1 & -> & Hs & Hd1 & Hl1 & Hf1)]; [by left|].
  set (online := List.filter on _).
  assert (∀ v, v ∈ online ↔ friends_of u (w_db w) v = true ∧ is_Some (users (w_db w) !! v) ∧ on v = true) as Hon.
  { intros v. unfold online. rewrite list_elem_of_In, List.filter_In, <- list_elem_of_In, (shows_rows _ _ _ Hs). tauto. }
  destruct (decide (online = [])) as [E|Hne].
  { left. split; [done|]. intros _. split; [done|]. right. intros v (H1 & H2 & H3 & _). cut (v ∈ online); [by rewrite E; intros ?%elem_of_nil|by apply Hon]. }
  rewrite bind_run. destruct (read_cases (PresenceOf (online ++ [u])) w1 _ eq_refl) as [(w2 & -> & Hf & _ & Hl)|(w2 & -> & Hd2 & Hl2 & Hf2)].
  { left. split; [simpl; congruence|]. intros Hf0. by destruct Hf, Hf1. }
  rewrite Hd1. set (rows := _ <$> _). assert (∀ v, v ∈ online ++ [u] → row_of v rows = presence_row (w_db w) v) as Hrow
    by (intros; by apply row_of_PresenceOf).
  rewrite (Hrow u) by set_solver. destruct (presence_row (w_db w) u) as [[seen hide]|] eqn:Hu.
  2: { left. split; [simpl; congruence|]. intros _. split; [done|]. left. by apply fmap_None in Hu. }
  set (to := List.filter _ online).
  assert (∀ v, v ∈ to ↔ told_about on u (w_db w) v) as Hto.
  { intros v. unfold to. rewrite list_elem_of_In, List.filter_In, <- list_elem_of_In. unfold told_about, hidden, hides.
    split; [intros [Hv Hh]|intros (H1 & H2 & H3 & H4)].
    - rewrite Hrow in Hh by set_solver. apply Hon in Hv as (H1 & H2 & H3). split_and!; try done. by apply negb_true_iff.
    - assert (v ∈ online) as Hv by (by apply Hon). rewrite Hrow by set_solver. split; [done|]. by rewrite H4. }
  cbv zeta. destruct (decide (to = [])) as [E|Hne2].
  { left. split; [simpl; congruence|]. intros _. split; [done|]. right. intros v Hv%Hto. rewrite E in Hv. by apply elem_of_nil in Hv. }
  unfold WriteToUsers, io, emit, modify. simpl. destruct (w_faults w2) as [|[] fs] eqn:E; simpl.
  - right. exists seen, hide, to. split_and!; [done| |done]. rewrite Hl2, Hl1. unfold presence_event, lastSeen. repeat f_equal; by destruct hide, (on u).
  - left. split; [congruence|]. intros Hf0. exfalso. pose proof (Hf2 (Hf1 Hf0)). congruence.
  - right. exists seen, hide, to. split_and!; [done| |done]. rewrite Hl2, Hl1. unfold presence_event, lastSeen. repeat f_equal; by destruct hide, (on u).
Qed.

(** C26. Presence is for friends, and mutual.  An announcement goes to exactly the
    friends who are online and do not hide their own last seen, and says nothing of a user
    who hides theirs.  The list a user reads has exactly their friends; an entry is hidden,
    and then empty, when either of the two hides, and otherwise says whether the friend is
    online and, if not, when they were last seen. *)
Theorem presence_is_mutual on u w : coherent w →
  let d := w_db w in
  (let r := broadcast on u w in
   (w_log r.2 = w_log w ∧ (w_faults w = [] → r.1 = Ok tt ∧ (users d !! u = None ∨ ∀ v, ¬ told_about on u d v))) ∨
   ∃ seen hide to, presence_row d u = Some (seen, hide) ∧
     w_log r.2 = w_log w ++ [Pushed to (presence_event on u seen hide)] ∧ ∀ v, v ∈ to ↔ told_about on u d v) ∧
  (∀ mine l w', Friends on u w = (Ok (mine, l), w') →
     mine = hidden d u ∧
     (∀ v, v ∈ en_UserID <$> l ↔ friends_of u d v = true ∧ is_Some (users d !! v)) ∧
     ∀ e, e ∈ l → ∃ seen, presence_row d (en_UserID e) = Some (seen, hidden d (en_UserID e)) ∧
       e = let v := en_UserID e in let hid := hidden d u || hidden d v in
           mk_Entry v (negb hid && on v) (if hid || on v then None else seen) hid).
Proof.
  intros Hc. cbv zeta. split; [by apply broadcast_run|]. intros mine l w'. unfold Friends. rewrite bind_run.
  destruct (relationships_cases u w Hc) as [(w1 & -> & _)|(snap & w1 & -> & Hs & Hd1 & _)]; [done|].
  rewrite bind_run. set (ids := u :: _).
  destruct (read_cases (PresenceOf ids) w1 _ eq_refl) as [(w2 & -> & _)|(w2 & -> & Hd2 & _)]; [done|].
  rewrite Hd1. set (rows := _ <$> select _ _). assert (∀ v, v ∈ ids → row_of v rows = presence_row (w_db w) v) as Hrow
    by (intros; by apply row_of_PresenceOf).
  assert (hides u rows = hidden (w_db w) u) as Hmine by (unfold hides, hidden; by rewrite (Hrow u) by (by left)).
  intros [= <- <- _]. rewrite Hmine. split; [done|].
  assert (∀ f, f ∈ sn_Friends snap → row_of (fmd_UserID f) rows = presence_row (w_db w) (fmd_UserID f)) as Hf.
  { intros f Hf. apply Hrow. right. apply list_elem_of_fmap. by exists f. }
  split.
  - intros v. rewrite <- (shows_rows _ _ _ Hs). rewrite !list_elem_of_fmap. split.
    + intros (e & -> & (f & Hef & Hin)%list_elem_of_bind). exists f. split; [|done]. rewrite (Hf f Hin) in Hef.
      destruct (presence_row _ _) as [[seen h]|]; [|by apply elem_of_nil in Hef]. apply list_elem_of_singleton in Hef as ->. done.
    + intros (f & -> & Hin). assert (fmd_UserID f ∈ fmd_UserID <$> sn_Friends snap) as Hfr by (apply list_elem_of_fmap; by exists f).
      apply (shows_rows _ _ _ Hs) in Hfr as [_ [x Hx]]. pose proof (Hf f Hin) as Hr. unfold presence_row in Hr. rewrite Hx in Hr. simpl in Hr.
      eexists. split; [|apply list_elem_of_bind; exists f; split; [rewrite Hr; by apply list_elem_of_singleton|done]]. done.
  - intros e (f & Hef & Hin)%list_elem_of_bind. rewrite (Hf f Hin) in Hef.
    destruct (presence_row (w_db w) (fmd_UserID f)) as [[seen h]|] eqn:E; [|by apply elem_of_nil in Hef].
    apply list_elem_of_singleton in Hef as ->. cbn [en_UserID].
    assert (hidden (w_db w) (fmd_UserID f) = h) as -> by (unfold hidden; by rewrite E).
    exists seen. split; [done|]. unfold lastSeen. by destruct (hidden (w_db w) u), h, (on (fmd_UserID f)).
Qed.
End presence.

(** * Announcements and the order of the hub's notices

    Handled in turn, the hub's notices leave what was last announced of a user equal
    to what they are, but while a grace runs.  Each is a goroutine of its own though,
    and two that overtake each other can leave a user who has gone online for good. *)

(** ** What a change of the hub tells presence *)

Definition presence_of (l : list told) : list (uuid * bool) :=
  l ≫= λ t, match t with TPresence u online => [(u, online)] | _ => [] end.

(** At most one user came or went, and there is a notice of it. *)
Definition noticed (h h' : Hub) : Prop :=
  ∃ l, hb_told h' = hb_told h ++ l ∧
  ((presence_of l = [] ∧ ∀ v, Online v h' = Online v h) ∨
   ∃ u online, presence_of l = [(u, online)] ∧ Online u h = negb online ∧ Online u h' = online ∧
     ∀ v, v ≠ u → Online v h' = Online v h).

Lemma drop_conn_told p h : ∃ l, hb_told (drop_conn p h) = hb_told h ++ l ∧ presence_of l = [].
Proof.
  unfold drop_conn. destruct (hb_heap h !! p) as [c|] eqn:E; [|exists []; split; [by rewrite app_nil_r|done]].
  exists [TDisconnected (conn_of c)]. split; [|done]. unfold close_Send. rewrite E. by destruct (cl_closed c).
Qed.

Lemma drop_all_told ps h : ∃ l, hb_told (drop_all ps h) = hb_told h ++ l ∧ presence_of l = [].
Proof.
  unfold drop_all. revert h. induction ps as [|p ps IH]; intros h; simpl; [exists []; split; [by rewrite app_nil_r|done]|].
  destruct (IH (drop_conn p h)) as (l & -> & Hl). destruct (drop_conn_told p h) as (l' & -> & Hl').
  exists (l' ++ l). split; [by rewrite app_assoc|]. unfold presence_of in *. by rewrite bind_app, Hl, Hl'.
Qed.

Lemma drop_all_clients ps h : hb_clients (drop_all ps h) = hb_clients h.
Proof. unfold drop_all. revert h. induction ps as [|p ps IH]; intros h; simpl; [done|]. by rewrite IH, drop_conn_clients. Qed.

(** Online is what the lists say. *)
Lemma Online_lists h h' v : devices v h' = devices v h → Online v h' = Online v h.
Proof. unfold Online. by intros ->. Qed.

Lemma devices_with_told h t v : devices v (tell t h) = devices v h.
Proof. done. Qed.

Lemma remove_noticed h p : noticed h (remove p h).2.
Proof.
  assert (noticed h h) as Hsame by (exists []; split; [by rewrite app_nil_r|by left]).
  unfold remove. destruct (hb_heap h !! p) as [c|]; [|done]. set (u := cl_UserID c).
  destruct (decide (p ∈ devices u h)) as [Hin|Hout]; [|by rewrite without_none].
  destruct (without_perm p _ Hin) as (l & -> & Hperm). cbn [snd]. rewrite drop_conn_clients.
  destruct (drop_conn_told p h) as (l0 & Ht & Hl0).
  assert (Online u h = true) as Hon.
  { unfold Online. apply bool_decide_eq_true. intros E. by rewrite E in Hin; apply elem_of_nil in Hin. }
  destruct l as [|q l].
  - exists (l0 ++ [TPresence u false]). split; [simpl; by rewrite Ht, app_assoc|]. right. exists u, false.
    split; [unfold presence_of in *; by rewrite bind_app, Hl0|]. split; [done|].
    unfold Online, devices. simpl. split; [by rewrite lookup_delete_eq|]. intros v Hv. by rewrite lookup_delete_ne.
  - exists l0. split; [done|]. left. split; [done|]. intros v. unfold Online, devices. simpl.
    destruct (decide (v = u)) as [->|Hv]; [|by rewrite lookup_insert_ne]. rewrite lookup_insert_eq. simpl.
    symmetry. exact Hon.
Qed.

Lemma disconnect_noticed h u : noticed h (disconnect_all u h).
Proof.
  unfold disconnect_all, disconnect_locked. cbn [fst snd]. fold (drop_all (devices u h) h).
  destruct (drop_all_told (devices u h) h) as (l0 & Ht & Hl0).
  assert (∀ v, v ≠ u → default [] (delete u (hb_clients (drop_all (devices u h) h)) !! v) = devices v h) as Hother.
  { intros v Hv. rewrite drop_all_clients, lookup_delete_ne by done. done. }
  set (h1 := with_clients _ _).
  assert (Online u h1 = false ∧ ∀ v, v ≠ u → Online v h1 = Online v h) as [Hu Hv].
  { split; [|intros v Hv; apply Online_lists; by apply Hother].
    apply bool_decide_eq_false. intros Hn. apply Hn. unfold devices, h1. simpl. by rewrite lookup_delete_eq. }
  case_bool_decide as Hne.
  - exists (l0 ++ [TPresence u false]). split; [simpl; by rewrite Ht, app_assoc|]. right. exists u, false.
    split; [unfold presence_of in *; by rewrite bind_app, Hl0|]. split; [|done]. by apply bool_decide_eq_true.
  - exists l0. split; [done|]. left. split; [done|]. intros v. destruct (decide (v = u)) as [->|Hvu]; [|by apply Hv].
    rewrite Hu. symmetry. apply bool_decide_eq_false. intros H. by apply H.
Qed.

Lemma register_noticed h p : noticed h (register_all p h).
Proof.
  assert (noticed h h) as Hsame by (exists []; split; [by rewrite app_nil_r|by left]).
  unfold register_all, register. destruct (hb_heap h !! p) as [c|] eqn:Hc.
  2: { exists []. split; [by rewrite app_nil_r|]. by left. }
  cbv zeta. cbn [fst snd]. set (u := cl_UserID c). set (l := devices u h ++ [p]).
  set (h1 := if decide _ then drop_conn (hd 0%nat l) h else h).
  set (l' := if decide (MaxDevices < length l)%nat then tail l else l).
  assert (hb_clients h1 = hb_clients h ∧ ∃ l0, hb_told h1 = hb_told h ++ l0 ∧ presence_of l0 = []) as [Hcl (l0 & Ht & Hl0)].
  { unfold h1. destruct (decide _); [split; [apply drop_conn_clients|apply drop_conn_told]|].
    split; [done|]. exists []. by rewrite app_nil_r. }
  assert (l' ≠ []) as Hl'.
  { unfold l'. destruct (decide _) as [Hd|Hd]; unfold l in *; destruct (devices u h) as [|a [|b k]]; simpl in *; try done. unfold MaxDevices in Hd. lia. }
  assert (∀ h2, hb_clients h2 = <[u := l']> (hb_clients h) → Online u h2 = true ∧ ∀ v, v ≠ u → Online v h2 = Online v h) as Hon.
  { intros h2 E. unfold Online, devices. rewrite E. split; [|by intros; rewrite lookup_insert_ne].
    rewrite lookup_insert_eq. by apply bool_decide_eq_true. }
  rewrite Hcl. case_bool_decide as Hne.
  - exists (l0 ++ [TPresence u true]). split; [simpl; by rewrite Ht, app_assoc|]. right. exists u, true.
    split; [unfold presence_of in *; by rewrite bind_app, Hl0|]. split; [unfold Online; by rewrite bool_decide_false by (by intros H; apply H)|]. by apply Hon.
  - exists l0. split; [done|]. left. split; [done|]. intros v. destruct (Hon (with_clients (<[u:=l']> (hb_clients h)) h1) eq_refl) as [H1 H2].
    destruct (decide (v = u)) as [->|Hv]; [|by apply H2]. rewrite H1. unfold Online. by rewrite bool_decide_true.
Qed.

(** ** In turn *)

Section order.
Context {ulib : UuidLib} {coll : Collation}.

Lemma said_snoc w h svc l u v b : said v (mk_PresWorld w h svc (l ++ [(u, b)])) = if decide (u = v) then b else said v (mk_PresWorld w h svc l).
Proof.
  unfold said. simpl. rewrite List.filter_app. simpl. destruct (decide (u = v)) as [->|Hu].
  - rewrite bool_decide_true by done. by rewrite last_snoc.
  - rewrite bool_decide_false by done. by rewrite app_nil_r.
Qed.

(** What a state says of presence, but for the hub. *)
Record calm_svc (on : uuid → bool) (s : PresWorld) : Prop := {
  cs_match u t : sv_pending (ps_svc s) !! u = Some t ↔ sv_timers (ps_svc s) !! t = Some u;
  cs_next u t : sv_pending (ps_svc s) !! u = Some t → (t < sv_next (ps_svc s))%nat;
  cs_wait u t : sv_pending (ps_svc s) !! u = Some t → on u = false ∧ said u s = true;
  cs_said u : sv_pending (ps_svc s) !! u = None → said u s = on u;
}.

Lemma calm_svc_on on on' s : (∀ u, on' u = on u) → calm_svc on s → calm_svc on' s.
Proof. intros He [H1 H2 H3 H4]. split; [done|done|intros; rewrite He; eauto|intros; rewrite He; eauto]. Qed.

Lemma run_Changed u b s : (run (Changed u b) s).2 =
  let s := (touch u s).2 in if b then let r := came u s in if r.1 then r.2 else (announce u r.2).2 else (went u s).2.
Proof. unfold Changed. simpl. destruct b; simpl; [|done]. by destruct (came u _) as [[] s']. Qed.

Lemma Changed_hub u b s : ps_hub (run (Changed u b) s).2 = ps_hub s.
Proof.
  rewrite run_Changed. cbv zeta. unfold came, went, announce. simpl.
  destruct (sv_pending (ps_svc s) !! u); by destruct b.
Qed.

(** A notice that is right, handled. *)
Lemma Changed_calm u b on s : (∀ v, on v = Online v (ps_hub s)) → on u = b →
  calm_svc (λ v, if decide (v = u) then negb b else on v) s → calm_svc on (run (Changed u b) s).2.
Proof.
  intros Hon Hu [H1 H2 H3 H4]. rewrite run_Changed. cbv zeta. set (s1 := (touch u s).2).
  assert (ps_svc s1 = ps_svc s ∧ ps_hub s1 = ps_hub s ∧ ∀ v, said v s1 = said v s) as (Es & Eh & Ea) by done.
  revert Es Eh Ea. generalize s1. clear s1. intros s1 Es Eh Ea. destruct b.
  - unfold came. rewrite Es. destruct (sv_pending (ps_svc s) !! u) as [t|] eqn:Hp; cbn [fst snd].
    + assert (∀ v t', sv_pending (ps_svc s) !! v = Some t' → v ≠ u → t' ≠ t) as Hne.
      { intros v t' Hv Hvu ->. apply H1 in Hv, Hp. congruence. }
      split; simpl.
      * intros v t'. destruct (decide (v = u)) as [->|Hv]; [rewrite lookup_delete_eq|rewrite lookup_delete_ne by done].
        -- split; [done|]. intros [Ht Hd]%lookup_delete_Some. apply H1 in Hd. congruence.
        -- split; [intros Hd; rewrite lookup_delete_ne; [by apply H1|intros ->; by eapply Hne]|].
           intros [_ Hd]%lookup_delete_Some. by apply H1.
      * intros v t' [_ Hd]%lookup_delete_Some. by eapply H2.
      * intros v t' [Hv Hd]%lookup_delete_Some. destruct (H3 v t' Hd) as [H5 H6]. rewrite decide_False in H5 by done.
        split; [done|]. change (said v s1 = true). by rewrite Ea.
      * intros v. change (said v (with_svc _ s1)) with (said v s1). rewrite Ea.
        destruct (decide (v = u)) as [->|Hv]; [intros _; rewrite Hu; by apply (H3 u t)|rewrite lookup_delete_ne by done].
        intros Hd%H4. by rewrite decide_False in Hd.
    + unfold announce. rewrite Eh. split; simpl; rewrite ?Es; [done|done| |].
      * intros v t' Hv. rewrite said_snoc. destruct (H3 v t' Hv) as [H5 H6].
        destruct (decide (u = v)) as [<-|Hne]; [congruence|]. rewrite decide_False in H5 by done. split; [done|].
        change (said v s1 = true). by rewrite Ea.
      * intros v Hv. rewrite said_snoc. destruct (decide (u = v)) as [<-|Hne]; [by rewrite Hon|].
        change (said v s1 = on v). rewrite Ea, H4 by done. by rewrite decide_False.
  - unfold went. rewrite Es. destruct (sv_pending (ps_svc s) !! u) as [t|] eqn:Hp; cbn [fst snd].
    + destruct (H3 u t Hp) as [H5 _]. by rewrite decide_True in H5.
    + assert (said u s = true) as Hsaid by (rewrite H4 by done; by rewrite decide_True).
      assert (sv_timers (ps_svc s) !! sv_next (ps_svc s) = None) as Hfree.
      { apply eq_None_not_Some. intros [v Hv]. apply H1, H2 in Hv. lia. }
      split; simpl.
      * intros v t'. destruct (decide (v = u)) as [->|Hv]; [rewrite lookup_insert_eq|rewrite lookup_insert_ne by done].
        -- split; [intros [= <-]; by rewrite lookup_insert_eq|]. intros [[<- _]|[Ht Hd]]%lookup_insert_Some; [done|]. apply H1 in Hd. congruence.
        -- rewrite H1. split.
           ++ intros Hd. rewrite lookup_insert_ne; [done|]. intros <-. congruence.
           ++ intros [[_ <-]|[Ht Hd]]%lookup_insert_Some; [done|done].
      * intros v t' [[<- <-]|[Hv Hd]]%lookup_insert_Some; [lia|]. apply H2 in Hd. lia.
      * intros v t'. change (said v (with_svc _ s1)) with (said v s1). rewrite Ea.
        intros [[<- <-]|[Hv Hd]]%lookup_insert_Some; [done|]. destruct (H3 v t' Hd) as [H5 H6].
        by rewrite decide_False in H5.
      * intros v [Hd Hv]%lookup_insert_None. change (said v (with_svc _ s1)) with (said v s1). rewrite Ea, H4 by done.
        by rewrite decide_False.
Qed.

Definition notice (s : PresWorld) (t : told) : PresWorld :=
  match t with TPresence u online => (run (Changed u online) s).2 | _ => s end.

Lemma notices_fold l s : fold_left notice l s = fold_left (λ s p, (run (Changed p.1 p.2) s).2) (presence_of l) s.
Proof. revert s. induction l as [|[c|c|u b] l IH]; intros s; simpl; [done|apply IH..]. Qed.

Definition calm_inv (s : PresWorld) : Prop := (∃ F, hub_ok F (ps_hub s)) ∧ calm_svc (λ u, Online u (ps_hub s)) s.

Lemma hub_op_calm f s : calm_svc (λ u, Online u (ps_hub s)) s → noticed (ps_hub s) (f (ps_hub s)) →
  ps_hub (hub_op f s) = f (ps_hub s) ∧ calm_svc (λ u, Online u (ps_hub (hub_op f s))) (hub_op f s).
Proof.
  intros Hc (l & Hl & Hcase). unfold hub_op. rewrite Hl, drop_app_length.
  change (fold_left _ l ?x) with (fold_left notice l x). rewrite notices_fold.
  assert (calm_svc (λ u, Online u (ps_hub s)) (with_hub (f (ps_hub s)) s)) as Hc' by by destruct Hc.
  destruct Hcase as [[-> Hon]|(u & b & -> & Hu & Hu' & Hon)]; cbn [fold_left fst snd].
  - split; [done|]. eapply calm_svc_on; [|exact Hc']. exact Hon.
  - rewrite Changed_hub. split; [done|]. apply Changed_calm; [done|done|]. eapply calm_svc_on; [|exact Hc'].
    intros v. simpl. destruct (decide (v = u)) as [->|Hv]; [done|by apply Hon].
Qed.

Lemma register_all_ok F h p : hub_ok F h → is_open p h → (∀ u, p ∉ devices u h) → ∃ F', hub_ok F' (register_all p h).
Proof.
  intros H Ho Hno. exists (F ∖ {[p]}). assert (p ∈ F) as Hp.
  { apply (ok_open F h H) in Ho as [Ho|(u & Hu)]; [done|]. by destruct (Hno u). }
  destruct (register_ok (F ∖ {[p]}) h p) as [H1 _]; [set_solver| |].
  { replace ({[p]} ∪ F ∖ {[p]}) with F; [done|]. apply leibniz_equiv. intros q. destruct (decide (q = p)); set_solver. }
  unfold register_all. destruct (hb_heap h !! p); [|done]. destruct (register p h).1; [by apply ok_tell|done].
Qed.

Lemma disconnect_all_ok F h u : hub_ok F h → hub_ok F (disconnect_all u h).
Proof.
  intros H. unfold disconnect_all. destruct (disconnect_ok F h u H) as [H1 _]. destruct (disconnect_locked u h).1; [by apply ok_tell|done].
Qed.

Lemma calm_step_inv s s' : calm_inv s → calm_step s s' → calm_inv s'.
Proof.
  intros [[F HF] Hc] Hs. destruct Hs as [s u id|s p Ho Hno|s p|s u|s p s' Hr|s w].
  - split; [|by destruct Hc]. destruct (NewClient_ok F (ps_hub s) u id HF) as (_ & H & _). by eexists.
  - destruct (hub_op_calm (register_all p) s Hc (register_noticed _ _)) as [Eh Hc']. split; [|exact Hc'].
    rewrite Eh. by eapply register_all_ok.
  - destruct (hub_op_calm (λ h, (remove p h).2) s Hc (remove_noticed _ _)) as [Eh Hc']. split; [|exact Hc'].
    rewrite Eh. exists F. by apply remove_ok.
  - destruct (hub_op_calm (disconnect_all u) s Hc (disconnect_noticed _ _)) as [Eh Hc']. split; [|exact Hc'].
    rewrite Eh. exists F. by apply disconnect_all_ok.
  - destruct Hr as [s t u Ht]. split; [by exists F|]. unfold grace_timer. simpl.
    destruct Hc as [H1 H2 H3 H4]. pose proof (proj2 (H1 u t) Ht) as Hp. destruct (H3 u t Hp) as [Hoff _].
    assert (∀ v t', sv_pending (ps_svc s) !! v = Some t' → v ≠ u → t' ≠ t) as Hne.
    { intros v t' Hv Hvu ->. apply H1 in Hv. congruence. }
    split; simpl.
    + intros v t'. destruct (decide (v = u)) as [->|Hv]; [rewrite lookup_delete_eq|rewrite lookup_delete_ne by done].
      * split; [done|]. intros [Htt Hd]%lookup_delete_Some. apply H1 in Hd. congruence.
      * split; [intros Hd; rewrite lookup_delete_ne; [by apply H1|intros ->; by eapply Hne]|].
        intros [_ Hd]%lookup_delete_Some. by apply H1.
    + intros v t' [_ Hd]%lookup_delete_Some. by eapply H2.
    + intros v t' [Hv Hd]%lookup_delete_Some. rewrite said_snoc, decide_False by done. by eapply H3.
    + intros v. rewrite said_snoc. destruct (decide (u = v)) as [<-|Hv]; [done|]. rewrite lookup_delete_ne by done. apply H4.
  - split; [by exists F|]. by destruct Hc.
Qed.

(** C25. Presence settles.  When the hub's notices are handled in turn, then whatever
    connects, disconnects and expires, a user no grace runs for is what was last announced
    of them; and while one runs, they are offline and were announced online. *)
Theorem presence_settles w s : rtc calm_step (mk_PresWorld w NewHub NewService []) s →
  ∀ u, match sv_pending (ps_svc s) !! u with
       | None => said u s = Online u (ps_hub s)
       | Some t => sv_timers (ps_svc s) !! t = Some u ∧ Online u (ps_hub s) = false ∧ said u s = true
       end.
Proof.
  intros Hr. assert (calm_inv (mk_PresWorld w NewHub NewService [])) as H0.
  { split; [exists ∅; apply hub_new_ok|]. split; simpl; intros *; rewrite ?lookup_empty; done. }
  revert H0 Hr. generalize (mk_PresWorld w NewHub NewService []). intros s0 H0 Hr.
  assert (calm_inv s) as [_ [H1 _ H3 H4]] by (induction Hr; eauto using calm_step_inv).
  intros u. destruct (sv_pending (ps_svc s) !! u) as [t|] eqn:E; [|by apply H4]. by split; [apply H1|apply (H3 u t)].
Qed.

(** A goroutine, run to its end. *)
Lemma pres_finish p s ts1 ts2 : rtc pres_step (s, ts1 ++ p :: ts2) ((run p s).2, ts1 ++ Ret (run p s).1 :: ts2).
Proof.
  revert s. induction p as [a|B m k IH]; intros s; [done|]. simpl. eapply rtc_l; [by apply pres_run|]. apply IH.
Qed.

End order.

(** ** Out of turn *)

Section overtaken.
Context {coll : Collation}.

(** alice connects, goes, comes back and goes again. *)
Definition at_first : PresWorld := mk_PresWorld (demo_world demo_db) NewHub NewService [].
Definition connect (p : nat) (id : uuid) (h : Hub) : Hub := register_all p (NewClient alice id h).2.
Definition leave (p : nat) (h : Hub) : Hub := (remove p h).2.

Definition came_once : PresWorld := (run (Changed alice true) (with_hub (connect 0 501%N NewHub) at_first)).2.
Definition gone_once : PresWorld := (run (Changed alice false) (with_hub (leave 0 (ps_hub came_once)) came_once)).2.
Definition back : PresWorld := with_hub (connect 1 502%N (ps_hub gone_once)) gone_once.
Definition gone : PresWorld := with_hub (leave 1 (ps_hub back)) back.
Definition gone_first : PresWorld := (run (Changed alice false) gone).2.
Definition back_last : PresWorld := (run (Changed alice true) gone_first).2.

Lemma pres_came_once : rtc pres_step (at_first, []) (came_once, [Ret tt]).
Proof.
  eapply rtc_l; [apply (pres_new at_first [] alice 501%N)|]. eapply rtc_l; [apply (pres_register _ _ 0%nat)|].
  - by eexists.
  - intros u. apply not_elem_of_nil.
  - exact (pres_finish (Changed alice true) (with_hub (connect 0 501%N NewHub) at_first) [] []).
Qed.

Lemma pres_gone_once : rtc pres_step (came_once, [Ret tt]) (gone_once, [Ret tt; Ret tt]).
Proof.
  eapply rtc_l; [apply (pres_remove _ _ 0%nat)|].
  exact (pres_finish (Changed alice false) (with_hub (leave 0 (ps_hub came_once)) came_once) [Ret tt] []).
Qed.

Lemma pres_gone : rtc pres_step (gone_once, [Ret tt; Ret tt]) (gone, [Ret tt; Ret tt; Changed alice true; Changed alice false]).
Proof.
  eapply rtc_l; [apply (pres_new _ _ alice 502%N)|]. eapply rtc_l; [apply (pres_register _ _ 1%nat)|].
  - by eexists.
  - intros u. apply not_elem_of_nil.
  - eapply rtc_l; [apply (pres_remove _ _ 1%nat)|]. apply rtc_refl.
Qed.

Lemma pres_overtaken :
  rtc pres_step (gone, [Ret tt; Ret tt; Changed alice true; Changed alice false]) (back_last, [Ret tt; Ret tt; Ret tt; Ret tt]).
Proof.
  etrans; [exact (pres_finish (Changed alice false) gone [Ret tt; Ret tt; Changed alice true] [])|].
  exact (pres_finish (Changed alice true) gone_first [Ret tt; Ret tt] [Ret tt]).
Qed.

(** Two notices that overtake each other: alice is gone, no grace runs for her, every
    goroutine has ended, and her friends were last told that she is online. *)
Theorem gone_but_online :
  rtc pres_step (at_first, []) (back_last, [Ret tt; Ret tt; Ret tt; Ret tt]) ∧
  sv_timers (ps_svc back_last) = ∅ ∧ Online alice (ps_hub back_last) = false ∧ said alice back_last = true.
Proof.
  split; [|by vm_compute].
  etrans; [apply pres_came_once|]. etrans; [apply pres_gone_once|]. etrans; [apply pres_gone|apply pres_overtaken].
Qed.
End overtaken.
