(* ===== verification/Chat_Reactions.v ===== *)
(** * Chat_Reactions: one reaction per user, and the counts shown under a message *)

From S2P Require Import Prelude GoLib Types Users_Model Db Groups_Model Sql_Chat Chat_Dedupe World Chat_Emoji Chat_Model Chat_Repo Chat_Service Chat_Access.

#[local] Open Scope Z_scope.

(** ** Counting *)

Lemma length_select {K V} `{Countable K} (p : K → V → bool) (m : gmap K V) :
  length (select p m) = count_if (λ kv, p kv.1 kv.2 = true) m.
Proof.
  unfold count_if. rewrite <- length_map_to_list. apply Permutation_length, NoDup_Permutation.
  - apply NoDup_select.
  - apply NoDup_map_to_list.
  - intros [k v]. rewrite elem_of_select, elem_of_map_to_list, map_lookup_filter_Some. done.
Qed.

(** Rows selected twice. *)
Lemma length_filter_select {K V} `{Countable K} (f : K * V → bool) (p : K → V → bool) (P : K * V → Prop)
    `{∀ x, Decision (P x)} (m : gmap K V) :
  (∀ k v, f (k, v) = true ∧ p k v = true ↔ P (k, v)) → length (List.filter f (select p m)) = count_if P m.
Proof.
  intros HP. unfold count_if. rewrite <- length_map_to_list. apply Permutation_length, NoDup_Permutation.
  - apply NoDup_list_filter, NoDup_select.
  - apply NoDup_map_to_list.
  - intros [k v]. rewrite list_elem_of_In, List.filter_In, <- list_elem_of_In, elem_of_select, elem_of_map_to_list,
      map_lookup_filter_Some, <- HP. tauto.
Qed.

(** The reactions to message [id] with emoji [e]. *)
Definition reacted_with (id : uuid) (e : string) (kv : (uuid * uuid) * Reaction) : Prop :=
  kv.1.1 = id ∧ r_Emoji kv.2 = e.
#[export] Instance reacted_with_dec id e kv : Decision (reacted_with id e kv).
Proof. unfold reacted_with. apply _. Defined.

Section counts.
Context {ulib : UuidLib}.

Lemma summary_row_spec (me : uuid) (ids : list uuid) (id : uuid) (e : string) (t : gmap (uuid * uuid) Reaction) :
  id ∈ ids →
  let row := summary_row me (select (λ k _, bool_decide (k.1 ∈ ids)) t) (id, e) in
  rs_N row = Z.of_nat (count_if (reacted_with id e) t) ∧
  (rs_Mine row = true ↔ ∃ r, t !! (id, me) = Some r ∧ r_Emoji r = e).
Proof.
  intros Hid. cbv zeta. unfold summary_row. cbn [rs_N rs_Mine].
  split.
  - f_equal. apply length_filter_select. intros k r. unfold reacted_with. rewrite !bool_decide_eq_true. simpl.
    split; [intros [[= ? ?] _]; auto|]. intros [<- <-]. done.
  - rewrite existsb_exists. split.
    + intros ([[i u] r] & Hin & Hme%bool_decide_eq_true). simpl in Hme. subst u.
      apply List.filter_In in Hin as [Hin [= -> <-]%bool_decide_eq_true].
      apply list_elem_of_In, elem_of_select in Hin as [Ht _]. eauto.
    + intros (r & Ht & <-). exists ((id, me), r). split; [|by apply bool_decide_eq_true].
      apply List.filter_In. split; [|by apply bool_decide_eq_true]. apply list_elem_of_In, elem_of_select.
      split; [done|]. by apply bool_decide_eq_true.
Qed.

(** The rows of the message, in the order of the statement. *)
Lemma add_counts rows (out : gmap uuid (list ReactionCount)) id :
  default [] (foldl add_count out rows !! id) =
  default [] (out !! id) ++
  ((λ x, mk_ReactionCount (rs_Emoji x) (rs_N x) (rs_Mine x)) <$> List.filter (λ x, bool_decide (rs_MessageID x = id)) rows).
Proof.
  revert out. induction rows as [|x rows IH]; intros out; simpl; [by rewrite app_nil_r|].
  rewrite IH. unfold add_count at 1. case_bool_decide as Hx; simpl.
  - rewrite Hx, lookup_insert_eq. simpl. by rewrite <- app_assoc.
  - by rewrite lookup_insert_ne.
Qed.

Lemma NoDup_fmap_filter {A B} (f : A → B) (p : A → bool) (l : list A) :
  NoDup (f <$> l) → NoDup (f <$> List.filter p l).
Proof.
  induction l as [|x l IH]; simpl; [done|]. intros [Hx Hl]%NoDup_cons. destruct (p x); [|by apply IH].
  simpl. constructor; [|by apply IH]. intros (y & Hy & Hin)%list_elem_of_fmap. apply Hx. rewrite Hy.
  apply list_elem_of_fmap_2. rewrite list_elem_of_In, List.filter_In, <- list_elem_of_In in Hin. tauto.
Qed.

(** The counts under a message are right: for every message asked for, each
    emoji somebody reacted with is listed once, with the number of users whose
    reaction it is, and marked as the caller's exactly when it is the caller's;
    nothing else is listed. *)
Theorem reaction_counts_correct (kind : string) (me : uuid) (ids : list uuid) (w : World)
    (out : gmap uuid (list ReactionCount)) (w' : World) :
  ReactionCounts kind me ids w = (Ok out, w') →
  let t := if decide (kind = TypePrivate) then message_reactions (w_db w) else group_message_reactions (w_db w) in
  ∀ id, id ∈ ids →
    let l := default [] (out !! id) in
    NoDup (rc_Emoji <$> l) ∧
    (∀ e, e ∈ (rc_Emoji <$> l) ↔ ∃ u r, t !! (id, u) = Some r ∧ r_Emoji r = e) ∧
    (∀ c, c ∈ l → rc_Count c = Z.of_nat (count_if (reacted_with id (rc_Emoji c)) t) ∧
                  (rc_Me c = true ↔ ∃ r, t !! (id, me) = Some r ∧ r_Emoji r = rc_Emoji c)).
Proof.
  intros Hrun. cbv zeta. set (t := if decide (kind = TypePrivate) then _ else _). intros id Hid.
  assert (out = foldl add_count ∅ (reaction_summary me ids t)) as ->.
  { unfold ReactionCounts in Hrun. destruct (decide (ids = [])) as [->|]; [by apply elem_of_nil in Hid|].
    apply bind_ok_inv in Hrun as (rows & w1 & Hq & [= <- _]). apply query_ok_db in Hq. unfold t.
    destruct (decide (kind = TypePrivate)); unfold PrivateReactionSummary, GroupReactionSummary in Hq; by simplify_eq. }
  rewrite add_counts, lookup_empty. simpl. rewrite <- list_fmap_compose. unfold reaction_summary. cbv zeta.
  set (keys := remove_dups _).
  assert (∀ k, k ∈ keys ↔ k.1 ∈ ids ∧ ∃ u r, t !! (k.1, u) = Some r ∧ r_Emoji r = k.2) as Hkeys.
  { intros [i e]. unfold keys. rewrite elem_of_remove_dups, list_elem_of_fmap. split.
    - intros ([[i' u] r] & [= -> ->] & [Ht Hi%bool_decide_eq_true]%elem_of_select). eauto.
    - intros (Hi & u & r & Ht & He). exists ((i, u), r). simpl in *. rewrite He. split; [done|].
      apply elem_of_select. split; [done|]. by apply bool_decide_eq_true. }
  set (rows := order_by _ _). set (mine := List.filter _ rows).
  assert (∀ x, x ∈ mine ↔ ∃ e, (id, e) ∈ keys ∧ x = summary_row me (select (λ k _, bool_decide (k.1 ∈ ids)) t) (id, e)) as Hmine.
  { intros x. unfold mine. rewrite list_elem_of_In, List.filter_In, <- list_elem_of_In. unfold rows.
    rewrite elem_of_order_by, list_elem_of_fmap, bool_decide_eq_true. split.
    - intros [([i e] & -> & Hk) <-]. eauto.
    - intros (e & Hk & ->). split; [|done]. eauto. }
  split; [|split].
  - change (NoDup ((rs_Emoji : ReactionSummaryRow → string) <$> mine)).
    assert (NoDup ((λ x, (rs_MessageID x, rs_Emoji x)) <$> mine)) as Hnd.
    { apply NoDup_fmap_filter. unfold rows. rewrite order_by_permutation, <- list_fmap_compose.
      rewrite (list_fmap_ext _ Datatypes.id).
      - rewrite list_fmap_id. apply NoDup_remove_dups.
      - by intros i [a b] _. }
    clear -Hnd Hmine. assert (∀ x, x ∈ mine → rs_MessageID x = id) as Hall by (intros x (e & _ & ->)%Hmine; done).
    clear Hmine. induction mine as [|x l IH]; simpl in *; [constructor|]. apply NoDup_cons in Hnd as [Hx Hnd].
    constructor; [|apply IH; [done|]; intros; apply Hall; by right].
    intros (y & Hy & Hin)%list_elem_of_fmap. apply Hx. apply list_elem_of_fmap. exists y. split; [|done].
    rewrite Hy, (Hall x), (Hall y) by (by left || by right). done.
  - intros e. rewrite list_elem_of_fmap. split.
    + intros (x & -> & (e' & Hk & ->)%Hmine). apply Hkeys in Hk as [_ Hk]. exact Hk.
    + intros Hr. eexists. split; [|apply Hmine; exists e; split; [by apply Hkeys|done]]. done.
  - intros c (x & -> & (e & Hk & ->)%Hmine)%list_elem_of_fmap. by apply summary_row_spec.
Qed.
End counts.

(** ** Setting and removing *)

Section reacting.
Context {ulib : UuidLib} {gm : GroupMembership} {fc : FriendChecker} {cs : ChatService} {collab : Collaborators}.

(** [d'] is [d] with [me]'s reaction to the live message [id], which [me] may
    read, replaced by [o]. *)
Definition reaction_put (me id : uuid) (o : option Reaction) (d d' : DB) : Prop :=
  message d' = message d ∧ groupmessage d' = groupmessage d ∧
  ((∃ m, live_private id d m ∧ reads_private me m ∧ group_message_reactions d' = group_message_reactions d ∧
      message_reactions d' = partial_alter (λ _, o) (id, me) (message_reactions d)) ∨
   (∃ m, live_group id d m ∧ reads_group me m d ∧ message_reactions d' = message_reactions d ∧
      group_message_reactions d' = partial_alter (λ _, o) (id, me) (group_message_reactions d))).

Lemma reaction_put_tables me id o d1 d2 d d' :
  chat_tables d1 = chat_tables d → chat_tables d2 = chat_tables d' → reaction_put me id o d1 d2 → reaction_put me id o d d'.
Proof.
  intros (A1 & A2 & A3 & A4 & A5)%tables_eq (B1 & B2 & B3 & B4 & _)%tables_eq.
  unfold reaction_put, live_private, live_group, live_private, reads_group. by rewrite A1, A2, A3, A4, A5, B1, B2, B3, B4.
Qed.

(** Who got past [authorizeMessage], in the tables it left. *)
Definition readable (me id : uuid) (ref : messageRef) (d : DB) : Prop :=
  (∃ m, live_private id d m ∧ reads_private me m ∧ ref_Kind ref = TypePrivate) ∨
  (∃ m, live_group id d m ∧ reads_group me m d ∧ ref_Kind ref = TypePublic).

Lemma authorized_readable me id b w ref others w1 :
  me ≠ uuid_nil → authorizeMessage me id b w = (Ok (ref, others), w1) →
  chat_tables (w_db w1) = chat_tables (w_db w) ∧ readable me id ref (w_db w1).
Proof.
  intros Hme Ha. pose proof (quiet_run _ _ _ _ (quiet_authorize _ _ _) Ha) as [Ht _]. split; [done|].
  apply authorize_spec in Ha; [|done]. apply tables_eq in Ht as (T1 & T2 & _ & _ & T5).
  unfold readable, live_group, live_private, reads_group. rewrite T1, T2, T5.
  destruct Ha as [(m & ? & ? & ? & ? & -> & _)|(m & ? & ? & ? & ? & -> & _)]; [left|right]; eauto.
Qed.

Lemma set_reaction_put me id emoji ref w r w' :
  readable me id ref (w_db w) → SetReaction (ref_Kind ref) id me emoji w = (r, w') →
  match r with
  | Ok _ => ∃ at_, reaction_put me id (Some (mk_Reaction emoji at_)) (w_db w) (w_db w')
  | Err _ => chat_tables (w_db w') = chat_tables (w_db w)
  end.
Proof.
  unfold SetReaction. intros Hr. destruct Hr as [(m & Hm & Hrd & ->)|(m & Hm & Hrd & ->)];
    [rewrite decide_True by done|rewrite decide_False by done];
    intros [(fs & d & Hq & ->)|(-> & fs & ->)]%query_cases; try done; simpl;
    unfold SetPrivateReaction, SetGroupReaction in Hq;
    (destruct (emoji_ok emoji); cbn [negb] in Hq; [|by simplify_eq]); repeat case_match; simplify_eq; try done;
    (eexists; split; [done|]; split; [done|]); [left|right]; by exists m.
Qed.

Lemma delete_reaction_put me id ref w r w' :
  readable me id ref (w_db w) → DeleteReaction (ref_Kind ref) id me w = (r, w') →
  match r with
  | Ok _ => reaction_put me id None (w_db w) (w_db w')
  | Err _ => chat_tables (w_db w') = chat_tables (w_db w)
  end.
Proof.
  unfold DeleteReaction. rewrite bind_run. intros Hr.
  assert (∀ (K := (uuid * uuid)%type) (t : gmap K Reaction) k, t !! k = None → t = partial_alter (λ _, None) k t) as Hnone.
  { intros K t k Ht. symmetry. change (delete k t = t). by apply delete_id. }
  destruct Hr as [(m & Hm & Hrd & ->)|(m & Hm & Hrd & ->)];
    [rewrite decide_True by done|rewrite decide_False by done];
    (destruct (query _ w) as [r1 w1] eqn:Hq; apply query_cases in Hq as [(fs & d & Hq & ->)|(-> & fs & ->)];
     [|by intros [= <- <-]]); unfold DeletePrivateReaction, DeleteGroupReaction in Hq;
    (destruct (_ !! (id, me)) eqn:He; simplify_eq; intros [= <- <-]; (split; [done|]; split; [done|]));
    [left|left|right|right]; exists m; split_and!; try done; by apply Hnone.
Qed.

(** Telling others succeeds and leaves the tables. *)
Lemma pushed targets ev p w r w' :
  push targets ev p w = (r, w') → r = Ok tt ∧ chat_tables (w_db w') = chat_tables (w_db w).
Proof.
  intros Hp. split; [|by apply (quiet_run _ _ _ _ (quiet_push _ _ _)) in Hp as [? _]].
  pose proof (push_ok targets ev p w) as Hok. by rewrite Hp in Hok.
Qed.

Lemma notified (b : bool) j w r w' :
  (if b then notify j else mret tt) w = (r, w') → r = Ok tt ∧ chat_tables (w_db w') = chat_tables (w_db w).
Proof.
  destruct b; [|by intros [= <- <-]]. intros Hn. split; [|by apply (quiet_run _ _ _ _ (quiet_notify _)) in Hn as [? _]].
  pose proof (notify_ok j w) as Hok. by rewrite Hn in Hok.
Qed.

Lemma authorize_failed me id b w e w1 :
  authorizeMessage me id b w = (Err e, w1) → chat_tables (w_db w1) = chat_tables (w_db w).
Proof. by intros [Ht _]%(quiet_run _ _ _ _ (quiet_authorize _ _ _)). Qed.

(** [React] with an emoji, or [Unreact]. *)
Definition set_or_clear (me id : uuid) (o : option string) : M World unit :=
  match o with Some emoji => React me id emoji | None => Unreact me id end.

(** Reacting touches one entry: when React (Unreact) succeeds, the emoji is
    one of the accepted ones, the message is there, not deleted and readable by
    the caller, and the tables change in the caller's own reaction to it alone,
    which is now that emoji (gone), whatever it was before; when it fails nothing
    changes. *)
Theorem reaction_rule (me id : uuid) (o : option string) (w : World) (r : result unit) (w' : World) :
  me ≠ uuid_nil → set_or_clear me id o w = (r, w') →
  match r with
  | Ok _ => (∀ emoji, o = Some emoji → ValidateEmoji emoji = Ok tt) ∧
      ∃ at_, reaction_put me id ((λ e, mk_Reaction e at_) <$> o) (w_db w) (w_db w')
  | Err _ => chat_tables (w_db w') = chat_tables (w_db w)
  end.
Proof.
  intros Hme. destruct o as [emoji|]; simpl.
  - unfold React. rewrite bind_run. unfold lift_result. destruct (ValidateEmoji emoji) as [[]|e] eqn:Hv; [|by intros [= <- <-]].
    rewrite bind_run. destruct (authorizeMessage _ _ _ w) as [[[ref others]|e] w1] eqn:Ha.
    2: { intros [= <- <-]. by eapply authorize_failed. }
    apply authorized_readable in Ha as [Ht Hr]; [|done]. rewrite bind_run.
    destruct (SetReaction _ _ _ _ w1) as [[[]|e] w2] eqn:Hs; apply (set_reaction_put _ _ _ _ _ _ _ Hr) in Hs.
    2: { intros [= <- <-]. congruence. }
    rewrite bind_run. unfold pushReaction. destruct (push _ _ _ w2) as [r3 w3] eqn:Hp.
    apply pushed in Hp as [-> Ht3]. intros [-> Ht4]%notified.
    split; [by intros ? [= ->]|]. destruct Hs as (at_ & Hs). exists at_. eapply reaction_put_tables; [exact Ht| |exact Hs]. congruence.
  - unfold Unreact. rewrite bind_run. destruct (authorizeMessage _ _ _ w) as [[[ref others]|e] w1] eqn:Ha.
    2: { intros [= <- <-]. by eapply authorize_failed. }
    apply authorized_readable in Ha as [Ht Hr]; [|done]. rewrite bind_run.
    destruct (DeleteReaction _ _ _ w1) as [[removed|e] w2] eqn:Hs; apply (delete_reaction_put _ _ _ _ _ _ Hr) in Hs.
    2: { intros [= <- <-]. congruence. }
    intros Hrest. assert (r = Ok tt ∧ chat_tables (w_db w') = chat_tables (w_db w2)) as [-> Ht2].
    { destruct removed; [by apply pushed in Hrest|by injection Hrest as <- <-]. }
    split; [done|]. exists 0. by eapply reaction_put_tables.
Qed.
End reacting.
