(* ===== verification/Chat_Markers.v ===== *)
(** * Chat_Markers: read markers, and the name of a private chat *)

From S2P Require Import Prelude GoLib Types Users_Model Db Groups_Model Sql_Chat Chat_Dedupe World Chat_Emoji Chat_Model Chat_Repo Chat_Service Chat_Access.

#[local] Open Scope Z_scope.

(** ** PrivateChatID *)

Lemma string_gt_antisym a b : a ≠ b → string_gt a b = negb (string_gt b a).
Proof.
  intros Hne. unfold string_gt. rewrite (String.compare_antisym a b). destruct (String.compare b a) eqn:He; simpl; try done.
  apply String.compare_eq_iff in He. congruence.
Qed.

(** A text is split at its only underscore in one way. *)
Lemma underscore_split (a b c d : string) :
  Ascii.ascii_of_nat 95 ∉ String.list_ascii_of_string a → Ascii.ascii_of_nat 95 ∉ String.list_ascii_of_string c →
  (a +:+ "_" +:+ b = c +:+ "_" +:+ d)%string → a = c ∧ b = d.
Proof.
  revert c. induction a as [|x a IH]; intros [|y c] Ha Hc Heq; simpl in *.
  - injection Heq as Heq. by change (b = d) in Heq.
  - injection Heq as <- _. exfalso. apply Hc. by left.
  - injection Heq as -> _. exfalso. apply Ha. by left.
  - injection Heq as -> Heq. rewrite not_elem_of_cons in Ha, Hc.
    destruct (IH c) as [-> ->]; [tauto..|done|]. done.
Qed.

Section names.
Context {ulib : UuidLib} {laws : UuidLaws ulib}.

(** A private chat has one name, and no other chat has it: the name that
    requests, receipts and read markers are filed under is the same whoever of the
    two asks, differs for any other pair of users, and is the one the database
    computes for itself in the list of chats. *)
Theorem private_chat_name (a b : uuid) :
  PrivateChatID a b = PrivateChatID b a ∧ PrivateChatID a b = chat_key a b ∧
  ∀ c d, PrivateChatID a b = PrivateChatID c d ↔ (a = c ∧ b = d) ∨ (a = d ∧ b = c).
Proof.
  assert (∀ a b, PrivateChatID a b = PrivateChatID b a) as Hsym.
  { intros x y. unfold PrivateChatID. destruct (decide (x = y)) as [->|Hne]; [done|].
    rewrite (string_gt_antisym (uuid_string x)); [|by intros ?%(inj uuid_string)].
    by destruct (string_gt (uuid_string y) (uuid_string x)). }
  split; [done|]. split.
  { unfold PrivateChatID, chat_key. cbv zeta. by destruct (string_gt _ _). }
  intros c d. split; [|by intros [[<- <-]|[<- <-]]].
  assert (∀ x y, ∃ x' y', PrivateChatID x y = (uuid_string x' +:+ "_" +:+ uuid_string y')%string ∧
            ((x' = x ∧ y' = y) ∨ (x' = y ∧ y' = x))) as Hform.
  { intros x y. unfold PrivateChatID. destruct (string_gt _ _); eauto 10. }
  destruct (Hform a b) as (x & y & -> & Hxy), (Hform c d) as (x' & y' & -> & Hxy').
  intros [?%(inj uuid_string) ?%(inj uuid_string)]%underscore_split; [|apply uuid_string_plain..]. naive_solver.
Qed.
End names.

(** ** Receipts of a private chat *)

(** The time of the message a user's marker in a chat stands at. *)
Definition marker_at (chat : string) (u : uuid) (d : DB) : option time :=
  seen_messages d !! (chat, u) ≫= (λ id, pm_CreatedAt <$> message d !! id).

(** Markers stand at messages that exist: seen_messages references message. *)
Definition markers_ok (d : DB) : Prop := ∀ k id, seen_messages d !! k = Some id → is_Some (message d !! id).

(** [t] is the greatest of [ts], or none when there is none. *)
Definition greatest (ts : list time) (t : option time) : Prop :=
  match t with
  | Some t => t ∈ ts ∧ ∀ t', t' ∈ ts → t' <= t
  | None => ts = []
  end.

(** The worker on one job after another. *)
Fixpoint handle_all (js : list JobSeen) : M World (list (option verdict)) :=
  match js with
  | [] => mret []
  | j :: js => v ← HandleSeen j; vs ← handle_all js; mret (v :: vs)
  end.

(** What the job says about the marker of [u] in [chat]. *)
Definition job_time (chat : string) (u : uuid) (d : DB) (j : JobSeen) : option time :=
  if decide (js_ChatID j = chat ∧ js_SeenID j = u) then pm_CreatedAt <$> message d !! js_MsgID j else None.

Definition deliverable (d : DB) (j : JobSeen) : Prop :=
  is_Some (message d !! js_MsgID j) ∧ is_Some (users d !! js_SeenID j).

Section receipts.

Lemma seen_step j w :
  w_faults w = [] → markers_ok (w_db w) → deliverable (w_db w) j →
  ∃ d, HandleSeen j w = (Ok None, with_db d w) ∧ message d = message (w_db w) ∧ users d = users (w_db w) ∧ markers_ok d ∧
    ∀ c u, marker_at c u d =
      match job_time c u (w_db w) j with
      | Some t => Some (match marker_at c u (w_db w) with Some t0 => Z.max t0 t | None => t end)
      | None => marker_at c u (w_db w)
      end.
Proof.
  intros Hf Hok [[m Hm] [usr Hu]]. unfold HandleSeen, UpdateLastSeen. rewrite bind_run. unfold try.
  unfold query, io; simpl. rewrite Hf. unfold on_db, AddLastSeenMessage. rewrite Hm, Hu.
  assert (∀ d, message d = message (w_db w) → seen_messages d = <[(js_ChatID j, js_SeenID j) := js_MsgID j]> (seen_messages (w_db w)) →
            markers_ok d ∧ ∀ c u, marker_at c u d = if decide (js_ChatID j = c ∧ js_SeenID j = u) then Some (pm_CreatedAt m)
                                                    else marker_at c u (w_db w)) as Hput.
  { intros d Hmd Hsd. split.
    - intros k id. rewrite Hsd, Hmd, lookup_insert_Some. intros [[_ <-]|[_ Hk]]; eauto.
    - intros c u. unfold marker_at. rewrite Hsd, Hmd. case_decide as Hk.
      + destruct Hk as [-> ->]. rewrite lookup_insert_eq. simpl. by rewrite Hm.
      + rewrite lookup_insert_ne; [done|]. intros [= ? ?]. tauto. }
  assert (∀ c u, job_time c u (w_db w) j = if decide (js_ChatID j = c ∧ js_SeenID j = u) then Some (pm_CreatedAt m) else None) as Hjt.
  { intros c u. unfold job_time. by rewrite Hm. }
  destruct (seen_messages (w_db w) !! (js_ChatID j, js_SeenID j)) as [old|] eqn:Hold.
  - destruct (Hok _ _ Hold) as [mo Hmo]. rewrite Hmo.
    assert (marker_at (js_ChatID j) (js_SeenID j) (w_db w) = Some (pm_CreatedAt mo)) as Hcur.
    { unfold marker_at. rewrite Hold. simpl. by rewrite Hmo. }
    destruct (_ <=? _) eqn:Hle; cbv beta iota.
    + eexists. split; [reflexivity|]. split; [done|]. split; [done|]. edestruct Hput as [H1 H2]; [..|split; [exact H1|]]; try done.
      intros c u. rewrite H2, Hjt. case_decide as Hk; [|done]. destruct Hk as [<- <-]. rewrite Hcur. f_equal. lia.
    + exists (w_db w). split; [done|]. do 2 (split; [done|]). split; [done|].
      intros c u. rewrite Hjt. case_decide as Hk; [|done]. destruct Hk as [<- <-]. rewrite Hcur. f_equal. lia.
  - eexists. split; [reflexivity|]. split; [done|]. split; [done|]. edestruct Hput as [H1 H2]; [..|split; [exact H1|]]; try done.
    intros c u. rewrite H2, Hjt. case_decide as Hk; [|done]. destruct Hk as [<- <-].
    assert (marker_at (js_ChatID j) (js_SeenID j) (w_db w) = None) as -> by (unfold marker_at; by rewrite Hold). done.
Qed.

(** C39. Receipts may come late, twice or in any order: when the queue's jobs are
    handled one after the other, all are acknowledged, and each user's marker in
    each chat ends at the newest of the messages it stood at or was told of.  (So
    two orders of the same jobs, with or without repeats, end at the same time.) *)
Theorem receipts_converge (js : list JobSeen) (w : World) :
  w_faults w = [] → markers_ok (w_db w) → (∀ j, j ∈ js → deliverable (w_db w) j) →
  (handle_all js w).1 = Ok (replicate (length js) None) ∧
  ∀ chat u, greatest (option_list (marker_at chat u (w_db w)) ++ omap (job_time chat u (w_db w)) js)
              (marker_at chat u (w_db (handle_all js w).2)).
Proof.
  revert w. induction js as [|j js IH]; intros w Hf Hok Hdel.
  { split; [done|]. intros chat u. simpl. rewrite app_nil_r. destruct (marker_at chat u (w_db w)) as [t|]; simpl; [|done].
    split; [by left|]. intros t' [->|[]%elem_of_nil]%elem_of_cons. lia. }
  destruct (seen_step j w Hf Hok) as (d & Hj & Hmd & Hud & Hokd & Hmark); [apply Hdel; by left|].
  destruct (IH (with_db d w)) as [Hr Hg]; [done|done| |].
  { intros j' Hj'. unfold deliverable. simpl. rewrite Hmd, Hud. apply Hdel. by right. }
  assert (handle_all (j :: js) w = (vs ← handle_all js; mret (None :: vs)) (with_db d w)) as ->.
  { simpl. rewrite bind_run, Hj. done. }
  rewrite bind_run. destruct (handle_all js (with_db d w)) as [r w'] eqn:Hrun. simpl in Hr. subst r.
  split; [done|]. intros chat u. specialize (Hg chat u). cbn [snd mret M_ret].
  change (omap (job_time chat u (w_db w)) (j :: js)) with
    (match job_time chat u (w_db w) j with
     | Some t => t :: omap (job_time chat u (w_db w)) js
     | None => omap (job_time chat u (w_db w)) js end). simpl in Hg. rewrite Hmark in Hg.
  assert (∀ j', job_time chat u d j' = job_time chat u (w_db w) j') as Hjt by (intros; unfold job_time; by rewrite Hmd).
  assert (omap (job_time chat u d) js = omap (job_time chat u (w_db w)) js) as Homap.
  { clear -Hjt. induction js as [|x l IH]; simpl; [done|]. rewrite Hjt. destruct (job_time _ _ _ x); [f_equal|]; exact IH. }
  rewrite Homap in Hg. destruct (job_time chat u (w_db w) j) as [t|]; [|exact Hg].
  set (ts := omap _ js) in *. clearbody ts. destruct (marker_at chat u (w_db w')) as [t'|]; [|done]. simpl in *.
  destruct Hg as [Hin Hmax].
  destruct (marker_at chat u (w_db w)) as [t0|]; simpl in *; [|by split].
  split.
  - apply elem_of_cons in Hin as [->|Hin]; [|by do 2 right].
    destruct (Z.max_spec t0 t) as [[_ ->]|[_ ->]]; [by right; left|by left].
  - intros t2. rewrite !elem_of_cons. assert (Z.max t0 t <= t') as Hle by (apply Hmax; by left).
    intros [->|[->|Ht2]]; [lia..|]. apply Hmax. by right.
Qed.
End receipts.

(** ** Sending receipts *)

Section seen.
Context {ulib : UuidLib} {gm : GroupMembership} {fc : FriendChecker} {cs : ChatService}.

(** What the other side is told. *)
Definition seen_told (me other id : uuid) : effect :=
  Pushed [other] (mk_Event EventSeen (PSeen (mk_OutGoingEventForSeen (uuid_string id) (uuid_string me)))).

Lemma tell_friend me other id w r w' :
  leaves w_log (frd_AreFriends me other) →
  (ok ← try (SeenAllowed me other);
   match ok with
   | Ok true => push [other] EventSeen (PSeen (mk_OutGoingEventForSeen (uuid_string id) (uuid_string me)))
   | _ => mret tt
   end) w = (r, w') →
  r = Ok tt ∧ (w_log w' = w_log w ∨
               me ≠ other ∧ (frd_AreFriends me other w).1 = Ok true ∧ w_log w' = w_log w ++ [seen_told me other id]).
Proof.
  intros Hlog. rewrite bind_run. unfold try.
  assert (w_log (SeenAllowed me other w).2 = w_log w) as Hl by (unfold SeenAllowed; case_decide; [done|apply Hlog]).
  assert ((SeenAllowed me other w).1 = Ok true → me ≠ other ∧ (frd_AreFriends me other w).1 = Ok true) as Hf
    by (unfold SeenAllowed; case_decide; [done|tauto]).
  destruct (SeenAllowed me other w) as [[[]|e] w1]; simpl in Hl, Hf; [|intros [= <- <-]; auto..].
  intros Hp. split.
  - match type of Hp with push ?a ?b ?c _ = _ => pose proof (push_ok a b c w1) as Hok end. by rewrite Hp in Hok.
  - unfold push in Hp. rewrite bind_run in Hp. unfold try, WriteToUsers in Hp.
    destruct (io _ w1) as [r2 w2] eqn:Hw. injection Hp as _ <-.
    apply io_cases in Hw as [(fs & [= _ <-])|[_ (fs & ->)]]; simpl; rewrite Hl; [right|by left].
    destruct Hf; [done|]. done.
Qed.

(** Receipts are for one's own conversations: MarkSeen queues a receipt only
    for a message between the caller and the named user, filed under their chat
    and the caller's name; the other side is told only when the two are friends;
    a request that fails neither queues nor tells anything. *)
Theorem seen_rule (me other : uuid) (msgID : string) (w : World) (r : result unit) (w' : World) :
  leaves w_log (frd_AreFriends me other) →
  MarkSeen me other msgID w = (r, w') →
  match r with
  | Err _ => w_log w' = w_log w
  | Ok _ => ∃ id m, uuid_parse msgID = Some id ∧ message (w_db w) !! id = Some m ∧ between me other m = true ∧
      let queued := w_log w ++ [Queued TopicSeen (mk_JobSeen (PrivateChatID me other) id me)] in
      w_log w' = queued ∨
      (me ≠ other ∧ (∃ w1, w_db w1 = w_db w ∧ (frd_AreFriends me other w1).1 = Ok true) ∧
       w_log w' = queued ++ [seen_told me other id])
  end.
Proof.
  intros Hlog. unfold MarkSeen. destruct (uuid_parse msgID) as [id|]; [|by intros [= <- <-]].
  rewrite bind_run. destruct (ParentInPrivate id me other w) as [r1 w1] eqn:Hp. unfold ParentInPrivate in Hp.
  apply query_cases in Hp as [(fs & d & Hp & ->)|(-> & fs & ->)]; [|by intros [= <- <-]].
  unfold PrivateMessageInChat in Hp. injection Hp as <- <-.
  destruct (message (w_db w) !! id) as [m|] eqn:Hm; simpl; [|by intros [= <- <-]].
  destruct (between me other m) eqn:Hb; cbn [negb]; [|by intros [= <- <-]].
  rewrite bind_run. unfold SetSeen. destruct (io _ _) as [[[]|e] w2] eqn:Hs;
    apply io_cases in Hs as [(fs2 & [= <-])|[He (fs2 & ->)]]; try done; [|by intros [= <- <-]].
  rewrite bind_run. unfold Publish. destruct (io (emit _) _) as [[[]|e] w3] eqn:Hq;
    apply io_cases in Hq as [(fs3 & [= <-])|[He (fs3 & ->)]]; try done; [|by intros [= <- <-]].
  intros [-> Hcase]%tell_friend; [|done]. exists id, m. do 3 (split; [done|]).
  destruct Hcase as [H1|(H1 & H2 & H3)]; [by left|right]. split; [done|].
  split; [eexists; split; [|exact H2]; done|exact H3].
Qed.

(** ** Markers in a group *)

Definition group_marker_at (g u : uuid) (d : DB) : option time :=
  group_reads d !! (g, u) ≫= (λ r, gm_CreatedAt <$> groupmessage d !! gr_MessageID r).

(** What group read markers are made of. *)
Definition read_view (w : World) := (group_reads (w_db w), groupmessage (w_db w)).

Lemma read_blind : fault_blind read_view.
Proof. by intros x w. Qed.

(** [d'] is [d] with the caller's marker moved to message [id], not backwards. *)
Definition marker_moved (g u id : uuid) (d d' : DB) : Prop :=
  ∃ m at_, groupmessage d !! id = Some m ∧ in_group g m = true ∧ groupmessage d' = groupmessage d ∧
    group_reads d' = <[(g, u) := mk_GroupRead id at_]> (group_reads d) ∧
    ∀ t, group_marker_at g u d = Some t → t <= gm_CreatedAt m.

Lemma mark_statement g u id m d r d' :
  groupmessage d !! id = Some m → in_group g m = true → MarkGroupRead g u id d = (r, d') →
  d' = d ∨ marker_moved g u id d d'.
Proof.
  intros Hm Hg. unfold MarkGroupRead. cbv zeta. rewrite Hm.
  assert ((∀ t, group_marker_at g u d = Some t → t <= gm_CreatedAt m) →
          marker_moved g u id d (with_group_reads (<[(g, u) := mk_GroupRead id (db_now d)]> (group_reads d)) d)) as Hput.
  { intros Hmax. by exists m, (db_now d). }
  destruct (group_reads d !! (g, u)) as [old|] eqn:Hold.
  - destruct (groupmessage d !! gr_MessageID old) as [cur|] eqn:Hcur; [|intros [= _ <-]; by left].
    destruct (_ <=? _) eqn:Hle; intros [= _ <-]; [right|by left]. apply Hput.
    intros t. unfold group_marker_at. rewrite Hold. simpl. rewrite Hcur. simpl. intros [= <-]. lia.
  - destruct (chat_groups d !! g), (users d !! u); intros [= _ <-]; auto. right. apply Hput.
    intros t. unfold group_marker_at. by rewrite Hold.
Qed.

Lemma mark_cases g u id w r w' :
  MarkGroupRead_ g u id w = (r, w') → read_view w' = read_view w ∨ marker_moved g u id (w_db w) (w_db w').
Proof.
  unfold MarkGroupRead_, missing. rewrite bind_run, bind_run. unfold try.
  destruct (query (GroupMessageCursor id g) w) as [r1 w1] eqn:Hc.
  apply query_cases in Hc as [(fs & d & Hc & ->)|(-> & fs & ->)]; [|intros [= _ <-]; by left].
  unfold GroupMessageCursor in Hc.
  destruct (groupmessage (w_db w) !! id) as [m|] eqn:Hm; [|simplify_eq; intros [= _ <-]; by left].
  destruct (in_group g m) eqn:Hg; simplify_eq; [|intros [= _ <-]; by left].
  cbn [mret M_ret]. rewrite bind_run. destruct (query _ _) as [r2 w2] eqn:Hq. intros Hrun.
  assert (w' = w2) as -> by (destruct r2; by injection Hrun as _ <-).
  apply query_cases in Hq as [(fs2 & d & Hq & ->)|(_ & fs2 & ->)]; [|by left].
  eapply mark_statement in Hq as [->|Hq]; [by left|right; exact Hq|exact Hm|exact Hg].
Qed.

(** After the marker, telling others leaves it. *)
Lemma told_group me g id members (moved : bool) :
  leaves read_view
    (if negb moved || (Z.of_nat (length members) >? ReadByMaxMembers) then mret tt
     else
       senders ← try (RecentGroupSenders_ g id);
       match senders with
       | Err _ => mret tt
       | Ok senders =>
         let to := me :: List.filter (λ id, negb (bool_decide (id = me)) && slices_contains members id) senders in
         push to EventGroupRead
           (PGroupRead (mk_OutGroupReadEvent (uuid_string g) (uuid_string me) (uuid_string id)))
       end).
Proof.
  destruct (_ || _); [apply leaves_ret|]. apply leaves_bind.
  - apply leaves_try, leaves_read; [apply read_blind|]. intros d r0 d'. unfold RecentGroupSenders. by intros [= _ <-].
  - intros [senders|]; [|apply leaves_ret]. apply leaves_bind; [|intros; apply leaves_ret].
    apply leaves_try, leaves_io_blind; [apply read_blind|]. by intros w0.
Qed.

(** Group markers only move forward: MarkGroupRead touches no marker but the
    caller's in that group, and moves that only to a message of the group, for
    someone the groups call a member; the message the marker stands at is never
    older than the one it stood at before, whatever the outcome. *)
Theorem group_marker_rule (me g : uuid) (msgID : string) (w : World) (r : result unit) (w' : World) :
  leaves read_view (grp_Members g) →
  MarkGroupRead_s me g msgID w = (r, w') →
  (∀ t, group_marker_at g me (w_db w) = Some t → ∃ t', group_marker_at g me (w_db w') = Some t' ∧ t <= t') ∧
  (group_reads (w_db w') = group_reads (w_db w) ∨
   ∃ id members, uuid_parse msgID = Some id ∧ (grp_Members g w).1 = Ok members ∧ me ∈ members ∧
     marker_moved g me id (w_db w) (w_db w')).
Proof.
  intros Hmem Hrun.
  assert (read_view w' = read_view w ∨ ∃ id members, uuid_parse msgID = Some id ∧ (grp_Members g w).1 = Ok members ∧
            me ∈ members ∧ marker_moved g me id (w_db w) (w_db w')) as [[= Hr Hg]|Hmoved].
  2: { rewrite Hr. split; [|by left]. intros t. unfold group_marker_at. rewrite Hr, Hg. eauto with lia. }
  2: { split; [|by right]. destruct Hmoved as (id & _ & _ & _ & _ & m & at_ & Hm & _ & Hgs & Hrd & Hmax).
       intros t Ht. exists (gm_CreatedAt m). split; [|by apply Hmax].
       unfold group_marker_at. rewrite Hgs, Hrd, lookup_insert_eq. simpl. by rewrite Hm. }
  unfold MarkGroupRead_s in Hrun. destruct (uuid_parse msgID) as [id|]; [|injection Hrun as _ <-; by left].
  rewrite bind_run in Hrun. specialize (Hmem w). destruct (grp_Members g w) as [[members|e] w1] eqn:Hms;
    simpl in Hmem; [|injection Hrun as _ <-; by left].
  destruct (slices_contains members me) eqn:Hin; cbn [negb] in Hrun; [|injection Hrun as _ <-; by left].
  apply slices_contains_true in Hin. rewrite bind_run in Hrun.
  destruct (MarkGroupRead_ g me id w1) as [r2 w2] eqn:Hmark. apply mark_cases in Hmark.
  assert (read_view w' = read_view w2) as Hv.
  { destruct r2 as [moved|e]; [|by injection Hrun as _ <-]. pose proof (told_group me g id members moved w2) as Ht.
    cbv zeta in Ht. by rewrite Hrun in Ht. }
  destruct Hmark as [Hsame|(m & at_ & Hmoved)]; [left; congruence|right].
  exists id, members. split; [done|]. split; [done|]. split; [done|]. exists m, at_.
  unfold group_marker_at in *. injection Hmem as Hr1 Hg1. injection Hv as Hr2 Hg2. rewrite Hr1, Hg1 in Hmoved.
  by rewrite Hr2, Hg2.
Qed.
End seen.
