(* ===== verification/Chat_History.v ===== *)
(** * Chat_History: reading a chat back

    The pages of a private chat against the ordered list of its messages. *)

From S2P Require Import Prelude GoLib Types Users_Model Db Groups_Model Sql_Chat Chat_Dedupe World Moves Chat_Emoji Chat_Model Chat_Repo Chat_Service Chat_Access Demo.

#[local] Open Scope Z_scope.

(** ** Ordered rows *)

Section rows.
Context {A : Type} (key : A → time * uuid).

Definition oldest_id (x y : A) : bool := row_le (key x) (key y).

Lemma oldest_total x y : oldest_id x y = true ∨ oldest_id y x = true.
Proof. apply row_le_total. Qed.
Lemma oldest_trans x y z : oldest_id x y = true → oldest_id y z = true → oldest_id x z = true.
Proof. apply row_le_trans. Qed.
Lemma newest_total x y : newest_id key x y = true ∨ newest_id key y x = true.
Proof. apply row_le_total. Qed.
Lemma newest_trans x y z : newest_id key x y = true → newest_id key y z = true → newest_id key x z = true.
Proof. intros H1 H2. exact (row_le_trans _ _ _ H2 H1). Qed.

(** Rows with distinct keys are in order in one way only. *)
Lemma ordered_unique (l1 l2 : list A) :
  StronglySorted (le_rel oldest_id) l1 → StronglySorted (le_rel oldest_id) l2 → l1 ≡ₚ l2 →
  (∀ x y, x ∈ l1 → y ∈ l1 → key x = key y → x = y) → l1 = l2.
Proof.
  intros Hs. revert l2. induction Hs as [|x l1 Hs IH Hall]; intros l2 Hs2 Hp Hinj.
  - by apply Permutation_nil_l in Hp as ->.
  - destruct Hs2 as [|y l2 Hs2 Hall2]; [by apply Permutation_nil_r in Hp|].
    rewrite Forall_forall in Hall, Hall2.
    assert (x ∈ y :: l2) as Hx by (rewrite <- Hp; by left). assert (y ∈ x :: l1) as Hy by (rewrite Hp; by left).
    assert (x = y) as ->.
    { apply elem_of_cons in Hx as [|Hx]; [done|]. apply elem_of_cons in Hy as [|Hy]; [done|].
      apply Hinj; [by left|by right|]. exact (row_le_antisym _ _ (Hall y Hy) (Hall2 x Hx)). }
    apply Permutation_cons_inv in Hp. f_equal. apply IH; try done. intros a b Ha Hb. apply Hinj; by right.
Qed.

Lemma sorted_reverse (l : list A) :
  StronglySorted (le_rel (newest_id key)) l → StronglySorted (le_rel oldest_id) (reverse l).
Proof.
  induction 1 as [|x l Hs IH Hall]; [constructor|]. rewrite reverse_cons. rewrite Forall_forall in Hall.
  assert (∀ y, y ∈ reverse l → le_rel oldest_id y x) as Hlast.
  { intros y Hy. rewrite elem_of_reverse in Hy. exact (Hall y Hy). }
  clear -IH Hlast. induction IH as [|z l2 Hs IH2 Hall2]; simpl; [by repeat constructor|].
  constructor; [apply IH2; intros y Hy; apply Hlast; by right|].
  apply Forall_app. split; [done|]. constructor; [apply Hlast; by left|constructor].
Qed.

Lemma sorted_impl (le : A → A → bool) (l : list A) :
  StronglySorted (le_rel le) l → (∀ x y, x ∈ l → y ∈ l → le x y = true → newest_id key x y = true) →
  StronglySorted (le_rel (newest_id key)) l.
Proof.
  induction 1 as [|x l Hs IH Hall]; intros Himp; constructor.
  - apply IH. intros y z Hy Hz. apply Himp; by right.
  - rewrite Forall_forall in *. intros y Hy. apply Himp; [by left|by right|by apply Hall].
Qed.

Lemma sorted_filter (p : A → bool) (l : list A) :
  StronglySorted (le_rel oldest_id) l → StronglySorted (le_rel oldest_id) (List.filter p l).
Proof.
  induction 1 as [|x l Hs IH Hall]; simpl; [constructor|]. destruct (p x); [|done]. constructor; [done|].
  rewrite Forall_forall in *. intros y Hy. apply Hall.
  rewrite list_elem_of_In, List.filter_In, <- list_elem_of_In in Hy. tauto.
Qed.

(** The newest first, reversed, is the oldest first. *)
Lemma reverse_newest (l : list A) :
  (∀ x y, x ∈ l → y ∈ l → key x = key y → x = y) →
  reverse (order_by (newest_id key) l) = order_by oldest_id l.
Proof.
  intros Hinj. apply ordered_unique.
  - apply sorted_reverse, order_by_sorted; [apply newest_total|apply newest_trans].
  - apply order_by_sorted; [apply oldest_total|apply oldest_trans].
  - by rewrite reverse_Permutation, !order_by_permutation.
  - intros x y. rewrite !elem_of_reverse, !elem_of_order_by. apply Hinj.
Qed.

Lemma list_filter_none (p : A → bool) (l : list A) : (∀ x, x ∈ l → p x = false) → List.filter p l = [].
Proof.
  intros Hp. induction l as [|x l IH]; simpl; [done|]. rewrite Hp by by left. apply IH. intros y Hy. apply Hp. by right.
Qed.

(** Of an ordered list with distinct keys, what comes strictly before an element
    is the list up to it. *)
Lemma filter_before (l : list A) i c :
  StronglySorted (le_rel oldest_id) l → (∀ x y, x ∈ l → y ∈ l → key x = key y → x = y) → NoDup l →
  l !! i = Some c → List.filter (λ x, row_lt (key x) (key c)) l = take i l.
Proof.
  intros Hs. revert i. induction Hs as [|x l Hs IH Hall]; intros i Hinj Hnd Hi; [done|].
  apply NoDup_cons in Hnd as [Hx Hnd]. rewrite Forall_forall in Hall. destruct i as [|i]; simpl in *.
  - injection Hi as ->. rewrite row_lt_not_le, (proj2 (row_le_iff _ _)) by (right; lia). simpl.
    apply list_filter_none. intros y Hy. rewrite row_lt_not_le.
    by assert (row_le (key c) (key y) = true) as -> by exact (Hall y Hy).
  - assert (c ∈ l) as Hc by by eapply list_elem_of_lookup_2.
    assert (row_lt (key x) (key c) = true) as ->.
    { rewrite row_lt_not_le. apply negb_true_iff, not_true_iff_false. intros Hle.
      assert (x = c) as ->; [|done]. apply Hinj; [by left|by right|]. exact (row_le_antisym _ _ (Hall c Hc) Hle). }
    f_equal. apply IH; [|done..]. intros y z Hy Hz. apply Hinj; by right.
Qed.
End rows.

(** ** Pages of a private chat *)

(** All messages between [a] and [b], oldest first. *)
Definition history (a b : uuid) (d : DB) : list (uuid * Message) :=
  order_by (oldest_id pm_key) (select (λ _ m, between a b m) (message d)).

(** The last [n] elements. *)
Definition last_n {A} (n : Z) (l : list A) : list A := drop (length l - Z.to_nat n) l.

Lemma pm_key_inj d x y (p q : uuid → Message → bool) :
  x ∈ select p (message d) → y ∈ select q (message d) → pm_key x = pm_key y → x = y.
Proof.
  destruct x as [i m], y as [j m']. rewrite !elem_of_select. intros [Hi _] [Hj _] [= _ ->]. congruence.
Qed.

Lemma elem_of_history a b d x : x ∈ history a b d ↔ message d !! x.1 = Some x.2 ∧ between a b x.2 = true.
Proof. unfold history. rewrite elem_of_order_by. destruct x as [i m]. exact (elem_of_select _ _ _ _). Qed.

Lemma history_inj a b d x y : x ∈ history a b d → y ∈ history a b d → pm_key x = pm_key y → x = y.
Proof. unfold history. rewrite !elem_of_order_by. apply pm_key_inj. Qed.

Lemma NoDup_history a b d : NoDup (history a b d).
Proof. unfold history. rewrite order_by_permutation. apply NoDup_select. Qed.

Lemma history_sorted a b d : StronglySorted (le_rel (oldest_id pm_key)) (history a b d).
Proof. apply order_by_sorted; [apply oldest_total|apply oldest_trans]. Qed.

Lemma reverse_limit {A} n (l : list A) : reverse (limit n l) = last_n n (reverse l).
Proof. unfold limit, last_n. by rewrite length_reverse, reverse_take. Qed.

(** The rows older than the message at [i] of the history are the first [i]. *)
Lemma older_rows a b d i c :
  history a b d !! i = Some c →
  reverse (order_by (newest_id pm_key)
    (select (λ id m, between a b m && row_lt (pm_key (id, m)) (pm_key c)) (message d))) = take i (history a b d).
Proof.
  intros Hi. rewrite reverse_newest by (intros x y; apply pm_key_inj).
  rewrite <- (filter_before pm_key (history a b d) i c); [|apply history_sorted|apply history_inj|apply NoDup_history|done].
  apply (ordered_unique pm_key).
  - apply order_by_sorted; [apply oldest_total|apply oldest_trans].
  - apply sorted_filter, history_sorted.
  - apply NoDup_Permutation.
    + rewrite order_by_permutation. apply NoDup_select.
    + apply NoDup_list_filter, NoDup_history.
    + intros [id m]. rewrite elem_of_order_by, elem_of_select, list_elem_of_In, List.filter_In, <- list_elem_of_In.
      rewrite elem_of_history, andb_true_iff. simpl. tauto.
  - intros x y. rewrite !elem_of_order_by. apply pm_key_inj.
Qed.

Section pages.
Context {ulib : UuidLib}.

(** A read on a day nothing fails. *)
Lemma calm_query {A} (q : M DB A) r w :
  w_faults w = [] → q (w_db w) = (r, w_db w) → query q w = (r, w).
Proof. intros Hf Hq. unfold query, io; simpl. rewrite Hf. unfold on_db. rewrite Hq. by rewrite with_db_same. Qed.

Lemma page_before a b n w i c :
  w_faults w = [] → history a b (w_db w) !! i = Some c →
  PrivateBefore a b c.1 n w = (Ok (fromPrivate (last_n n (take i (history a b (w_db w))))), w).
Proof.
  intros Hf Hi. assert (c ∈ history a b (w_db w)) as [Hm Hb]%elem_of_history by by eapply list_elem_of_lookup_2.
  unfold PrivateBefore, missing. rewrite !bind_run. unfold try.
  rewrite (calm_query _ (Ok (pm_CreatedAt c.2))); [|done|].
  2: { unfold PrivateMessageCursor. by rewrite Hm, Hb. }
  unfold mret at 1, M_ret at 1. cbv beta iota. rewrite bind_run. erewrite calm_query; [|done|unfold GetPrivateMessagesBefore; reflexivity].
  unfold mret, M_ret, fromPrivate. rewrite <- fmap_reverse, reverse_limit. do 3 f_equal.
  by rewrite <- (older_rows a b (w_db w) i c Hi).
Qed.

(** The newest page, when no two messages of the chat have the same time. *)
Lemma page_recent a b n w :
  w_faults w = [] →
  (∀ x y, x ∈ history a b (w_db w) → y ∈ history a b (w_db w) → pm_CreatedAt x.2 = pm_CreatedAt y.2 → x = y) →
  RecentPrivate a b n w = (Ok (fromPrivate (last_n n (history a b (w_db w)))), w).
Proof.
  intros Hf Hdist. unfold RecentPrivate. rewrite bind_run.
  erewrite calm_query; [|done|unfold GetRecentPrivateMessages; reflexivity].
  unfold mret, M_ret, fromPrivate. rewrite <- fmap_reverse, reverse_limit. do 3 f_equal.
  set (rows := select (λ _ m, between a b m) (message (w_db w))).
  assert (∀ x, x ∈ rows ↔ x ∈ history a b (w_db w)) as Hrows by (intros x; unfold history; by rewrite elem_of_order_by).
  f_equal. apply (ordered_unique pm_key).
  - apply sorted_reverse. apply (sorted_impl _ (newest (λ r : uuid * Message, pm_CreatedAt r.2))).
    + apply order_by_sorted; unfold newest; lia.
    + intros x y Hx Hy Hle. rewrite elem_of_order_by in Hx, Hy. unfold newest_id, newest in *.
      apply row_le_iff. simpl. destruct (decide (pm_CreatedAt y.2 = pm_CreatedAt x.2)) as [He|]; [|lia].
      right. split; [done|]. rewrite (Hdist x y); [lia|by apply Hrows..|done].
  - apply history_sorted.
  - rewrite reverse_Permutation. unfold history. by rewrite !order_by_permutation.
  - intros x y. rewrite !elem_of_reverse, !elem_of_order_by, !Hrows. apply history_inj.
Qed.

(** The client that scrolls up: it asks for the page before the oldest message it
    has until a page comes empty. *)
Fixpoint scroll (fuel : nat) (a b before : uuid) (n : Z) : M World (list MessageMetaDataRes) :=
  match fuel with
  | O => mret []
  | S fuel =>
    page ← PrivateBefore a b before n;
    match page with
    | [] => mret []
    | first :: _ =>
      older ← scroll fuel a b (mr_ID first) n;
      mret (older ++ page)
    end
  end.

Lemma last_n_cons {A} n (l : list A) :
  0 < n → l ≠ [] →
  ∃ j c, (j < length l)%nat ∧ l !! j = Some c ∧ last_n n l = drop j l ∧ last_n n l = c :: drop (S j) l.
Proof.
  intros Hn Hl. unfold last_n. set (j := (length l - Z.to_nat n)%nat).
  assert (j < length l)%nat as Hj by (destruct l; [done|]; unfold j; simpl; lia).
  destruct (lookup_lt_is_Some_2 l j Hj) as [c Hc]. exists j, c. repeat split; try done. by apply drop_S.
Qed.

(** C35. Scrolling back through a private chat shows every older message once, in
    order: with pages of any positive size, the pages a client gets by asking for
    what comes before the oldest message it has, until one is empty, put end to
    end, are exactly the messages older than the one it started from, oldest
    first; and the scrolling stops. *)
Theorem pages_tile_history (a b : uuid) (n : Z) (w : World) (i : nat) (c : uuid * Message) (fuel : nat) :
  w_faults w = [] → 0 < n → history a b (w_db w) !! i = Some c → (i < fuel)%nat →
  scroll fuel a b c.1 n w = (Ok (fromPrivate (take i (history a b (w_db w)))), w).
Proof.
  intros Hf Hn. revert i c. induction fuel as [|fuel IH]; intros i c Hi Hfuel; [lia|].
  simpl. rewrite bind_run, (page_before _ _ _ _ _ _ Hf Hi).
  set (h := history a b (w_db w)) in *.
  assert (length (take i h) = i) as Hlen.
  { rewrite length_take. apply lookup_lt_Some in Hi. lia. }
  destruct (decide (take i h = [])) as [Hnil|Hne].
  { rewrite Hnil. unfold last_n, fromPrivate. by rewrite drop_nil. }
  destruct (last_n_cons n (take i h) Hn Hne) as (j & c' & Hj & Hc' & Hdrop & Hcons).
  rewrite Hcons. simpl fromPrivate at 1. cbn [fmap list_fmap fromPrivate]. cbv beta iota.
  rewrite lookup_take_Some in Hc'. destruct Hc' as [Hc' Hji].
  rewrite bind_run. cbn [mr_ID]. rewrite (IH j c' Hc') by lia. unfold mret, M_ret. do 2 f_equal.
  rewrite <- (take_drop j (take i h)) at 2. rewrite take_take, Nat.min_l by lia.
  unfold fromPrivate. rewrite fmap_app. f_equal. by rewrite <- Hdrop, Hcons.
Qed.
End pages.
