(* ===== verification/Demo_Chat.v ===== *)
(** * Demo_Chat: the chat theorems at concrete requests

    Alice and Bob are friends and in a group with Carol; Dave is a stranger.  The
    chat runs on the real group and friends services (Wiring). *)

From S2P Require Import Prelude GoLib Types Users_Model Db Sql_Groups Sql_Friends Sql_Chat Groups_Model Friends_Model Versioned Chat_Dedupe World Groups_Repo Groups_Service Groups_Refine Groups_Props Groups_Service_Props Friends_Service Friends_Props Chat_Emoji Chat_Model Chat_Repo Chat_Service Chat_Access Chat_Invariant Chat_Pages Chat_Reactions Chat_Markers Chat_History Wiring Demo Sql_Admin Sql_Search Search.

#[local] Open Scope Z_scope.

#[export] Instance demo_collation : Collation := {| name_le a b := negb (string_gt a b) |}.
#[export] Instance demo_chat : ChatService := {| csv_notify := true; csv_media := None |}.
#[export] Instance demo_collaborators : Collaborators.
Proof. by apply app_collaborators. Qed.

(** Alice wrote to Bob at 900; Carol wrote to the group at 25, before Bob joined
    it at 30. *)
Definition demo_said : DB :=
  with_message {[ 501%N := mk_Message (Some "hello") None (Some alice) (Some bob) None 900 None false ]}
  (with_groupmessage {[ 601%N := mk_Groupmessage (Some "early") (Some team) (Some carol) None 25 None None true false ]}
  (with_user_relationships {[ 401%N := mk_UserRelationship alice bob "confirm" 0 0 ]} demo_db)).

Definition chat_world : World := demo_world demo_said.

Definition demo_text (to : uuid) (kind text cid : string) : InCommingMessage :=
  mk_InCommingMessage text EmptyString (uuid_string to) kind [] cid false.

(** The outcome of a concrete run. *)
Ltac run_it := vm_compute; reflexivity.

Lemma messages_need_access_witness :
  ∃ w', SendMessage alice (demo_text bob TypePrivate " hi " EmptyString) chat_world = (Ok 201%N, w') ∧
    (chat_tables (w_db w') = chat_tables demo_said ∨
     ∃ d, written alice (demo_text bob TypePrivate " hi " EmptyString) (with_dedupe d chat_world) w' 201%N).
Proof.
  eexists. split; [run_it|].
  apply (messages_need_access alice (demo_text bob TypePrivate " hi " EmptyString) chat_world (Ok 201%N)). run_it.
Defined.

(** The request of a client that numbers its messages, and its retry. *)
Definition demo_first : result uuid * World :=
  SendMessage alice (demo_text bob TypePrivate "hi" (uuid_string 9%N)) chat_world.

Lemma retry_is_safe_witness :
  ∃ w3, SendMessage alice (demo_text bob TypePrivate "hi" (uuid_string 9%N)) demo_first.2 = (Ok 201%N, w3) ∧
    w_db w3 = w_db demo_first.2 ∧ w_log w3 = w_log demo_first.2.
Proof.
  apply (retry_is_safe alice 9%N 201%N _ chat_world demo_first.2 demo_first.2);
    [apply uuid_parse_string|run_it|run_it|done|by vm_compute|by vm_compute].
Defined.

(** Dave is in no chat with the message; Bob joined after Carol's. *)
Lemma demo_not_visible : ¬ visible dave 501%N demo_said ∧ ¬ visible bob 601%N demo_said.
Proof.
  split.
  - intros [(m & [Hm _] & _ & [H|H])|(m & (Hm & _) & _)]; vm_compute in Hm; simplify_eq; done.
  - intros [(m & [Hm _] & _)|(m & (Hm & _) & _ & mt & Hmt & Hle)]; vm_compute in Hm; simplify_eq.
    vm_compute in Hmt. simplify_eq. by vm_compute in Hle.
Qed.

Lemma outsiders_learn_nothing_witness :
  (∃ w', run_mop dave 501%N MReactors chat_world = (Err ErrMessageNotFound, w') ∧
         hidden_outcome MReactors chat_world (Err ErrMessageNotFound : result unit) w') ∧
  (∃ w', run_mop bob 601%N MDelete chat_world = (Err ErrMessageNotFound, w') ∧
         hidden_outcome MDelete chat_world (Err ErrMessageNotFound : result unit) w').
Proof.
  split; eexists; (split; [run_it|]).
  - apply (outsiders_learn_nothing dave 501%N); [done|apply demo_not_visible|run_it].
  - apply (outsiders_learn_nothing bob 601%N); [done|apply demo_not_visible|run_it].
Defined.

Lemma edit_rule_witness :
  ∃ w', EditMessage alice 501%N "bye" chat_world = (Ok (mk_EditedMessage 501%N "bye" 1000), w') ∧
    text_edited alice 501%N "bye" 1000 demo_said (w_db w').
Proof.
  eexists. split; [run_it|].
  pose proof (edit_rule alice 501%N "bye" chat_world (Ok (mk_EditedMessage 501%N "bye" 1000))) as H.
  cbv zeta in H. refine (proj2 (proj2 (proj2 (H _ _ _)))); [done|run_it].
Defined.

Lemma delete_rule_witness :
  ∃ w', DeleteMessage alice 501%N chat_world = (Ok tt, w') ∧ wiped alice 501%N 1000 demo_said (w_db w').
Proof.
  eexists. split; [run_it|]. apply (delete_rule alice 501%N chat_world (Ok tt)); [done|run_it].
Defined.

Definition hello : Message := mk_Message (Some "hello") None (Some alice) (Some bob) None 900 None false.
Definition early : Groupmessage := mk_Groupmessage (Some "early") (Some team) (Some carol) None 25 None None true false.

Lemma demo_messages id m : message demo_said !! id = Some m → m = hello.
Proof. change (message demo_said) with ({[ 501%N := hello ]} : gmap uuid Message). by intros [_ <-]%lookup_singleton_Some. Qed.
Lemma demo_groupmessages id m : groupmessage demo_said !! id = Some m → m = early.
Proof.
  change (groupmessage demo_said) with ({[ 601%N := early ]} : gmap uuid Groupmessage).
  by intros [_ <-]%lookup_singleton_Some.
Qed.

Lemma demo_said_ok : said_ok demo_said.
Proof.
  assert (∀ c, c = "hello" ∨ c = "early" → text_ok (Some c) None) as Ht.
  { intros c [->| ->]; split; try done; by intros ? [= <-]. }
  split.
  - intros id m ->%demo_messages. simpl. auto.
  - intros id m ->%demo_groupmessages. simpl. auto.
  - intros id m a ->%demo_messages [= <-]. done.
  - by intros id m p ->%demo_messages.
  - by intros id m p ->%demo_groupmessages.
  - by intros id u [x Hx].
  - by intros id u [x Hx].
Qed.

Lemma messages_well_formed_witness :
  said_ok (w_db (run_cop (CMsg alice 501%N MDelete) (run_cop (CSend bob (demo_text team TypePublic "all" EmptyString)) chat_world).2).2).
Proof.
  apply (messages_well_formed chat_world); [apply demo_said_ok|].
  apply reach_step with (run_cop (CSend bob (demo_text team TypePublic "all" EmptyString)) chat_world).2.
  - apply reach_step with chat_world; [apply reach_refl|]. by apply c_serve.
  - by apply (c_serve _ (CMsg alice 501%N MDelete)).
Defined.

Lemma demo_chat_coherent : Friends_Props.coherent chat_world ∧ Groups_Service_Props.coherent chat_world.
Proof.
  split; [split; [|done]|].
  - assert (∀ id r, user_relationships demo_said !! id = Some r → id = 401%N ∧ r = mk_UserRelationship alice bob "confirm" 0 0) as Hr.
    { change (user_relationships demo_said) with
        ({[ 401%N := mk_UserRelationship alice bob "confirm" 0 0 ]} : gmap uuid UserRelationship).
      by intros id r [<- <-]%lookup_singleton_Some. }
    split.
    + intros id1 r1 id2 r2 [-> ->]%Hr [-> ->]%Hr _. done.
    + intros id r [_ ->]%Hr. split; [done|]. split; [by right|]. split; by eexists.
    + intros id r [_ ->]%Hr. done.
  - split; [exact demo_groups_ok|done].
Qed.

Lemma demo_no_media m : csv_media = Some m →
  (∀ o ids k c i, quiet (md_Attach m o ids k c i)) ∧ (∀ ids, quiet (md_ForMessages m ids)) ∧
  (∀ i, quiet (md_ExpireMessage m i)) ∧ (∀ o i, quiet (md_Duplicate m o i)).
Proof. done. Qed.

Lemma stored_only_between_friends_and_members_witness :
  ∃ w', SendMessage carol (demo_text team TypePublic "all" EmptyString) chat_world = (Ok 201%N, w') ∧
    (chat_tables (w_db w') = chat_tables demo_said ∨
     ∃ to, uuid_parse (uuid_string team) = Some to ∧
       ((TypePublic = TypePrivate ∧ friends_of carol demo_said to = true) ∨
        (TypePublic = TypePublic ∧ is_Some (member_table demo_said !! (to, carol))))).
Proof.
  eexists. split; [run_it|].
  apply (stored_only_between_friends_and_members demo_no_media carol
           (demo_text team TypePublic "all" EmptyString) chat_world (Ok 201%N));
    [apply demo_chat_coherent|apply demo_chat_coherent|run_it].
Defined.

(** Three messages, two of them at the same instant. *)
Definition talk : DB :=
  with_message (list_to_map [(501%N, hello);
      (502%N, mk_Message (Some "bye") None (Some bob) (Some alice) None 950 None false);
      (503%N, mk_Message (Some "now") None (Some bob) (Some alice) None 950 None false)]) demo_said.

Lemma pages_tile_history_witness :
  scroll 3 alice bob 503%N 1 (demo_world talk) = (Ok (fromPrivate (take 2 (history alice bob talk))), demo_world talk).
Proof.
  eapply (pages_tile_history alice bob 1 (demo_world talk) 2
           (503%N, mk_Message (Some "now") None (Some bob) (Some alice) None 950 None false)); [done..|run_it|lia].
Defined.

#[export] Instance demo_time : TimeParse := {| parse_rfc3339 s := None |}.
#[export] Instance demo_blind : BanBlind.
Proof. by apply app_ban_blind. Defined.

Definition newest_page : HistoryQuery := mk_HistoryQuery EmptyString EmptyString 0.

Lemma private_page_hides_witness :
  ∃ m w', PrivateMessages alice bob newest_page chat_world = (Ok [m], w') ∧ im_Content (mc_Msg (mr_MsgInfo m)) = "hello" ∧
    ∃ row, message demo_said !! mr_ID m = Some row ∧
      shows (banned_view chat_world) (pm_FromID row) (pm_Content row) (bool_decide (is_Some (pm_DeletedAt row))) m.
Proof.
  eexists _, _. split; [run_it|]. split; [done|].
  edestruct (private_page_hides alice bob newest_page chat_world) as [_ H]; [run_it|].
  edestruct H as (row & Hr & _ & Hs); [by left|]. by exists row.
Defined.

(** Carol, who was in the group already, is shown the message; Bob is not. *)
Lemma group_page_hides_witness :
  (∃ w', GroupMessages bob team newest_page chat_world = (Ok [], w')) ∧
  ∃ m w', GroupMessages carol team newest_page chat_world = (Ok [m], w') ∧ im_Content (mc_Msg (mr_MsgInfo m)) = "early" ∧
    ∃ row, groupmessage demo_said !! mr_ID m = Some row ∧
      ∃ mt, member_table demo_said !! (team, carol) = Some mt ∧ m_JoinedAt mt <= gm_CreatedAt row.
Proof.
  split; [eexists; run_it|]. eexists _, _. split; [run_it|]. split; [done|].
  edestruct (group_page_hides carol team newest_page chat_world) as (_ & _ & H); [run_it|].
  edestruct H as (row & Hr & _ & Hmt & _); [by left|]. by exists row.
Defined.

(** ** Reactions *)

Definition thumb : string := "👍".

(** Bob reacted to the message with a thumb, Alice with a heart. *)
Definition reacted : DB :=
  with_message_reactions (list_to_map [((501%N, bob), mk_Reaction thumb 910); ((501%N, alice), mk_Reaction "❤" 920)]) demo_said.

Lemma reaction_counts_correct_witness :
  ∃ out, ReactionCounts TypePrivate bob [501%N] (demo_world reacted) = (Ok out, demo_world reacted) ∧
    default [] (out !! 501%N) = [mk_ReactionCount thumb 1 true; mk_ReactionCount "❤" 1 false] ∧
    NoDup (rc_Emoji <$> default [] (out !! 501%N)).
Proof.
  eexists. split; [run_it|]. split; [run_it|].
  eapply (reaction_counts_correct TypePrivate bob [501%N] (demo_world reacted)); [run_it|by left].
Defined.

Lemma reaction_rule_witness :
  (∃ w', React bob 501%N thumb chat_world = (Ok tt, w') ∧
     ∃ at_, reaction_put bob 501%N (Some (mk_Reaction thumb at_)) demo_said (w_db w')) ∧
  ∃ w', React dave 501%N thumb chat_world = (Err ErrMessageNotFound, w') ∧ chat_tables (w_db w') = chat_tables demo_said.
Proof.
  split.
  - eexists. split; [run_it|].
    apply (reaction_rule bob 501%N (Some thumb) chat_world (Ok tt)); [done|run_it].
  - eexists. split; [run_it|].
    apply (reaction_rule dave 501%N (Some thumb) chat_world (Err ErrMessageNotFound)); [done|run_it].
Defined.

(** ** Read markers *)

Lemma private_chat_name_witness :
  PrivateChatID alice bob = "01_1" ∧ PrivateChatID bob alice = "01_1" ∧ PrivateChatID alice bob ≠ PrivateChatID alice carol.
Proof.
  destruct (private_chat_name alice bob) as (Hsym & _ & Hinj). split; [run_it|]. split; [rewrite <- Hsym; run_it|].
  intros Heq%Hinj. by destruct Heq as [[_ ?]|[? _]].
Defined.

(** The receipt for the later message is handled first, and again later. *)
Lemma receipts_converge_witness :
  let j id := mk_JobSeen (PrivateChatID alice bob) id alice in
  marker_at (PrivateChatID alice bob) alice (w_db (handle_all [j 502%N; j 501%N; j 502%N] (demo_world talk)).2) = Some 950 ∧
  greatest [950; 900; 950] (marker_at (PrivateChatID alice bob) alice
                              (w_db (handle_all [j 502%N; j 501%N; j 502%N] (demo_world talk)).2)).
Proof.
  split; [run_it|].
  destruct (receipts_converge ((λ id, mk_JobSeen (PrivateChatID alice bob) id alice) <$> [502%N; 501%N; 502%N]) (demo_world talk))
    as [_ H]; [done| | |specialize (H (PrivateChatID alice bob) alice); vm_compute in H |- *; exact H].
  - by intros k id Hk.
  - intros j. simpl. rewrite !elem_of_cons. intros [->|[->|[->|[]%elem_of_nil]]]; split; by eexists.
Defined.

Lemma seen_rule_witness :
  ∃ w', MarkSeen bob alice (uuid_string 501%N) chat_world = (Ok tt, w') ∧
    w_log w' = [Queued TopicSeen (mk_JobSeen "01_1" 501%N bob); seen_told bob alice 501%N] ∧
    ∃ id m, uuid_parse (uuid_string 501%N) = Some id ∧ message demo_said !! id = Some m ∧ between bob alice m = true.
Proof.
  eexists. split; [run_it|]. split; [run_it|].
  edestruct (seen_rule bob alice (uuid_string 501%N) chat_world (Ok tt)) as (id & m & H1 & H2 & H3 & _); [|run_it|by exists id, m].
  by apply leaves_friends.
Defined.

Lemma group_marker_rule_witness :
  ∃ w', MarkGroupRead_s carol team (uuid_string 601%N) chat_world = (Ok tt, w') ∧
    marker_moved team carol 601%N demo_said (w_db w').
Proof.
  eexists. split; [run_it|].
  edestruct (group_marker_rule carol team (uuid_string 601%N) chat_world (Ok tt)) as [_ [H|(id & members & Hid & _ & _ & H)]];
    [|run_it| |].
  - by apply leaves_members.
  - by vm_compute in H.
  - vm_compute in Hid. by simplify_eq.
Defined.

(** ** Searches *)

(** LIKE, decided by trying every text a % or a _ may stand for. *)
Fixpoint like_fn (p s : list Z) : bool :=
  match p with
  | [] => bool_decide (s = [])
  | 37 :: p' => existsb (λ n, like_fn p' (drop n s)) (seq 0 (S (length s)))
  | 95 :: p' => existsb (λ n, (RuneCountInString (string_of (take n s)) =? 1) && like_fn p' (drop n s)) (seq 0 (S (length s)))
  | 92 :: p' => match p', s with c :: p'', b :: s' => (b =? c) && like_fn p'' s' | _, _ => false end
  | c :: p' => match s with b :: s' => (b =? c) && like_fn p' s' | [] => false end
  end.
Lemma like_ordinary c p s : c ∉ [37; 95; 92] →
  like_fn (c :: p) s = match s with b :: s' => (b =? c) && like_fn p s' | [] => false end.
Proof.
  rewrite !not_elem_of_cons. intros (H1 & H2 & H3 & _). simpl. by repeat case_match.
Qed.

(** A part of the text, named by its length. *)
Lemma some_prefix (P : list Z → list Z → bool) s : existsb (λ n, P (take n s) (drop n s)) (seq 0 (S (length s))) = true ↔
  ∃ a s', s = a ++ s' ∧ P a s' = true.
Proof.
  rewrite List.existsb_exists. split.
  - intros (n & _ & Hn). exists (take n s), (drop n s). by rewrite take_drop.
  - intros (a & s' & -> & HP). exists (length a). rewrite List.in_seq, length_app, take_app_length, drop_app_length. split; [lia|done].
Qed.

Lemma like_fn_any p s : like_fn (37 :: p) s = true ↔ ∃ a s', s = a ++ s' ∧ like_fn p s' = true.
Proof. exact (some_prefix (λ _ s', like_fn p s') s). Qed.
Lemma like_fn_one p s : like_fn (95 :: p) s = true ↔ ∃ a s', s = a ++ s' ∧ RuneCountInString (string_of a) = 1 ∧ like_fn p s' = true.
Proof.
  etransitivity; [exact (some_prefix (λ a s', (RuneCountInString (string_of a) =? 1) && like_fn p s') s)|].
  setoid_rewrite andb_true_iff. by setoid_rewrite Z.eqb_eq.
Qed.

Lemma like_fn_sound n p s : (length p ≤ n)%nat → like_fn p s = true → like_matches s p.
Proof.
  revert p s. induction n as [|n IH]; intros [|c p] s Hn; simpl in Hn; try lia; try by (intros ->%bool_decide_eq_true; constructor).
  destruct (decide (c ∈ [37; 95; 92])) as [Hc|Hc].
  - rewrite !elem_of_cons, elem_of_nil in Hc. destruct Hc as [->|[->|[->|[]]]].
    + rewrite like_fn_any. intros (a & s' & -> & H). constructor. apply IH; [lia|done].
    + rewrite like_fn_one. intros (a & s' & -> & H1 & H). constructor; [done|]. apply IH; [lia|done].
    + destruct p as [|c p], s as [|b s]; try done. intros [->%Z.eqb_eq H]%andb_true_iff. constructor. simpl in Hn. apply IH; [lia|done].
  - rewrite like_ordinary by done. destruct s as [|b s]; [done|]. intros [->%Z.eqb_eq H]%andb_true_iff. constructor; [done|].
    apply IH; [lia|done].
Qed.

Lemma like_fn_complete s p : like_matches s p → like_fn p s = true.
Proof.
  induction 1 as [|a s p _ IH|a s p H1 _ IH|c s p _ IH|c s p Hc _ IH]; [done| | | |].
  - rewrite like_fn_any. eauto.
  - rewrite like_fn_one. eauto.
  - simpl. by rewrite Z.eqb_refl.
  - rewrite like_ordinary by done. by rewrite Z.eqb_refl.
Qed.

#[local] Instance demo_lower : GoLower := {| ToLower s := s |}.
#[local] Instance demo_text_order : PgText := {| ilike a b := bool_decide (a = b); pg_lower s := s; pg_le a b := negb (string_gt a b) |}.
#[local] Instance demo_search : PgSearch :=
  {| like s p := like_fn (bytes_of p) (bytes_of s); similar a b := bool_decide (a = b); similarity a b := 0%N |}.
#[local] Instance demo_search_laws : PgSearchLaws demo_search.
Proof. split. intros s p. split; [by apply (like_fn_sound (length (bytes_of p)))|apply like_fn_complete]. Qed.

(** Carol searches all her chats: the group's message, not the private one of Alice and Bob. *)
Definition demo_query (text : string) : Query := mk_Query text EmptyString uuid_nil zero_time uuid_nil zero_time 0.

Lemma search_finds_what_may_be_read_witness :
  (∃ w', Search carol (demo_query "hello") chat_world = (Ok [], w')) ∧
  ∃ h w', Search carol (demo_query "arl") chat_world = (Ok [h], w') ∧ hit_Content h = "early" ∧
    findable carol (demo_query "arl") 1000 demo_said h.
Proof.
  split; [eexists; run_it|]. eexists _, _. split; [run_it|]. split; [done|].
  edestruct (search_finds_what_may_be_read carol (demo_query "arl") chat_world) as (_ & lim & _ & _ & _ & _ & H & _); [run_it|].
  apply H. by left.
Defined.

(** Alice, Bob and Dave want to be seen, from the places given; Bob is a friend of Alice. *)
Definition seen (country : string) (place : option string) (name : string) : User :=
  mk_User 0 0 (name +:+ "@example.com") None name (Some 0) EmptyString None None place country true false None None
    None None EmptyString false.
Definition meeting (alice_at : option string) : DB :=
  with_users (list_to_map [(alice, seen "SG" alice_at "alice"); (bob, seen "SG" (Some "sg-a") "bob");
                           (dave, seen "SG" (Some "sg-a") "dave")]) demo_said.

Lemma suggestions_are_wanted_witness :
  ∃ s w', Suggestions alice 20 0 (demo_world (meeting (Some "sg-a"))) = (Ok [s], w') ∧ sg_ID s = dave ∧
    ∃ m u, users (meeting (Some "sg-a")) !! sg_ID s = Some u ∧ may_suggest alice m (meeting (Some "sg-a")) s u.
Proof.
  eexists _, _. split; [run_it|]. split; [done|].
  edestruct (suggestions_are_wanted alice 20 0 (demo_world (meeting (Some "sg-a")))) as (_ & m & _ & _ & _ & _ & H); [lia|lia|run_it|].
  exists m. apply H. by left.
Defined.

(** Without a place of her own Alice is suggested nobody: the request fails. *)
Example suggestions_fail_without_place :
  (Suggestions alice 20 0 (demo_world (meeting None))).1 = Err ErrScanNull.
Proof. run_it. Qed.
