(* ===== verification/Demo_Live.v ===== *)
(** * Demo_Presence: the hub, its clients and presence at concrete states *)

From stdpp Require Import gmap.
From S2P Require Import Prelude GoLib Threads Types Ws_Hub Versioned Friends_Model Chat_Dedupe Db Revoke World Sql_Groups Sql_Friends.
From S2P Require Import Sql_Users Friends_Service Friends_Props Presence Presence_Props Chat_Service Ws_Client Demo Demo_Chat Users_Model Sql_Accounts Sql_Media Sql_Push.
From S2P Require Import Sql_Admin Groups_Model Moves Groups_Refine Groups_Props Groups_Service Chat_Model Media Media_Rules Chat_Access Wiring.
From S2P Require Import Push Push_Props Sessions Auth_Deletion Auth_Rules Reports Admin Admin_Props Queue.
From S2P Require Groups_Service_Props.

#[local] Open Scope Z_scope.

#[export] Instance demo_json : EventJson := { marshal_Event ev := Ok (ev_name ev) }.

Definition seen_event : Event := mk_Event EventSeen (PSeen (mk_OutGoingEventForSeen "1" "2")).

(** alice has connected. *)
Definition hub1 : Hub := (register 0 (NewClient alice 501%N NewHub).2).2.

Lemma hub_never_panics_witness : ∃ ts, hub_reach hub1 ts ∧ length (devices alice hub1) = 1%nat ∧ hb_panic hub1 = false.
Proof.
  assert (hub_reach hub1 [(advance 2 (Serve alice 501%N) NewHub).1]) as Hr.
  { eapply rtc_l; [apply s_arrive, (g_serve alice 501%N)|]. exact (rtc_advance _ _ _ 2 (Serve alice 501%N) NewHub [] []). }
  eexists. split; [exact Hr|]. split; [done|]. exact (proj1 (hub_never_panics _ _ Hr)).
Defined.

Lemma event_reaches_devices_witness : ∃ F, hub_ok F hub1 ∧
  cl_Send <$> hb_heap (run (Ws_Hub.WriteToUsers [alice] seen_event) hub1).2 !! 0%nat = Some ["Seen"].
Proof.
  destruct (NewClient_ok ∅ NewHub alice 501%N hub_new_ok) as (_ & H1 & _).
  destruct (register_ok ∅ _ 0%nat ltac:(set_solver) H1) as [H2 _].
  exists ∅. split; [exact H2|].
  destruct (event_reaches_devices (json := demo_json) ∅ hub1 [alice] seen_event "Seen" H2 (NoDup_singleton alice) eq_refl) as [_ H].
  assert (0%nat ∈ devices alice hub1) as Hin by by apply list_elem_of_singleton.
  destruct (H alice 0%nat (mk_Client alice 501%N [] false) Hin eq_refl) as [H3 _].
  destruct H3 as [_ H3]; [by apply list_elem_of_singleton|unfold has_room, sendBuffer; simpl; lia|]. by rewrite H3.
Defined.

Lemma presence_is_mutual_witness : coherent (demo_world demo_db) ∧
  ∀ mine l w', Presence.Friends (λ _, true) alice (demo_world demo_db) = (Ok (mine, l), w') → mine = false.
Proof.
  split; [apply friends_demo_coherent|]. intros mine l w' H.
  destruct (presence_is_mutual (λ _, true) alice (demo_world demo_db) friends_demo_coherent) as [_ Hf].
  exact (proj1 (Hf mine l w' H)).
Defined.

Definition alice_on : PresWorld := hub_op (register_all 0) (with_hub (NewClient alice 501%N NewHub).2 at_first).

Lemma presence_settles_witness : rtc calm_step at_first alice_on ∧ said alice alice_on = true.
Proof.
  assert (rtc calm_step at_first alice_on) as Hr.
  { eapply rtc_l; [apply (calm_new at_first alice 501%N)|]. apply rtc_once. apply (calm_register _ 0%nat); [by eexists|].
    intros u. apply not_elem_of_nil. }
  split; [exact Hr|]. pose proof (presence_settles _ _ Hr alice) as H.
  assert (sv_pending (ps_svc alice_on) !! alice = None) as E by by vm_compute. rewrite E in H. rewrite H. done.
Defined.

#[export] Instance demo_client_json : ClientJson := {
  unmarshal_typing s := Some (s, "public");
  unmarshal_seen s := Some (s, "7");
}.
#[export] Instance demo_no_calls : CallHandler := { HandleCall := None }.

(** bob types in the team's chat. *)
Lemma client_events_policed_witness :
  w_log (handleEvent (mk_Conn bob 501%N) ∅ EventTyping (uuid_string team) chat_world).2 ≠ w_log chat_world ∧
  w_db (handleEvent (mk_Conn bob 501%N) ∅ EventTyping (uuid_string team) chat_world).2 = w_db chat_world.
Proof.
  split; [by vm_compute|]. destruct demo_chat_coherent as [Hf Hg].
  destruct (handleEvent (mk_Conn bob 501%N) ∅ EventTyping (uuid_string team) chat_world) as [r w'] eqn:H.
  exact (proj1 (client_events_policed (mk_Conn bob 501%N) ∅ EventTyping (uuid_string team) chat_world r w' Hf Hg eq_refl H)).
Defined.

(** * Uploads, notifications, bans, reports and jobs at concrete states *)

#[local] Instance media_lower : GoLower := {| ToLower s := s |}.
#[local] Instance media_images : ImageLib := {|
  Img := unit;
  DecodeConfig _ := None;
  DecodeImage _ := None;
  Bounds _ := (0, 0, 0, 0);
  ScaleOnWhite _ _ _ _ := tt;
  JpegEncode _ _ := Err ErrBadThumbnail;
|}.
#[local] Instance media_config : MediaConfig := app_media_config true (λ k _ _ _ _, Ok k) (λ k _ _ _ _, Ok k).

(** ** Uploads *)

Definition photo : NewUploadRequest := mk_NewUploadRequest "image" "image/png" 3 EmptyString None (mk_Dims 0 2 2).
Definition asked : result Upload * World := NewUpload alice photo (demo_world demo_db).
(** The photo is uploaded, and sent to bob. *)
Definition uploaded : World := phone_put 201%N "image/png" 3 [1; 2; 3] asked.2.
Definition sent : result (list Attachment) * World := Attach alice [201%N] "private" bob 301%N uploaded.

Lemma media_members_kept g : moves media_kept (mc_Members g).
Proof.
  intros w id m Hm. exists m. split; [|reflexivity]. rewrite <- Hm. f_equal.
  by apply (leaves_members (λ w, media (w_db w)) g).
Qed.

Lemma media_members_read g w : w_db (mc_Members g w).2 = w_db w.
Proof. by apply (leaves_members w_db g). Qed.

Lemma uploads_limited_witness : up_ID <$> (match asked.1 with Ok u => Some u | Err _ => None end) = Some 201%N ∧
  stored_bytes (w_db asked.2) <= uploadCapBytes.
Proof.
  split; [by vm_compute|].
  pose proof (uploads_limited alice photo (demo_world demo_db) asked.1 asked.2 ltac:(by vm_compute) (surjective_pairing asked)) as H.
  assert (asked.1 = Ok (mk_Upload 201%N (key 201%N) "PUT" [("Content-Type", "image/png"); ("If-None-Match", "*")] 600)) as E by by vm_compute.
  rewrite E in H. destruct H as (m & _ & _ & _ & _ & _ & _ & _ & _ & _ & _ & Hs). exact Hs.
Defined.

Lemma uploads_attached_once_witness : (∃ out, sent.1 = Ok out) ∧ sendable alice uploaded 201%N ∧
  ∃ e, (Attach alice [201%N] "private" carol 302%N sent.2).1 = Err e.
Proof.
  assert (∃ out, sent = (Ok out, sent.2)) as [out Hout] by (eexists; vm_compute; reflexivity).
  split; [exists out; by rewrite Hout|].
  destruct (uploads_attached_once media_members_kept alice [201%N] "private" bob 301%N uploaded out sent.2 Hout) as (_ & _ & Hall & _ & _ & Hagain).
  split; [apply Hall; by left|]. apply (Hagain sent.2 (rtc_refl _ _) alice [201%N] "private" carol 302%N 201%N); by left.
Defined.

Lemma media_access_witness : ¬ may_see carol 201%N (w_db sent.2) ∧
  not_told (Download_ carol 201%N sent.2).1 sent.2 (Download_ carol 201%N sent.2).2.
Proof.
  assert (¬ may_see carol 201%N (w_db sent.2)) as Hno.
  { intros (m & Hm & _ & H). vm_compute in Hm. injection Hm as <-. destruct H as [[_ [H|H]]|[H _]]; by vm_compute in H. }
  split; [exact Hno|].
  destruct (media_access media_members_read carol 201%N sent.2 Hno) as [H _]. apply H. exact (surjective_pairing (Download_ carol 201%N sent.2)).
Defined.

Lemma cleanup_removes_what_is_due_witness : sizes_ok (media (w_db uploaded)) ∧
  w_store (Cleanup uploaded).2 !! key 201%N = w_store uploaded !! key 201%N ∧ is_Some (w_store uploaded !! key 201%N).
Proof.
  assert (∃ m, media (w_db uploaded) !! 201%N = Some m) as [m Hm] by (eexists; vm_compute; reflexivity).
  assert (sizes_ok (media (w_db uploaded))) as Hs.
  { intros k v Hk. assert (media (w_db uploaded) = {[ 201%N := m ]}) as E.
    { vm_compute in Hm. injection Hm as <-. by vm_compute. }
    rewrite E in Hk. apply lookup_singleton_Some in Hk as [<- <-]. vm_compute in Hm. injection Hm as <-. by vm_compute. }
  split; [exact Hs|]. split; [|by vm_compute; eexists].
  destruct (cleanup_removes_what_is_due 201%N m uploaded (Cleanup uploaded).1 (Cleanup uploaded).2 Hs Hm (surjective_pairing (Cleanup uploaded))) as (_ & H & _).
  vm_compute in Hm. injection Hm as <-.
  destruct H as (_ & H & _); [by vm_compute|by vm_compute|exact H].
Defined.

(** ** Notifications *)

#[local] Instance media_sender : PushSender := {|
  send_on := true;
  send_reply _ m := if decide (pn_Token m = "old") then Some ErrDeadToken else None;
|}.
#[local] Instance media_online : HubOnline := {| hub_Online u := mret (bool_decide (u = carol)) |}.

(** bob has two phones, one of them gone; alice's message is for bob and carol. *)
Definition with_phones : DB := with_user_devices
  (list_to_map [("old", mk_UserDevice bob "android" 0 0); ("new", mk_UserDevice bob "ios" 0 0); ("hers", mk_UserDevice carol "ios" 0 0)]) demo_db.
Definition hello : Job := mk_Job KindGroup [alice; bob; carol] alice team 0%N "hello" 0%N.
Definition notified : result unit * World := Handle hello (demo_world with_phones).

Lemma told_who_should_be_witness : length (w_log notified.2) = 2%nat ∧
  user_devices (w_db notified.2) !! "old" = None ∧
  ∃ tokens dead msg, handled (λ u, bool_decide (u = carol)) hello (demo_world with_phones) notified.1 notified.2 tokens dead msg.
Proof.
  assert (Handle hello (demo_world with_phones) = (notified.1, notified.2)) as H by exact (surjective_pairing notified).
  split; [by vm_compute|]. split; [by vm_compute|].
  exact (told_who_should_be (λ u, bool_decide (u = carol)) (λ u w, eq_refl) app_names_read app_group_names_read hello _ _ _ H).
Defined.

(** ** Bans *)

#[local] Instance media_auth : AuthConfig := {|
  cfg_JWTSecret := "secret"; cfg_AccessTokenTTL := 0; cfg_RefreshTokenTTL := 0; cfg_GoogleClientIDs := [] |}.
#[local] Instance media_pg : PgText := {| ilike a b := bool_decide (a = b); pg_lower s := s; pg_le a b := negb (string_gt a b) |}.
#[local] Instance media_fmt : TimeFormat := {| RFC3339 t := "soon" |}.

(** dave bans alice, who leads the team; bob, its moderator, leads it then. *)
Definition banned : result unit * World := Ban dave alice "spam" None (demo_world demo_db).

Lemma ban_takes_effect_witness : groups_ok (w_db (demo_world demo_db)) ∧ banned.1 = Ok tt ∧ groups_ok (w_db banned.2) ∧
  m_Role <$> member_table (w_db banned.2) !! (team, bob) = Some RoleAdmin.
Proof.
  assert (banned.1 = Ok tt) as Hb by by vm_compute.
  split; [exact demo_groups_ok|]. split; [exact Hb|]. split; [|by vm_compute].
  assert (banned = (Ok tt, banned.2)) as H by (rewrite <- Hb; apply surjective_pairing).
  by destruct (ban_takes_effect dave alice "spam" None (demo_world demo_db) tt banned.2 demo_groups_ok H) as (_ & _ & _ & Hok & _).
Defined.

(** [leaveGroups] reads the role before its transaction, which does not lock the group.
    When the team's leader hands over to bob in between, bob is taken out as the member he
    was, and nobody leads the team. *)
Definition bob_read : GroupMembershipsOfRow := mk_GroupMembershipsOfRow team RoleModerator 3.
Definition handed_over : World := (Groups_Repo.Leave team alice bob (demo_world demo_db)).2.

Lemma ban_leaves_group_leaderless :
  (GroupMembershipsOf bob demo_db).1 = Ok [bob_read] ∧
  m_Role <$> member_table (w_db handed_over) !! (team, bob) = Some RoleAdmin ∧
  (leave_group bob bob_read handed_over).1 = Ok tt ∧
  members_of (w_db (leave_group bob bob_read handed_over).2) team = {[ carol := mk_MemberTable 20 RoleMember [] ]}.
Proof. split_and!; by vm_compute. Qed.

(** [LiftExpired] reads who is to be released, and releases without looking again: whoever
    is banned for good in between is free. *)
Definition ended : World := with_db (with_users (<[bob := set_ban (Some 1) (Some 2) (Some "spam") 1 (demo_user "bob")]> (users demo_db)) demo_db) (demo_world demo_db).
Definition again : World := (Ban dave bob "threats" None ended).2.

Lemma expired_ban_lifts_new_one :
  (ExpiredBans (pgTime (w_now ended)) (w_db ended)).1 = Ok [bob] ∧
  (u_banned_at <$> users (w_db again) !! bob, u_banned_until <$> users (w_db again) !! bob) = (Some (Some 1000), Some None) ∧
  u_banned_at <$> users (w_db (lift bob again).2) !! bob = Some None.
Proof. split_and!; by vm_compute. Qed.

(** ** Reports *)

(** bob wrote to alice. *)
Definition with_message : DB :=
  with_message {[ 301%N := mk_Message (Some "you again") None (Some bob) (Some alice) None 500 None false ]} demo_db.
Definition complaint : Reports.Request := Reports.mk_Request bob "harassment" " he writes to me " [301%N; 301%N].
Definition reported : result uuid * World := Reports.Report_ alice complaint (demo_world with_message).

Lemma report_says_what_was_seen_witness : one_open with_message ∧ ids_apart with_message ∧
  is_Some (report_messages (w_db reported.2) !! (201%N, 301%N)).
Proof.
  assert (one_open with_message) as H1 by (intros k1 k2 r1 r2 H; exfalso; exact (lookup_empty_Some k1 r1 H)).
  assert (ids_apart with_message) as H2 by (intros id; right; apply lookup_empty).
  split; [exact H1|]. split; [exact H2|].
  destruct (report_says_what_was_seen alice complaint (demo_world with_message) reported.1 reported.2 H1 H2 (surjective_pairing reported)) as [_ H].
  assert (reported.1 = Ok 201%N) as E by by vm_compute. rewrite E in H.
  destruct H as (_ & _ & _ & H & _). apply (H 301%N). by left.
Defined.

(** ** Jobs *)

Definition job_published : Redis.state := Redis.Publish "t" "{}" Redis.empty_state.

Lemma jobs_not_lost_witness : ∃ q, rtc (Redis.step twin_options) Redis.empty_state q ∧ Kept.somewhere q 0 "t" "{}".
Proof.
  exists job_published. assert (rtc (Redis.step twin_options) Redis.empty_state job_published) as Hr.
  { apply rtc_once, Redis.step_publish. split; [|by vm_compute]. intros t. unfold Redis.stream_length.
    assert (length (select (λ (k : string * N) (_ : Redis.entry), bool_decide (k.1 = t)) (Redis.q_streams job_published)) ≤ 1)%nat as Hle.
    { unfold select. etrans; [apply List.filter_length_le|]. by vm_compute. }
    change (Redis.StreamMaxLen twin_options) with 100000. unfold job_published in Hle. lia. }
  split; [exact Hr|].
  destruct (jobs_not_lost (Redis.mk_options 0 0 0) job_published Hr) as (_ & H & _). apply H; [done|].
  intros [|[|j]] Hj; by vm_compute in Hj.
Defined.

Lemma retries_bounded_witness : ∃ t, rtc (Memory.step 3) Memory.empty_topic t ∧ Bounded.runs_of "{}" (Memory.tp_runs t) <= 3.
Proof.
  destruct (Memory.Publish "{}" Memory.empty_topic) as [t1|] eqn:H1; [|by vm_compute in H1].
  destruct (Memory.handle 3 Failed t1) as [t2|] eqn:H2; [|vm_compute in H1; injection H1 as <-; by vm_compute in H2].
  assert (rtc (Memory.step 3) Memory.empty_topic t2) as Hr.
  { eapply rtc_l; [exact (Memory.step_publish 3 "{}" _ _ H1)|]. apply rtc_once. exact (Memory.step_handle 3 Failed _ _ H2). }
  exists t2. split; [exact Hr|]. destruct (retries_bounded 3 t2 "{}" ltac:(lia) Hr) as [H _].
  assert (Bounded.count_of "{}" (Memory.tp_published t2) = 1) as E.
  { vm_compute in H1. injection H1 as <-. vm_compute in H2. injection H2 as <-. by vm_compute. }
  rewrite E in H. exact H.
Defined.

(** * Requests to the whole server *)

From S2P Require Import Ws_Ticket Sql_Chat Sql_Search Search Secure Auth_Session Auth_Accounts Http Handlers App.
From S2P Require Demo_Auth.

Section requests.

#[local] Existing Instances Demo_Auth.demo_argon Demo_Auth.demo_mail Demo_Auth.demo_jwt Demo_Auth.demo_google Http.demo_net Demo_Chat.demo_search.
#[local] Instance live_order : LowerCollation := {| name_lower_le a b := negb (string_gt a b) |}.
#[local] Instance live_turn : CallLog.TurnClient := {| CallLog.turn_on := false; CallLog.turn_answer := Err ErrNoRows |}.
#[local] Instance unreadable T : JsonDecode T := {| decode_json _ := None |}.
#[local] Instance live_bodies : Decoders.
Proof. split; apply _. Qed.

(** One proxy, and every setting not needed here empty. *)
Definition live_conf : Config :=
  mk_Config ":8080" "prod" "postgres" 10 0 false EmptyString EmptyString EmptyString EmptyString 0 0 0 "memory" "memory" 180 "secret"
    hour hour EmptyString EmptyString [] EmptyString EmptyString EmptyString EmptyString EmptyString EmptyString EmptyString EmptyString
    EmptyString EmptyString EmptyString EmptyString EmptyString EmptyString [] 1 0 "info" "json".
Definition live_server : Server := mk_Server (demo_world demo_db) ∅ (mk_Tickets [] ∅).

Definition alice_session : string :=
  match (MakeJWT alice "secret" hour (demo_world demo_db)).1 with Ok tok => tok | Err _ => EmptyString end.
Definition get_me (authorization : string) : HttpRequest :=
  mk_HttpRequest "GET" "10.0.0.9:1" [] (λ h, if decide (h = "Authorization") then authorization else EmptyString) (λ _, EmptyString)
    (λ _, EmptyString) [] false EmptyString None uuid_nil.
Definition me_route : Route := user_route "GET" "/users/me" [] Users.Me.

Definition got (authorization : string) : Response * Server := serve live_conf me_route (get_me authorization) live_server.

Definition live_router : list Route := Router live_conf true false (λ k _ _ _ _, Ok k) (λ k _ _ _ _, Ok k) (λ _, false) (λ _, false).

Lemma me_route_listed : me_route ∈ live_router.
Proof.
  unfold live_router, Router. apply elem_of_app. right. apply elem_of_app. right. apply elem_of_app. left. by left.
Qed.

(** With her token alice gets through; her row is the answer. *)
Lemma routes_are_guarded_witness : rs_Code (got ("Bearer " +:+ alice_session)%string).1 = 200 ∧
  ∃ r' s', handled me_route r' live_server (got ("Bearer " +:+ alice_session)%string).1 s'.
Proof.
  assert (rs_Code (got ("Bearer " +:+ alice_session)%string).1 = 200) as Hc by by vm_compute. split; [exact Hc|].
  destruct (routes_are_guarded live_conf true false (λ k _ _ _ _, Ok k) (λ k _ _ _ _, Ok k) (λ _, false) (λ _, false) me_route
              (get_me ("Bearer " +:+ alice_session)%string) live_server _ _ me_route_listed (surjective_pairing _))
    as [H|[(_ & [(code & msg & H & Hcode & _)|(_ & H & _)])|(m & mws & r' & _ & _ & _ & H)]].
  - exfalso. apply public_shape in H. apply Forall_cons_1 in H as [[p Hp] _]. discriminate.
  - exfalso. fold (got ("Bearer " +:+ alice_session)%string) in Hcode. rewrite Hc in Hcode. subst code. unfold refusals in H.
    repeat (apply elem_of_cons in H as [H|H]; [discriminate|]). by apply elem_of_nil in H.
  - exfalso. fold (got ("Bearer " +:+ alice_session)%string) in H. rewrite Hc in H. discriminate.
  - by eexists _, _.
Defined.


Lemma answers_tell_no_internals_witness : rs_Body (got "nonsense").1 = ErrorBody "unauthorized" ∧ discreet (got "nonsense").1.
Proof.
  split; [by vm_compute|].
  exact (answers_tell_no_internals live_conf true false (λ k _ _ _ _, Ok k) (λ k _ _ _ _, Ok k) (λ _, false) (λ _, false) me_route
           (get_me "nonsense") live_server _ _ me_route_listed (surjective_pairing _)).
Defined.
End requests.
